(* ===== verification/_CoqProject ===== *)
-Q . S2P
Prelude.v
GoHeap.v
GoSort.v
Float64.v
GoStrings.v
GoJSON.v
Hashing.v
Fingerprint.v
Validate.v
Domain.v
GoTime.v
GoNumbers.v
Config.v
Queue.v
Scheduler.v
Repo.v
Schema.v
Persister.v
RepoPersister.v
Service.v
Engine.v
ServiceRace.v
Paths.v
Http.v
BlobStore.v
BuildkitClient.v
Worker.v
WorkerLoop.v
Tar.v
LogBroker.v
Api.v
Startup.v
Cli.v
Cluster.v
EndToEnd.v
