(* ===== verification/Prelude.v ===== *)
(** * dtbuildkit: a verification library for the Go build engine

    dtbuildkit distributes image builds.  A server takes submissions, keeps builds in a
    PostgreSQL database and a priority queue in memory, and hands them to workers that
    poll for work; a worker downloads a build's context, runs buildctl and reports the
    result; a client submits folders and asks for builds.  This library models the Go code
    (everything under src/server/internal and the three programs of src/server/cmd) and
    proves what makes it correct.  It is a shallow embedding: pure functions are
    Rocq functions, stateful code passes its state, Go errors are values of
    [Domain.result], a panic is [None], and a call's environment (the clock, the fault
    of a database, disk or network call) is an argument of the call.

    ** The parts and their files

    What the code uses of Go and its standard library:
    - [Prelude]: options, lists, maps, boolean conditions; the tactic [bool_split] and
      the hint database [dt].
    - [GoHeap]: container/heap on a list; [GoSort]: sort.Sort and ORDER BY through the
      contract [Sorter], with merge sort as an instance.
    - [Float64]: IEEE binary64; [Hashing]: FNV-1a, SHA-256, decimal printing.
    - [GoStrings]: byte strings, slices that panic, UTF-8, trimming, splitting, case;
      [GoJSON]: encoding/json of string lists and string maps; [GoTime]: the calendar,
      RFC3339 texts and their order; [GoNumbers]: strconv's parsers, Duration.String and
      time.ParseDuration.
    - [Paths]: filepath.Clean, Join and Dir, and a file system without symbolic links.
    - [Http]: status codes, answers, and the JSON values that answers encode.

    The engine, bottom up:
    - [Domain]: internal/domain, the records Build and Worker, statuses, errors.
    - [Fingerprint] and [Validate]: internal/fingerprint and internal/validate, the
      Dockerfile parsers with their panicking slices.
    - [Queue]: internal/queue over GoHeap; each method is one critical section.
    - [Scheduler]: internal/scheduler, the consistent-hash ring and the cache scores.
    - [Repo]: internal/repo, every method as the SQL it sends on tables as maps;
      [Schema]: Open and migrate, the DDL they send on relations with columns and rows.
    - [Persister]: the interface buildPersister of service.go as a class with its laws;
      [RepoPersister]: the repository implements it.
    - [Service]: BuildService of internal/service, proved against the interface;
      [ServiceRace]: its calls as threads that interleave at every call of store and
      queue; [Engine]: WorkerService, Maintenance and the composition of all.
    - [BlobStore]: internal/oss, the local store on the file system, the S3 store over
      a client that is a parameter, and the handler serveBlob.
    - [BuildkitClient]: internal/buildkit, the buildctl command line and the reader of
      its progress stream.
    - [Worker]: internal/worker, an attempt at a build on a disk with faults, the
      extraction of contexts, retries, cache keys; [WorkerLoop]: the loop of Run with the
      goroutines of the attempts as a step relation, and the cancellation watcher.
    - [LogBroker]: internal/api/logbroker.go, the broker's methods and the interleavings
      of publishers and streams; [Api]: the handlers of server.go, internal.go and
      metrics.go over engine, broker and blob store, and the table of routes.
    - [Config]: internal/config, the defaults and the environment.

    The programs and the system:
    - [Startup]: cmd/dtbuild-server and cmd/dtbuild-worker, the flags, NewServer with its
      error paths, the exit codes.
    - [Cli]: cmd/dtbuild, every command as what it prints, sends and exits with; [Tar]:
      its tarGz, filepath.Walk over a tree of files, against the worker's extraction.
    - [Cluster]: the server and any number of workers, whose polls, attempts, reports,
      crashes and lost answers interleave with every other request.
    - [EndToEnd]: the requests of client and workers against the routes, and the way of a
      context from the submitted folder to the worker's disk.

    ** What the theorems show

    - Builds are handed out once: [Service.AssignBuild_drains] (as many polls as pending
      builds hand out exactly these), [ServiceRace.race_exclusive] (no build goes to two
      workers under any interleaving), [Repo.repo_claims_exclusive] and
      [Repo.repo_lifecycle] (claims and life cycle under any sequence of calls, the
      unguarded write of other statuses included);
      [Cluster.cluster_safe] and [Cluster.accepted_report_is_final] say it of server and
      workers together: no two workers have the same build, and an accepted report
      settles it.
    - The state stays consistent: [Engine.engine_invariant], [Service.service_invariant],
      [Repo.repo_invariant], [Scheduler.scheduler_invariant]; every service method on
      every branch ([Service.SubmitBuild_correct] and its neighbours).
    - Optimised code does what it is for: [Queue.queue_refines_bag] (the heap is a bounded
      bag), [Scheduler.AssignBuild_clockwise] (binary search and walk are the first idle
      node clockwise), minimal movement when workers come and go, the Jaccard score.
    - Data survive: [EndToEnd.submitted_context_arrives] (what a worker extracts is the
      submitted folder), [Tar.tarGz_succeeds_iff] (and when the archive is
      complete), [Schema.migrate_outcome] (an upgrade keeps columns and values), [Repo.create_get_roundtrip], [Repo.ListPending_exact],
      [Repo.ReassignStale_exact], [Repo.GC_utc_exact], [BlobStore.local_put_get].
    - Nothing escapes: [Worker.extractTarGz_confined], [BlobStore.serveBlob_confined],
      [Worker.attempt_reports_once] (one report, and the disk is left as it was),
      [WorkerLoop.one_attempt_at_a_time].
    - The interfaces answer truly: [Api.submitBuild_answers], [Api.listBuilds_page],
      [BuildkitClient.Build_cache_rate], [LogBroker.broker_streams],
      [Fingerprint.fingerprint_significant_lines], [Validate.Single_accepts],
      [EndToEnd.client_requests_routed].
    - The programs do what their command lines say: [Cli.command_line_parsed],
      [Cli.cmdSubmit_exit], [Startup.server_main_exit], [Config.configuration_loaded].
    Each file ends with concrete runs: witnesses of the theorems' hypotheses, and lemmas
    that exhibit the defects modelling has shown (they are listed in the manifest).

    ** Conditions on the calls

    Two families of states appear.  Without conditions, but for clocks between 1970 and
    9999: [Repo.repo_reachable] (calls as [Repo.call_ok] has them, any status text),
    [Engine.engine_any] (any calls of the services in any order, each one atomic); there
    the database's invariant, the heap, the ring and the safety of assignments hold.  With
    the discipline that the workers of this repository keep and the handlers do not
    enforce: [Repo.service_reachable] (only the empty status, building and terminal ones),
    [Service.svc_reachable], [Engine.engine_reachable] and [Api.api_reachable] (a
    completion carries a terminal status for a build that is not pending, the queue is
    warmed while it is empty); there the queue holds pending builds only.  That the
    workers keep to it is shown by [Cluster.cluster_safe], for runs in which no id is
    submitted twice while a worker has it and heartbeats are recent.  What happens
    outside is shown by [Repo.UpdateStatus_resurrects], [ServiceRace.stale_queue_entry]
    and [Cluster.late_completion_breaks_poll].

    ** Bounds and fuel

    Loops over strings run with fuel [strlen s]: every round consumes a byte.  The heap's
    sifting loops run with the length of the heap.  ParseDuration
    reads a text segment by segment with the text's length for fuel, which
    [segments_fuel] shows to be enough.  [AssignBuild_drains] runs as many
    rounds as there are pending builds, [run_alone] of ServiceRace as many steps as the
    pending list has entries and a constant.  Clocks are between 1970 and 9999 where the
    order of the stored texts matters ([modern]).  Ints are Z; where the code can leave
    64 bits (Duration arithmetic, offset+limit, hashes, the metrics counter) the
    wrap-around is written out.

    ** What is not modelled

    The network, and gzip, tar and JSON as bytes: handlers and loops take decoded values,
    and the archive format is a pair of functions of which the second is assumed to
    invert the first.  The HTTP router is a class of promises ([Api.Mux]) with an
    instance, and its middleware is left out.  The Unicode case and print tables, the
    MinIO client, the multipart boundary and the sorting algorithm are parameters under
    their contracts.  What PostgreSQL does is the reading of each SQL text in Repo and
    Schema, with every statement atomic; the connection pool's limits are recorded and
    not enforced.  The attempt of a worker is one step of the cluster, whose own steps
    are in Worker: the cancellation watcher decides when a build is cancelled, and the
    build meets it as the exit of buildctl.  The maintenance loop's ticks are requests
    like any other, so that their period is not modelled.  A process that hangs is seen
    where the code makes it hang, in the wait for a buildctl whose output nobody reads;
    its context ends because the worker gives it a deadline.  Files are regular files
    and directories without links; MkdirAll and Create are refused before they change
    anything, while a removal may leave any nodes behind.  The Python gateway, the user
    interface and the deployment files are not Go and left out.  What remains of the Go
    code is imports, type declarations without fields of interest, log lines and the
    listener.  The next steps are the progress of the cluster under fair schedules and the
    watcher as a thread beside the attempt. *)

From stdpp Require Export base tactics option list list_numbers sorting gmap strings.
From Stdlib Require Export ZArith Lia.

#[global] Set Default Goal Selector "!".
#[global] Open Scope Z_scope.
#[global] Open Scope nat_scope.

(** ** Fallible Go code

    A Go expression that can panic (a slice or an index out of range) is an
    [option]: [None] is the panic, which aborts the caller, and the sequencing
    of such expressions is stdpp's [x ← e; k] at the option monad. *)

(** ** Automation *)

Create HintDb dt discriminated.

(** Splits a boolean condition of the source into the facts it decides. *)
Ltac bool_split :=
  repeat match goal with
  | H : _ && _ = true |- _ => apply andb_true_iff in H as [? ?]
  | H : _ || _ = false |- _ => apply orb_false_iff in H as [? ?]
  | H : negb _ = true |- _ => apply negb_true_iff in H
  | H : negb _ = false |- _ => apply negb_false_iff in H
  | H : (_ =? _)%nat = true |- _ => apply Nat.eqb_eq in H
  | H : (_ =? _)%nat = false |- _ => apply Nat.eqb_neq in H
  | H : (_ <? _)%nat = true |- _ => apply Nat.ltb_lt in H
  | H : (_ <? _)%nat = false |- _ => apply Nat.ltb_ge in H
  | H : (_ <=? _)%nat = true |- _ => apply Nat.leb_le in H
  | H : (_ <=? _)%nat = false |- _ => apply Nat.leb_gt in H
  | H : (_ =? _)%Z = true |- _ => apply Z.eqb_eq in H
  | H : (_ =? _)%Z = false |- _ => apply Z.eqb_neq in H
  | H : (_ <? _)%Z = true |- _ => apply Z.ltb_lt in H
  | H : (_ <? _)%Z = false |- _ => apply Z.ltb_ge in H
  | H : (_ <=? _)%Z = true |- _ => apply Z.leb_le in H
  | H : (_ <=? _)%Z = false |- _ => apply Z.leb_gt in H
  end.

(** ** Lists updated by index *)

Section swap.
Context {A : Type} `{!Inhabited A}.
Implicit Types l : list A.

(** [h[i], h[j] = h[j], h[i]] for indices in range. *)
Definition swap_at (l : list A) (i j : nat) : list A :=
  <[i := l !!! j]> (<[j := l !!! i]> l).

Lemma length_swap_at l i j : length (swap_at l i j) = length l.
Proof. unfold swap_at. by rewrite !length_insert. Qed.

Lemma lookup_total_swap_at l i j k :
  i < length l → j < length l →
  swap_at l i j !!! k =
    if decide (k = i) then l !!! j else if decide (k = j) then l !!! i else l !!! k.
Proof.
  intros Hi Hj. unfold swap_at. destruct (decide (k = i)) as [->|Hki].
  - rewrite list_lookup_total_insert_eq; [done|]. by rewrite length_insert.
  - rewrite list_lookup_total_insert_ne; [|done].
    destruct (decide (k = j)) as [->|Hkj].
    + by rewrite list_lookup_total_insert_eq.
    + by rewrite list_lookup_total_insert_ne.
Qed.

Lemma swap_at_Permutation l i j :
  i < length l → j < length l → swap_at l i j ≡ₚ l.
Proof.
  intros Hi Hj. unfold swap_at.
  destruct (decide (i = j)) as [->|Hij].
  - rewrite list_insert_insert_eq, list_insert_id; [done|].
    by apply list_lookup_lookup_total_lt.
  - rewrite list_insert_insert_ne by done.
    apply Permutation_insert_swap; by apply list_lookup_lookup_total_lt.
Qed.

Lemma lookup_total_Forall (P : A → Prop) l i :
  Forall P l → i < length l → P (l !!! i).
Proof.
  intros HP Hi. eapply Forall_lookup_1; [done|]. by apply list_lookup_lookup_total_lt.
Qed.

Lemma take_last_Permutation l :
  l ≠ [] → l ≡ₚ l !!! (length l - 1) :: take (length l - 1) l.
Proof.
  destruct l as [|x l _] using rev_ind; [done|]. intros _.
  rewrite length_app; simpl. replace (length l + 1 - 1) with (length l) by lia.
  rewrite lookup_total_app_r by lia.
  rewrite Nat.sub_diag, take_app_length. simpl. by rewrite Permutation_app_comm.
Qed.
End swap.

(** ** Filters *)

Section filters.
Context {A : Type}.
Implicit Types l : list A.

Lemma filter_all (P : A → Prop) `{!∀ x, Decision (P x)} l : Forall P l → filter P l = l.
Proof. induction 1 as [|x l ? _ IH]; [done|]. by rewrite filter_cons_True, IH. Qed.

Lemma filter_none (P : A → Prop) `{!∀ x, Decision (P x)} l :
  Forall (λ x, ¬ P x) l → filter P l = [].
Proof. induction 1 as [|x l ? _ IH]; [done|]. by rewrite filter_cons_False, IH. Qed.

Lemma filter_swap (P Q : A → Prop) `{!∀ x, Decision (P x)} `{!∀ x, Decision (Q x)} l :
  filter P (filter Q l) = filter Q (filter P l).
Proof.
  induction l as [|x l IH]; [done|]. rewrite !filter_cons.
  repeat (case_decide; rewrite ?filter_cons); try done; by f_equal.
Qed.

Lemma StronglySorted_filter (R : relation A) (P : A → Prop) `{!∀ x, Decision (P x)} l :
  StronglySorted R l → StronglySorted R (filter P l).
Proof.
  induction 1 as [|x l ? IH Hx]; [constructor|]. rewrite filter_cons.
  case_decide; [|done]. constructor; [done|].
  apply Forall_forall. intros y [_ Hy]%list_elem_of_filter. rewrite Forall_forall in Hx. auto.
Qed.

(** The first element that satisfies [P], when others are dropped. *)
Lemma head_filter_filter (P Q : A → Prop) `{!∀ x, Decision (P x)} `{!∀ x, Decision (Q x)} l x :
  head (filter P l) = Some x → Q x → head (filter P (filter Q l)) = Some x.
Proof.
  induction l as [|y l IH]; [done|]. rewrite !filter_cons. intros Hh HQ.
  destruct (decide (P y)).
  - simplify_eq/=. rewrite decide_True by done. by rewrite filter_cons_True.
  - case_decide; [rewrite filter_cons_False by done|]; auto.
Qed.

Lemma filter_split_Permutation (P : A → Prop) `{!∀ x, Decision (P x)} l :
  l ≡ₚ filter P l ++ filter (λ x, ¬ P x) l.
Proof.
  induction l as [|x l IH]; [done|]. rewrite !filter_cons.
  destruct (decide (P x)) as [Hx|Hx]; [rewrite decide_False by auto|rewrite decide_True by auto].
  - simpl. by rewrite <- IH.
  - rewrite <- Permutation_middle. by rewrite <- IH.
Qed.

Lemma omap_filter {B} (f : A → option B) (P : A → Prop) `{!∀ x, Decision (P x)} l :
  (∀ x, ¬ P x → f x = None) → omap f l = omap f (filter P l).
Proof.
  intros Hn. induction l as [|x l IH]; [done|]. rewrite filter_cons. case_decide as Hx.
  - cbn. destruct (f x); [f_equal|]; exact IH.
  - cbn. rewrite Hn by done. exact IH.
Qed.
End filters.

(** ** Fallible maps *)

Lemma mapM_Permutation {A B} (f : A → option B) l1 l2 k1 :
  l1 ≡ₚ l2 → mapM f l1 = Some k1 → ∃ k2, mapM f l2 = Some k2 ∧ k1 ≡ₚ k2.
Proof.
  intros Hl Hk. apply mapM_Some in Hk. setoid_rewrite mapM_Some. revert k1 Hk.
  induction Hl as [|x l1 l2 _ IH|x y l|l1 l2 l3 _ IH1 _ IH2]; intros k1 Hk.
  - inv Hk. eauto.
  - inv Hk as [|? b ? k]. destruct (IH k) as (k2 & ? & ?); [done|].
    exists (b :: k2). split; by constructor.
  - inv Hk as [|? a ? ? ? Hk']. inv Hk' as [|? b ? k].
    exists (b :: a :: k). split; repeat constructor; done.
  - destruct (IH1 k1 Hk) as (k2 & Hk2 & ?). destruct (IH2 k2 Hk2) as (k3 & ? & ?).
    exists k3. split; [done|]. by etrans.
Qed.

(** ** Maps *)

Lemma map_size_filter_split `{Countable K} {A} (P : A → Prop) `{!∀ x, Decision (P x)} (m : gmap K A) :
  size m = size (filter (λ kx, P kx.2) m) + size (filter (λ kx, ¬ P kx.2) m).
Proof.
  rewrite <- (map_filter_union_complement (λ kx, P kx.2) m) at 1.
  apply map_size_disj_union, map_disjoint_filter_complement.
Qed.

(** ** First occurrences *)

Section firsts.
Context `{EqDecision A}.
Implicit Types (l : list A) (d : A).

(** The elements in the order of their first occurrence. *)
Definition firsts l : list A := foldl (λ o d, if decide (d ∈ o) then o else o ++ [d]) [] l.

Lemma firsts_snoc l d :
  firsts (l ++ [d]) = if decide (d ∈ firsts l) then firsts l else firsts l ++ [d].
Proof. unfold firsts. by rewrite foldl_app. Qed.

Lemma elem_of_firsts l d : d ∈ firsts l ↔ d ∈ l.
Proof.
  induction l as [|x l IH] using rev_ind; [done|]. rewrite firsts_snoc.
  case_decide as Hx; rewrite !elem_of_app, ?IH, ?list_elem_of_singleton in *; [|done].
  split; [by left|]. intros [?| ->]; tauto.
Qed.

Lemma NoDup_firsts l : NoDup (firsts l).
Proof.
  induction l as [|x l IH] using rev_ind; [constructor|]. rewrite firsts_snoc.
  case_decide as Hx; [done|]. rewrite Permutation_app_comm. by constructor.
Qed.
End firsts.
