(* ===== verification/GoHeap.v ===== *)
(** * container/heap

    The binary heap of Go's standard library, over a slice [h] whose element
    order is the parameter [less] ([heap.Interface]'s [Less] applied to the two
    elements): [up], [down], [Push], [Pop] and [Remove] as the library writes
    them, and the lemmas the priority queue is proved from.  The order is a
    strict weak order only on the elements that satisfy [valid] (a float64
    order is one away from NaN), so the lemmas carry [Forall valid h]. *)

From S2P Require Import Prelude.

Section heap.
Context {A : Type} `{!Inhabited A} (less : A → A → bool).
Implicit Types h : list A.

Definition parent (k : nat) : nat := (k - 1) / 2.

(** [up(h, j)]: the loop ends at the root or when [h[j]] is not less than its
    parent.  [j] decreases, so [S j] rounds are enough ([up_enough]). *)
Fixpoint up_loop (fuel : nat) (h : list A) (j : nat) : list A :=
  match fuel with
  | 0 => h
  | S fuel =>
      let i := parent j in
      if (i =? j) || negb (less (h !!! j) (h !!! i)) then h
      else up_loop fuel (swap_at h i j) i
  end.

Definition up (h : list A) (j : nat) : list A := up_loop (S j) h j.

(** [down(h, i0, n)]: returns the slice and the index the element ends at; the
    library's result is whether that index is beyond [i0]. *)
Fixpoint down_loop (fuel : nat) (h : list A) (i n : nat) : list A * nat :=
  match fuel with
  | 0 => (h, i)
  | S fuel =>
      let j1 := 2 * i + 1 in
      if n <=? j1 then (h, i)
      else
        let j2 := j1 + 1 in
        let j := if (j2 <? n) && less (h !!! j2) (h !!! j1) then j2 else j1 in
        if negb (less (h !!! j) (h !!! i)) then (h, i)
        else down_loop fuel (swap_at h i j) j n
  end.

Definition down (h : list A) (i0 n : nat) : list A * bool :=
  let '(h', i) := down_loop (S (n - i0)) h i0 n in (h', i0 <? i).

(** [heap.Push], with the slice's own [Push] an [append]. *)
Definition Push (h : list A) (x : A) : list A := up (h ++ [x]) (length h).

(** The slice's own [Pop]: the last element and the slice without it. *)
Definition pop_last (h : list A) : A * list A :=
  (h !!! (length h - 1), take (length h - 1) h).

(** [heap.Pop], for a non-empty slice. *)
Definition Pop (h : list A) : A * list A :=
  let n := length h - 1 in
  pop_last (fst (down (swap_at h 0 n) 0 n)).

(** [heap.Remove], for an index in range. *)
Definition Remove (h : list A) (i : nat) : A * list A :=
  let n := length h - 1 in
  let h' :=
    if n =? i then h
    else
      let '(h1, moved) := down (swap_at h i n) i n in
      if moved then h1 else up h1 i in
  pop_last h'.

(** ** The heap order *)

(** The edge from [k] to its parent respects the order. *)
Definition edge_ok h k : Prop := less (h !!! k) (h !!! parent k) = false.

Definition heap_upto h n : Prop := ∀ k, 0 < k < n → edge_ok h k.

Definition heap_ok h : Prop := heap_upto h (length h).

(** Every edge away from [i] is respected, and the children of [i] respect
    the parent of [i]: the state around an element that is being sifted. *)
Definition hole h n i : Prop :=
  (∀ k, 0 < k < n → k ≠ i → parent k ≠ i → edge_ok h k) ∧
  (∀ k, 0 < k < n → parent k = i → 0 < i → less (h !!! k) (h !!! parent i) = false).

Lemma parent_lt k : 0 < k → parent k < k.
Proof. unfold parent. intros. apply Nat.Div0.div_lt_upper_bound; lia. Qed.

Lemma parent_le k : parent k ≤ k.
Proof. unfold parent. pose proof (Nat.Div0.div_le_upper_bound (k - 1) 2 k). lia. Qed.

Lemma parent_children i k : 0 < k → parent k = i ↔ k = 2 * i + 1 ∨ k = 2 * i + 2.
Proof.
  unfold parent. intros Hk. pose proof (Nat.div_mod_eq (k - 1) 2).
  pose proof (Nat.mod_upper_bound (k - 1) 2). lia.
Qed.

(** ** Sifting keeps the elements *)

Lemma up_loop_Permutation fuel h j : j < length h → up_loop fuel h j ≡ₚ h.
Proof.
  revert h j; induction fuel as [|fuel IH]; intros h j Hj; simpl; [done|].
  case_match eqn:E; [done|]. bool_split.
  pose proof (parent_le j).
  rewrite IH by (rewrite length_swap_at; lia). apply swap_at_Permutation; lia.
Qed.

(** The child [down] compares with. *)
Definition pick h i n : nat :=
  let j1 := 2 * i + 1 in
  let j2 := j1 + 1 in
  if (j2 <? n) && less (h !!! j2) (h !!! j1) then j2 else j1.

Lemma pick_child h i n : 2 * i + 1 < n → i < pick h i n < n ∧ parent (pick h i n) = i.
Proof.
  intros Hi. unfold pick.
  assert (∀ k, k = 2 * i + 1 ∨ k = 2 * i + 2 → parent k = i) as Hp.
  { intros k Hk. apply parent_children; lia. }
  case_match eqn:E; bool_split; (split; [lia|apply Hp; lia]).
Qed.

Lemma down_loop_S fuel h i n :
  down_loop (S fuel) h i n =
    if n <=? 2 * i + 1 then (h, i)
    else if negb (less (h !!! pick h i n) (h !!! i)) then (h, i)
    else down_loop fuel (swap_at h i (pick h i n)) (pick h i n) n.
Proof. reflexivity. Qed.

Lemma down_loop_Permutation fuel h i n :
  n ≤ length h → (down_loop fuel h i n).1 ≡ₚ h.
Proof.
  revert h i; induction fuel as [|fuel IH]; intros h i Hn; [done|].
  rewrite down_loop_S. case_match eqn:E1; [done|]. case_match eqn:E2; [done|].
  bool_split. destruct (pick_child h i n) as [[??] _]; [lia|].
  rewrite IH by (by rewrite length_swap_at). apply swap_at_Permutation; lia.
Qed.

Lemma down_loop_ge fuel h i n : i ≤ (down_loop fuel h i n).2.
Proof.
  revert h i; induction fuel as [|fuel IH]; intros h i; [done|].
  rewrite down_loop_S. case_match eqn:E1; [done|]. case_match; [done|]. bool_split.
  destruct (pick_child h i n) as [[??] _]; [lia|]. etrans; [|apply IH]. lia.
Qed.

(** Nothing at or beyond [n] is touched. *)
Lemma up_loop_beyond fuel h j k :
  j < length h → j < k → up_loop fuel h j !!! k = h !!! k.
Proof.
  revert h j; induction fuel as [|fuel IH]; intros h j Hj Hk; simpl; [done|].
  case_match eqn:E; [done|]. bool_split.
  assert (parent j < j).
  { destruct j; [done|]. apply parent_lt; lia. }
  rewrite IH by (rewrite ?length_swap_at; lia).
  rewrite lookup_total_swap_at by lia. by rewrite !decide_False by lia.
Qed.

Lemma down_loop_beyond fuel h i n k :
  n ≤ length h → i < n → n ≤ k → (down_loop fuel h i n).1 !!! k = h !!! k.
Proof.
  revert h i; induction fuel as [|fuel IH]; intros h i Hn Hi Hk; [done|].
  rewrite down_loop_S. case_match eqn:E1; [done|]. case_match eqn:E2; [done|].
  bool_split. destruct (pick_child h i n) as [[??] _]; [lia|].
  rewrite IH by (rewrite ?length_swap_at; lia).
  rewrite lookup_total_swap_at by lia. by rewrite !decide_False by lia.
Qed.

(** ** Sifting restores the order *)

Section order.
Context (valid : A → Prop).
Hypothesis less_asym : ∀ a b, valid a → valid b → less a b = true → less b a = false.
Hypothesis nless_trans : ∀ a b c, valid a → valid b → valid c →
  less a b = false → less b c = false → less a c = false.

(** The elements of a valid slice are compared as a strict weak order. *)
Lemma at_asym h i j :
  Forall valid h → i < length h → j < length h →
  less (h !!! i) (h !!! j) = true → less (h !!! j) (h !!! i) = false.
Proof. intros. apply less_asym; [by apply lookup_total_Forall..|done]. Qed.

Lemma at_trans h i j k :
  Forall valid h → i < length h → j < length h → k < length h →
  less (h !!! i) (h !!! j) = false → less (h !!! j) (h !!! k) = false →
  less (h !!! i) (h !!! k) = false.
Proof. intros. apply (nless_trans _ (h !!! j)); [by apply lookup_total_Forall..|done|done]. Qed.

Lemma valid_swap h i j :
  Forall valid h → i < length h → j < length h → Forall valid (swap_at h i j).
Proof. intros. by rewrite swap_at_Permutation. Qed.

(** One round of [up]: swapping a violating element with its parent moves the
    hole to the parent and repairs the edges below it. *)
Lemma up_step h n j :
  Forall valid h → n ≤ length h → 0 < j < n →
  hole h n j → (∀ k, 0 < k < n → parent k = j → edge_ok h k) →
  less (h !!! j) (h !!! parent j) = true →
  hole (swap_at h (parent j) j) n (parent j) ∧
  (∀ k, 0 < k < n → parent k = parent j → edge_ok (swap_at h (parent j) j) k).
Proof.
  intros Hv Hn Hj [Ha Hb] Hc Hl. pose proof (parent_lt j) as Hp.
  assert (∀ k, swap_at h (parent j) j !!! k =
    if decide (k = parent j) then h !!! j
    else if decide (k = j) then h !!! parent j else h !!! k) as Hs.
  { intros k. apply lookup_total_swap_at; lia. }
  assert (Hl' : less (h !!! parent j) (h !!! j) = false) by (apply at_asym; auto; lia).
  unfold hole, edge_ok. split; [split|].
  - intros k Hk Hki Hpk. rewrite !Hs. pose proof (parent_lt k).
    rewrite (decide_False (P := k = parent j)) by done.
    rewrite (decide_False (P := parent k = parent j)) by done.
    destruct (decide (k = j)) as [->|]; [done|].
    destruct (decide (parent k = j)); [by apply Hb; lia|]. by apply Ha.
  - intros k Hk Hpk Hi. rewrite !Hs. pose proof (parent_lt k). pose proof (parent_lt (parent j)).
    rewrite (decide_False (P := parent (parent j) = parent j)) by lia.
    rewrite (decide_False (P := parent (parent j) = j)) by lia.
    rewrite (decide_False (P := k = parent j)) by lia.
    assert (Hpj : less (h !!! parent j) (h !!! parent (parent j)) = false) by (apply Ha; lia).
    destruct (decide (k = j)); [done|].
    apply (at_trans _ _ (parent j)); auto; try lia.
    rewrite <- Hpk. apply Ha; lia.
  - intros k Hk Hpk. rewrite !Hs. pose proof (parent_lt k).
    rewrite (decide_False (P := k = parent j)) by lia.
    rewrite (decide_True (P := parent k = parent j)) by done.
    destruct (decide (k = j)); [done|].
    apply (at_trans _ _ (parent j)); auto; try lia.
    rewrite <- Hpk. apply Ha; lia.
Qed.

Lemma up_loop_heap fuel h n j :
  Forall valid h → n ≤ length h → j < n → j < fuel →
  hole h n j → (∀ k, 0 < k < n → parent k = j → edge_ok h k) →
  heap_upto (up_loop fuel h j) n.
Proof.
  revert h j; induction fuel as [|fuel IH]; intros h j Hv Hn Hj Hf Hh Hc; [lia|].
  simpl. destruct (orb _ _) eqn:E.
  - intros k Hk. destruct (decide (parent k = j)); [by apply Hc|].
    destruct (decide (k = j)) as [->|]; [|by apply Hh].
    apply orb_true_iff in E as [E|E]; bool_split; [|done].
    pose proof (parent_lt j); lia.
  - bool_split. assert (0 < j) as Hj0 by (destruct j; [done|lia]).
    pose proof (parent_lt j Hj0). destruct (up_step h n j) as [Hh' Hc']; try done.
    apply IH; rewrite ?length_swap_at; try done; try lia. apply valid_swap; auto; lia.
Qed.

(** One round of [down]. *)
Lemma down_step h n i :
  Forall valid h → n ≤ length h → 2 * i + 1 < n →
  hole h n i → less (h !!! pick h i n) (h !!! i) = true →
  hole (swap_at h i (pick h i n)) n (pick h i n) ∧
  edge_ok (swap_at h i (pick h i n)) (pick h i n).
Proof.
  intros Hv Hn Hi [Ha Hb] Hl.
  destruct (pick_child h i n Hi) as [Hj Hpj].
  assert (Hsib : ∀ k, 0 < k < n → parent k = i → k ≠ pick h i n →
    less (h !!! k) (h !!! pick h i n) = false).
  { intros k Hk Hpk Hne. apply parent_children in Hpk; [|lia]. unfold pick in *.
    destruct (_ && _) eqn:E; bool_split.
    - apply at_asym; auto; try lia. replace k with (2 * i + 1) by lia. done.
    - replace k with (2 * i + 1 + 1) by lia.
      apply andb_false_iff in E as [E|E]; bool_split; [lia|done]. }
  set (j := pick h i n) in *. clearbody j.
  assert (∀ k, swap_at h i j !!! k =
    if decide (k = i) then h !!! j else if decide (k = j) then h !!! i else h !!! k) as Hs.
  { intros k. apply lookup_total_swap_at; lia. }
  unfold hole, edge_ok. split; [split|].
  - intros k Hk Hkj Hpk. rewrite !Hs. pose proof (parent_lt k).
    rewrite (decide_False (P := k = j)), (decide_False (P := parent k = j)) by done.
    destruct (decide (k = i)) as [->|].
    + rewrite decide_False by lia. apply Hb; auto; lia.
    + destruct (decide (parent k = i)); [by apply Hsib|]. by apply Ha.
  - intros k Hk Hpk _. rewrite !Hs. pose proof (parent_lt k).
    rewrite (decide_False (P := k = i)), (decide_False (P := k = j)) by lia.
    rewrite (decide_True (P := parent j = i)) by done. rewrite <- Hpk. apply Ha; lia.
  - rewrite !Hs. rewrite (decide_True (P := parent j = i)) by done.
    rewrite (decide_False (P := j = i)), (decide_True (P := j = j)) by lia.
    apply at_asym; auto; lia.
Qed.

(** When the picked child does not beat [i], no child does. *)
Lemma pick_stops h n i :
  Forall valid h → n ≤ length h → 2 * i + 1 < n →
  less (h !!! pick h i n) (h !!! i) = false →
  ∀ k, 0 < k < n → parent k = i → edge_ok h k.
Proof.
  intros Hv Hn Hi Hl k Hk Hp. unfold edge_ok. rewrite Hp.
  apply parent_children in Hp; [|lia]. revert Hl. unfold pick.
  destruct (_ && _) eqn:E; intros Hl; bool_split.
  - destruct Hp as [->| ->]; [|by replace (2 * i + 2) with (2 * i + 1 + 1) by lia].
    apply (at_trans _ _ (2 * i + 1 + 1)); auto; try lia. apply at_asym; auto; lia.
  - destruct Hp as [->| ->]; [done|].
    apply andb_false_iff in E as [E|E]; bool_split; [lia|].
    replace (2 * i + 2) with (2 * i + 1 + 1) by lia.
    apply (at_trans _ _ (2 * i + 1)); auto; lia.
Qed.

(** [down] from a hole whose own edge is respected yields a heap. *)
Lemma down_loop_heap fuel h n i :
  Forall valid h → n ≤ length h → n - i < fuel →
  hole h n i → (0 < i < n → edge_ok h i) →
  heap_upto (down_loop fuel h i n).1 n.
Proof.
  revert h i; induction fuel as [|fuel IH]; intros h i Hv Hn Hf Hh Hi; [lia|].
  rewrite down_loop_S. destruct (n <=? _) eqn:E1; [|destruct (negb _) eqn:E2].
  - bool_split. intros k Hk. simpl. destruct (decide (k = i)) as [->|]; [auto|].
    apply Hh; auto. rewrite parent_children; lia.
  - bool_split. intros k Hk. simpl. destruct (decide (k = i)) as [->|]; [auto|].
    destruct (decide (parent k = i)) as [Hp|]; [|by apply Hh].
    eapply pick_stops; eauto; lia.
  - bool_split. destruct (down_step h n i) as [Hh' He']; auto.
    destruct (pick_child h i n) as [[??] _]; [lia|].
    apply IH; rewrite ?length_swap_at; auto; try lia. apply valid_swap; auto; lia.
Qed.

(** [down] either leaves the slice alone, and then the edges below [i] are
    respected, or moves the element and yields a heap. *)
Lemma down_cases h n i h' moved :
  Forall valid h → n ≤ length h → i < n → hole h n i →
  down h i n = (h', moved) →
  (moved = true ∧ heap_upto h' n) ∨
  (moved = false ∧ h' = h ∧ ∀ k, 0 < k < n → parent k = i → edge_ok h k).
Proof.
  intros Hv Hn Hi Hh Hd. unfold down in Hd.
  rewrite down_loop_S in Hd.
  destruct (n <=? 2 * i + 1) eqn:E1; [|destruct (negb _) eqn:E2].
  - simplify_eq. right. bool_split.
    split_and!; [by apply Nat.ltb_ge|done|].
    intros k Hk Hp. apply parent_children in Hp; lia.
  - simplify_eq. right. bool_split. split_and!; [by apply Nat.ltb_ge|done|].
    apply pick_stops; auto; lia.
  - bool_split. destruct (down_step h n i) as [Hh' He']; auto.
    destruct (pick_child h i n) as [[??] _]; [lia|].
    set (j := pick h i n) in *. clearbody j.
    assert (heap_upto (down_loop (n - i) (swap_at h i j) j n).1 n) as Hheap.
    { apply down_loop_heap; rewrite ?length_swap_at; auto; try lia. apply valid_swap; auto; lia. }
    pose proof (down_loop_ge (n - i) (swap_at h i j) j n).
    destruct (down_loop (n - i) (swap_at h i j) j n) as [h1 i1]. simplify_eq/=.
    left. split; [by apply Nat.ltb_lt; lia|done].
Qed.

(** ** The operations *)

Lemma heap_root_max h k :
  Forall valid h → heap_ok h → k < length h → less (h !!! k) (h !!! 0) = false.
Proof.
  intros Hv Hh. induction k as [k IH] using lt_wf_ind. intros Hk.
  destruct (decide (k = 0)) as [->|Hk0].
  - destruct (less _ _) eqn:E; [|done]. rewrite <- E. by apply at_asym.
  - pose proof (parent_lt k). apply (at_trans _ _ (parent k)); auto; try lia.
    + apply Hh; lia.
    + apply IH; lia.
Qed.

Lemma heap_upto_take h n : n ≤ length h → heap_upto h n → heap_ok (take n h).
Proof.
  intros Hn Hh k. rewrite length_take, Nat.min_l by lia. intros Hk.
  pose proof (parent_le k). unfold edge_ok.
  rewrite !lookup_total_take_lt by lia. by apply Hh.
Qed.

Lemma Push_Permutation h x : Push h x ≡ₚ x :: h.
Proof.
  unfold Push, up. rewrite up_loop_Permutation by (rewrite length_app; simpl; lia).
  by rewrite Permutation_app_comm.
Qed.

Lemma length_Push h x : length (Push h x) = S (length h).
Proof. by rewrite Push_Permutation. Qed.

Lemma Push_heap h x : Forall valid h → valid x → heap_ok h → heap_ok (Push h x).
Proof.
  intros Hv Hx Hh. unfold heap_ok. rewrite length_Push. unfold Push, up.
  assert (length (h ++ [x]) = S (length h)) as Hlen by (rewrite length_app; simpl; lia).
  apply up_loop_heap; rewrite ?Hlen; try lia.
  - apply Forall_app_2; [done|]. by apply Forall_singleton.
  - split.
    + intros k Hk ? _. pose proof (parent_le k). unfold edge_ok.
      rewrite !lookup_total_app_l by lia. apply Hh; lia.
    + intros k Hk Hp. pose proof (parent_lt k); lia.
  - intros k Hk Hp. pose proof (parent_lt k); lia.
Qed.

(** After moving the last element to [i], [i] is the only hole of the prefix. *)
Lemma swap_last_hole h i :
  Forall valid h → heap_ok h → i < length h - 1 →
  hole (swap_at h i (length h - 1)) (length h - 1) i.
Proof.
  intros Hv Hh Hi. set (n := length h - 1) in *.
  assert (∀ k, k < n → swap_at h i n !!! k = if decide (k = i) then h !!! n else h !!! k) as Hs.
  { intros k Hk. rewrite lookup_total_swap_at by lia.
    destruct (decide (k = i)); [done|]. by rewrite decide_False by lia. }
  split.
  - intros k Hk Hki Hpk. pose proof (parent_lt k). unfold edge_ok.
    rewrite !Hs by lia. rewrite !decide_False by done. apply Hh; lia.
  - intros k Hk Hpk Hi0. pose proof (parent_lt k). pose proof (parent_lt i).
    rewrite !Hs by lia. rewrite !decide_False by lia.
    apply (at_trans _ _ i); auto; try lia; [|apply Hh; lia].
    rewrite <- Hpk. apply Hh; lia.
Qed.

(** What [Pop] and [Remove] promise: the element asked for leaves the heap,
    the others stay, and the order is kept. *)
Definition removes h i (r : A * list A) : Prop :=
  r.1 = h !!! i ∧ h ≡ₚ r.1 :: r.2 ∧ heap_ok r.2.

Lemma pop_last_removes h h' i :
  h' ≡ₚ h → h ≠ [] → heap_upto h' (length h - 1) → h' !!! (length h - 1) = h !!! i →
  removes h i (pop_last h').
Proof.
  intros Hp Hne Hh Hl. pose proof (Permutation_length Hp) as Hlen.
  unfold removes, pop_last. simpl. rewrite Hlen. split_and!; [done| |].
  - rewrite <- Hlen, <- take_last_Permutation; [done|].
    intros ->. by apply Hne, Permutation_nil.
  - apply heap_upto_take; [lia|done].
Qed.

Lemma Pop_removes h : Forall valid h → heap_ok h → h ≠ [] → removes h 0 (Pop h).
Proof.
  intros Hv Hh Hne. assert (0 < length h) by (destruct h; simpl; [done|lia]).
  set (n := length h - 1). set (h1 := swap_at h 0 n).
  assert (Hn1 : length h1 = S n) by (unfold h1; rewrite length_swap_at; lia).
  assert (Hv1 : Forall valid h1) by (apply valid_swap; auto; lia).
  unfold Pop. fold n h1. unfold down.
  destruct (down_loop (S (n - 0)) h1 0 n) as [h2 i2] eqn:E. simpl.
  assert (h2 = (down_loop (S (n - 0)) h1 0 n).1) as -> by by rewrite E. clear E.
  apply pop_last_removes; auto.
  - rewrite down_loop_Permutation by lia. apply swap_at_Permutation; lia.
  - fold n. destruct (decide (n = 0)) as [->|]; [intros k; lia|].
    apply down_loop_heap; auto; try lia. by apply swap_last_hole; [..|lia].
  - fold n. destruct (decide (n = 0)) as [Hn|].
    + rewrite down_loop_S, (proj2 (Nat.leb_le _ _)) by lia. simpl. unfold h1.
      rewrite lookup_total_swap_at by lia. by rewrite Hn.
    + rewrite down_loop_beyond by lia. unfold h1. rewrite lookup_total_swap_at by lia.
      by rewrite decide_False, decide_True by lia.
Qed.

Lemma Remove_removes h i :
  Forall valid h → heap_ok h → i < length h → removes h i (Remove h i).
Proof.
  intros Hv Hh Hi. assert (h ≠ []) by (intros ->; simpl in *; lia).
  set (n := length h - 1). unfold Remove. fold n. destruct (n =? i) eqn:E; bool_split.
  { apply pop_last_removes; auto; fold n; [intros k Hk; apply Hh; lia|congruence]. }
  set (h1 := swap_at h i n).
  assert (Hn1 : length h1 = S n) by (unfold h1; rewrite length_swap_at; lia).
  assert (Hv1 : Forall valid h1) by (apply valid_swap; auto; lia).
  assert (Hp1 : h1 ≡ₚ h) by (apply swap_at_Permutation; lia).
  assert (Hl1 : h1 !!! n = h !!! i).
  { unfold h1. rewrite lookup_total_swap_at by lia. by rewrite decide_False, decide_True by lia. }
  assert (hole h1 n i) as Hhole by (by apply swap_last_hole; [..|lia]).
  destruct (down h1 i n) as [h2 moved] eqn:Hd.
  destruct (down_cases h1 n i h2 moved) as [[-> Hheap]|(-> & -> & Hc)]; auto; try lia.
  - assert (h2 = (down_loop (S (n - i)) h1 i n).1) as ->.
    { unfold down in Hd. destruct (down_loop _ _ _ _). by simplify_eq/=. }
    apply pop_last_removes; auto; fold n.
    + by rewrite down_loop_Permutation by lia.
    + by rewrite down_loop_beyond by lia.
  - apply pop_last_removes; auto; fold n; unfold up.
    + by rewrite up_loop_Permutation by lia.
    + apply up_loop_heap; auto; lia.
    + by rewrite up_loop_beyond by lia.
Qed.
End order.
End heap.
