(* ===== verification/GoSort.v ===== *)
(** * The sort package

    [sort.Search] (the library's binary search), [sort.Strings], and the
    contract of [sort.Sort]: it sorts, and promises nothing about equal
    elements.  The contract is the class [Sorter], so that results about code
    that calls [sort.Sort] hold for every sorting algorithm; merge sort is an
    instance, for concrete runs. *)

From S2P Require Import Prelude.

(** ** sort.Search *)

(** The loop over [i, j]; [j - i] shrinks, so [n] rounds are enough. *)
Fixpoint search_loop (fuel : nat) (f : nat → bool) (i j : nat) : nat :=
  match fuel with
  | 0 => i
  | S fuel =>
      if i <? j then
        let h := (i + j) / 2 in
        if f h then search_loop fuel f i h else search_loop fuel f (h + 1) j
      else i
  end.

Definition Search (n : nat) (f : nat → bool) : nat := search_loop (S n) f 0 n.

Lemma search_loop_spec fuel f n i j :
  i ≤ j ≤ n → j - i < fuel →
  (∀ a b, a ≤ b → b < n → f a = true → f b = true) →
  (∀ k, k < i → f k = false) → (∀ k, j ≤ k → k < n → f k = true) →
  let r := search_loop fuel f i j in
  r ≤ n ∧ (∀ k, k < r → f k = false) ∧ (∀ k, r ≤ k → k < n → f k = true).
Proof.
  revert i j; induction fuel as [|fuel IH]; intros i j Hij Hf Hm Hlo Hhi; [lia|]. cbn [search_loop].
  destruct (Nat.ltb_spec i j) as [Hlt|Hge].
  - assert (i ≤ (i + j) / 2 < j) as Hh.
    { split; [apply Nat.div_le_lower_bound; lia|apply Nat.Div0.div_lt_upper_bound; lia]. }
    set (h := (i + j) / 2) in *. destruct (f h) eqn:E.
    + apply IH; auto; try lia. intros k Hk1 Hk2. by apply (Hm h k).
    + apply IH; auto; try lia. intros k Hk. destruct (f k) eqn:Ek; [|done].
      rewrite <- E. symmetry. apply (Hm k h); [lia|lia|done].
  - split_and!; auto; [lia|]. intros k Hk1 Hk2. apply Hhi; lia.
Qed.

(** [Search] returns the boundary of a monotone predicate. *)
Lemma Search_spec n f :
  (∀ a b, a ≤ b → b < n → f a = true → f b = true) →
  Search n f ≤ n ∧ (∀ k, k < Search n f → f k = false) ∧
  (∀ k, Search n f ≤ k → k < n → f k = true).
Proof. intros Hm. apply search_loop_spec; auto; lia. Qed.

(** ** sort.Strings *)

(** Equal strings are indistinguishable, so every sorting algorithm returns
    this list. *)
Definition Strings (l : list string) : list string := merge_sort String.le l.

Lemma Strings_Permutation l : Strings l ≡ₚ l.
Proof. apply merge_sort_Permutation. Qed.

Lemma Strings_sorted l : StronglySorted String.le (Strings l).
Proof. apply StronglySorted_merge_sort; apply _. Qed.

(** The result depends on the elements only, not on their order. *)
Lemma Strings_proper l1 l2 : l1 ≡ₚ l2 → Strings l1 = Strings l2.
Proof.
  intros Hp. apply (StronglySorted_unique String.le); auto using Strings_sorted.
  by rewrite !Strings_Permutation.
Qed.

(** ** sort.Sort *)

Class Sorter {A} (le : relation A) := {
  Sort : list A → list A;
  Sort_Permutation l : Sort l ≡ₚ l;
  Sort_sorted l : StronglySorted le (Sort l);
}.

Section merge_sorter.
Context {A} (le : relation A) `{!RelDecision le, !Transitive le, !Total le}.

#[refine] Definition merge_sorter : Sorter le := {| Sort := merge_sort le |}.
Proof.
  - intros l. apply merge_sort_Permutation.
  - intros l. by apply StronglySorted_merge_sort.
Defined.
End merge_sorter.
