(* ===== verification/Float64.v ===== *)
(** * Go's float64

    IEEE 754 binary64 with round-to-nearest-even, as the Standard Library's
    executable [spec_float] at precision 53 and maximal exponent 1024: the
    conversion [float64(n)] of an int, [+], [*], [/] and the comparisons the
    engine uses.  Comparison is shown to be a lexicographic order on ranks, and
    the conversion to be exact and strictly increasing below 2^53, which covers
    every int the engine converts (a PostgreSQL INTEGER or a length). *)

From S2P Require Import Prelude.
From Stdlib Require Import SpecFloat.

Local Open Scope Z_scope.

Abbreviation float64 := spec_float.

Definition f64_of_Z (z : Z) : float64 := binary_normalize 53 1024 z 0 false.
Definition f64_add : float64 → float64 → float64 := SFadd 53 1024.
Definition f64_mul : float64 → float64 → float64 := SFmul 53 1024.
Definition f64_div : float64 → float64 → float64 := SFdiv 53 1024.
Definition f64_ltb (x y : float64) : bool := SFltb x y.
Definition f64_leb (x y : float64) : bool := SFleb x y.
(** [x > y] in Go. *)
Definition f64_gtb (x y : float64) : bool := SFltb y x.

Definition f64_zero : float64 := S754_zero false.
Definition f64_one : float64 := f64_of_Z 1.
Definition f64_half : float64 := f64_div (f64_of_Z 1) (f64_of_Z 2).

(** Storing a float64 in a single-precision column and reading it back. *)
Definition f64_normalize (prec emax : Z) (x : float64) : float64 :=
  match x with
  | S754_finite s m e => binary_normalize prec emax (cond_Zopp s (Zpos m)) e s
  | _ => x
  end.
Definition f64_via_real (x : float64) : float64 := f64_normalize 53 1024 (f64_normalize 24 128 x).

Example f64_half_is_half : f64_add f64_half f64_half = f64_of_Z 1.
Proof. reflexivity. Qed.

#[global] Instance float64_inhabited : Inhabited float64 := populate f64_zero.
#[global] Instance float64_eq_dec : EqDecision float64.
Proof. solve_decision. Defined.

Definition not_nan (x : float64) : Prop := x ≠ S754_nan.

(** ** The order *)

(** Sign class, then exponent, then mantissa, each negated below zero. *)
Definition rank (x : float64) : Z * Z * Z :=
  match x with
  | S754_nan => (0, 0, 0)
  | S754_zero _ => (0, 0, 0)
  | S754_infinity false => (2, 0, 0)
  | S754_infinity true => (-2, 0, 0)
  | S754_finite false m e => (1, e, Zpos m)
  | S754_finite true m e => (-1, -e, Zneg m)
  end.

Definition rank_lt (p q : Z * Z * Z) : Prop :=
  let '(a1, a2, a3) := p in let '(b1, b2, b3) := q in
  a1 < b1 ∨ (a1 = b1 ∧ (a2 < b2 ∨ (a2 = b2 ∧ a3 < b3))).

Lemma f64_ltb_rank x y :
  f64_ltb x y = true ↔ not_nan x ∧ not_nan y ∧ rank_lt (rank x) (rank y).
Proof.
  unfold f64_ltb, SFltb, not_nan.
  assert (Hc : ∀ p q : positive, Pos.compare_cont Eq p q = (p ?= q)%positive) by done.
  destruct x as [[]|[]| |[] m1 e1], y as [[]|[]| |[] m2 e2]; simpl;
    try (split; [discriminate|intros (?&?&?); (congruence || lia)]);
    try (split; [intros _; split_and!; (congruence || lia)|done]).
  all: rewrite ?Hc; destruct (Z.compare_spec e1 e2);
    destruct (Pos.compare_spec m1 m2); simpl;
    (split; [first [discriminate|intros _; split_and!; [congruence..|lia]]
            |intros (?&?&?); first [done|exfalso; lia]]).
Qed.

Lemma f64_ltb_trans x y z :
  f64_ltb x y = true → f64_ltb y z = true → f64_ltb x z = true.
Proof.
  rewrite !f64_ltb_rank. intros (?&?&Hxy) (?&?&Hyz). split_and!; [done..|].
  destruct (rank x) as [[??]?], (rank y) as [[??]?], (rank z) as [[??]?]. simpl in *. lia.
Qed.

Lemma f64_ltb_asym x y : f64_ltb x y = true → f64_ltb y x = false.
Proof.
  intros H. destruct (f64_ltb y x) eqn:E; [|done].
  apply f64_ltb_rank in H as (_&_&H). apply f64_ltb_rank in E as (_&_&E).
  destruct (rank x) as [[??]?], (rank y) as [[??]?]. simpl in *. lia.
Qed.

Lemma f64_ltb_irrefl x : f64_ltb x x = false.
Proof. destruct (f64_ltb x x) eqn:E; [|done]. rewrite <- E. by apply f64_ltb_asym. Qed.

(** Away from NaN, "not less" is transitive: [<] is a strict weak order. *)
Lemma f64_nltb_trans x y z :
  not_nan x → not_nan y → not_nan z →
  f64_ltb x y = false → f64_ltb y z = false → f64_ltb x z = false.
Proof.
  intros Hx Hy Hz H1 H2. rewrite <- not_true_iff_false in *.
  rewrite !f64_ltb_rank in *. intros (_&_&H3).
  assert (¬ rank_lt (rank x) (rank y)) as H1' by tauto.
  assert (¬ rank_lt (rank y) (rank z)) as H2' by tauto.
  destruct (rank x) as [[??]?], (rank y) as [[??]?], (rank z) as [[??]?]. simpl in *. lia.
Qed.

(** ** Converting an int *)

Lemma digits2_pos_bounds p :
  2 ^ (Zpos (digits2_pos p) - 1) ≤ Zpos p < 2 ^ Zpos (digits2_pos p).
Proof.
  induction p as [p IH|p IH|]; simpl; [| |lia].
  all: rewrite Pos2Z.inj_succ; replace (Z.succ (Zpos (digits2_pos p)) - 1)
         with (Z.succ (Zpos (digits2_pos p) - 1)) by lia;
    rewrite !Z.pow_succ_r by lia; lia.
Qed.

Lemma digits2_pos_unique p d :
  0 < d → 2 ^ (d - 1) ≤ Zpos p < 2 ^ d → Zpos (digits2_pos p) = d.
Proof.
  intros Hd [Hl Hu]. pose proof (digits2_pos_bounds p) as [Hl' Hu'].
  pose proof (Z.pow_lt_mono_r_iff 2 (d - 1) (Zpos (digits2_pos p))).
  pose proof (Z.pow_lt_mono_r_iff 2 (Zpos (digits2_pos p) - 1) d). lia.
Qed.

Lemma digits2_pos_53 p : Zpos p < 2 ^ 53 → 1 ≤ Zpos (digits2_pos p) ≤ 53.
Proof.
  intros Hp. pose proof (digits2_pos_bounds p) as [Hl _]. split; [lia|]. apply Z.lt_succ_r.
  pose proof (Z.pow_lt_mono_r_iff 2 (Zpos (digits2_pos p) - 1) 53). lia.
Qed.

Lemma iter_xO p d : Zpos (Pos.iter xO p d) = Zpos p * 2 ^ Zpos d.
Proof.
  induction d as [|d IH] using Pos.peano_ind; [simpl; lia|].
  rewrite Pos.iter_succ, Pos2Z.inj_xO, IH, Pos2Z.inj_succ, Z.pow_succ_r by lia. lia.
Qed.

(** [float64(p)] for [0 < p < 2^53]: the mantissa is [p] shifted to 53 bits. *)
Lemma f64_round_small s p :
  Zpos p < 2 ^ 53 →
  ∃ m, binary_round 53 1024 s p 0 = S754_finite s m (Zpos (digits2_pos p) - 53) ∧
       Zpos m = Zpos p * 2 ^ (53 - Zpos (digits2_pos p)).
Proof.
  intros Hp. pose proof (digits2_pos_bounds p) as [Hl Hu].
  set (d := Zpos (digits2_pos p)) in *.
  assert (1 ≤ d ≤ 53) as Hd by (apply digits2_pos_53; lia).
  assert (Hf : fexp 53 1024 (d + 0) = d - 53) by (unfold fexp, emin; lia).
  unfold binary_round. fold d. rewrite Hf.
  assert (∃ m, shl_align p 0 (d - 53) = (m, d - 53) ∧ Zpos m = Zpos p * 2 ^ (53 - d))
    as (m & -> & Hm).
  { unfold shl_align. destruct (d - 53 - 0) as [|q|q] eqn:E; [| lia |].
    - exists p. replace d with 53 by lia. split; [f_equal; lia|]. simpl. lia.
    - exists (Pos.iter xO p q). split; [done|].
      rewrite iter_xO. do 2 f_equal. lia. }
  exists m. split; [|done].
  assert (Hdm : Zpos (digits2_pos m) = 53).
  { apply digits2_pos_unique; [lia|]. rewrite Hm.
    replace (2 ^ (53 - 1)) with (2 ^ (d - 1) * 2 ^ (53 - d))
      by (rewrite <- Z.pow_add_r by lia; f_equal; lia).
    replace (2 ^ 53) with (2 ^ d * 2 ^ (53 - d)) at 1
      by (rewrite <- Z.pow_add_r by lia; f_equal; lia).
    assert (0 < 2 ^ (53 - d)) by (apply Z.pow_pos_nonneg; lia). nia. }
  unfold binary_round_aux, shr_fexp. simpl Zdigits2. rewrite Hdm.
  replace (fexp 53 1024 (53 + (d - 53)) - (d - 53)) with 0
    by (unfold fexp, emin; lia).
  simpl. rewrite Hdm.
  replace (fexp 53 1024 (53 + (d - 53)) - (d - 53)) with 0
    by (unfold fexp, emin; lia).
  simpl. by rewrite (proj2 (Z.leb_le _ _)) by lia.
Qed.

Lemma pow_mantissa_lt p q :
  Zpos p < 2 ^ 53 → Zpos q < 2 ^ 53 →
  let dp := Zpos (digits2_pos p) in let dq := Zpos (digits2_pos q) in
  (dp < dq ∨ dp = dq ∧ Zpos p * 2 ^ (53 - dp) < Zpos q * 2 ^ (53 - dq)) ↔ Zpos p < Zpos q.
Proof.
  intros Hp Hq dp dq. pose proof (digits2_pos_bounds p) as [Hl Hu].
  pose proof (digits2_pos_bounds q) as [Hl' Hu']. fold dp in Hl, Hu. fold dq in Hl', Hu'.
  pose proof (Z.pow_lt_mono_r_iff 2 (dp - 1) 53).
  pose proof (Z.pow_lt_mono_r_iff 2 (dq - 1) 53).
  pose proof (Z.pow_le_mono_r 2 dp (dq - 1)). pose proof (Z.pow_le_mono_r 2 dq (dp - 1)).
  destruct (Z.lt_trichotomy dp dq) as [Hd|[Hd|Hd]]; [split; lia| |split; lia].
  rewrite Hd. assert (0 < 2 ^ (53 - dq)) by (apply Z.pow_pos_nonneg; lia). split; nia.
Qed.

(** The ints a float64 holds exactly. *)
Definition exact_int (z : Z) : Prop := -(2 ^ 53) < z < 2 ^ 53.

Lemma f64_of_Z_not_nan z : exact_int z → not_nan (f64_of_Z z).
Proof.
  intros Hz. unfold f64_of_Z, not_nan. destruct z as [|p|p]; simpl; [done| |].
  - destruct (f64_round_small false p) as (m & -> & _); [unfold exact_int in Hz; lia|done].
  - destruct (f64_round_small true p) as (m & -> & _); [unfold exact_int in Hz; lia|done].
Qed.

Lemma f64_of_Z_rank_lt a b :
  exact_int a → exact_int b → rank_lt (rank (f64_of_Z a)) (rank (f64_of_Z b)) ↔ a < b.
Proof.
  intros Ha Hb. unfold exact_int in *. unfold f64_of_Z.
  destruct a as [|p|p], b as [|q|q]; simpl;
    try (destruct (f64_round_small false p) as (m & -> & Hm); [lia|]);
    try (destruct (f64_round_small true p) as (m & -> & Hm); [lia|]);
    try (destruct (f64_round_small false q) as (m' & -> & Hm'); [lia|]);
    try (destruct (f64_round_small true q) as (m' & -> & Hm'); [lia|]);
    simpl; try lia.
  - pose proof (pow_mantissa_lt p q ltac:(lia) ltac:(lia)) as H. simpl in H.
    rewrite <- H, <- Hm, <- Hm'. lia.
  - pose proof (pow_mantissa_lt q p ltac:(lia) ltac:(lia)) as H. simpl in H.
    rewrite <- Hm, <- Hm' in H. lia.
Qed.

(** [float64] of an int below 2^53 in magnitude preserves and reflects [<]. *)
Lemma f64_of_Z_lt a b :
  exact_int a → exact_int b → f64_ltb (f64_of_Z a) (f64_of_Z b) = true ↔ a < b.
Proof.
  intros Ha Hb. rewrite f64_ltb_rank, f64_of_Z_rank_lt by done.
  split; [tauto|]. intros ?; split_and!; auto using f64_of_Z_not_nan.
Qed.

Lemma f64_of_Z_nlt a b :
  exact_int a → exact_int b → f64_ltb (f64_of_Z a) (f64_of_Z b) = false ↔ b ≤ a.
Proof. intros Ha Hb. rewrite <- not_true_iff_false, f64_of_Z_lt by done. lia. Qed.

(** ** Exact products *)

Lemma iter_pos_succ {A} (f : A → A) n x : iter_pos f (Pos.succ n) x = f (iter_pos f n x).
Proof.
  assert (∀ m y, iter_pos f m (f y) = f (iter_pos f m y)) as Hc.
  { induction m as [m IH|m IH|]; intros y; simpl; [| |done]; by rewrite !IH. }
  revert x; induction n as [n IH|n IH|]; intros x; simpl; [|by rewrite !Hc|done].
  by rewrite IH, IH, !Hc.
Qed.

(** Shifting a multiple of a power of two loses nothing. *)
Lemma shr_exact n m :
  0 < m →
  iter_pos shr_1 n {| shr_m := m * 2 ^ Zpos n; shr_r := false; shr_s := false |} =
  {| shr_m := m; shr_r := false; shr_s := false |}.
Proof.
  revert m; induction n as [|n IH] using Pos.peano_ind; intros m Hm.
  - destruct m as [|p|p]; [lia| |lia]. by rewrite Z.mul_comm.
  - rewrite iter_pos_succ, Pos2Z.inj_succ, Z.pow_succ_r, Z.mul_assoc by lia.
    rewrite IH by lia. destruct m as [|p|p]; [lia| |lia]. by rewrite Z.mul_comm.
Qed.

(** An int below 2^53, given with [k] binary places, is rounded to itself. *)
Lemma round_aux_exact s p k q :
  Zpos p < 2 ^ 53 → 53 - Zpos (digits2_pos p) ≤ k → Zpos q = Zpos p * 2 ^ k →
  binary_round_aux 53 1024 s (Zpos q) (- k) loc_Exact = binary_round 53 1024 s p 0.
Proof.
  intros Hp Hk Hq. destruct (f64_round_small s p Hp) as (m & -> & Hm).
  pose proof (digits2_pos_bounds p) as [Hl Hu]. set (d := Zpos (digits2_pos p)) in *.
  assert (1 ≤ d ≤ 53) as Hd by (apply digits2_pos_53; lia).
  assert (∀ r j, Zpos r = Zpos p * 2 ^ j → 0 ≤ j → Zpos (digits2_pos r) = d + j) as Hdig.
  { intros r j Hr Hj. apply digits2_pos_unique; [lia|]. rewrite Hr.
    replace (d + j - 1) with (d - 1 + j) by lia. rewrite !Z.pow_add_r by lia.
    assert (0 < 2 ^ j) by (apply Z.pow_pos_nonneg; lia). nia. }
  assert (shr_fexp 53 1024 (Zpos q) (- k) loc_Exact =
    ({| shr_m := Zpos m; shr_r := false; shr_s := false |}, d - 53)) as Hs.
  { unfold shr_fexp. cbn [Zdigits2 shr_record_of_loc]. rewrite (Hdig q k) by (done || lia).
    replace (fexp 53 1024 (d + k + - k) - - k) with (d - 53 + k) by (unfold fexp, emin; lia).
    destruct (d - 53 + k) as [|n|n] eqn:E; cbn [shr]; [| |lia].
    - rewrite Hq, Hm. do 2 f_equal; [|lia]. do 2 f_equal. lia.
    - replace (Zpos q) with (Zpos m * 2 ^ Zpos n); [rewrite shr_exact by lia; f_equal; lia|].
      rewrite Hq, Hm, <- Z.mul_assoc, <- Z.pow_add_r by lia. do 2 f_equal. lia. }
  unfold binary_round_aux. rewrite Hs. cbn [shr_m loc_of_shr_record round_nearest_even].
  unfold shr_fexp. cbn [Zdigits2 shr_record_of_loc]. rewrite (Hdig m (53 - d)) by (done || lia).
  replace (fexp 53 1024 (d + (53 - d) + (d - 53)) - (d - 53)) with 0 by (unfold fexp, emin; lia).
  cbn [shr shr_m]. by rewrite (proj2 (Z.leb_le _ _)) by lia.
Qed.

(** A product of positive ints below 2^53 is exact. *)
Lemma f64_mul_exact a b :
  0 < a → 0 < b → a * b < 2 ^ 53 → f64_mul (f64_of_Z a) (f64_of_Z b) = f64_of_Z (a * b).
Proof.
  intros Ha Hb Hab. destruct a as [|p|p], b as [|q|q]; try lia. unfold f64_mul, f64_of_Z.
  assert (Zpos p < 2 ^ 53 ∧ Zpos q < 2 ^ 53) as [Hp Hq] by nia. simpl binary_normalize.
  destruct (f64_round_small false p Hp) as (m & -> & Hm).
  destruct (f64_round_small false q Hq) as (m' & -> & Hm').
  pose proof (digits2_pos_bounds p) as [Hl Hu]. pose proof (digits2_pos_bounds q) as [Hl' Hu'].
  pose proof (digits2_pos_bounds (p * q)) as [Hl2 Hu2].
  set (d := Zpos (digits2_pos p)) in *. set (d' := Zpos (digits2_pos q)) in *.
  set (d2 := Zpos (digits2_pos (p * q))) in *.
  assert (1 ≤ d ≤ 53 ∧ 1 ≤ d' ≤ 53) as [Hd Hd'] by (split; by apply digits2_pos_53).
  assert (d + d' - 2 < d2) as Hlow.
  { apply (Z.pow_lt_mono_r_iff 2); [lia..|]. replace (d + d' - 2) with (d - 1 + (d' - 1)) by lia.
    rewrite Z.pow_add_r by lia.
    assert (0 < 2 ^ (d - 1) ∧ 0 < 2 ^ (d' - 1)) by (split; apply Z.pow_pos_nonneg; lia). nia. }
  cbn [SFmul xorb]. replace (d - 53 + (d' - 53)) with (- (106 - d - d')) by lia.
  apply round_aux_exact; [lia|fold d2; lia|].
  rewrite !Pos2Z.inj_mul, Hm, Hm'.
  replace (106 - d - d') with (53 - d + (53 - d')) by lia. rewrite Z.pow_add_r by lia. lia.
Qed.

(** [uint64(x)] for a float64 in range: the fraction is dropped. *)
Definition f64_trunc (x : float64) : Z :=
  match x with
  | S754_finite s m e =>
      cond_Zopp s (if 0 <=? e then Zpos m * 2 ^ e else Zpos m / 2 ^ (- e))
  | _ => 0
  end.

Lemma f64_trunc_of_Z z : 0 ≤ z < 2 ^ 53 → f64_trunc (f64_of_Z z) = z.
Proof.
  intros Hz. destruct z as [|p|p]; [done| |lia]. unfold f64_of_Z. simpl binary_normalize.
  destruct (f64_round_small false p) as (m & -> & Hm); [lia|].
  pose proof (digits2_pos_bounds p) as [Hl Hu]. set (d := Zpos (digits2_pos p)) in *.
  assert (1 ≤ d ≤ 53) as Hd by (apply digits2_pos_53; lia).
  cbn [f64_trunc cond_Zopp]. destruct (0 <=? d - 53) eqn:E.
  - rewrite Hm. replace d with 53 by (bool_split; lia). simpl. lia.
  - rewrite Hm. replace (- (d - 53)) with (53 - d) by lia.
    rewrite Z.div_mul; [done|]. apply Z.pow_nonzero; lia.
Qed.
