(* ===== verification/GoStrings.v ===== *)
(** * Go strings

    What the engine uses of the [strings], [unicode] and [unicode/utf8]
    packages, over byte strings: slicing (which panics out of range), prefixes
    and substrings, splitting on a byte, trimming, upper-casing.  UTF-8 decoding
    and encoding follow the library byte for byte; [unicode.IsSpace] is complete;
    the case mapping of runes above ASCII is the parameter [upper_special], and
    every result about upper-casing holds for any such table. *)

From S2P Require Import Prelude.
From Stdlib Require Import Ascii.

(** ** Bytes, lengths and slices *)

Definition byte_val (c : ascii) : Z := Z.of_N (N_of_ascii c).
Definition byte_of (z : Z) : ascii := ascii_of_N (Z.to_N z).

Abbreviation strlen := String.length.

Fixpoint str_drop (n : nat) (s : string) : string :=
  match n, s with
  | S n, String _ s => str_drop n s
  | _, _ => s
  end.

Fixpoint str_take (n : nat) (s : string) : string :=
  match n, s with
  | S n, String c s => String c (str_take n s)
  | _, _ => ""
  end.

(** [s[n:]] and [s[:n]]; [None] is the runtime panic. *)
Definition slice_from (s : string) (n : nat) : option string :=
  if n <=? strlen s then Some (str_drop n s) else None.
Definition slice_to (s : string) (n : nat) : option string :=
  if n <=? strlen s then Some (str_take n s) else None.
(** [s[i:j]]. *)
Definition slice (s : string) (i j : nat) : option string :=
  if (i <=? j) && (j <=? strlen s) then Some (str_take (j - i) (str_drop i s)) else None.

(** ** Prefixes and substrings *)

Definition HasPrefix (s p : string) : bool := String.prefix p s.

Fixpoint Contains (s sub : string) : bool :=
  HasPrefix s sub || match s with "" => false | String _ s => Contains s sub end.

(** [strings.Index] and [strings.LastIndex]: [None] is the result -1. *)
Fixpoint Index (s sub : string) : option nat :=
  if HasPrefix s sub then Some 0
  else match s with "" => None | String _ s => S <$> Index s sub end.

Fixpoint LastIndex (s sub : string) : option nat :=
  match s with
  | "" => if HasPrefix s sub then Some 0 else None
  | String _ s' =>
      match LastIndex s' sub with
      | Some i => Some (S i)
      | None => if HasPrefix s sub then Some 0 else None
      end
  end.

(** [strings.Count] of a one-byte substring. *)
Fixpoint CountByte (s : string) (c : ascii) : nat :=
  match s with
  | "" => 0
  | String d s => (if Ascii.eqb d c then 1 else 0) + CountByte s c
  end.

Definition TrimPrefix (s p : string) : string :=
  if HasPrefix s p then str_drop (strlen p) s else s.

(** [strings.Split] on a one-byte separator. *)
Fixpoint SplitByte (s : string) (sep : ascii) : list string :=
  match s with
  | "" => [""]
  | String c s =>
      if Ascii.eqb c sep then "" :: SplitByte s sep
      else match SplitByte s sep with
           | [] => [String c ""]
           | w :: ws => String c w :: ws
           end
  end.

Definition nl : ascii := "010"%char.

Fixpoint Join (ss : list string) (sep : string) : string :=
  match ss with
  | [] => ""
  | [s] => s
  | s :: ss => s +:+ sep +:+ Join ss sep
  end.

(** ** UTF-8 *)

Local Open Scope Z_scope.

Definition RuneSelf : Z := 0x80.
Definition RuneError : Z := 0xFFFD.

Definition is_cont (b : Z) : bool := (0x80 <=? b) && (b <=? 0xBF).

(** The [first] and [acceptRanges] tables: the width a leading byte announces
    and the range of the second byte; [None] for a byte that leads nothing. *)
Definition lead_info (b : Z) : option (nat * Z * Z) :=
  if b <? 0xC2 then None
  else if b <=? 0xDF then Some (2%nat, 0x80, 0xBF)
  else if b =? 0xE0 then Some (3%nat, 0xA0, 0xBF)
  else if b =? 0xED then Some (3%nat, 0x80, 0x9F)
  else if b <=? 0xEF then Some (3%nat, 0x80, 0xBF)
  else if b =? 0xF0 then Some (4%nat, 0x90, 0xBF)
  else if b <=? 0xF3 then Some (4%nat, 0x80, 0xBF)
  else if b =? 0xF4 then Some (4%nat, 0x80, 0x8F)
  else None.

Definition low6 (b : Z) : Z := Z.land b 0x3F.

(** [utf8.DecodeRuneInString]: the rune and its width; an invalid sequence is
    [RuneError] of width 1. *)
Definition DecodeRune (s : string) : Z * nat :=
  match s with
  | "" => (RuneError, 0%nat)
  | String c0 s1 =>
      let b0 := byte_val c0 in
      if b0 <? RuneSelf then (b0, 1%nat)
      else
        match lead_info b0, s1 with
        | Some (w, lo, hi), String c1 s2 =>
            let b1 := byte_val c1 in
            if negb ((lo <=? b1) && (b1 <=? hi)) then (RuneError, 1%nat)
            else
              match w, s2 with
              | 2%nat, _ => (Z.lor (Z.shiftl (Z.land b0 0x1F) 6) (low6 b1), 2%nat)
              | _, String c2 s3 =>
                  let b2 := byte_val c2 in
                  if negb (is_cont b2) then (RuneError, 1%nat)
                  else
                    match w, s3 with
                    | 3%nat, _ =>
                        (Z.lor (Z.shiftl (Z.land b0 0x0F) 12)
                               (Z.lor (Z.shiftl (low6 b1) 6) (low6 b2)), 3%nat)
                    | _, String c3 _ =>
                        let b3 := byte_val c3 in
                        if negb (is_cont b3) then (RuneError, 1%nat)
                        else (Z.lor (Z.shiftl (Z.land b0 0x07) 18)
                               (Z.lor (Z.shiftl (low6 b1) 12)
                                 (Z.lor (Z.shiftl (low6 b2) 6) (low6 b3))), 4%nat)
                    | _, "" => (RuneError, 1%nat)
                    end
              | _, "" => (RuneError, 1%nat)
              end
        | _, _ => (RuneError, 1%nat)
        end
  end.

(** [utf8.AppendRune]: surrogates and runes out of range become [RuneError]. *)
Definition EncodeRune (r : Z) : string :=
  let cont x := byte_of (Z.lor 0x80 (low6 x)) in
  let enc3 r := String (byte_of (Z.lor 0xE0 (Z.shiftr r 12)))
                  (String (cont (Z.shiftr r 6)) (String (cont r) "")) in
  if (0 <=? r) && (r <=? 0x7F) then String (byte_of r) ""
  else if (0 <=? r) && (r <=? 0x7FF) then
    String (byte_of (Z.lor 0xC0 (Z.shiftr r 6))) (String (cont r) "")
  else if (r <? 0) || (0x10FFFF <? r) || ((0xD800 <=? r) && (r <=? 0xDFFF)) then enc3 RuneError
  else if r <=? 0xFFFF then enc3 r
  else String (byte_of (Z.lor 0xF0 (Z.shiftr r 18)))
         (String (cont (Z.shiftr r 12)) (String (cont (Z.shiftr r 6)) (String (cont r) ""))).

(** The runes of [for _, c := range s], with their widths.  Every round consumes
    at least a byte, so [strlen s] rounds are enough. *)
Fixpoint runes_loop (fuel : nat) (s : string) : list Z :=
  match fuel, s with
  | S fuel, String _ _ =>
      let '(r, w) := DecodeRune s in r :: runes_loop fuel (str_drop (Nat.max 1 w) s)
  | _, _ => []
  end.

Definition runes (s : string) : list Z := runes_loop (strlen s) s.

(** [utf8.DecodeLastRuneInString]. *)
Definition RuneStart (b : Z) : bool := negb (Z.land b 0xC0 =? 0x80).

Definition byte_at (s : string) (i : nat) : Z :=
  match String.get i s with Some c => byte_val c | None => 0 end.

(** Looks back from [start] for a byte that can lead a rune, [k] bytes at most. *)
Fixpoint look_back (s : string) (start k : nat) : nat :=
  match k, start with
  | S k, S start' => if RuneStart (byte_at s start') then start' else look_back s start' k
  | _, _ => start
  end.

Definition DecodeLastRune (s : string) : Z * nat :=
  let n := strlen s in
  match n with
  | O => (RuneError, 0%nat)
  | S start =>
      let r := byte_at s start in
      if r <? RuneSelf then (r, 1%nat)
      else
        let start' := look_back s start 3 in
        let '(r, size) := DecodeRune (str_drop start' s) in
        if Nat.eqb (start' + size) n then (r, size) else (RuneError, 1%nat)
  end.

(** ** White space *)

(** [unicode.IsSpace]. *)
Definition IsSpace (r : Z) : bool :=
  ((9 <=? r) && (r <=? 13)) || (r =? 32) || (r =? 0x85) || (r =? 0xA0) ||
  (r =? 0x1680) || ((0x2000 <=? r) && (r <=? 0x200a)) ||
  (r =? 0x2028) || (r =? 0x2029) || (r =? 0x202f) || (r =? 0x205f) || (r =? 0x3000).

Fixpoint trim_left (fuel : nat) (s : string) : string :=
  match fuel with
  | O => s
  | S fuel =>
      let '(r, w) := DecodeRune s in
      if (0 <? w)%nat && IsSpace r then trim_left fuel (str_drop w s) else s
  end.

Fixpoint trim_right (fuel : nat) (s : string) : string :=
  match fuel with
  | O => s
  | S fuel =>
      let '(r, w) := DecodeLastRune s in
      if (0 <? w)%nat && IsSpace r then trim_right fuel (str_take (strlen s - w) s) else s
  end.

Definition TrimSpace (s : string) : string :=
  let s := trim_left (strlen s) s in trim_right (strlen s) s.

(** [strings.Fields]: the runs of runes that are not white space; [cur] is the run
    being read. *)
Fixpoint fields_loop (fuel : nat) (s cur : string) : list string :=
  let flush := if String.eqb cur "" then [] else [cur] in
  match fuel, s with
  | S fuel, String _ _ =>
      let '(r, w) := DecodeRune s in
      let w := Nat.max 1 w in
      if IsSpace r then flush ++ fields_loop fuel (str_drop w s) ""
      else fields_loop fuel (str_drop w s) (cur +:+ str_take w s)
  | _, _ => flush
  end.

Definition Fields (s : string) : list string := fields_loop (strlen s) s "".

(** [strings.TrimRight(s, "\n")], or of any one-byte cutset. *)
Fixpoint TrimRightByte (s : string) (c : ascii) : string :=
  match s with
  | "" => ""
  | String d s =>
      match TrimRightByte s c with
      | "" => if Ascii.eqb d c then "" else String d ""
      | s' => String d s'
      end
  end.

(** ** Upper case *)

(** Every byte satisfies [P]. *)
Fixpoint str_all (P : ascii → bool) (s : string) : bool :=
  match s with "" => true | String c s => P c && str_all P s end.

Definition is_ascii (s : string) : bool := str_all (λ c, byte_val c <? RuneSelf) s.

Fixpoint map_bytes (f : Z → Z) (s : string) : string :=
  match s with "" => "" | String c s => String (byte_of (f (byte_val c))) (map_bytes f s) end.

Definition upper_ascii (r : Z) : Z := if (97 <=? r) && (r <=? 122) then r - 32 else r.

(** [unicode.To(UpperCase, r)] for the runes above ASCII: a table of Unicode data. *)
Class UnicodeTables := upper_special : Z → Z.

Definition upper_rune `{UnicodeTables} (r : Z) : Z :=
  if r <=? 0x7F then upper_ascii r else upper_special r.

Definition ToUpper `{UnicodeTables} (s : string) : string :=
  if is_ascii s then map_bytes upper_ascii s
  else foldr (λ r acc, EncodeRune (upper_rune r) +:+ acc) "" (runes s).

(** A table without special runes, for concrete runs. *)
Definition no_special : UnicodeTables := λ r, r.

(** [strings.ToLower], with a table of its own. *)
Class UnicodeLowerTables := lower_special : Z → Z.

Definition lower_ascii (r : Z) : Z := if (65 <=? r) && (r <=? 90) then r + 32 else r.

Definition lower_rune `{UnicodeLowerTables} (r : Z) : Z :=
  if r <=? 0x7F then lower_ascii r else lower_special r.

Definition ToLower `{UnicodeLowerTables} (s : string) : string :=
  if is_ascii s then map_bytes lower_ascii s
  else foldr (λ r acc, EncodeRune (lower_rune r) +:+ acc) "" (runes s).

Section examples.
#[local] Existing Instance no_special.
Example trim_ex : TrimSpace ("  FROM a" +:+ String "009" " ") = "FROM a".
Proof. vm_compute. reflexivity. Qed.
Example upper_ex : ToUpper "from Café:1 as x" = "FROM CAFé:1 AS X".
Proof. vm_compute. reflexivity. Qed.
Example fields_ex : Fields " stage-1  2/5 " = ["stage-1"; "2/5"].
Proof. vm_compute. reflexivity. Qed.
Example split_ex : SplitByte "a:b::" ":" = ["a"; "b"; ""; ""].
Proof. reflexivity. Qed.
Example last_ex : LastIndex "a AS b AS c" " AS " = Some 6%nat.
Proof. reflexivity. Qed.
Example decode_ex : runes "aé€😀" = [97; 233; 8364; 128512].
Proof. vm_compute. reflexivity. Qed.
Example trim_unicode_ex : TrimSpace (" x" +:+ String "227" (String "128" (String "128" ""))) = "x".
Proof. vm_compute. reflexivity. Qed.
End examples.

(** ** Facts *)

Local Open Scope nat_scope.

Lemma strlen_app s t : strlen (s +:+ t) = strlen s + strlen t.
Proof. induction s as [|c s IH]; simpl; [done|]. by rewrite IH. Qed.

Lemma str_app_cons c s t : String c s +:+ t = String c (s +:+ t).
Proof. reflexivity. Qed.

Lemma str_app_nil_r s : s +:+ "" = s.
Proof. induction s as [|c s IH]; [done|]. by rewrite !str_app_cons, IH. Qed.

Lemma str_app_assoc s t u : s +:+ (t +:+ u) = (s +:+ t) +:+ u.
Proof. induction s as [|c s IH]; [done|]. by rewrite !str_app_cons, IH. Qed.

Lemma HasPrefix_length s p : HasPrefix s p = true → strlen p ≤ strlen s.
Proof.
  revert s; induction p as [|c p IH]; intros [|d s]; simpl; try (by auto with lia).
  destruct (ascii_dec c d); [|done]. intros H. apply IH in H. lia.
Qed.

Lemma LastIndex_bound s sub i : LastIndex s sub = Some i → i + strlen sub ≤ strlen s.
Proof.
  revert i; induction s as [|c s IH]; intros i; cbn [LastIndex].
  - destruct (HasPrefix "" sub) eqn:E; [|done]. intros [= <-]. by apply HasPrefix_length in E.
  - destruct (LastIndex s sub) as [j|]; [intros [= <-]; specialize (IH j eq_refl); simpl; lia|].
    destruct (HasPrefix (String c s) sub) eqn:E; [|done]. intros [= <-].
    by apply HasPrefix_length in E.
Qed.

Lemma Index_bound s sub i : Index s sub = Some i → i + strlen sub ≤ strlen s.
Proof.
  revert i; induction s as [|c s IH]; intros i; cbn [Index].
  - destruct (HasPrefix "" sub) eqn:E; [|done]. intros [= <-]. by apply HasPrefix_length in E.
  - destruct (HasPrefix (String c s) sub) eqn:E; [intros [= <-]; by apply HasPrefix_length in E|].
    destruct (Index s sub) as [j|]; [|done]. intros [= <-]. specialize (IH j eq_refl). simpl. lia.
Qed.

Lemma slice_from_ok s n : n ≤ strlen s → slice_from s n = Some (str_drop n s).
Proof. intros H. unfold slice_from. by rewrite (proj2 (Nat.leb_le _ _) H). Qed.

Lemma slice_to_ok s n : n ≤ strlen s → slice_to s n = Some (str_take n s).
Proof. intros H. unfold slice_to. by rewrite (proj2 (Nat.leb_le _ _) H). Qed.

(** What holds of every byte still does after slicing, splitting and trimming. *)
Section str_all.
Context (P : ascii → bool).

Lemma str_all_drop n s : str_all P s = true → str_all P (str_drop n s) = true.
Proof.
  revert s; induction n as [|n IH]; intros [|c s] H; simpl in *; auto. bool_split. auto.
Qed.

Lemma str_all_take n s : str_all P s = true → str_all P (str_take n s) = true.
Proof.
  revert s; induction n as [|n IH]; intros [|c s] H; simpl in *; auto.
  apply andb_true_iff in H as [-> H]. simpl. auto.
Qed.

Lemma str_all_trim_left fuel s : str_all P s = true → str_all P (trim_left fuel s) = true.
Proof.
  revert s; induction fuel as [|fuel IH]; intros s H; cbn [trim_left]; [done|].
  destruct (DecodeRune s) as [r w]. destruct (_ && _); auto using str_all_drop.
Qed.

Lemma str_all_trim_right fuel s : str_all P s = true → str_all P (trim_right fuel s) = true.
Proof.
  revert s; induction fuel as [|fuel IH]; intros s H; cbn [trim_right]; [done|].
  destruct (DecodeLastRune s) as [r w]. destruct (_ && _); auto using str_all_take.
Qed.

Lemma str_all_TrimSpace s : str_all P s = true → str_all P (TrimSpace s) = true.
Proof. intros H. unfold TrimSpace. auto using str_all_trim_left, str_all_trim_right. Qed.

Lemma str_all_SplitByte s sep :
  str_all P s = true → Forall (λ l, str_all P l = true) (SplitByte s sep).
Proof.
  induction s as [|c s IH]; cbn [SplitByte str_all]; [by repeat constructor|].
  intros [Hc Hs]%andb_true_iff. specialize (IH Hs). destruct (Ascii.eqb c sep).
  - by constructor.
  - destruct IH as [|w ws Hw Hws]; constructor; cbn [str_all]; rewrite ?Hc, ?Hw; auto.
Qed.
End str_all.

Lemma strlen_map_bytes f s : strlen (map_bytes f s) = strlen s.
Proof. induction s as [|c s IH]; simpl; [done|]. by rewrite IH. Qed.

Lemma strlen_ToUpper `{UnicodeTables} s : is_ascii s = true → strlen (ToUpper s) = strlen s.
Proof. intros Hs. unfold ToUpper. rewrite Hs. apply strlen_map_bytes. Qed.

#[export] Hint Resolve str_all_drop str_all_take str_all_TrimSpace str_all_SplitByte : dt.

(** ** Splitting on a byte *)

Lemma HasPrefix_app p s : HasPrefix (p +:+ s) p = true.
Proof.
  unfold HasPrefix. induction p as [|c p IH]; [by destruct s|]. rewrite str_app_cons. simpl.
  destruct (ascii_dec c c); [done|congruence].
Qed.

Lemma HasPrefix_inv s p : HasPrefix s p = true → ∃ t, s = p +:+ t.
Proof.
  unfold HasPrefix. revert s; induction p as [|c p IH]; intros s Hp; [by exists s|].
  destruct s as [|d s]; [done|]. simpl in Hp. destruct (ascii_dec c d) as [->|]; [|done].
  destruct (IH s Hp) as [t ->]. by exists t.
Qed.

Lemma HasPrefix_char c c' s : HasPrefix (String c' s) (String c "") = Ascii.eqb c' c.
Proof.
  unfold HasPrefix. cbn [String.prefix]. destruct (ascii_dec c c') as [->|Hn].
  - rewrite Ascii.eqb_refl. by destruct s.
  - symmetry. apply Ascii.eqb_neq. congruence.
Qed.

Lemma Index_char c s t :
  str_all (λ a, negb (Ascii.eqb a c)) s = true → Index (s +:+ String c t) (String c "") = Some (strlen s).
Proof.
  induction s as [|a s IH]; cbn [str_all]; intros Hs.
  - change ("" +:+ String c t) with (String c t). cbn [Index]. by rewrite HasPrefix_char, Ascii.eqb_refl.
  - bool_split. rewrite str_app_cons. cbn [Index]. rewrite HasPrefix_char, IH by done.
    by rewrite H.
Qed.

Lemma Index_free c s : str_all (λ a, negb (Ascii.eqb a c)) s = true → Index s (String c "") = None.
Proof.
  induction s as [|a s IH]; cbn [str_all]; intros Hs; [done|]. bool_split. cbn [Index].
  by rewrite HasPrefix_char, IH, H by done.
Qed.

Section split.
Context (sep : ascii).

(** [s] does not contain the separator. *)
Abbreviation free := (str_all (λ c, negb (Ascii.eqb c sep))).

Lemma SplitByte_nonempty s : SplitByte s sep ≠ [].
Proof.
  destruct s as [|c s]; cbn [SplitByte]; [done|].
  destruct (Ascii.eqb c sep); [done|]. by destruct (SplitByte s sep).
Qed.

Lemma SplitByte_parts_free s : Forall (λ w, free w = true) (SplitByte s sep).
Proof.
  induction s as [|c s IH]; cbn [SplitByte]; [by repeat constructor|].
  destruct (Ascii.eqb c sep) eqn:E; [by constructor|].
  destruct IH as [|w ws Hw Hws]; constructor; cbn [str_all]; rewrite ?E, ?Hw; auto.
Qed.

Lemma SplitByte_free s : free s = true → SplitByte s sep = [s].
Proof.
  induction s as [|c s IH]; cbn [SplitByte str_all]; [done|].
  intros [Hc Hs]%andb_true_iff. apply negb_true_iff in Hc. by rewrite Hc, (IH Hs).
Qed.

Lemma SplitByte_app_sep s t :
  SplitByte (s +:+ String sep t) sep = SplitByte s sep ++ SplitByte t sep.
Proof.
  induction s as [|c s IH].
  - change ("" +:+ String sep t) with (String sep t). cbn [SplitByte]. by rewrite Ascii.eqb_refl.
  - rewrite str_app_cons. cbn [SplitByte]. rewrite IH. destruct (Ascii.eqb c sep); [done|].
    pose proof (SplitByte_nonempty s). by destruct (SplitByte s sep).
Qed.

Lemma SplitByte_Join ws :
  ws ≠ [] → Forall (λ w, free w = true) ws → SplitByte (Join ws (String sep "")) sep = ws.
Proof.
  intros Hne. induction 1 as [|w ws Hw Hws IH]; [done|]. destruct ws as [|w' ws].
  - by apply SplitByte_free.
  - change (Join (w :: w' :: ws) (String sep "")) with
      (w +:+ String sep (Join (w' :: ws) (String sep ""))).
    rewrite SplitByte_app_sep, SplitByte_free, IH by done. done.
Qed.

Lemma Join_SplitByte s : Join (SplitByte s sep) (String sep "") = s.
Proof.
  induction s as [|c s IH]; [done|]. cbn [SplitByte]. pose proof (SplitByte_nonempty s) as Hne.
  destruct (Ascii.eqb_spec c sep) as [->|Hc]; destruct (SplitByte s sep) as [|w ws]; try done.
  - change (Join ("" :: w :: ws) (String sep "")) with (String sep (Join (w :: ws) (String sep ""))).
    by rewrite IH.
  - rewrite <- IH. by destruct ws.
Qed.

Lemma Join_app ws vs :
  ws ≠ [] → vs ≠ [] →
  Join (ws ++ vs) (String sep "") = Join ws (String sep "") +:+ String sep (Join vs (String sep "")).
Proof.
  intros Hw Hv. induction ws as [|w ws IH]; [done|]. destruct ws as [|w' ws].
  - by destruct vs.
  - change (Join ((w :: w' :: ws) ++ vs) (String sep "")) with
      (w +:+ String sep (Join ((w' :: ws) ++ vs) (String sep ""))).
    rewrite IH by done.
    change (Join (w :: w' :: ws) (String sep "")) with
      (w +:+ String sep (Join (w' :: ws) (String sep ""))).
    by rewrite <- str_app_assoc.
Qed.

Lemma LastIndex_free w : free w = true → LastIndex w (String sep "") = None.
Proof.
  induction w as [|c w IH]; cbn [LastIndex str_all]; [done|].
  intros [Hc Hw]%andb_true_iff. rewrite (IH Hw). unfold HasPrefix. simpl.
  destruct (ascii_dec sep c) as [->|]; [|done]. by rewrite Ascii.eqb_refl in Hc.
Qed.

Lemma LastIndex_last s w :
  free w = true → LastIndex (s +:+ String sep w) (String sep "") = Some (strlen s).
Proof.
  intros Hw. induction s as [|c s IH].
  - change ("" +:+ String sep w) with (String sep w). cbn [LastIndex]. rewrite (LastIndex_free w Hw). unfold HasPrefix. simpl.
    destruct (ascii_dec sep sep); [|done]. by destruct w.
  - rewrite str_app_cons. cbn [LastIndex]. by rewrite IH.
Qed.
End split.

Lemma str_take_app s t : str_take (strlen s) (s +:+ t) = s.
Proof. induction s as [|c s IH]; simpl; [done|]. by rewrite IH. Qed.

Lemma str_drop_app s t : str_drop (strlen s) (s +:+ t) = t.
Proof. by induction s as [|c s IH]. Qed.
