(* ===== verification/GoJSON.v ===== *)
(** * UTF-8 and encoding/json

    The round trip of UTF-8, and the JSON codec of the two column types of the
    engine, [[]string] and [map[string]string]: [json.Marshal] with its escaping
    (HTML characters, control characters, U+2028 and U+2029, invalid UTF-8) and
    [json.Unmarshal] on arrays and objects of strings. *)

From S2P Require Import Prelude GoStrings GoSort.
From Stdlib Require Import Ascii.

Local Open Scope Z_scope.

(** ** UTF-8 *)

(** A Unicode scalar value: a code point that UTF-8 encodes. *)
Definition scalar (r : Z) : Prop := 0 ≤ r ≤ 0x10FFFF ∧ ¬ (0xD800 ≤ r ≤ 0xDFFF).
#[global] Instance scalar_dec r : Decision (scalar r).
Proof. unfold scalar. apply _. Defined.

Lemma byte_val_of z : 0 ≤ z < 256 → byte_val (byte_of z) = z.
Proof. intros Hz. unfold byte_val, byte_of. rewrite N_ascii_embedding by lia. lia. Qed.

Lemma lor_shiftl a b n : 0 ≤ n → 0 ≤ b < 2 ^ n → Z.lor (Z.shiftl a n) b = a * 2 ^ n + b.
Proof.
  intros Hn Hb. rewrite <- Z.shiftl_mul_pow2, <- Z.add_lor_land by done.
  assert (Z.land (Z.shiftl a n) b = 0) as ->; [|lia].
  apply Z.bits_inj'. intros i Hi. rewrite Z.land_spec, Z.bits_0, Z.shiftl_spec by done.
  destruct (Z.lt_ge_cases i n).
  - rewrite (Z.testbit_neg_r a) by lia. done.
  - assert (Z.testbit b i = false) as ->; [|by rewrite andb_false_r].
    rewrite <- (Z.mod_small b (2 ^ n)) by done. by apply Z.mod_pow2_bits_high.
Qed.

Lemma low6_mod b : low6 b = b mod 64.
Proof. apply (Z.land_ones b 6). lia. Qed.
Lemma land_1F b : Z.land b 0x1F = b mod 32.
Proof. apply (Z.land_ones b 5). lia. Qed.
Lemma land_0F b : Z.land b 0x0F = b mod 16.
Proof. apply (Z.land_ones b 4). lia. Qed.
Lemma land_07 b : Z.land b 0x07 = b mod 8.
Proof. apply (Z.land_ones b 3). lia. Qed.

(** The bytes of a multi-byte rune, as sums. *)
Lemma lor_C0 x : 0 ≤ x < 32 → Z.lor 0xC0 x = 192 + x.
Proof. intros. exact (lor_shiftl 6 x 5 ltac:(lia) ltac:(lia)). Qed.
Lemma lor_E0 x : 0 ≤ x < 16 → Z.lor 0xE0 x = 224 + x.
Proof. intros. exact (lor_shiftl 14 x 4 ltac:(lia) ltac:(lia)). Qed.
Lemma lor_F0 x : 0 ≤ x < 8 → Z.lor 0xF0 x = 240 + x.
Proof. intros. exact (lor_shiftl 30 x 3 ltac:(lia) ltac:(lia)). Qed.
Lemma lor_80 x : 0 ≤ x < 64 → Z.lor 0x80 x = 128 + x.
Proof. intros. exact (lor_shiftl 2 x 6 ltac:(lia) ltac:(lia)). Qed.

Ltac div_lia := Z.to_euclidean_division_equations; lia.

Lemma cont_byte x : byte_val (byte_of (Z.lor 0x80 (low6 x))) = 128 + x mod 64.
Proof.
  rewrite low6_mod, lor_80 by (apply Z.mod_pos_bound; lia). apply byte_val_of.
  pose proof (Z.mod_pos_bound x 64). lia.
Qed.

Ltac decide_Z :=
  repeat match goal with
  | |- context [(?a <? ?b)] =>
      first [rewrite (proj2 (Z.ltb_lt a b)) by div_lia | rewrite (proj2 (Z.ltb_ge a b)) by div_lia]
  | |- context [(?a <=? ?b)] =>
      first [rewrite (proj2 (Z.leb_le a b)) by div_lia | rewrite (proj2 (Z.leb_gt a b)) by div_lia]
  | |- context [(?a =? ?b)] =>
      first [rewrite (proj2 (Z.eqb_eq a b)) by div_lia | rewrite (proj2 (Z.eqb_neq a b)) by div_lia]
  end; cbn [andb orb negb].

Lemma Decode_Encode2 r t :
  0x80 ≤ r ≤ 0x7FF → DecodeRune (EncodeRune r +:+ t) = (r, 2%nat).
Proof.
  intros Hr. unfold EncodeRune. decide_Z. rewrite !str_app_cons. cbn [DecodeRune].
  rewrite Z.shiftr_div_pow2, lor_C0, byte_val_of, cont_byte by div_lia. change (2 ^ 6) with 64.
  unfold RuneSelf, lead_info. decide_Z. rewrite low6_mod, land_1F, lor_shiftl by div_lia.
  f_equal. div_lia.
Qed.

Ltac lor_sums :=
  rewrite (lor_shiftl _ _ 6) by div_lia; change (2 ^ 6) with 64;
  rewrite (lor_shiftl _ _ 12) by (change (2 ^ 12) with 4096; div_lia); change (2 ^ 12) with 4096;
  try (rewrite (lor_shiftl _ _ 18) by (change (2 ^ 18) with 262144; div_lia); change (2 ^ 18) with 262144).

Lemma Decode_Encode3 r t :
  0x800 ≤ r ≤ 0xFFFF → ¬ (0xD800 ≤ r ≤ 0xDFFF) → DecodeRune (EncodeRune r +:+ t) = (r, 3%nat).
Proof.
  intros Hr Hs.
  assert (EncodeRune r = String (byte_of (224 + r / 4096))
    (String (byte_of (Z.lor 0x80 (low6 (r / 64)))) (String (byte_of (Z.lor 0x80 (low6 r))) ""))) as ->.
  { unfold EncodeRune. decide_Z.
    assert ((0xD800 <=? r) && (r <=? 0xDFFF) = false) as -> by
      (apply andb_false_iff; destruct (Z.leb_spec 0xD800 r); [right|by left]; apply Z.leb_gt; lia).
    rewrite !Z.shiftr_div_pow2 by lia. change (2 ^ 12) with 4096. rewrite lor_E0 by div_lia. done. }
  rewrite !str_app_cons. cbn [DecodeRune].
  rewrite !cont_byte, byte_val_of by div_lia.
  assert (lead_info (224 + r / 4096) = Some (3%nat, (if r <? 0x1000 then 0xA0 else 0x80),
            (if (r <? 0xD000) || (0xDFFF <? r) then 0xBF else 0x9F))) as ->.
  { unfold lead_info. destruct (Z.ltb_spec r 0x1000); [decide_Z; done|].
    destruct (Z.ltb_spec r 0xD000); [decide_Z; done|].
    destruct (Z.ltb_spec 0xDFFF r); [decide_Z; done|]. decide_Z. done. }
  unfold RuneSelf, is_cont.
  rewrite !low6_mod, land_0F.
  destruct (Z.ltb_spec r 0x1000); [|destruct (Z.ltb_spec r 0xD000); [|destruct (Z.ltb_spec 0xDFFF r)]];
    cbn [orb]; decide_Z; decide_Z; lor_sums; (f_equal; div_lia).
Qed.

Lemma Decode_Encode4 r t :
  0x10000 ≤ r ≤ 0x10FFFF → DecodeRune (EncodeRune r +:+ t) = (r, 4%nat).
Proof.
  intros Hr.
  assert (EncodeRune r = String (byte_of (240 + r / 262144))
    (String (byte_of (Z.lor 0x80 (low6 (r / 4096))))
    (String (byte_of (Z.lor 0x80 (low6 (r / 64)))) (String (byte_of (Z.lor 0x80 (low6 r))) "")))) as ->.
  { unfold EncodeRune. decide_Z.
    rewrite !Z.shiftr_div_pow2 by lia. change (2 ^ 18) with 262144. rewrite lor_F0 by div_lia. done. }
  rewrite !str_app_cons. cbn [DecodeRune].
  rewrite !cont_byte, byte_val_of by div_lia.
  assert (lead_info (240 + r / 262144) = Some (4%nat, (if r <? 0x40000 then 0x90 else 0x80),
            (if r <? 0x100000 then 0xBF else 0x8F))) as ->.
  { unfold lead_info. destruct (Z.ltb_spec r 0x40000); [decide_Z; done|].
    destruct (Z.ltb_spec r 0x100000); decide_Z; done. }
  unfold RuneSelf, is_cont. rewrite !low6_mod, land_07.
  destruct (Z.ltb_spec r 0x40000); [|destruct (Z.ltb_spec r 0x100000)];
    decide_Z; decide_Z; lor_sums; (f_equal; div_lia).
Qed.

Lemma Decode_Encode1 r t : 0 ≤ r ≤ 0x7F → DecodeRune (EncodeRune r +:+ t) = (r, 1%nat).
Proof.
  intros Hr. unfold EncodeRune. decide_Z. rewrite str_app_cons. cbn [DecodeRune].
  rewrite byte_val_of by lia. unfold RuneSelf. decide_Z. done.
Qed.

Lemma strlen_EncodeRune r : scalar r →
  strlen (EncodeRune r) =
  if r <=? 0x7F then 1%nat else if r <=? 0x7FF then 2%nat else if r <=? 0xFFFF then 3%nat else 4%nat.
Proof.
  intros [Hr Hs]. unfold EncodeRune.
  destruct (Z.leb_spec r 0x7F); [decide_Z; done|].
  destruct (Z.leb_spec r 0x7FF); [decide_Z; done|].
  destruct (Z.leb_spec r 0xFFFF); decide_Z; [by destruct (_ && _)|done].
Qed.

(** UTF-8 decoding inverts encoding, whatever follows. *)
Lemma DecodeRune_Encode r t :
  scalar r → DecodeRune (EncodeRune r +:+ t) = (r, strlen (EncodeRune r)).
Proof.
  intros Hs. rewrite strlen_EncodeRune by done. destruct Hs as [Hr Hs].
  destruct (Z.leb_spec r 0x7F); [apply Decode_Encode1; lia|].
  destruct (Z.leb_spec r 0x7FF); [apply Decode_Encode2; lia|].
  destruct (Z.leb_spec r 0xFFFF); [apply Decode_Encode3; lia|apply Decode_Encode4; lia].
Qed.

(** Valid UTF-8: the encoding of a sequence of scalar values. *)
Definition encode_runes (rs : list Z) : string := foldr (λ r acc, EncodeRune r +:+ acc) "" rs.
Definition utf8_valid (s : string) : Prop := ∃ rs, Forall scalar rs ∧ s = encode_runes rs.

Lemma is_ascii_valid s : is_ascii s = true → utf8_valid s.
Proof.
  induction s as [|c s IH]; cbn [is_ascii str_all]; [by exists []|].
  intros [Hc Hs]%andb_true_iff. destruct (IH Hs) as (rs & Hrs & ->).
  unfold RuneSelf in Hc. bool_split.
  assert (0 ≤ byte_val c) by (unfold byte_val; lia).
  exists (byte_val c :: rs). split; [constructor; [unfold scalar; lia|done]|].
  simpl. unfold EncodeRune. decide_Z. rewrite str_app_cons. f_equal.
  unfold byte_of, byte_val. by rewrite N2Z.id, ascii_N_embedding.
Qed.

(** ** json.Marshal *)

Definition dq : ascii := "034"%char.

Definition hexd (z : Z) : ascii := byte_of (if z <? 10 then 48 + z else 87 + z).

(** The text that [appendString] writes for a rune whose bytes are [raw]. *)
Definition escape_rune (r : Z) (raw : string) : string :=
  if (r =? 34) || (r =? 92) then String "\" raw
  else if r =? 8 then "\b" else if r =? 12 then "\f" else if r =? 10 then "\n"
  else if r =? 13 then "\r" else if r =? 9 then "\t"
  else if (r <? 32) || (r =? 60) || (r =? 62) || (r =? 38) then
    "\u00" +:+ String (hexd (Z.shiftr r 4)) (String (hexd (Z.land r 15)) "")
  else if (r =? 0x2028) || (r =? 0x2029) then "\u202" +:+ String (hexd (Z.land r 15)) ""
  else raw.

(** Every round consumes at least a byte. *)
Fixpoint escape (fuel : nat) (s : string) : string :=
  match fuel, s with
  | S fuel, String _ _ =>
      let '(r, w) := DecodeRune s in
      (if (r =? RuneError) && (w =? 1)%nat then "\ufffd" else escape_rune r (str_take w s)) +:+
      escape fuel (str_drop w s)
  | _, _ => ""
  end.

Definition quote (s : string) : string := String dq (escape (strlen s) s +:+ String dq "").

(** A nil slice; in this model also an empty one. *)
Definition marshal_strings (l : list string) : string :=
  match l with
  | [] => "null"
  | _ => "[" +:+ Join (quote <$> l) "," +:+ "]"
  end.

(** A map is written in the order of its keys. *)
Definition member (k v : string) : string := quote k +:+ ":" +:+ quote v.

Definition sorted_members (m : gmap string string) : list (string * string) :=
  (λ k, (k, m !!! k)) <$> Strings (map_to_list m).*1.

Definition marshal_args (m : option (gmap string string)) : string :=
  match m with
  | None => "null"
  | Some m => "{" +:+ Join ((λ kv, member kv.1 kv.2) <$> sorted_members m) "," +:+ "}"
  end.

(** ** json.Unmarshal *)

Definition hex_val (c : ascii) : option Z :=
  let v := byte_val c in
  if (48 <=? v) && (v <=? 57) then Some (v - 48)
  else if (97 <=? v) && (v <=? 102) then Some (v - 87)
  else if (65 <=? v) && (v <=? 70) then Some (v - 55) else None.

(** [getu4] after the [\u]: four digits and what follows. *)
Definition getu4 (s : string) : option (Z * string) :=
  match s with
  | String a (String b (String c (String d s))) =>
      a ← hex_val a; b ← hex_val b; c ← hex_val c; d ← hex_val d;
      Some (((a * 16 + b) * 16 + c) * 16 + d, s)
  | _ => None
  end.

(** A surrogate pairs with a following [\u] escape, or becomes U+FFFD. *)
Definition surrogate (r : Z) (s : string) : string * string :=
  if (0xD800 <=? r) && (r <=? 0xDFFF) then
    match s with
    | String "\" (String "u" s1) =>
        match getu4 s1 with
        | Some (r1, s2) =>
            if (r <? 0xDC00) && (0xDC00 <=? r1) && (r1 <=? 0xDFFF)
            then (EncodeRune (Z.lor (Z.shiftl (r - 0xD800) 10) (r1 - 0xDC00) + 0x10000), s2)
            else (EncodeRune RuneError, s)
        | None => (EncodeRune RuneError, s)
        end
    | _ => (EncodeRune RuneError, s)
    end
  else (EncodeRune r, s).

Definition simple_escape (c : ascii) : option ascii :=
  let v := byte_val c in
  if (v =? 34) || (v =? 92) || (v =? 47) then Some c
  else if v =? 98 then Some (byte_of 8) else if v =? 102 then Some (byte_of 12)
  else if v =? 110 then Some (byte_of 10) else if v =? 114 then Some (byte_of 13)
  else if v =? 116 then Some (byte_of 9) else None.

(** The contents of a string literal after its opening quote, and what follows it. *)
Fixpoint unquote (fuel : nat) (s : string) : option (string * string) :=
  match fuel, s with
  | S fuel, String c s' =>
      let v := byte_val c in
      if v =? 34 then Some ("", s')
      else if v =? 92 then
        match s' with
        | String e s2 =>
            if byte_val e =? 117 then
              '(r, s3) ← getu4 s2;
              let '(x, s4) := surrogate r s3 in
              '(y, t) ← unquote fuel s4; Some (x +:+ y, t)
            else
              x ← simple_escape e;
              '(y, t) ← unquote fuel s2; Some (String x y, t)
        | "" => None
        end
      else if v <? 32 then None
      else if v <? RuneSelf then '(y, t) ← unquote fuel s'; Some (String c y, t)
      else
        let '(r, w) := DecodeRune s in
        '(y, t) ← unquote fuel (str_drop w s); Some (EncodeRune r +:+ y, t)
  | _, _ => None
  end.

Fixpoint skip_ws (s : string) : string :=
  match s with
  | String c s' => let v := byte_val c in
      if (v =? 32) || (v =? 9) || (v =? 10) || (v =? 13) then skip_ws s' else s
  | "" => ""
  end.

(** A string literal, and the next character after it. *)
Definition string_then (s : string) : option (string * ascii * string) :=
  match skip_ws s with
  | String c s1 =>
      if Ascii.eqb c dq then
        '(x, s2) ← unquote (strlen s1) s1;
        match skip_ws s2 with String d s3 => Some (x, d, s3) | "" => None end
      else None
  | "" => None
  end.

(** The elements of an array of strings, from the first one. *)
Fixpoint elements (fuel : nat) (s : string) : option (list string * string) :=
  match fuel with
  | O => None
  | S fuel =>
      '(x, d, s) ← string_then s;
      if Ascii.eqb d "," then '(xs, t) ← elements fuel s; Some (x :: xs, t)
      else if Ascii.eqb d "]" then Some ([x], s) else None
  end.

Fixpoint members (fuel : nat) (s : string) : option (list (string * string) * string) :=
  match fuel with
  | O => None
  | S fuel =>
      '(k, d, s) ← string_then s;
      if negb (Ascii.eqb d ":") then None
      else
        '(v, d, s) ← string_then s;
        if Ascii.eqb d "," then '(xs, t) ← members fuel s; Some ((k, v) :: xs, t)
        else if Ascii.eqb d "}" then Some ([(k, v)], s) else None
  end.

Definition at_end {A} (x : option (A * string)) : option A :=
  '(a, t) ← x; if String.eqb (skip_ws t) "" then Some a else None.

(** Into a [[]string]: null, or an array of strings. *)
Definition unmarshal_strings (s : string) : option (list string) :=
  let s := skip_ws s in
  if HasPrefix s "null" then at_end (Some ([], str_drop 4 s))
  else match s with
       | String "[" s1 =>
           match skip_ws s1 with
           | String "]" t => at_end (Some ([], t))
           | _ => at_end (elements (strlen s1) s1)
           end
       | _ => None
       end.

(** Into a [map[string]string]: null leaves the nil map, a later member overrides an
    earlier one. *)
Definition unmarshal_args (s : string) : option (option (gmap string string)) :=
  let s := skip_ws s in
  if HasPrefix s "null" then at_end (Some (None, str_drop 4 s))
  else match s with
       | String "{" s1 =>
           match skip_ws s1 with
           | String "}" t => at_end (Some (Some ∅, t))
           | _ => kvs ← at_end (members (strlen s1) s1);
                  Some (Some (foldl (λ m kv, <[kv.1 := kv.2]> m) ∅ kvs))
           end
       | _ => None
       end.

Example marshal_ex : marshal_strings ["RUN make && x"; "COPY a" +:+ String dq "b	c"] =
  "[" +:+ String dq "RUN make \u0026\u0026 x" +:+ String dq "," +:+ String dq "COPY a\" +:+
  String dq "b\tc" +:+ String dq "]".
Proof. vm_compute. reflexivity. Qed.
Example args_ex : unmarshal_args (marshal_args (Some {["VERSION" := "1.2"; "A" := "é<"]})) =
  Some (Some {["A" := "é<"; "VERSION" := "1.2"]}).
Proof. vm_compute. reflexivity. Qed.

(** ** The round trip *)

Lemma EncodeRune_cons r : scalar r → ∃ c s, EncodeRune r = String c s.
Proof.
  intros Hr. pose proof (strlen_EncodeRune r Hr) as Hl.
  destruct (EncodeRune r) as [|c s]; [|by eauto]. exfalso. simpl in Hl. repeat case_match; lia.
Qed.

Definition escape_runes (rs : list Z) : string :=
  foldr (λ r acc, escape_rune r (EncodeRune r) +:+ acc) "" rs.

Lemma escape_encode fuel rs :
  Forall scalar rs → (length rs ≤ fuel)%nat → escape fuel (encode_runes rs) = escape_runes rs.
Proof.
  intros Hrs. revert fuel; induction Hrs as [|r rs Hr _ IH]; intros fuel Hf; [by destruct fuel|].
  destruct fuel as [|fuel]; simpl in Hf; [lia|]. simpl.
  destruct (EncodeRune_cons r Hr) as (c & s & Ec). pose proof (DecodeRune_Encode r (encode_runes rs) Hr) as Hd.
  rewrite Ec in *. rewrite str_app_cons in *. rewrite Hd.
  rewrite <- str_app_cons. rewrite str_take_app, str_drop_app.
  rewrite IH by lia. f_equal.
  destruct ((r =? RuneError) && _) eqn:E; [|done]. exfalso. apply andb_true_iff in E as [Er Ew].
  pose proof (strlen_EncodeRune r Hr) as Hl. rewrite Ec in Hl. unfold RuneError in Er. bool_split. subst r.
  change (65533 <=? 0x7F) with false in Hl. simpl in *. lia.
Qed.

Lemma strlen_encode rs : Forall scalar rs → (length rs ≤ strlen (encode_runes rs))%nat.
Proof.
  induction 1 as [|r rs Hr _ IH]; [simpl; lia|]. simpl. rewrite strlen_app.
  destruct (EncodeRune_cons r Hr) as (c & s & ->). simpl. lia.
Qed.

(** One escaped rune is read back in one round. *)
Lemma unquote_ascii r fuel t :
  0 ≤ r < 128 →
  unquote (S fuel) (escape_rune r (EncodeRune r) +:+ t) =
  '(y, u) ← unquote fuel t; Some (EncodeRune r +:+ y, u).
Proof.
  intros Hr. assert (r ∈ seqZ 0 128) as Hin by (apply elem_of_seqZ; lia). clear Hr.
  repeat (apply elem_of_cons in Hin as [->|Hin]; [reflexivity|]). by apply elem_of_nil in Hin.
Qed.

Lemma unquote_multi r fuel t :
  scalar r → 128 ≤ r → r ≠ 0x2028 → r ≠ 0x2029 →
  unquote (S fuel) (EncodeRune r +:+ t) = '(y, u) ← unquote fuel t; Some (EncodeRune r +:+ y, u).
Proof.
  intros Hs Hr H1 H2. pose proof (DecodeRune_Encode r t Hs) as Hd.
  destruct (EncodeRune_cons r Hs) as (c & s & Ec).
  rewrite Ec in *. rewrite str_app_cons in *.
  assert (128 ≤ byte_val c) as Hc.
  { cbn [DecodeRune] in Hd. unfold RuneSelf in Hd.
    destruct (Z.ltb_spec (byte_val c) 0x80); [|lia]. injection Hd as <- _. lia. }
  cbn [unquote]. unfold RuneSelf. decide_Z.
  rewrite Hd. rewrite <- str_app_cons, str_drop_app. by rewrite Ec.
Qed.

Lemma unquote_rune r fuel t :
  scalar r →
  unquote (S fuel) (escape_rune r (EncodeRune r) +:+ t) =
  '(y, u) ← unquote fuel t; Some (EncodeRune r +:+ y, u).
Proof.
  intros Hs. destruct (Z.lt_ge_cases r 128); [apply unquote_ascii; destruct Hs; lia|].
  destruct (Z.eq_dec r 0x2028) as [->|H1]; [reflexivity|].
  destruct (Z.eq_dec r 0x2029) as [->|H2]; [reflexivity|].
  assert (escape_rune r (EncodeRune r) = EncodeRune r) as ->; [|by apply unquote_multi].
  unfold escape_rune. decide_Z. done.
Qed.

Lemma unquote_runes rs fuel t :
  Forall scalar rs → (length rs < fuel)%nat →
  unquote fuel (escape_runes rs +:+ String dq t) = Some (encode_runes rs, t).
Proof.
  intros Hrs. revert fuel; induction Hrs as [|r rs Hr _ IH]; intros fuel Hf; simpl in Hf.
  - destruct fuel as [|fuel]; [lia|]. reflexivity.
  - destruct fuel as [|fuel]; [lia|].
    change (escape_runes (r :: rs)) with (escape_rune r (EncodeRune r) +:+ escape_runes rs).
    rewrite <- str_app_assoc, unquote_rune by done. rewrite IH by lia. done.
Qed.

Lemma strlen_escape_runes rs : Forall scalar rs → (length rs ≤ strlen (escape_runes rs))%nat.
Proof.
  induction 1 as [|r rs Hr _ IH]; [simpl; lia|]. simpl. rewrite strlen_app.
  assert (1 ≤ strlen (escape_rune r (EncodeRune r)))%nat; [|lia].
  unfold escape_rune. repeat case_match; simpl; try lia.
  destruct (EncodeRune_cons r Hr) as (c & s & ->). simpl. lia.
Qed.

(** A quoted string is read back, up to the character after it. *)
Lemma string_then_quote s d t :
  utf8_valid s → skip_ws (String d t) = String d t →
  string_then (quote s +:+ String d t) = Some (s, d, t).
Proof.
  intros (rs & Hrs & ->) Hd. unfold quote.
  rewrite (escape_encode _ rs Hrs (strlen_encode rs Hrs)).
  rewrite str_app_cons, <- str_app_assoc, str_app_cons. cbn [skip_ws].
  unfold string_then. cbn [skip_ws]. change (byte_val dq) with 34. cbn [Z.eqb orb Pos.eqb].
  change (Ascii.eqb dq dq) with true. cbv iota.
  rewrite unquote_runes; [|done|].
  - cbn [mbind option_bind]. change ("" +:+ String d t) with (String d t). by rewrite Hd.
  - rewrite strlen_app. pose proof (strlen_escape_runes rs Hrs). simpl. lia.
Qed.

Lemma elements_join l fuel t :
  l ≠ [] → Forall utf8_valid l → (length l ≤ fuel)%nat →
  elements fuel (Join (quote <$> l) "," +:+ String "]" t) = Some (l, t).
Proof.
  intros Hne Hl. revert fuel; induction l as [|s l IH]; intros fuel Hf; [done|].
  apply Forall_cons in Hl as [Hs Hl]. destruct fuel as [|fuel]; simpl in Hf; [lia|].
  destruct l as [|s' l].
  - cbn [fmap list_fmap Join elements]. by rewrite string_then_quote.
  - change (Join (quote <$> s :: s' :: l) ",") with (quote s +:+ "," +:+ Join (quote <$> s' :: l) ",").
    rewrite <- !str_app_assoc. change ("," +:+ ?x) with (String "," x). cbn [elements].
    rewrite string_then_quote by done. cbn [mbind option_bind].
    change (Ascii.eqb "," ",") with true. cbv iota. rewrite IH by (done || lia). done.
Qed.

Lemma members_join l fuel t :
  l ≠ [] → Forall (λ kv, utf8_valid kv.1 ∧ utf8_valid kv.2) l → (length l ≤ fuel)%nat →
  members fuel (Join ((λ kv, member kv.1 kv.2) <$> l) "," +:+ String "}" t) = Some (l, t).
Proof.
  intros Hne Hl. revert fuel; induction l as [|[k v] l IH]; intros fuel Hf; [done|].
  apply Forall_cons in Hl as [[Hk Hv] Hl]. simpl in Hk, Hv. destruct fuel as [|fuel]; simpl in Hf; [lia|].
  destruct l as [|kv' l].
  - cbn [fmap list_fmap Join members fst snd]. unfold member. rewrite <- !str_app_assoc.
    change (":" +:+ ?x) with (String ":" x). rewrite string_then_quote by done.
    cbn [mbind option_bind]. by rewrite string_then_quote.
  - change (Join ((λ kv, member kv.1 kv.2) <$> (k, v) :: kv' :: l) ",")
      with (member k v +:+ "," +:+ Join ((λ kv, member kv.1 kv.2) <$> kv' :: l) ",").
    unfold member at 1. rewrite <- !str_app_assoc.
    change ("," +:+ ?x) with (String "," x). change (":" +:+ ?x) with (String ":" x). cbn [members].
    rewrite string_then_quote by done. cbn [mbind option_bind].
    change (negb (Ascii.eqb ":" ":")) with false. cbv iota.
    rewrite string_then_quote by done. cbn [mbind option_bind].
    change (Ascii.eqb "," ",") with true. cbv iota. rewrite IH by (done || lia). done.
Qed.

Lemma strlen_Join {A} (f : A → string) (l : list A) sep :
  (∀ x, 1 ≤ strlen (f x))%nat → (length l ≤ strlen (Join (f <$> l) sep))%nat.
Proof.
  intros Hf. induction l as [|x l IH]; [simpl; lia|]. destruct l as [|y l].
  - simpl. specialize (Hf x). lia.
  - change (Join (f <$> x :: y :: l) sep) with (f x +:+ sep +:+ Join (f <$> y :: l) sep).
    rewrite !strlen_app. specialize (Hf x). simpl in *. lia.
Qed.

Lemma strlen_quote s : (1 ≤ strlen (quote s))%nat.
Proof. simpl. lia. Qed.

(** Unmarshal inverts Marshal on slices of valid UTF-8 strings. *)
Lemma strings_roundtrip l : Forall utf8_valid l → unmarshal_strings (marshal_strings l) = Some l.
Proof.
  destruct l as [|s l]; [done|]. intros Hl.
  set (body := Join (quote <$> s :: l) "," +:+ "]").
  change (marshal_strings (s :: l)) with (String "[" body).
  assert (∃ b, body = String dq b) as [b Hb].
  { unfold body. destruct l as [|s' l]; cbn [fmap list_fmap Join]; unfold quote at 1;
      rewrite !str_app_cons; by eexists. }
  unfold unmarshal_strings. change (skip_ws (String "[" body)) with (String "[" body).
  change (HasPrefix (String "[" body) "null") with false. cbv iota.
  rewrite Hb at 1. change (skip_ws (String dq b)) with (String dq b). cbv iota beta. cbn -[elements body].
  unfold body. rewrite elements_join; [done|done|done|].
  rewrite strlen_app. pose proof (strlen_Join quote (s :: l) "," strlen_quote). lia.
Qed.

Lemma foldl_insert (l : list (string * string)) (m : gmap string string) :
  NoDup l.*1 → foldl (λ m kv, <[kv.1 := kv.2]> m) m l = list_to_map l ∪ m.
Proof.
  revert m; induction l as [|[k v] l IH]; intros m Hnd; simpl in *.
  - by rewrite map_empty_union.
  - apply NoDup_cons in Hnd as [Hk Hnd]. rewrite IH by done.
    rewrite <- insert_union_l, insert_union_r; [done|]. by apply not_elem_of_list_to_map_1.
Qed.

Lemma sorted_members_Permutation m : sorted_members m ≡ₚ map_to_list m.
Proof.
  unfold sorted_members. rewrite Strings_Permutation.
  assert ((λ k, (k, m !!! k)) <$> (map_to_list m).*1 = map_to_list m) as ->; [|done].
  rewrite <- list_fmap_compose. rewrite <- (list_fmap_id (map_to_list m)) at 2.
  apply list_fmap_ext. intros ? [k v] Hkv%list_elem_of_lookup_2%elem_of_map_to_list.
  simpl. by rewrite (lookup_total_correct _ _ _ Hkv).
Qed.

(** ... and on maps. *)
Lemma args_roundtrip m :
  (∀ k v, m !! k = Some v → utf8_valid k ∧ utf8_valid v) →
  unmarshal_args (marshal_args (Some m)) = Some (Some m).
Proof.
  intros Hm. pose proof (sorted_members_Permutation m) as Hp.
  assert (Forall (λ kv, utf8_valid kv.1 ∧ utf8_valid kv.2) (sorted_members m)) as Hv.
  { rewrite Hp. apply Forall_forall. intros [k v] Hkv%elem_of_map_to_list. by apply Hm. }
  assert (foldl (λ m kv, <[kv.1 := kv.2]> m) ∅ (sorted_members m) = m) as Hf.
  { rewrite foldl_insert by (rewrite Hp; apply NoDup_fst_map_to_list).
    rewrite map_union_empty.
    rewrite (list_to_map_proper (sorted_members m) (map_to_list m)); [apply list_to_map_to_list| |done].
    rewrite Hp. apply NoDup_fst_map_to_list. }
  unfold marshal_args. destruct (sorted_members m) as [|kv l] eqn:El.
  { simpl in Hf. subst m. reflexivity. }
  set (body := Join ((λ kv, member kv.1 kv.2) <$> kv :: l) "," +:+ "}").
  change ("{" +:+ body) with (String "{" body).
  assert (∃ b, body = String dq b) as [b Hb].
  { unfold body. destruct l as [|kv' l]; cbn [fmap list_fmap Join]; unfold member at 1, quote at 1;
      rewrite !str_app_cons; by eexists. }
  unfold unmarshal_args. change (skip_ws (String "{" body)) with (String "{" body).
  change (HasPrefix (String "{" body) "null") with false. cbv iota.
  rewrite Hb at 1. change (skip_ws (String dq b)) with (String dq b). cbv iota beta. cbn -[members body foldl].
  unfold body. rewrite members_join; [|done|done|].
  - cbn -[foldl]. by rewrite Hf.
  - rewrite strlen_app. pose proof (strlen_Join (λ kv, member kv.1 kv.2) (kv :: l) ",") as Hl.
    specialize (Hl ltac:(intros; simpl; lia)). lia.
Qed.

Lemma nil_args_roundtrip : unmarshal_args (marshal_args None) = Some None.
Proof. reflexivity. Qed.
