(* ===== verification/Hashing.v ===== *)
(** * hash/fnv, crypto/sha256 and fmt

    The digests the engine computes, executable: 64-bit FNV-1a (the ring's
    hash), SHA-256 (the fingerprint) and the [%x] and decimal renderings.  Words
    are [Z] with the wrap-around written out. *)

From S2P Require Import Prelude GoStrings.
From stdpp Require Import pretty.
From Stdlib Require Import Ascii.

Local Open Scope Z_scope.

Fixpoint bytes_of (s : string) : list Z :=
  match s with "" => [] | String c s => byte_val c :: bytes_of s end.

(** ** FNV-1a, 64 bits *)

Definition wrap64 (z : Z) : Z := z mod 2 ^ 64.

Definition fnv_offset64 : Z := 14695981039346656037.
Definition fnv_prime64 : Z := 1099511628211.

(** [h := fnv.New64a(); h.Write(s); h.Sum64()] *)
Definition fnv64a (s : string) : Z :=
  foldl (λ h b, wrap64 (Z.lxor h b * fnv_prime64)) fnv_offset64 (bytes_of s).

Example fnv64a_empty : fnv64a "" = 0xcbf29ce484222325.
Proof. reflexivity. Qed.
Example fnv64a_foobar : fnv64a "foobar" = 0x85944171f73967e8.
Proof. vm_compute. reflexivity. Qed.

Lemma fnv64a_range s : 0 ≤ fnv64a s < 2 ^ 64.
Proof.
  unfold fnv64a. assert (0 ≤ fnv_offset64 < 2 ^ 64) as H by (unfold fnv_offset64; lia).
  revert H. generalize fnv_offset64. induction (bytes_of s) as [|b bs IH]; intros h H; [done|].
  simpl. apply IH. unfold wrap64. by apply Z.mod_pos_bound.
Qed.

(** ** SHA-256 *)

Definition w32 (z : Z) : Z := Z.land z 0xFFFFFFFF.
Definition rotr (x n : Z) : Z :=
  Z.lor (Z.shiftr x n) (w32 (Z.shiftl x (32 - n))).

(** The round constants, the fractions of the cube roots of the first 64 primes. *)
Definition sha_K : list Z :=
  [1116352408; 1899447441; 3049323471; 3921009573; 961987163; 1508970993; 2453635748; 2870763221;
   3624381080; 310598401; 607225278; 1426881987; 1925078388; 2162078206; 2614888103; 3248222580;
   3835390401; 4022224774; 264347078; 604807628; 770255983; 1249150122; 1555081692; 1996064986;
   2554220882; 2821834349; 2952996808; 3210313671; 3336571891; 3584528711; 113926993; 338241895;
   666307205; 773529912; 1294757372; 1396182291; 1695183700; 1986661051; 2177026350; 2456956037;
   2730485921; 2820302411; 3259730800; 3345764771; 3516065817; 3600352804; 4094571909; 275423344;
   430227734; 506948616; 659060556; 883997877; 958139571; 1322822218; 1537002063; 1747873779;
   1955562222; 2024104815; 2227730452; 2361852424; 2428436474; 2756734187; 3204031479; 3329325298].

Record sha_state := Sha { sa : Z; sb : Z; sc : Z; sd : Z; se : Z; sf : Z; sg : Z; sh : Z }.

(** The square roots of the first eight. *)
Definition sha_init : sha_state :=
  Sha 1779033703 3144134277 1013904242 2773480762 1359893119 2600822924 528734635 1541459225.

Definition sha_round (st : sha_state) (kw : Z) : sha_state :=
  let 'Sha a b c d e f g h := st in
  let S1 := Z.lxor (rotr e 6) (Z.lxor (rotr e 11) (rotr e 25)) in
  let ch := Z.lxor (Z.land e f) (Z.land (Z.lxor e 0xFFFFFFFF) g) in
  let t1 := h + S1 + ch + kw in
  let S0 := Z.lxor (rotr a 2) (Z.lxor (rotr a 13) (rotr a 22)) in
  let maj := Z.lxor (Z.land a b) (Z.lxor (Z.land a c) (Z.land b c)) in
  Sha (w32 (t1 + S0 + maj)) a b c (w32 (d + t1)) e f g.

(** The message schedule: [ws] is the list of words so far, newest first. *)
Fixpoint sha_extend (n : nat) (ws : list Z) : list Z :=
  match n with
  | O => ws
  | S n =>
      let w2 := ws !!! 1%nat in let w7 := ws !!! 6%nat in
      let w15 := ws !!! 14%nat in let w16 := ws !!! 15%nat in
      let s0 := Z.lxor (rotr w15 7) (Z.lxor (rotr w15 18) (Z.shiftr w15 3)) in
      let s1 := Z.lxor (rotr w2 17) (Z.lxor (rotr w2 19) (Z.shiftr w2 10)) in
      sha_extend n (w32 (w16 + s0 + w7 + s1) :: ws)
  end.

Fixpoint words32 (bs : list Z) : list Z :=
  match bs with
  | a :: b :: c :: d :: bs =>
      Z.lor (Z.shiftl a 24) (Z.lor (Z.shiftl b 16) (Z.lor (Z.shiftl c 8) d)) :: words32 bs
  | _ => []
  end.

Definition sha_block (st : sha_state) (blk : list Z) : sha_state :=
  let ws := reverse (sha_extend 48 (reverse (words32 blk))) in
  let st' := foldl sha_round st (zip_with Z.add sha_K ws) in
  Sha (w32 (sa st + sa st')) (w32 (sb st + sb st')) (w32 (sc st + sc st')) (w32 (sd st + sd st'))
      (w32 (se st + se st')) (w32 (sf st + sf st')) (w32 (sg st + sg st')) (w32 (sh st + sh st')).

Definition be_bytes (k : nat) (z : Z) : list Z :=
  (λ i, Z.land (Z.shiftr z (8 * Z.of_nat i)) 0xFF) <$> reverse (seq 0 k).

Definition sha_pad (bs : list Z) : list Z :=
  let n := length bs in
  bs ++ [0x80] ++ replicate ((119 - n mod 64) mod 64)%nat 0 ++ be_bytes 8 (8 * Z.of_nat n).

Fixpoint sha_blocks (fuel : nat) (st : sha_state) (bs : list Z) : sha_state :=
  match fuel, bs with
  | S fuel, _ :: _ => sha_blocks fuel (sha_block st (take 64 bs)) (drop 64 bs)
  | _, _ => st
  end.

(** [sha256.Sum256]: 32 bytes. *)
Definition sha256 (s : string) : list Z :=
  let bs := sha_pad (bytes_of s) in
  let 'Sha a b c d e f g h := sha_blocks (length bs) sha_init bs in
  [a; b; c; d; e; f; g; h] ≫= be_bytes 4.

(** ** Renderings *)

Definition hex_digit (z : Z) : ascii :=
  byte_of (if z <? 10 then 48 + z else 87 + z).

(** [fmt.Sprintf("%x", bytes)] *)
Definition hex (bs : list Z) : string :=
  foldr (λ b acc, String (hex_digit (Z.shiftr b 4)) (String (hex_digit (Z.land b 15)) acc)) "" bs.

(** [fmt.Sprint(n)] and [%d] for an int. *)
Definition Sprint (n : Z) : string := pretty n.

Example sha256_empty :
  hex (sha256 "") = "e3b0c44298fc1c149afbf4c8996fb92427ae41e4649b934ca495991b7852b855".
Proof. vm_compute. reflexivity. Qed.
Example sha256_abc :
  hex (sha256 "abc") = "ba7816bf8f01cfea414140de5dae2223b00361a396177a9cb410ff61f20015ad".
Proof. vm_compute. reflexivity. Qed.
Example sha256_two_blocks :
  hex (sha256 "abcdbcdecdefdefgefghfghighijhijkijkljklmklmnlmnomnopnopq")
  = "248d6a61d20638b8e5c026930c3e6039a33ce45964ff2167f6ecedd419db06c1".
Proof. vm_compute. reflexivity. Qed.

Lemma hex_length bs : strlen (hex bs) = (2 * length bs)%nat.
Proof. induction bs as [|b bs IH]; simpl; [done|]. rewrite IH. lia. Qed.

Lemma be_bytes_length k z : length (be_bytes k z) = k.
Proof. unfold be_bytes. by rewrite length_fmap, length_reverse, length_seq. Qed.

Lemma sha256_length s : length (sha256 s) = 32%nat.
Proof.
  unfold sha256. destruct (sha_blocks _ _ _) as [a b c d e f g h].
  rewrite !bind_cons, !length_app, !be_bytes_length. done.
Qed.

(** A fingerprint hash is 64 hexadecimal digits. *)
Lemma hex_sha256_length s : strlen (hex (sha256 s)) = 64%nat.
Proof. by rewrite hex_length, sha256_length. Qed.
