(* ===== verification/Fingerprint.v ===== *)
(** * internal/fingerprint

    [FromDockerfile]: the content hash of a Dockerfile.  The slices of the source
    can panic, so the parser is an [option].  [classify] is the body of the line
    loop; [preimage] is what is written into the SHA-256 state. *)

From S2P Require Import Prelude GoStrings GoSort Hashing.
From Stdlib Require Import Ascii.

Record Fingerprint := mkFP {
  Hash : string;
  BaseImages : list string;
  FPInstructions : list string;
}.

(** What one line adds. *)
Inductive contribution :=
  | CNone
  | CBase (img : string)
  | CInstr (line : string).

#[global] Instance contribution_eq_dec : EqDecision contribution.
Proof. solve_decision. Defined.

Section fingerprint.
Context `{UnicodeTables}.

(** The image name of a FROM line: what follows the keyword, up to the last [AS]. *)
Definition base_image (line : string) : option string :=
  rest ← slice_from line 5;
  let img := TrimSpace rest in
  img ← match LastIndex (ToUpper img) " AS " with
        | Some idx => if 0 <? idx then slice_to img idx else Some img
        | None => Some img
        end;
  Some (TrimSpace img).

(** The body of the loop over the lines. *)
Definition classify (line : string) : option contribution :=
  let line := TrimSpace line in
  if String.eqb line "" || HasPrefix line "#" then Some CNone
  else
    let upper := ToUpper line in
    if HasPrefix upper "FROM " then CBase <$> base_image line
    else if HasPrefix upper "RUN " || HasPrefix upper "COPY " || HasPrefix upper "ADD "
    then Some (CInstr line)
    else Some CNone.

Fixpoint scan_lines (lines : list string) (bases instructions : list string) :
    option (list string * list string) :=
  match lines with
  | [] => Some (bases, instructions)
  | line :: lines =>
      c ← classify line;
      match c with
      | CNone => scan_lines lines bases instructions
      | CBase img => scan_lines lines (bases ++ [img]) instructions
      | CInstr line => scan_lines lines bases (instructions ++ [line])
      end
  end.

Definition NUL : string := String "000"%char "".

(** The writes into the hash state. *)
Definition preimage (bases instructions : list string) : string :=
  let h := foldl (λ h b, h +:+ (b +:+ NUL)) "" bases in
  foldl (λ h i, h +:+ (i +:+ NUL)) h instructions.

Definition FromDockerfile (content : string) : option Fingerprint :=
  '(bases, instructions) ← scan_lines (SplitByte content nl) [] [];
  let bases := Strings bases in
  let instructions := Strings instructions in
  Some (mkFP (hex (sha256 (preimage bases instructions))) bases instructions).

(** ** The parser as a function of the lines' contributions *)

Definition bases_of (cs : list contribution) : list string :=
  omap (λ c, match c with CBase b => Some b | _ => None end) cs.
Definition instrs_of (cs : list contribution) : list string :=
  omap (λ c, match c with CInstr i => Some i | _ => None end) cs.

Lemma scan_lines_mapM lines bs ins :
  scan_lines lines bs ins =
  (λ cs, (bs ++ bases_of cs, ins ++ instrs_of cs)) <$> mapM classify lines.
Proof.
  revert bs ins; induction lines as [|l ls IH]; intros bs ins; simpl.
  { by rewrite !app_nil_r. }
  destruct (classify l) as [c|]; simpl; [|done].
  destruct c; rewrite IH; destruct (mapM classify ls); simpl; try done; by rewrite <- !app_assoc.
Qed.

(** The fingerprint built from the contributions. *)
Definition fingerprint_of (cs : list contribution) : Fingerprint :=
  let bases := Strings (bases_of cs) in
  let instructions := Strings (instrs_of cs) in
  mkFP (hex (sha256 (preimage bases instructions))) bases instructions.

Lemma FromDockerfile_mapM content :
  FromDockerfile content = fingerprint_of <$> mapM classify (SplitByte content nl).
Proof.
  unfold FromDockerfile. rewrite scan_lines_mapM. by destruct (mapM _ _).
Qed.

(** Only the multiset of the contributions matters, and lines that contribute
    nothing do not. *)
Lemma fingerprint_of_proper cs1 cs2 :
  filter (.≠ CNone) cs1 ≡ₚ filter (.≠ CNone) cs2 → fingerprint_of cs1 = fingerprint_of cs2.
Proof.
  intros Hp. unfold fingerprint_of, bases_of, instrs_of.
  assert (∀ c, ¬ c ≠ CNone → c = CNone) as Hd by (intros; by apply dec_stable).
  rewrite !(λ f, omap_filter (B:=string) f (.≠ CNone) cs1), !(λ f, omap_filter (B:=string) f (.≠ CNone) cs2)
    by (intros c ->%Hd; done).
  by rewrite !(λ f, Strings_proper _ _ (omap_Permutation f _ _ Hp)).
Qed.

(** The lines that contribute, read off their text. *)
Definition significant (line : string) : Prop :=
  let line := TrimSpace line in
  line ≠ "" ∧ HasPrefix line "#" = false ∧
  (HasPrefix (ToUpper line) "FROM " = true ∨ HasPrefix (ToUpper line) "RUN " = true ∨
   HasPrefix (ToUpper line) "COPY " = true ∨ HasPrefix (ToUpper line) "ADD " = true).
#[global] Instance significant_dec line : Decision (significant line).
Proof. unfold significant. apply _. Defined.

Lemma classify_insignificant line : ¬ significant line → classify line = Some CNone.
Proof.
  unfold significant, classify. intros Hn.
  destruct (String.eqb_spec (TrimSpace line) ""); [done|]. simpl.
  destruct (HasPrefix (TrimSpace line) "#"); [done|].
  destruct (HasPrefix (ToUpper _) "FROM "); [naive_solver|].
  destruct (HasPrefix (ToUpper _) "RUN "); [naive_solver|].
  destruct (HasPrefix (ToUpper _) "COPY "); [naive_solver|].
  destruct (HasPrefix (ToUpper _) "ADD "); naive_solver.
Qed.

Lemma classify_significant line : significant line → classify line ≠ Some CNone.
Proof.
  unfold significant, classify. intros (Hne & Hc & Hp).
  destruct (String.eqb_spec (TrimSpace line) ""); [done|]. simpl. rewrite Hc.
  destruct (HasPrefix (ToUpper _) "FROM "); [by destruct (base_image _)|].
  destruct Hp as [?|[->|[->| ->]]]; [done| | |];
    repeat destruct (HasPrefix (ToUpper _) _); done.
Qed.

Lemma mapM_significant lines :
  filter (.≠ CNone) <$> mapM classify lines = mapM classify (filter significant lines).
Proof.
  induction lines as [|l ls IH]; [done|]. rewrite filter_cons. case_decide as Hs.
  - pose proof (classify_significant l Hs) as Hc. simpl. destruct (classify l) as [c|]; [|done].
    simpl. rewrite <- IH. destruct (mapM classify ls); [|done]. simpl.
    by rewrite filter_cons_True by congruence.
  - simpl. rewrite classify_insignificant by done. simpl. rewrite <- IH.
    destruct (mapM classify ls); [|done]. simpl. by rewrite filter_cons_False by auto.
Qed.

(** ** No panic on ASCII input *)

Lemma base_image_ascii line :
  is_ascii line = true → 5 ≤ strlen line → is_Some (base_image line).
Proof.
  intros Ha Hl. unfold base_image. rewrite slice_from_ok by done. cbn -[str_drop Nat.ltb Nat.leb].
  set (img := TrimSpace _). assert (is_ascii img = true) as Hi
    by (apply str_all_TrimSpace, str_all_drop, Ha).
  destruct (LastIndex (ToUpper img) " AS ") as [idx|] eqn:E; [|by eexists].
  destruct (0 <? idx); [|by eexists]. apply LastIndex_bound in E.
  rewrite strlen_ToUpper in E by done. rewrite slice_to_ok by lia. by eexists.
Qed.

Lemma classify_ascii line : is_ascii line = true → is_Some (classify line).
Proof.
  intros Ha%(str_all_TrimSpace _). unfold classify. destruct (_ || _); [by eexists|].
  destruct (HasPrefix _ "FROM ") eqn:E; [|destruct (_ || _); by eexists].
  apply HasPrefix_length in E. rewrite strlen_ToUpper in E by done. simpl in E.
  destruct (base_image_ascii _ Ha E) as [img ->]. by eexists.
Qed.

(** ** The preimage *)

Definition terminated (ss : list string) : string :=
  foldr (λ s acc, s +:+ NUL +:+ acc) "" ss.

Lemma foldl_terminated ss h :
  foldl (λ h b, h +:+ (b +:+ NUL)) h ss = h +:+ terminated ss.
Proof.
  revert h; induction ss as [|s ss IH]; intros h; simpl; [by rewrite str_app_nil_r|].
  by rewrite IH, <- !str_app_assoc.
Qed.

Lemma preimage_terminated bases ins : preimage bases ins = terminated (bases ++ ins).
Proof.
  unfold preimage. rewrite !foldl_terminated. simpl.
  induction bases as [|b bs IH]; simpl; [done|]. by rewrite <- IH, <- !str_app_assoc.
Qed.

(** Without NUL bytes inside, the terminated strings can be read back. *)
Definition no_nul (s : string) : Prop := str_all (λ c, negb (Ascii.eqb c "000")) s = true.

Lemma terminated_cons_inj s1 s2 t1 t2 :
  no_nul s1 → no_nul s2 → s1 +:+ NUL +:+ t1 = s2 +:+ NUL +:+ t2 → s1 = s2 ∧ t1 = t2.
Proof.
  unfold no_nul. revert s2; induction s1 as [|c s1 IH]; intros [|d s2]; cbn [str_all].
  - intros _ _ [= Ht]. by split.
  - intros _ H2 [= Hd _]. by rewrite <- Hd in H2.
  - intros H1 _ [= Hc _]. by rewrite Hc in H1.
  - rewrite !str_app_cons. intros H1 H2 [= -> Ht].
    bool_split. destruct (IH s2) as [-> ->]; done.
Qed.

Lemma terminated_inj l1 l2 :
  Forall no_nul l1 → Forall no_nul l2 → terminated l1 = terminated l2 → l1 = l2.
Proof.
  intros H1. revert l2; induction H1 as [|s1 l1 Hs1 _ IH]; intros [|s2 l2] H2; simpl.
  - done.
  - by destruct s2.
  - by destruct s1.
  - apply Forall_cons in H2 as [Hs2 H2]. intros [-> Ht]%terminated_cons_inj; [|done..].
    f_equal. auto.
Qed.
(** What a line contributes is made of the line's bytes. *)
Lemma classify_str_all P line :
  str_all P line = true →
  match classify line with
  | Some (CBase t) | Some (CInstr t) => str_all P t = true
  | _ => True
  end.
Proof.
  intros Hl%(str_all_TrimSpace P). unfold classify. destruct (_ || _); [done|].
  destruct (HasPrefix _ "FROM "); [|by destruct (_ || _)].
  unfold base_image, slice_from, slice_to. destruct (_ <=? _); [|done]. cbn -[str_drop Nat.ltb Nat.leb].
  set (img := TrimSpace _).
  assert (str_all P img = true) as Hi by (apply str_all_TrimSpace, str_all_drop, Hl).
  clearbody img. destruct (LastIndex _ _) as [idx|]; [|cbn; auto with dt].
  destruct (0 <? idx); [destruct (idx <=? strlen img)|]; cbn; auto with dt.
Qed.

Lemma contributions_str_all P lines cs :
  Forall (λ l, str_all P l = true) lines → mapM classify lines = Some cs →
  Forall (λ s, str_all P s = true) (bases_of cs ++ instrs_of cs).
Proof.
  intros Hl Hm%mapM_Some. induction Hm as [|l c ls cs Hc _ IH]; [constructor|].
  apply Forall_cons in Hl as [Hl Hls]. specialize (IH Hls).
  pose proof (classify_str_all P l Hl) as Hp. rewrite Hc in Hp.
  apply Forall_app in IH as [? ?]. apply Forall_app.
  destruct c; cbn; split; rewrite ?Forall_cons; auto.
Qed.

Lemma FromDockerfile_inv content fp :
  FromDockerfile content = Some fp →
  ∃ cs, mapM classify (SplitByte content nl) = Some cs ∧ fp = fingerprint_of cs.
Proof.
  rewrite FromDockerfile_mapM. destruct (mapM _ _) as [cs|]; [|done].
  intros [= <-]. by exists cs.
Qed.

(** ** Properties *)

(** C31. The fingerprint depends only on the significant lines of the Dockerfile (the
    FROM, RUN, COPY and ADD lines), and not on their order: comments, blank lines
    and other instructions can be added, dropped or moved.  The parser also panics
    on one exactly when it does on the other. *)
Theorem fingerprint_significant_lines (c1 c2 : string)
    (Hl : filter significant (SplitByte c1 nl) ≡ₚ filter significant (SplitByte c2 nl)) :
  FromDockerfile c1 = FromDockerfile c2.
Proof.
  rewrite !FromDockerfile_mapM.
  pose proof (mapM_significant (SplitByte c1 nl)) as H1.
  pose proof (mapM_significant (SplitByte c2 nl)) as H2.
  destruct (mapM classify (SplitByte c1 nl)) as [k1|], (mapM classify (SplitByte c2 nl)) as [k2|];
    simpl in *; symmetry in H1, H2; [| | |done].
  - destruct (mapM_Permutation classify _ _ _ Hl H1) as (k & Hk & Hp).
    f_equal. apply fingerprint_of_proper. congruence.
  - destruct (mapM_Permutation classify _ _ _ Hl H1) as (k & Hk & _). congruence.
  - destruct (mapM_Permutation classify _ _ _ (symmetry Hl) H2) as (k & Hk & _). congruence.
Qed.

(** C32. On ASCII content the parser never panics: it returns a hash of 64
    hexadecimal digits and sorted lists of base images and instructions. *)
Theorem fingerprint_ascii_total (content : string) (Ha : is_ascii content = true) :
  ∃ fp, FromDockerfile content = Some fp ∧ strlen (Hash fp) = 64 ∧
        StronglySorted String.le (BaseImages fp) ∧
        StronglySorted String.le (FPInstructions fp).
Proof.
  rewrite FromDockerfile_mapM.
  destruct (mapM classify (SplitByte content nl)) as [cs|] eqn:E; cycle 1.
  - exfalso. apply mapM_None_1, Exists_exists in E as (l & Hin & Hl).
    pose proof (str_all_SplitByte _ _ nl Ha) as Hall. rewrite Forall_forall in Hall.
    destruct (classify_ascii l (Hall l Hin)). congruence.
  - exists (fingerprint_of cs). split_and!; [done|apply hex_sha256_length|..]; apply Strings_sorted.
Qed.

(** What is hashed identifies the build: two Dockerfiles without NUL bytes and
    with equally many base images that feed SHA-256 the same bytes have the same
    base images and the same instructions. *)
Lemma fingerprint_preimage_injective (c1 c2 : string) (f1 f2 : Fingerprint)
    (H1 : FromDockerfile c1 = Some f1) (H2 : FromDockerfile c2 = Some f2)
    (Hn1 : no_nul c1) (Hn2 : no_nul c2)
    (Hlen : length (BaseImages f1) = length (BaseImages f2))
    (Hpre : preimage (BaseImages f1) (FPInstructions f1) =
            preimage (BaseImages f2) (FPInstructions f2)) :
  BaseImages f1 = BaseImages f2 ∧ FPInstructions f1 = FPInstructions f2.
Proof.
  apply FromDockerfile_inv in H1 as (k1 & H1 & ->), H2 as (k2 & H2 & ->).
  rewrite !preimage_terminated in Hpre. apply app_inj_1; [done|].
  apply terminated_inj; [..|done]; cbn; unfold no_nul.
  - rewrite !Strings_Permutation.
    eapply contributions_str_all; [|exact H1]. apply str_all_SplitByte, Hn1.
  - rewrite !Strings_Permutation.
    eapply contributions_str_all; [|exact H2]. apply str_all_SplitByte, Hn2.
Qed.
End fingerprint.

(** ** Concrete runs *)

Section examples.
#[local] Existing Instance no_special.

Definition text (ls : list string) : string := Join ls (String nl "").

Definition df1 : string := text ["# app"; "FROM alpine:3 AS base"; "RUN make"; "COPY . /src"].
Definition df2 : string := text ["FROM alpine:3 AS base"; "COPY . /src"; ""; "RUN make"; "USER app"].

Lemma fingerprint_significant_lines_witness : FromDockerfile df1 = FromDockerfile df2.
Proof.
  apply fingerprint_significant_lines.
  replace (filter significant (SplitByte df1 nl))
    with ["FROM alpine:3 AS base"; "RUN make"; "COPY . /src"] by (vm_compute; reflexivity).
  replace (filter significant (SplitByte df2 nl))
    with ["FROM alpine:3 AS base"; "COPY . /src"; "RUN make"] by (vm_compute; reflexivity).
  apply perm_skip, perm_swap.
Defined.

Lemma fingerprint_ascii_total_witness :
  ∃ fp, FromDockerfile df1 = Some fp ∧ strlen (Hash fp) = 64.
Proof.
  destruct (fingerprint_ascii_total df1) as (fp & H & Hl & _); [vm_compute; reflexivity|].
  exact (ex_intro _ fp (conj H Hl)).
Defined.

Definition fp1 : Fingerprint :=
  mkFP (hex (sha256 (preimage ["alpine:3"] ["COPY . /src"; "RUN make"])))
       ["alpine:3"] ["COPY . /src"; "RUN make"].

Lemma fingerprint_preimage_injective_witness :
  FromDockerfile df1 = Some fp1 ∧ FromDockerfile df2 = Some fp1 ∧
  FPInstructions fp1 = FPInstructions fp1.
Proof.
  split; [vm_compute; reflexivity|]. split; [vm_compute; reflexivity|].
  apply (fingerprint_preimage_injective df1 df2 fp1 fp1); vm_compute; reflexivity.
Defined.

(** The preimage does not mark where the base images end: a stage named after an
    instruction and the instruction itself have the same hash. *)
Lemma fingerprint_boundary_collision :
  Hash <$> FromDockerfile "FROM RUN x" = Hash <$> FromDockerfile "RUN x".
Proof. vm_compute. reflexivity. Qed.
End examples.

(** A table that knows one rune of Unicode's: U+0250 (two bytes) has the upper case
    U+2C6F (three bytes). *)
Definition turned_a : UnicodeTables := λ r, if (r =? 0x250)%Z then 0x2C6F%Z else r.

(** [LastIndex] runs over the upper-cased name and its result indexes the name
    itself, so a rune that grows under upper-casing makes the slice panic. *)
Lemma fingerprint_panics :
  @FromDockerfile turned_a "FROM ɐɐɐɐɐɐ AS x" = None.
Proof. vm_compute. reflexivity. Qed.
