(* ===== verification/Validate.v ===== *)
(** * internal/validate

    The pre-flight checks of a submission ([validate.go]).  [Result] is the list
    of error messages; [r.add] appends, so a function that takes [r *Result]
    returns the longer list.  Slices can panic, hence the [option]s. *)

From S2P Require Import Prelude GoStrings Hashing.
From Stdlib Require Import Ascii.

Record BuildInput := mkInput { in_Dockerfile : string; in_ImageTag : string }.

Record BulkEntry := mkEntry { Path : string; Name : string; Content : string; Tag : string }.

Definition Result := list string.

Definition Valid (r : Result) : bool := length r =? 0.

Definition add (r : Result) (what msg : string) : Result := r ++ [what +:+ ": " +:+ msg].

Section validate.
Context `{UnicodeTables}.

Definition validateImageRef (ref : string) (r : Result) : Result :=
  if 2 <? CountByte ref ":" then
    add r "dockerfile" ("invalid image ref: " +:+ ref +:+ " (too many colons)")
  else if Contains ref "://" then
    add r "dockerfile" ("invalid image ref: " +:+ ref +:+ " (contains ://)")
  else if Contains ref " " && negb (Contains (ToUpper ref) " AS ") then
    add r "dockerfile" ("invalid image ref: " +:+ ref +:+ " (contains spaces)")
  else r.

Definition validateTag (tag : string) (r : Result) : Result :=
  if Contains tag "://" then
    add r "image_tag" ("invalid: " +:+ tag +:+ " (contains ://)")
  else if 2 <? CountByte tag ":" then add r "image_tag" "too many colons in tag"
  else r.

(** The image a FROM line names once [--platform] and [AS] are cut off. *)
Definition strip_platform (img : string) : option string :=
  if HasPrefix (ToUpper img) "--PLATFORM" then
    match Index img " " with
    | Some idx => if 0 <? idx then TrimSpace <$> slice_from img (idx + 1) else Some img
    | None => Some img
    end
  else Some img.

Definition strip_alias (img : string) : option string :=
  match LastIndex (ToUpper img) " AS " with
  | Some idx => if 0 <? idx then TrimSpace <$> slice_to img idx else Some img
  | None => Some img
  end.

(** The loop of [validateDockerfile], with [hasFrom] and [r]. *)
Fixpoint validate_lines (lines : list string) (hasFrom : bool) (r : Result) :
    option (bool * Result) :=
  match lines with
  | [] => Some (hasFrom, r)
  | line :: lines =>
      let line := TrimSpace line in
      if String.eqb line "" || HasPrefix line "#" then validate_lines lines hasFrom r
      else if HasPrefix (ToUpper line) "FROM " then
        rest ← slice_from line 5;
        let img := TrimSpace rest in
        if String.eqb img "" then
          validate_lines lines true (add r "dockerfile" "FROM with empty image")
        else
          img ← strip_platform img;
          img ← strip_alias img;
          validate_lines lines true (validateImageRef img r)
      else validate_lines lines hasFrom r
  end.

Definition validateDockerfile (content : string) (r : Result) : option Result :=
  '(hasFrom, r) ← validate_lines (SplitByte content nl) false r;
  Some (if negb hasFrom then add r "dockerfile" "no FROM line found" else r).

Definition Single (inp : BuildInput) : option Result :=
  let content := TrimSpace (in_Dockerfile inp) in
  r ← (if String.eqb content "" then Some (add [] "dockerfile" "empty")
       else if Contains content (String nl "") || HasPrefix (ToUpper content) "FROM "
       then validateDockerfile content []
       else Some []);
  Some (if String.eqb (in_ImageTag inp) "" then add r "image_tag" "empty"
        else validateTag (in_ImageTag inp) r).

Fixpoint has_from_line (lines : list string) : bool :=
  match lines with
  | [] => false
  | line :: lines => if HasPrefix (ToUpper (TrimSpace line)) "FROM " then true
                     else has_from_line lines
  end.

Definition hasFROM (content : string) : bool := has_from_line (SplitByte content nl).

Fixpoint bulk_loop (i : nat) (entries : list BulkEntry) (r : Result) : Result :=
  match entries with
  | [] => r
  | e :: entries =>
      let prefix := "entry[" +:+ Sprint (Z.of_nat i) +:+ "] " +:+ Path e +:+ "/" +:+ Name e in
      if strlen (Content e) =? 0 then
        bulk_loop (S i) entries (add r prefix "empty Dockerfile")
      else bulk_loop (S i) entries
             (if negb (hasFROM (Content e)) then add r prefix "missing FROM line" else r)
  end.

Definition Bulk (entries : list BulkEntry) : Result :=
  let r := bulk_loop 0 entries [] in
  if length entries =? 0 then add r "bulk" "no Dockerfiles found" else r.

(** ** What the checks accept *)

Definition ref_ok (ref : string) : Prop :=
  CountByte ref ":" ≤ 2 ∧ Contains ref "://" = false ∧
  (Contains ref " " = true → Contains (ToUpper ref) " AS " = true).

Definition tag_ok (tag : string) : Prop :=
  tag ≠ "" ∧ Contains tag "://" = false ∧ CountByte tag ":" ≤ 2.

(** A line that the Dockerfile check looks at. *)
Definition from_line (line : string) : Prop :=
  let line := TrimSpace line in
  HasPrefix line "#" = false ∧ HasPrefix (ToUpper line) "FROM " = true.
#[global] Instance from_line_dec line : Decision (from_line line).
Proof. unfold from_line. apply _. Defined.

(** The reference it names, after the keyword. *)
Definition line_ref (line : string) : option string :=
  rest ← slice_from (TrimSpace line) 5;
  img ← strip_platform (TrimSpace rest);
  strip_alias img.

Definition from_line_ok (line : string) : Prop :=
  ∃ ref, line_ref line = Some ref ∧ ref_ok ref ∧
         TrimSpace (str_drop 5 (TrimSpace line)) ≠ "".

Lemma add_not_nil r what msg : Valid (add r what msg) = false.
Proof. unfold Valid, add. rewrite length_app. simpl. apply Nat.eqb_neq. lia. Qed.

Lemma validateImageRef_app ref r : validateImageRef ref r = r ++ validateImageRef ref [].
Proof. unfold validateImageRef, add. repeat case_match; by rewrite ?app_nil_r. Qed.

Lemma validateTag_app tag r : validateTag tag r = r ++ validateTag tag [].
Proof. unfold validateTag, add. repeat case_match; by rewrite ?app_nil_r. Qed.

Lemma Valid_app r1 r2 : Valid (r1 ++ r2) = Valid r1 && Valid r2.
Proof. by destruct r1, r2. Qed.

Lemma validateImageRef_valid ref : Valid (validateImageRef ref []) = true ↔ ref_ok ref.
Proof.
  unfold validateImageRef, ref_ok.
  destruct (Nat.ltb_spec 2 (CountByte ref ":")); [rewrite add_not_nil; split; [done|lia]|].
  destruct (Contains ref "://"); [rewrite add_not_nil; intuition congruence|].
  destruct (Contains ref " "), (Contains (ToUpper ref) " AS "); simpl;
    rewrite ?add_not_nil; intuition congruence.
Qed.

Lemma validateTag_valid tag :
  Valid (validateTag tag []) = true ↔ Contains tag "://" = false ∧ CountByte tag ":" ≤ 2.
Proof.
  unfold validateTag. destruct (Contains tag "://"); [rewrite add_not_nil; intuition congruence|].
  destruct (Nat.ltb_spec 2 (CountByte tag ":")); rewrite ?add_not_nil; split; try done; lia.
Qed.

(** The loop: it reports a bad FROM line and remembers having seen one. *)
Lemma validate_lines_spec lines hf r hf' r' :
  validate_lines lines hf r = Some (hf', r') →
  (Valid r' = true ↔ Valid r = true ∧ Forall (λ l, from_line l → from_line_ok l) lines) ∧
  (hf' = true ↔ hf = true ∨ Exists from_line lines).
Proof.
  revert hf r; induction lines as [|l ls IH]; intros hf r; cbn [validate_lines].
  { intros [= <- <-]. rewrite Exists_nil. split; [|tauto]. split; [by auto|tauto]. }
  rewrite Forall_cons, Exists_cons.
  destruct (String.eqb (TrimSpace l) "" || HasPrefix (TrimSpace l) "#") eqn:Hskip.
  { intros Hl. assert (¬ from_line l) as Hn.
    { intros [Hc Hu]. rewrite Hc, orb_false_r in Hskip. apply String.eqb_eq in Hskip.
      rewrite Hskip in Hu. done. }
    destruct (IH _ _ Hl) as [-> ->]. tauto. }
  apply orb_false_iff in Hskip as [_ Hc].
  destruct (HasPrefix (ToUpper (TrimSpace l)) "FROM ") eqn:Hu; cycle 1.
  { intros Hl. assert (¬ from_line l) as Hn by (intros [_ ?]; congruence).
    destruct (IH _ _ Hl) as [-> ->]. tauto. }
  assert (from_line l) as Hf by by split.
  destruct (slice_from (TrimSpace l) 5) as [rest|] eqn:Es; [|done]. cbn [mbind option_bind].
  assert (rest = str_drop 5 (TrimSpace l)) as ->.
  { unfold slice_from in Es. case_match; congruence. }
  destruct (String.eqb_spec (TrimSpace (str_drop 5 (TrimSpace l))) "") as [He|He].
  { intros Hl. destruct (IH _ _ Hl) as [-> ->]. rewrite add_not_nil.
    split; [|tauto]. split; [by intros [? _]|]. intros (_ & Hok & _).
    destruct (Hok Hf) as (? & _ & _ & ?). done. }
  destruct (strip_platform _) as [img|] eqn:Ep; [|done]. cbn [mbind option_bind].
  destruct (strip_alias img) as [ref|] eqn:Ea; [|done]. cbn [mbind option_bind].
  intros Hl. destruct (IH _ _ Hl) as [-> ->].
  rewrite validateImageRef_app, Valid_app, andb_true_iff, validateImageRef_valid.
  assert (line_ref l = Some ref) as Hr.
  { unfold line_ref. rewrite Es. cbn [mbind option_bind]. by rewrite Ep. }
  assert (from_line_ok l ↔ ref_ok ref) as Hok.
  { unfold from_line_ok. rewrite Hr. split; [by intros (? & [= <-] & ? & _)|]. by exists ref. }
  tauto.
Qed.

(** ASCII images: the cuts are in range. *)
Lemma strip_platform_ascii img :
  is_ascii img = true → ∃ img', strip_platform img = Some img' ∧ is_ascii img' = true.
Proof.
  intros Ha. unfold strip_platform. destruct (HasPrefix _ _); [|by eauto].
  destruct (Index img " ") as [idx|] eqn:E; [|by eauto].
  destruct (0 <? idx); [|by eauto]. apply Index_bound in E. simpl in E.
  rewrite slice_from_ok by lia. eexists. split; [done|].
  apply str_all_TrimSpace, str_all_drop, Ha.
Qed.

Lemma strip_alias_ascii img : is_ascii img = true → is_Some (strip_alias img).
Proof.
  intros Ha. unfold strip_alias. destruct (LastIndex _ _) as [idx|] eqn:E; [|by eexists].
  destruct (0 <? idx); [|by eexists]. apply LastIndex_bound in E.
  rewrite strlen_ToUpper in E by done. rewrite slice_to_ok by lia. by eexists.
Qed.

Lemma validate_lines_ascii lines hf r :
  Forall (λ l, is_ascii l = true) lines → is_Some (validate_lines lines hf r).
Proof.
  intros Hl. revert hf r; induction Hl as [|l ls Ha _ IH]; intros hf r;
    cbn [validate_lines]; [by eexists|].
  apply (str_all_TrimSpace _) in Ha. destruct (_ || _); [done|].
  destruct (HasPrefix _ "FROM ") eqn:E; [|done].
  apply HasPrefix_length in E. rewrite strlen_ToUpper in E by done.
  rewrite slice_from_ok by exact E. cbn [mbind option_bind].
  destruct (String.eqb _ ""); [done|].
  destruct (strip_platform_ascii (TrimSpace (str_drop 5 (TrimSpace l)))) as (img & -> & Hi).
  { apply str_all_TrimSpace, str_all_drop, Ha. }
  cbn [mbind option_bind]. destruct (strip_alias_ascii img Hi) as [ref ->].
  cbn [mbind option_bind]. done.
Qed.

Lemma has_from_line_spec lines :
  has_from_line lines = true ↔
  Exists (λ l, HasPrefix (ToUpper (TrimSpace l)) "FROM " = true) lines.
Proof.
  induction lines as [|l ls IH]; simpl; [by rewrite Exists_nil|].
  rewrite Exists_cons, <- IH. destruct (HasPrefix _ _); intuition congruence.
Qed.

(** A bulk entry that can be built. *)
Definition entry_ok (e : BulkEntry) : Prop :=
  Content e ≠ "" ∧
  Exists (λ l, HasPrefix (ToUpper (TrimSpace l)) "FROM " = true) (SplitByte (Content e) nl).
#[global] Instance entry_ok_dec e : Decision (entry_ok e).
Proof. unfold entry_ok. apply _. Defined.

Lemma bulk_loop_length i entries r :
  length (bulk_loop i entries r) = length r + length (filter (λ e, ¬ entry_ok e) entries).
Proof.
  revert i r; induction entries as [|e es IH]; intros i r; cbn [bulk_loop]; [simpl; lia|].
  rewrite filter_cons. destruct (Nat.eqb_spec (strlen (Content e)) 0) as [E|E].
  - rewrite decide_True by (intros [? _]; destruct (Content e); done).
    rewrite IH. unfold add. rewrite length_app. simpl. lia.
  - unfold hasFROM. pose proof (has_from_line_spec (SplitByte (Content e) nl)) as Hs.
    destruct (has_from_line _); simpl; rewrite IH.
    + rewrite decide_False; [simpl; lia|]. intros Hn. apply Hn. split; [by intros Hc; rewrite Hc in E|].
      by apply Hs.
    + rewrite decide_True by (intros [_ ?%Hs]; done). unfold add. rewrite length_app. simpl. lia.
Qed.

(** The tag check at the end of Single, after errors [r]. *)
Lemma tag_check tag r (P : Prop) :
  (Valid r = true ↔ P) →
  Valid (if String.eqb tag "" then add r "image_tag" "empty" else validateTag tag r) = true ↔
  P ∧ tag_ok tag.
Proof.
  intros HP. unfold tag_ok.
  destruct (String.eqb_spec tag ""); [rewrite add_not_nil; intuition congruence|].
  rewrite validateTag_app, Valid_app, andb_true_iff, validateTag_valid, HP. tauto.
Qed.

(** ** Properties *)

(** C33. Single answers on every ASCII Dockerfile and accepts exactly the submissions
    whose Dockerfile is not blank, whose tag is a plausible reference, and, when the
    Dockerfile looks like content rather than a file name, that have a FROM line and
    only FROM lines with well-formed image references. *)
Theorem Single_accepts (inp : BuildInput) (Ha : is_ascii (in_Dockerfile inp) = true) :
  let content := TrimSpace (in_Dockerfile inp) in
  let lines := SplitByte content nl in
  ∃ r, Single inp = Some r ∧
    (Valid r = true ↔
     content ≠ "" ∧ tag_ok (in_ImageTag inp) ∧
     (Contains content (String nl "") = true ∨ HasPrefix (ToUpper content) "FROM " = true →
      Exists from_line lines ∧ Forall (λ l, from_line l → from_line_ok l) lines)).
Proof.
  cbv zeta. set (content := TrimSpace (in_Dockerfile inp)).
  unfold Single. fold content. destruct (String.eqb_spec content "") as [Hc|Hc].
  { eexists. split; [done|]. rewrite (tag_check _ _ False); [tauto|]. by rewrite add_not_nil. }
  destruct (Contains content (String nl "") || HasPrefix (ToUpper content) "FROM ") eqn:E.
  - apply orb_true_iff in E. unfold validateDockerfile.
    destruct (validate_lines_ascii (SplitByte content nl) false []) as [[hf r0] Hl].
    { apply str_all_SplitByte, str_all_TrimSpace, Ha. }
    rewrite Hl. cbn [mbind option_bind]. apply validate_lines_spec in Hl as [Hv Hf].
    eexists. split; [done|].
    rewrite (tag_check _ _ (Exists from_line (SplitByte content nl) ∧
        Forall (λ l, from_line l → from_line_ok l) (SplitByte content nl))); [tauto|].
    destruct hf; simpl; [rewrite Hv|rewrite add_not_nil]; intuition congruence.
  - apply orb_false_iff in E as [E1 E2]. eexists. split; [done|].
    rewrite (tag_check _ _ True), E1, E2 by done. intuition congruence.
Qed.

(** Bulk reports one error for each entry that is empty or has no FROM line, and
    one error for an empty submission; so it accepts exactly the non-empty
    submissions in which every entry can be built. *)
Lemma Bulk_reports (entries : list BulkEntry) :
  length (Bulk entries) =
    (if decide (entries = []) then 1 else length (filter (λ e, ¬ entry_ok e) entries)) ∧
  (Valid (Bulk entries) = true ↔ entries ≠ [] ∧ Forall entry_ok entries).
Proof.
  assert (length (Bulk entries) =
    (if decide (entries = []) then 1 else length (filter (λ e, ¬ entry_ok e) entries))) as Hl.
  { unfold Bulk. destruct entries as [|e es]; [done|]. rewrite decide_False by done.
    exact (bulk_loop_length 0 (e :: es) []). }
  split; [done|]. unfold Valid. rewrite Nat.eqb_eq, Hl. case_decide as He; [by split; [|intros [? _]]|].
  rewrite length_zero_iff_nil. split.
  - intros Hf. split; [done|]. apply Forall_forall. intros e Hin.
    apply dec_stable. intros Hn.
    exact (filter_nil_not_elem_of _ _ _ Hf Hn Hin).
  - intros [_ Hok]. apply filter_none. eapply Forall_impl; [exact Hok|]. by intros e ? [].
Qed.
End validate.

Section examples.
#[local] Existing Instance no_special.

Lemma Single_accepts_witness :
  ∃ r, Single (mkInput "FROM --platform=linux/amd64 golang:1.22 AS build" "registry:5000/app:1") = Some r
       ∧ Valid r = true.
Proof.
  destruct (Single_accepts
    (mkInput "FROM --platform=linux/amd64 golang:1.22 AS build" "registry:5000/app:1"))
    as (r & Hr & _); [vm_compute; reflexivity|].
  exists r. split; [exact Hr|].
  assert (Some r = Some []) as [= ->] by (rewrite <- Hr; vm_compute; reflexivity). reflexivity.
Defined.
End examples.
