(* ===== verification/Domain.v ===== *)
(** * internal/domain

    The shared types of the engine ([domain.go]): build statuses, [Build] and
    [Worker].  A Go [string] is a byte string ([String.string]), an [int] a [Z]
    in the int64 range, a [time.Time] its nanoseconds since the Unix epoch, a
    nil map or pointer [None], and a nil slice the empty list. *)

From S2P Require Import Prelude Float64.
From Stdlib Require Import SpecFloat.

Local Open Scope string_scope.

(** Instants and durations, both in nanoseconds as in Go. *)
Abbreviation time := Z (only parsing).
Abbreviation duration := Z (only parsing).

Definition second : duration := 1000000000%Z.
Definition minute : duration := (60 * second)%Z.
Definition hour : duration := (60 * minute)%Z.

(** The zero [time.Time], January 1 of year 1. *)
Definition zero_time : time := (-62135596800 * second)%Z.

(** [Status] is a string type: any string can arrive in a request body, and
    only these six are named. *)
Abbreviation Status := string (only parsing).

Definition StatusPending : Status := "pending".
Definition StatusBuilding : Status := "building".
Definition StatusSucceeded : Status := "succeeded".
Definition StatusFailed : Status := "failed".
Definition StatusCancelled : Status := "cancelled".
Definition StatusTimedOut : Status := "timed_out".

Definition IsTerminal (s : Status) : bool :=
  String.eqb s StatusSucceeded || String.eqb s StatusFailed ||
  String.eqb s StatusCancelled || String.eqb s StatusTimedOut.

Record Build := mkBuild {
  ID : string;
  BStatus : Status;
  BFingerprint : string;
  WorkerID : string;
  ContextKey : string;
  Dockerfile : string;
  ImageTag : string;
  Args : option (gmap string string);
  Instructions : list string;
  Logs : string;
  BError : string;
  RetryCount : Z;
  MaxRetries : Z;
  TimeoutSeconds : Z;
  UserID : string;
  Priority : Z;
  CacheHitRate : float64;
  CreatedAt : time;
  UpdatedAt : time;
  CompletedAt : option time;
}.

Record Worker := mkWorker {
  Worker_ID : string;
  Hostname : string;
  IP : string;
  Worker_Status : string;
  LastHeartbeat : time;
  CacheKeys : list string;
}.

(** The zero value of the struct. *)
Definition zero_Build : Build :=
  mkBuild "" "" "" "" "" "" "" None [] "" "" 0 0 0 "" 0 f64_zero zero_time zero_time None.

#[global] Instance Build_inhabited : Inhabited Build := populate zero_Build.
#[global] Instance Build_eq_dec : EqDecision Build.
Proof. solve_decision. Defined.
#[global] Instance Worker_eq_dec : EqDecision Worker.
Proof. solve_decision. Defined.

(** The statuses a build never leaves. *)
Lemma IsTerminal_spec s :
  IsTerminal s = true ↔
  s = StatusSucceeded ∨ s = StatusFailed ∨ s = StatusCancelled ∨ s = StatusTimedOut.
Proof. unfold IsTerminal. rewrite !orb_true_iff, !String.eqb_eq. tauto. Qed.

(** The statuses the service itself writes: none for a log line, building for a
    claim, a terminal one. *)
Definition named (status : Status) : Prop :=
  status = "" ∨ status = StatusBuilding ∨ IsTerminal status = true.

(** A Go int of the platforms the engine runs on. *)
Definition is_int64 (z : Z) : Prop := (-(2 ^ 63) ≤ z < 2 ^ 63)%Z.

(** ** Errors

    A Go [error] is one of the values the engine tells apart: an error of the
    database driver, [sql.ErrNoRows], [service.ErrQueueFull], a message of
    [fmt.Errorf], or a message that wraps another error ([%w]). *)
Inductive error :=
  | EDriver (msg : string)
  | ENoRows
  | EQueueFull
  | EErrorf (msg : string)
  | EWrap (msg : string) (e : error).

(** [err.Error()]. *)
Fixpoint error_text (e : error) : string :=
  match e with
  | EDriver msg => msg
  | ENoRows => "sql: no rows in result set"
  | EQueueFull => "build queue full"
  | EErrorf msg => msg
  | EWrap msg e => msg +:+ ": " +:+ error_text e
  end.

(** [errors.Is(err, service.ErrQueueFull)] looks through the wrapping. *)
Fixpoint is_queue_full (e : error) : bool :=
  match e with
  | EQueueFull => true
  | EWrap _ e => is_queue_full e
  | _ => false
  end.

(** [(T, error)] results: a value or an error. *)
Inductive result (A : Type) :=
  | Ok (a : A)
  | Err (e : error).
Arguments Ok {A} a.
Arguments Err {A} e.

#[global] Instance error_eq_dec : EqDecision error.
Proof. solve_decision. Defined.
#[global] Instance result_eq_dec `{EqDecision A} : EqDecision (result A).
Proof. solve_decision. Defined.
