(* ===== verification/GoTime.v ===== *)
(** * The time package

    [Time.Format] and [time.Parse] at the layout RFC3339, which is how instants
    reach the database, and [Truncate] to days.  An instant is its nanoseconds
    since the Unix epoch; the calendar is the proleptic Gregorian one.  The
    library's two facts are that parsing inverts formatting up to the second, and
    that the order of the texts (which the SQL comparisons use) is the order of
    the instants, for UTC texts of the years 0 to 9999. *)

From S2P Require Import Prelude GoStrings Hashing Domain.
From Stdlib Require Import Ascii.

Local Open Scope Z_scope.

(** ** The calendar *)

Record date := mkDate { year : Z; month : Z; day : Z }.

(** Years are counted from March: [year_start y] days lie between March 1 of year 0
    and March 1 of year [y], and month 0 is March. *)
Definition year_start (y : Z) : Z := 365 * y + y / 4 - y / 100 + y / 400.
Definition month_start (mp : Z) : Z := (153 * mp + 2) / 5.

(** The year of a day, by cutting off cycles of 400, 100, 4 and 1 years. *)
Definition march_year (z : Z) : Z :=
  let era := z / 146097 in
  let r := z mod 146097 in
  let c := r / 36524 - r / 146096 in
  let r := r - 36524 * c in
  let q := r / 1461 in
  let r := r mod 1461 in
  let a := r / 365 - r / 1460 in
  400 * era + 100 * c + 4 * q + a.

(** Days since 1970-01-01 to a date, and back. *)
Definition date_of_days (days : Z) : date :=
  let z := days + 719468 in
  let y := march_year z in
  let doy := z - year_start y in
  let mp := (5 * doy + 2) / 153 in
  mkDate (if mp <? 10 then y else y + 1) (if mp <? 10 then mp + 3 else mp - 9)
         (doy - month_start mp + 1).

Definition days_of_date (dt : date) : Z :=
  let y := if month dt <=? 2 then year dt - 1 else year dt in
  let mp := if month dt <=? 2 then month dt + 9 else month dt - 3 in
  year_start y + month_start mp + day dt - 1 - 719468.

Definition is_leap (y : Z) : bool :=
  (y mod 4 =? 0) && (negb (y mod 100 =? 0) || (y mod 400 =? 0)).

Definition daysIn (m y : Z) : Z :=
  if m =? 2 then if is_leap y then 29 else 28
  else if (m =? 4) || (m =? 6) || (m =? 9) || (m =? 11) then 30 else 31.

(** ** Formatting *)

Definition digit (n : Z) : ascii := byte_of (48 + n).

Definition pad2 (n : Z) : string := String (digit (n / 10)) (String (digit (n mod 10)) "").

Definition pad4 (n : Z) : string := pad2 (n / 100) +:+ pad2 (n mod 100).

(** [appendInt(b, year, 4)]. *)
Definition format_year (y : Z) : string :=
  if y <? 0 then "-" +:+ (if -y <? 10000 then pad4 (-y) else Sprint (-y))
  else if y <? 10000 then pad4 y else Sprint y.

(** [Z07:00], for an offset of [off] seconds east of UTC. *)
Definition format_zone (off : Z) : string :=
  let zone := Z.quot off 60 in
  if off =? 0 then "Z"
  else (if zone <? 0 then "-" else "+") +:+
       pad2 (Z.abs zone / 60) +:+ ":" +:+ pad2 (Z.abs zone mod 60).

Definition unix (t : time) : Z := t / second.

(** [t.Format(time.RFC3339)] of a time in the zone [off]. *)
Definition Format (off : Z) (t : time) : string :=
  let s := unix t + off in
  let dt := date_of_days (s / 86400) in
  let sod := s mod 86400 in
  format_year (year dt) +:+ "-" +:+ pad2 (month dt) +:+ "-" +:+ pad2 (day dt) +:+ "T" +:+
  pad2 (sod / 3600) +:+ ":" +:+ pad2 (sod / 60 mod 60) +:+ ":" +:+ pad2 (sod mod 60) +:+
  format_zone off.

(** [t.Truncate(24 * time.Hour)]: Go truncates from the zero time, which is a
    midnight. *)
Definition TruncateDay (t : time) : time := zero_time + (t - zero_time) / (24 * hour) * (24 * hour).

(** ** Parsing *)

Definition digit_val (c : ascii) : option Z :=
  let v := byte_val c - 48 in if (0 <=? v) && (v <=? 9) then Some v else None.

Fixpoint parse_digits (s : string) (acc : Z) : option Z :=
  match s with
  | "" => Some acc
  | String c s => v ← digit_val c; parse_digits s (acc * 10 + v)
  end.

(** [parseUint(s, min, max)]. *)
Definition parseUint (s : string) (lo hi : Z) : option Z :=
  x ← parse_digits s 0;
  if (x <? lo) || (hi <? x) then None else Some x.

Definition sub (s : string) (i j : nat) : string := str_take (j - i) (str_drop i s).

Definition char_is (s : string) (i : nat) (c : ascii) : bool :=
  match String.get i s with Some d => Ascii.eqb d c | None => false end.

(** The offset of the zone suffix. *)
Definition parse_zone (s : string) : option Z :=
  if String.eqb s "Z" then Some 0
  else if negb (strlen s =? 6)%nat then None
  else
    hr ← parseUint (sub s 1 3) 0 23;
    mm ← parseUint (sub s 4 6) 0 59;
    if (char_is s 0 "-" || char_is s 0 "+") && char_is s 3 ":" then
      Some (if char_is s 0 "-" then - ((hr * 60 + mm) * 60) else (hr * 60 + mm) * 60)
    else None.

(** [time.Parse(time.RFC3339, s)] on texts without fractional seconds, the only
    ones that the program writes. *)
Definition Parse (s : string) : option time :=
  if (strlen s <? 19)%nat then None
  else
    y ← parseUint (sub s 0 4) 0 9999;
    m ← parseUint (sub s 5 7) 1 12;
    d ← parseUint (sub s 8 10) 1 (daysIn m y);
    h ← parseUint (sub s 11 13) 0 23;
    mi ← parseUint (sub s 14 16) 0 59;
    sec ← parseUint (sub s 17 19) 0 59;
    if char_is s 4 "-" && char_is s 7 "-" && char_is s 10 "T" && char_is s 13 ":" && char_is s 16 ":"
    then
      off ← parse_zone (str_drop 19 s);
      Some ((days_of_date (mkDate y m d) * 86400 + h * 3600 + mi * 60 + sec - off) * second)
    else None.

Example format_ex : Format 0 (1718000000 * second) = "2024-06-10T06:13:20Z".
Proof. vm_compute. reflexivity. Qed.
Example format_zone_ex : Format 28800 (1718000000 * second) = "2024-06-10T14:13:20+08:00".
Proof. vm_compute. reflexivity. Qed.
Example format_zero_ex : Format 0 zero_time = "0001-01-01T00:00:00Z".
Proof. vm_compute. reflexivity. Qed.
Example parse_ex : Parse "2024-06-10T14:13:20+08:00" = Some (1718000000 * second).
Proof. vm_compute. reflexivity. Qed.

(** ** The calendar's laws *)

Lemma march_year_spec z : year_start (march_year z) ≤ z < year_start (march_year z + 1).
Proof. unfold year_start, march_year. cbv zeta. Z.to_euclidean_division_equations. lia. Qed.

(** A date's position counted in months and days: what the texts are ordered by. *)
Definition month_index (dt : date) : Z := 12 * year dt + month dt.

(** The date of a day, described by its March year [y], month [mp] and day. *)
Lemma date_of_days_march days :
  let y := march_year (days + 719468) in
  let dt := date_of_days days in
  ∃ mp, 0 ≤ mp ≤ 11 ∧ month_index dt = 12 * y + mp + 3 ∧
        month dt = (if mp <? 10 then mp + 3 else mp - 9) ∧
        days + 719468 = year_start y + month_start mp + day dt - 1 ∧
        1 ≤ day dt ≤ month_start (mp + 1) - month_start mp ∧
        year_start y + month_start mp + day dt - 1 < year_start (y + 1).
Proof.
  cbv zeta. pose proof (march_year_spec (days + 719468)) as Hy.
  set (y := march_year (days + 719468)) in *.
  set (doy := days + 719468 - year_start y).
  assert (0 ≤ doy ≤ 365) as Hd.
  { unfold doy, year_start in *. Z.to_euclidean_division_equations. lia. }
  exists ((5 * doy + 2) / 153). unfold month_index, date_of_days. cbv zeta. fold y. fold doy. simpl.
  assert (0 ≤ (5 * doy + 2) / 153 ≤ 11) by (Z.to_euclidean_division_equations; lia).
  split_and!; [lia|lia|case_match; lia|done|unfold doy; lia| | |unfold doy; lia].
  all: unfold month_start; clearbody doy; Z.to_euclidean_division_equations; lia.
Qed.

Lemma days_of_date_of_days days : days_of_date (date_of_days days) = days.
Proof.
  destruct (date_of_days_march days) as (mp & Hmp & Hi & Hm & Hz & _).
  unfold days_of_date. unfold month_index in Hi. set (y := march_year _) in *.
  destruct (Z.ltb_spec mp 10); rewrite Hm in *.
  - rewrite (proj2 (Z.leb_gt _ _)) by lia.
    replace (year _) with y by lia. replace (mp + 3 - 3) with mp by lia. lia.
  - rewrite (proj2 (Z.leb_le _ _)) by lia.
    replace (year _ - 1) with y by lia. replace (mp - 9 + 9) with mp by lia. lia.
Qed.

Lemma date_of_days_valid days :
  let dt := date_of_days days in 1 ≤ month dt ≤ 12 ∧ 1 ≤ day dt ≤ daysIn (month dt) (year dt).
Proof.
  cbv zeta. destruct (date_of_days_march days) as (mp & Hmp & Hi & Hm & _ & Hd & Hn).
  unfold month_index in Hi. set (y := march_year _) in *.
  set (dt := date_of_days days) in *. clearbody dt y. clear days.
  split; [rewrite Hm; case_match; lia|]. split; [lia|].
  assert (mp = 11 ∨ mp < 11) as [->|Hlt] by lia.
  - simpl in Hm. unfold daysIn. rewrite Hm. simpl. assert (year dt = y + 1) as -> by lia.
    unfold is_leap, month_start, year_start in *. simpl in *.
    destruct (Z.eqb_spec ((y + 1) mod 4) 0), (Z.eqb_spec ((y + 1) mod 100) 0),
      (Z.eqb_spec ((y + 1) mod 400) 0); simpl; Z.to_euclidean_division_equations; lia.
  - destruct Hd as [_ Hd]. transitivity (month_start (mp + 1) - month_start mp); [done|].
    assert (mp ∈ seqZ 0 11) as Hin by (apply elem_of_seqZ; lia).
    rewrite Hm. unfold daysIn. clear -Hin.
    repeat (apply elem_of_cons in Hin as [->|Hin]; [vm_compute; done|]). by apply elem_of_nil in Hin.
Qed.

(** Later days have later dates. *)
Definition date_lt (d1 d2 : date) : Prop :=
  month_index d1 < month_index d2 ∨ month_index d1 = month_index d2 ∧ day d1 < day d2.

Lemma year_start_mono y1 y2 : y1 ≤ y2 → year_start y1 ≤ year_start y2.
Proof. unfold year_start. intros. Z.to_euclidean_division_equations. lia. Qed.

Lemma date_of_days_mono d1 d2 : d1 < d2 → date_lt (date_of_days d1) (date_of_days d2).
Proof.
  intros Hlt. unfold date_lt.
  destruct (date_of_days_march d1) as (m1 & Hm1 & -> & _ & Hz1 & Hd1 & _).
  destruct (date_of_days_march d2) as (m2 & Hm2 & -> & _ & Hz2 & Hd2 & _).
  pose proof (march_year_spec (d1 + 719468)) as Hy1. pose proof (march_year_spec (d2 + 719468)) as Hy2.
  set (y1 := march_year (d1 + 719468)) in *. set (y2 := march_year (d2 + 719468)) in *.
  assert (y1 ≤ y2) as Hy.
  { destruct (Z.le_gt_cases y1 y2); [done|]. pose proof (year_start_mono (y2 + 1) y1). lia. }
  destruct (decide (y1 < y2)); [left; lia|]. assert (y2 = y1) as E by lia. rewrite E in *.
  assert (m1 ≤ m2).
  { destruct (Z.le_gt_cases m1 m2); [done|].
    assert (month_start (m2 + 1) ≤ month_start m1)
      by (unfold month_start; Z.to_euclidean_division_equations; lia). lia. }
  destruct (decide (m1 < m2)); [left; lia|]. assert (m2 = m1) as -> by lia. right. lia.
Qed.

(** ** The order of the texts *)

(** Lexicographic composition of comparisons. *)
Definition lex (c1 c2 : comparison) : comparison :=
  match c1 with Eq => c2 | _ => c1 end.

Lemma compare_app a a' b b' :
  strlen a = strlen a' →
  String.compare (a +:+ b) (a' +:+ b') = lex (String.compare a a') (String.compare b b').
Proof.
  revert a'; induction a as [|c a IH]; intros [|c' a']; try done.
  intros [= Hl]. rewrite !str_app_cons. cbn [String.compare].
  destruct (Ascii.compare c c'); [|done..]. by apply IH.
Qed.

Lemma compare_refl s : String.compare s s = Eq.
Proof.
  induction s as [|c s IH]; simpl; [done|]. unfold Ascii.compare. by rewrite N.compare_refl.
Qed.

Lemma digit_byte n : 0 ≤ n < 10 → byte_val (digit n) = 48 + n.
Proof. intros Hn. unfold byte_val, digit, byte_of. rewrite N_ascii_embedding by lia. lia. Qed.

Lemma compare_digit a b : 0 ≤ a < 10 → 0 ≤ b < 10 → Ascii.compare (digit a) (digit b) = (a ?= b).
Proof.
  intros Ha Hb. unfold Ascii.compare. rewrite <- N2Z.inj_compare.
  pose proof (digit_byte a Ha). pose proof (digit_byte b Hb). unfold byte_val in *.
  destruct (Z.compare_spec a b), (Z.compare_spec (Z.of_N (N_of_ascii (digit a)))
    (Z.of_N (N_of_ascii (digit b)))); done || lia.
Qed.

(** A quotient and a remainder compare like the number. *)
Lemma lex_divmod a b k : 0 < k → lex (a / k ?= b / k) (a mod k ?= b mod k) = (a ?= b).
Proof.
  intros Hk. pose proof (Z.div_mod a k). pose proof (Z.div_mod b k).
  pose proof (Z.mod_pos_bound a k Hk). pose proof (Z.mod_pos_bound b k Hk).
  destruct (Z.compare_spec (a / k) (b / k)), (Z.compare_spec (a mod k) (b mod k)),
    (Z.compare_spec a b); simpl; done || nia.
Qed.

Lemma compare_pad2 a b :
  0 ≤ a < 100 → 0 ≤ b < 100 → String.compare (pad2 a) (pad2 b) = (a ?= b).
Proof.
  intros Ha Hb. rewrite <- (lex_divmod a b 10) by lia. unfold pad2. simpl.
  rewrite !compare_digit by (Z.to_euclidean_division_equations; lia).
  by destruct (a / 10 ?= b / 10), (a mod 10 ?= b mod 10).
Qed.

Lemma compare_pad4 a b :
  0 ≤ a < 10000 → 0 ≤ b < 10000 → String.compare (pad4 a) (pad4 b) = (a ?= b).
Proof.
  intros Ha Hb. rewrite <- (lex_divmod a b 100) by lia. unfold pad4. rewrite compare_app by done.
  by rewrite !compare_pad2 by (Z.to_euclidean_division_equations; lia).
Qed.

(** The UTC date of an instant, and the instants whose year has four digits. *)
Definition utc_date (t : time) : date := date_of_days (unix t / 86400).
Definition four_digit_year (t : time) : Prop := 0 ≤ year (utc_date t) < 10000.

Lemma Format_utc t :
  four_digit_year t →
  Format 0 t =
    pad4 (year (utc_date t)) +:+ "-" +:+ pad2 (month (utc_date t)) +:+ "-" +:+
    pad2 (day (utc_date t)) +:+ "T" +:+ pad2 (unix t mod 86400 / 3600) +:+ ":" +:+
    pad2 (unix t mod 86400 / 60 mod 60) +:+ ":" +:+ pad2 (unix t mod 86400 mod 60) +:+ "Z".
Proof.
  intros Hy. unfold Format. rewrite Z.add_0_r. fold (utc_date t).
  unfold format_year, four_digit_year in *.
  by rewrite (proj2 (Z.ltb_ge _ _)), (proj2 (Z.ltb_lt _ _)) by lia.
Qed.

Lemma utc_date_bounds t :
  1 ≤ month (utc_date t) ≤ 12 ∧ 1 ≤ day (utc_date t) ≤ 31.
Proof.
  destruct (date_of_days_valid (unix t / 86400)) as [Hm Hd]. fold (utc_date t) in *.
  split; [done|]. assert (daysIn (month (utc_date t)) (year (utc_date t)) ≤ 31); [|lia].
  unfold daysIn. repeat case_match; lia.
Qed.

(** The fields of a time of day compare like the time of day. *)
Lemma compare_clock a b :
  0 ≤ a < 86400 → 0 ≤ b < 86400 →
  lex (a / 3600 ?= b / 3600) (lex (a / 60 mod 60 ?= b / 60 mod 60) (a mod 60 ?= b mod 60)) = (a ?= b).
Proof.
  intros Ha Hb. rewrite <- (lex_divmod a b 60), <- (lex_divmod (a / 60) (b / 60) 60) by lia.
  rewrite !Z.div_div by lia. change (60 * 60) with 3600.
  by destruct (a / 3600 ?= b / 3600), (a / 60 mod 60 ?= b / 60 mod 60).
Qed.

Lemma compare_dates d1 d2 :
  let dt1 := date_of_days d1 in let dt2 := date_of_days d2 in
  lex (year dt1 ?= year dt2) (lex (month dt1 ?= month dt2) (day dt1 ?= day dt2)) = (d1 ?= d2).
Proof.
  cbv zeta. destruct (date_of_days_valid d1) as [Hm1 _], (date_of_days_valid d2) as [Hm2 _].
  destruct (Z.compare_spec d1 d2) as [->|Hlt|Hlt].
  - by rewrite !Z.compare_refl.
  - apply date_of_days_mono in Hlt. unfold date_lt, month_index in Hlt.
    destruct (Z.compare_spec (year (date_of_days d1)) (year (date_of_days d2))),
      (Z.compare_spec (month (date_of_days d1)) (month (date_of_days d2))),
      (Z.compare_spec (day (date_of_days d1)) (day (date_of_days d2))); simpl; done || lia.
  - apply date_of_days_mono in Hlt. unfold date_lt, month_index in Hlt.
    destruct (Z.compare_spec (year (date_of_days d1)) (year (date_of_days d2))),
      (Z.compare_spec (month (date_of_days d1)) (month (date_of_days d2))),
      (Z.compare_spec (day (date_of_days d1)) (day (date_of_days d2))); simpl; done || lia.
Qed.

Lemma lex_assoc c1 c2 c3 : lex (lex c1 c2) c3 = lex c1 (lex c2 c3).
Proof. by destruct c1. Qed.

(** UTC texts are ordered like the instants, to the second. *)
Lemma Format_order t1 t2 :
  four_digit_year t1 → four_digit_year t2 →
  String.compare (Format 0 t1) (Format 0 t2) = (unix t1 ?= unix t2).
Proof.
  intros H1 H2. rewrite !Format_utc by done.
  destruct (utc_date_bounds t1) as [Hm1 Hd1], (utc_date_bounds t2) as [Hm2 Hd2].
  assert (0 ≤ unix t1 mod 86400 < 86400) as Hs1 by (apply Z.mod_pos_bound; lia).
  assert (0 ≤ unix t2 mod 86400 < 86400) as Hs2 by (apply Z.mod_pos_bound; lia).
  rewrite <- (lex_divmod (unix t1) (unix t2) 86400) by lia.
  rewrite <- (compare_clock (unix t1 mod 86400) (unix t2 mod 86400)), <- compare_dates by done. fold (utc_date t1) (utc_date t2).
  set (s1 := unix t1 mod 86400) in *. set (s2 := unix t2 mod 86400) in *.
  unfold four_digit_year in *.
  repeat (rewrite compare_app by done).
  rewrite compare_pad4, !compare_pad2, !compare_refl
    by (lia || (Z.to_euclidean_division_equations; lia)).
  rewrite !lex_assoc. cbn [lex]. by destruct (s1 mod 60 ?= s2 mod 60).
Qed.

Lemma Format_ltb t1 t2 :
  four_digit_year t1 → four_digit_year t2 →
  String.ltb (Format 0 t1) (Format 0 t2) = (unix t1 <? unix t2).
Proof.
  intros H1 H2. unfold String.ltb. rewrite Format_order by done. unfold Z.ltb.
  by destruct (unix t1 ?= unix t2).
Qed.

(** The instants from 1970 to 9999. *)
Definition modern (t : time) : Prop := 0 ≤ unix t < 253402300800.

Lemma modern_four_digit t : modern t → four_digit_year t.
Proof.
  intros Ht. unfold modern in Ht. unfold four_digit_year, utc_date.
  assert (0 ≤ unix t / 86400 ≤ 2932896) as Hd by (Z.to_euclidean_division_equations; lia).
  pose proof (compare_dates 0 (unix t / 86400)) as H0.
  pose proof (compare_dates (unix t / 86400) 2932896) as H1. cbv zeta in *.
  change (date_of_days 0) with (mkDate 1970 1 1) in H0.
  change (date_of_days 2932896) with (mkDate 9999 12 31) in H1.
  set (dt := date_of_days (unix t / 86400)) in *. cbn [year month day] in *. split.
  - destruct (1970 ?= year dt) eqn:E; [apply Z.compare_eq in E; lia|rewrite Z.compare_lt_iff in E; lia|].
    cbn [lex] in H0. symmetry in H0. rewrite Z.compare_gt_iff in H0. lia.
  - destruct (year dt ?= 9999) eqn:E; [apply Z.compare_eq in E; lia|rewrite Z.compare_lt_iff in E; lia|].
    cbn [lex] in H1. symmetry in H1. rewrite Z.compare_gt_iff in H1. lia.
Qed.

(** ** Parsing inverts formatting *)

Lemma digit_val_digit n : 0 ≤ n < 10 → digit_val (digit n) = Some n.
Proof.
  intros Hn. unfold digit_val. rewrite digit_byte by done.
  replace (48 + n - 48) with n by lia. by rewrite !(proj2 (Z.leb_le _ _)) by lia.
Qed.

Lemma parseUint_pad2 n lo hi : 0 ≤ n < 100 → lo ≤ n ≤ hi → parseUint (pad2 n) lo hi = Some n.
Proof.
  intros Hn Hb. unfold parseUint, pad2. cbn [parse_digits].
  rewrite !digit_val_digit by (Z.to_euclidean_division_equations; lia). cbn [mbind option_bind].
  replace ((0 * 10 + n / 10) * 10 + n mod 10) with n by (Z.to_euclidean_division_equations; lia).
  by rewrite !(proj2 (Z.ltb_ge _ _)) by lia.
Qed.

Lemma parseUint_pad4 n : 0 ≤ n < 10000 → parseUint (pad4 n) 0 9999 = Some n.
Proof.
  intros Hn. unfold parseUint.
  change (pad4 n) with (String (digit (n / 100 / 10)) (String (digit ((n / 100) mod 10))
    (String (digit (n mod 100 / 10)) (String (digit ((n mod 100) mod 10)) "")))).
  cbn [parse_digits].
  rewrite !digit_val_digit by (Z.to_euclidean_division_equations; lia). cbn [mbind option_bind].
  replace ((((0 * 10 + n / 100 / 10) * 10 + (n / 100) mod 10) * 10 + n mod 100 / 10) * 10 +
    (n mod 100) mod 10) with n by (Z.to_euclidean_division_equations; lia).
  by rewrite !(proj2 (Z.ltb_ge _ _)) by lia.
Qed.

(** The fixed-width fields of a text. *)
Lemma text_fields a b c d e f z :
  let s := pad4 a +:+ "-" +:+ pad2 b +:+ "-" +:+ pad2 c +:+ "T" +:+ pad2 d +:+ ":" +:+
           pad2 e +:+ ":" +:+ pad2 f +:+ z in
  sub s 0 4 = pad4 a ∧ sub s 5 7 = pad2 b ∧ sub s 8 10 = pad2 c ∧ sub s 11 13 = pad2 d ∧
  sub s 14 16 = pad2 e ∧ sub s 17 19 = pad2 f ∧ str_drop 19 s = z ∧
  (char_is s 4 "-" && char_is s 7 "-" && char_is s 10 "T" && char_is s 13 ":" && char_is s 16 ":")
    = true ∧ (strlen s <? 19)%nat = false.
Proof. cbv zeta. split_and!; reflexivity. Qed.

Lemma Parse_Format t :
  four_digit_year t → Parse (Format 0 t) = Some (unix t * second).
Proof.
  intros Hy. rewrite Format_utc by done. set (s := unix t mod 86400).
  assert (0 ≤ s < 86400) as Hs by (apply Z.mod_pos_bound; lia).
  destruct (utc_date_bounds t) as [Hm Hd]. unfold four_digit_year in Hy.
  destruct (text_fields (year (utc_date t)) (month (utc_date t)) (day (utc_date t))
    (s / 3600) (s / 60 mod 60) (s mod 60) "Z") as (H1 & H2 & H3 & H4 & H5 & H6 & H7 & H8 & H9).
  unfold Parse. rewrite H9, H1, H2, H3, H4, H5, H6.
  rewrite parseUint_pad4 by lia. cbn [mbind option_bind].
  rewrite (parseUint_pad2 (month (utc_date t))) by lia. cbn [mbind option_bind].
  rewrite (parseUint_pad2 (day (utc_date t)))
    by (pose proof (date_of_days_valid (unix t / 86400)) as [_ ?]; unfold utc_date in *; lia).
  rewrite (parseUint_pad2 (s / 3600)), (parseUint_pad2 ((s / 60) mod 60)), (parseUint_pad2 (s mod 60))
    by (Z.to_euclidean_division_equations; lia). cbn [mbind option_bind].
  rewrite H8, H7. change (parse_zone "Z") with (Some 0). cbn [mbind option_bind].
  do 2 f_equal. replace (mkDate _ _ _) with (utc_date t) by (by destruct (utc_date t)).
  unfold utc_date at 1. rewrite days_of_date_of_days. unfold s. clear. Z.to_euclidean_division_equations. lia.
Qed.

(** Decides [modern] for a concrete instant. *)
Ltac modern_now := split; [apply Z.leb_le|apply Z.ltb_lt]; vm_compute; reflexivity.
