(* ===== verification/GoNumbers.v ===== *)
(** * Numbers and durations as text

    What the program uses of [strconv] and of [time.Duration]: [ParseInt] and [Atoi]
    in base ten, [Duration.String] and [ParseDuration].  Each parser's error is
    [None]; the uint64 arithmetic of [ParseDuration] wraps as in Go and its fractions
    go through float64.  The laws at the end show that the parsers yield int64 values
    only and that they invert printing on all of them. *)

From S2P Require Import Prelude Float64 GoStrings Hashing Domain GoTime.
From stdpp Require Import pretty.
From Stdlib Require Import Ascii.

Local Open Scope Z_scope.

(** ** strconv *)

(** [ParseUint(s, 10, 64)]: digits only, at least one, below 2^64. *)
Definition ParseUint (s : string) : option Z :=
  if String.eqb s "" then None
  else n ← parse_digits s 0; if n <? 2 ^ 64 then Some n else None.

(** [ParseInt(s, 10, 64)]. *)
Definition ParseInt (s : string) : option Z :=
  if HasPrefix s "-" then
    un ← ParseUint (str_drop 1 s); if 2 ^ 63 <? un then None else Some (- un)
  else
    un ← ParseUint (if HasPrefix s "+" then str_drop 1 s else s);
    if 2 ^ 63 <=? un then None else Some un.

(** [Atoi(s)] is [ParseInt(s, 10, 0)] with an int of 64 bits. *)
Definition Atoi (s : string) : option Z := ParseInt s.

(** ** Duration.String *)

Fixpoint dec_digits (n : nat) (z : Z) : string :=
  match n with
  | O => ""
  | S n => dec_digits n (z / 10) +:+ Sprint (z mod 10)
  end.

(** The fraction of [v] in units of [10^prec], without trailing zeros. *)
Definition fmtFrac (prec : nat) (v : Z) : string :=
  let ds := TrimRightByte (dec_digits prec (v mod 10 ^ Z.of_nat prec)) "0" in
  if String.eqb ds "" then "" else "." +:+ ds.

(** The text of a duration's magnitude. *)
Definition duration_body (u : Z) : string :=
  if u =? 0 then "0s"
  else if u <? 1000 then Sprint u +:+ "ns"
  else if u <? 1000000 then Sprint (u / 1000) +:+ fmtFrac 3 u +:+ "µs"
  else if u <? second then Sprint (u / 1000000) +:+ fmtFrac 6 u +:+ "ms"
  else
    let secs := u / second in
    let s := Sprint (secs mod 60) +:+ fmtFrac 9 u +:+ "s" in
    let m := secs / 60 in
    if m =? 0 then s
    else
      let h := m / 60 in
      (if h =? 0 then "" else Sprint h +:+ "h") +:+ Sprint (m mod 60) +:+ "m" +:+ s.

Definition Duration_String (d : duration) : string :=
  (if d <? 0 then "-" else "") +:+ duration_body (Z.abs d).

Example duration_ex : Duration_String (10 * minute) = "10m0s". Proof. vm_compute. reflexivity. Qed.
Example duration_ex2 : Duration_String (3661 * second + 500000000) = "1h1m1.5s".
Proof. vm_compute. reflexivity. Qed.

(** ** ParseDuration *)

Definition uint64 (z : Z) : Z := z mod 2 ^ 64.

Definition leadingInt_step (x d : Z) : option Z :=
  if 2 ^ 63 / 10 <? x then None
  else let x := x * 10 + d in if 2 ^ 63 <? x then None else Some x.

(** The leading digits and what follows them; [None] above 2^63. *)
Fixpoint leadingInt (s : string) (x : Z) : option (Z * string) :=
  match s with
  | "" => Some (x, "")
  | String c s' =>
      match digit_val c with
      | None => Some (x, s)
      | Some d => x ← leadingInt_step x d; leadingInt s' x
      end
  end.

(** Digits that no longer fit are dropped. *)
Fixpoint leadingFraction (s : string) (x : Z) (scale : float64) (overflow : bool) : Z * float64 * string :=
  match s with
  | "" => (x, scale, "")
  | String c s' =>
      match digit_val c with
      | None => (x, scale, s)
      | Some d =>
          if overflow then leadingFraction s' x scale true
          else if (2 ^ 63 - 1) / 10 <? x then leadingFraction s' x scale true
          else
            let y := uint64 (x * 10 + d) in
            if 2 ^ 63 <? y then leadingFraction s' x scale true
            else leadingFraction s' y (f64_mul scale (f64_of_Z 10)) false
      end
  end.

Definition number_char (c : ascii) : bool :=
  Ascii.eqb c "." || match digit_val c with Some _ => true | None => false end.

Fixpoint take_unit (s : string) : string * string :=
  match s with
  | "" => ("", "")
  | String c s' =>
      if number_char c then ("", s)
      else let '(u, rest) := take_unit s' in (String c u, rest)
  end.

Definition unitMap (u : string) : option Z :=
  if String.eqb u "ns" then Some 1
  else if String.eqb u "us" || String.eqb u "µs" || String.eqb u "μs" then Some 1000
  else if String.eqb u "ms" then Some 1000000
  else if String.eqb u "s" then Some second
  else if String.eqb u "m" then Some minute
  else if String.eqb u "h" then Some hour
  else None.

(** The optional fraction: its digits as an int, their scale, what follows and whether
    there was a digit. *)
Definition fraction (s : string) : Z * float64 * string * bool :=
  if HasPrefix s "." then
    let '(f, scale, rest) := leadingFraction (str_drop 1 s) 0 f64_one false in
    (f, scale, rest, negb (strlen (str_drop 1 s) =? strlen rest)%nat)
  else (0, f64_one, s, false).

(** The nanoseconds of [v] and [f/scale] units. *)
Definition in_units (v f : Z) (scale : float64) (unit : Z) : option Z :=
  if 2 ^ 63 / unit <? v then None
  else if 0 <? f then
    let w := uint64 (v * unit + f64_trunc (f64_mul (f64_of_Z f) (f64_div (f64_of_Z unit) scale))) in
    if 2 ^ 63 <? w then None else Some w
  else Some (v * unit).

(** One number with its unit, and what follows. *)
Definition segment (s : string) : option (Z * string) :=
  match s with
  | "" => None
  | String c _ =>
      if negb (number_char c) then None
      else
        '(v, s1) ← leadingInt s 0;
        let pre := negb (strlen s =? strlen s1)%nat in
        let '(f, scale, s2, post) := fraction s1 in
        if negb pre && negb post then None
        else
          let '(u, s3) := take_unit s2 in
          if String.eqb u "" then None
          else
            unit ← unitMap u;
            v ← in_units v f scale unit;
            Some (v, s3)
  end.

(** The sum of all segments; a segment consumes a byte at least. *)
Fixpoint segments (fuel : nat) (s : string) (d : Z) : option Z :=
  if String.eqb s "" then Some d
  else
    match fuel with
    | O => None
    | S fuel =>
        '(v, s) ← segment s;
        let d := uint64 (d + v) in
        if 2 ^ 63 <? d then None else segments fuel s d
    end.

Definition ParseDuration (s : string) : option duration :=
  let neg := HasPrefix s "-" in
  let s := if neg || HasPrefix s "+" then str_drop 1 s else s in
  if String.eqb s "0" then Some 0
  else if String.eqb s "" then None
  else
    d ← segments (strlen s) s 0;
    if neg then Some (- d)
    else if 2 ^ 63 - 1 <? d then None else Some d.

Section examples.
Example parse_int_ex : (ParseInt "-9223372036854775808", ParseInt "9223372036854775808", ParseInt "1_000")
  = (Some (- 2 ^ 63), None, None). Proof. vm_compute. reflexivity. Qed.
Example parse_duration_ex : ParseDuration "1h15m30.918s" = Some 4530918000000.
Proof. vm_compute. reflexivity. Qed.
Example parse_duration_ex2 : (ParseDuration "30", ParseDuration "-1.5h", ParseDuration ".5s", ParseDuration "1d")
  = (None, Some (-5400000000000), Some 500000000, None). Proof. vm_compute. reflexivity. Qed.
End examples.

(** ** Laws *)

Definition starts_digit (s : string) : bool :=
  match s with String c _ => number_char c | "" => false end.

Lemma pretty_char_digit n : (n < 10)%N → digit_val (pretty_N_char n) = Some (Z.of_N n).
Proof. intros Hn. by destruct n as [|p]; [|repeat (destruct p as [p|p|]; try done; try lia)]. Qed.

(** Reading a printed number digit by digit, with a step that accepts its prefixes. *)
Section read_pretty.
Context {A : Type} (read : string → Z → A) (bound : Z).
Hypothesis read_digit : ∀ c s x d,
  digit_val c = Some d → 0 ≤ x → x * 10 + d ≤ bound → read (String c s) x = read s (x * 10 + d).

Lemma read_pretty_go n s : Z.of_N n ≤ bound → read (pretty_N_go n s) 0 = read s (Z.of_N n).
Proof.
  revert s. induction (N.lt_wf_0 n) as [n _ IH]; intros s Hn.
  destruct (decide (n = 0)%N) as [->|Hn0]; [by rewrite pretty_N_go_0|].
  assert (0 < n)%N as Hpos by lia. rewrite pretty_N_go_step by done.
  pose proof (N.div_mod n 10 ltac:(done)) as Hdm. pose proof (N.mod_lt n 10 ltac:(done)) as Hml.
  pose proof (N.Div0.div_lt_upper_bound n 10 n ltac:(lia)) as Hdl.
  rewrite IH by lia.
  rewrite (read_digit _ _ _ (Z.of_N (n mod 10))); [f_equal; lia|by apply pretty_char_digit|lia..].
Qed.

Lemma read_pretty z s : 0 ≤ z ≤ bound → read (Sprint z +:+ s) 0 = read s z.
Proof.
  assert (∀ n t u, pretty_N_go n t +:+ u = pretty_N_go n (t +:+ u)) as Happ.
  { intros n. induction (N.lt_wf_0 n) as [n _ IH]; intros t u.
    destruct (decide (n = 0)%N) as [->|Hn0]; [by rewrite !pretty_N_go_0|].
    assert (0 < n)%N as Hpos by lia. rewrite !(pretty_N_go_step n) by done.
    rewrite IH by (apply N.Div0.div_lt_upper_bound; lia). done. }
  intros Hz. destruct z as [|p|p]; [|unfold Sprint, pretty, pretty_Z, pretty, pretty_positive, pretty, pretty_N|lia].
  - change (Sprint 0) with "0". change ("0" +:+ s) with (String "0" s).
    rewrite (read_digit _ _ _ 0) by (done || lia). done.
  - rewrite decide_False by done. rewrite Happ. cbn [String.append]. by rewrite read_pretty_go by lia.
Qed.
End read_pretty.

Lemma Sprint_head z : 0 ≤ z → ∃ c s d, Sprint z = String c s ∧ digit_val c = Some d.
Proof.
  assert (∀ n c0 s0 d0, digit_val c0 = Some d0 →
    ∃ c s d, pretty_N_go n (String c0 s0) = String c s ∧ digit_val c = Some d) as Hgo.
  { intros n. induction (N.lt_wf_0 n) as [n _ IH]; intros c0 s0 d0 Hc.
    destruct (decide (n = 0)%N) as [->|Hn0]; [rewrite pretty_N_go_0; eauto|].
    assert (0 < n)%N as Hpos by lia. rewrite pretty_N_go_step by done.
    eapply IH; [apply N.Div0.div_lt_upper_bound; lia|]. apply pretty_char_digit. by apply N.mod_lt. }
  intros Hz. destruct z as [|p|p]; [exists "0"%char, "", 0; done| |lia].
  unfold Sprint, pretty, pretty_Z, pretty, pretty_positive, pretty, pretty_N.
  rewrite decide_False by done. rewrite pretty_N_go_step by lia.
  eapply Hgo. apply pretty_char_digit. by apply N.mod_lt.
Qed.

(** *** Ints *)

Lemma parse_digits_nonneg s x n : 0 ≤ x → parse_digits s x = Some n → 0 ≤ n.
Proof.
  revert x; induction s as [|c s IH]; intros x Hx; cbn [parse_digits]; [naive_solver|].
  unfold digit_val. destruct (_ && _) eqn:E; [|done]. cbn [mbind option_bind]. bool_split.
  apply IH. lia.
Qed.

Lemma ParseUint_nonneg s n : ParseUint s = Some n → 0 ≤ n.
Proof.
  unfold ParseUint. destruct (String.eqb s ""); [done|].
  destruct (parse_digits s 0) as [m|] eqn:E; [|done]. cbn [mbind option_bind].
  apply parse_digits_nonneg in E; [|lia]. destruct (m <? 2 ^ 64); [|done]. naive_solver.
Qed.

(** ParseInt yields int64 values only. *)
Lemma ParseInt_range s n : ParseInt s = Some n → is_int64 n.
Proof.
  unfold ParseInt, is_int64. destruct (HasPrefix s "-").
  - destruct (ParseUint _) as [un|] eqn:E; [|done]. apply ParseUint_nonneg in E.
    cbn [mbind option_bind]. destruct (2 ^ 63 <? un) eqn:E'; [done|]. bool_split. intros [= <-]. lia.
  - destruct (ParseUint _) as [un|] eqn:E; [|done]. apply ParseUint_nonneg in E.
    cbn [mbind option_bind]. destruct (2 ^ 63 <=? un) eqn:E'; [done|]. bool_split. intros [= <-]. lia.
Qed.

Lemma digit_not_sign c d : digit_val c = Some d → c ≠ "-"%char ∧ c ≠ "+"%char ∧ c ≠ "."%char.
Proof. intros Hc. by split_and!; intros ->. Qed.

Lemma ParseUint_Sprint z : 0 ≤ z < 2 ^ 64 → ParseUint (Sprint z) = Some z.
Proof.
  intros Hz. unfold ParseUint. destruct (Sprint_head z) as (c & s & d & Hs & Hc); [lia|].
  rewrite Hs at 1. cbn [String.eqb]. rewrite <- (str_app_nil_r (Sprint z)).
  rewrite (read_pretty parse_digits z); [|intros ???? Hd _ _; cbn [parse_digits]; by rewrite Hd|lia].
  cbn [parse_digits mbind option_bind]. by rewrite (proj2 (Z.ltb_lt _ _)) by lia.
Qed.

(** ParseInt inverts printing. *)
Lemma ParseInt_Sprint n : is_int64 n → ParseInt (Sprint n) = Some n.
Proof.
  unfold is_int64. intros Hn. unfold ParseInt. destruct (decide (n < 0)) as [Hneg|Hpos].
  - destruct n as [|p|p]; [lia..|]. change (Sprint (Zneg p)) with (String "-" (Sprint (Zpos p))).
    rewrite HasPrefix_char, Ascii.eqb_refl. cbn [str_drop]. rewrite ParseUint_Sprint by lia.
    cbn [mbind option_bind]. by rewrite (proj2 (Z.ltb_ge _ _)) by lia.
  - destruct (Sprint_head n) as (c & s & d & Hs & Hc); [lia|].
    apply digit_not_sign in Hc as (H1 & H2 & _). rewrite Hs, !HasPrefix_char.
    rewrite (proj2 (Ascii.eqb_neq _ _) H1), (proj2 (Ascii.eqb_neq _ _) H2), <- Hs.
    rewrite ParseUint_Sprint by lia. cbn [mbind option_bind]. by rewrite (proj2 (Z.leb_gt _ _)) by lia.
Qed.

(** *** Fractions *)

Lemma Sprint_digit d : 0 ≤ d < 10 → Sprint d = String (pretty_N_char (Z.to_N d)) "".
Proof.
  intros Hd. assert (d = 0 ∨ d = 1 ∨ d = 2 ∨ d = 3 ∨ d = 4 ∨ d = 5 ∨ d = 6 ∨ d = 7 ∨ d = 8 ∨ d = 9)
    as Hc by lia. by repeat destruct Hc as [->|Hc]; [..|subst d].
Qed.

Lemma TrimRightByte_snoc s c d :
  TrimRightByte (s +:+ String d "") c = if Ascii.eqb d c then TrimRightByte s c else s +:+ String d "".
Proof.
  induction s as [|x s IH]; [done|]. rewrite str_app_cons. cbn [TrimRightByte]. rewrite IH.
  destruct (Ascii.eqb d c); [done|]. by destruct s.
Qed.

(** Trimming zeros divides by powers of ten. *)
Lemma trim_dec_digits n z :
  0 ≤ z < 10 ^ Z.of_nat n →
  ∃ k y, (k ≤ n)%nat ∧ TrimRightByte (dec_digits n z) "0" = dec_digits k y ∧
         0 ≤ y < 10 ^ Z.of_nat k ∧ z = y * 10 ^ Z.of_nat (n - k).
Proof.
  revert z; induction n as [|n IH]; intros z Hz.
  { exists 0%nat, 0. change (10 ^ Z.of_nat 0) with 1 in *. split_and!; try done; lia. }
  cbn [dec_digits]. pose proof (Z.div_mod z 10 ltac:(lia)). pose proof (Z.mod_pos_bound z 10 ltac:(lia)).
  assert (10 ^ Z.of_nat (S n) = 10 * 10 ^ Z.of_nat n) as Hpow
    by (rewrite Nat2Z.inj_succ, Z.pow_succ_r by lia; done).
  rewrite Sprint_digit, TrimRightByte_snoc by lia. destruct (Ascii.eqb _ _) eqn:E.
  - apply Ascii.eqb_eq in E. change "0"%char with (pretty_N_char 0) in E.
    apply pretty_N_char_inj in E; [|lia..].
    destruct (IH (z / 10)) as (k & y & Hk & Ht & Hy & Hz'); [lia|]. exists k, y.
    split_and!; [lia|done|lia..|]. replace (S n - k)%nat with (S (n - k)) by lia.
    rewrite Nat2Z.inj_succ, Z.pow_succ_r by lia. lia.
  - exists (S n), z. rewrite Nat.sub_diag. change (10 ^ Z.of_nat 0) with 1.
    split_and!; [lia| |lia..]. cbn [dec_digits]. by rewrite Sprint_digit by lia.
Qed.

Lemma pow10_bound k : (k ≤ 9)%nat → 0 < 10 ^ Z.of_nat k ≤ 10 ^ 9.
Proof. intros Hk. split; [apply Z.pow_pos_nonneg; lia|]. apply Z.pow_le_mono_r; lia. Qed.

Lemma leadingFraction_dec k y t :
  (k ≤ 9)%nat → 0 ≤ y < 10 ^ Z.of_nat k →
  leadingFraction (dec_digits k y +:+ t) 0 f64_one false =
  leadingFraction t y (f64_of_Z (10 ^ Z.of_nat k)) false.
Proof.
  revert y t; induction k as [|k IH]; intros y t Hk Hy.
  { change (10 ^ Z.of_nat 0) with 1 in *. by replace y with 0 by lia. }
  assert (10 ^ Z.of_nat (S k) = 10 * 10 ^ Z.of_nat k) as Hpow
    by (rewrite Nat2Z.inj_succ, Z.pow_succ_r by lia; done).
  pose proof (Z.div_mod y 10 ltac:(lia)). pose proof (Z.mod_pos_bound y 10 ltac:(lia)).
  pose proof (pow10_bound (S k) Hk). cbn [dec_digits]. rewrite <- str_app_assoc, IH by lia.
  rewrite Sprint_digit by lia. change (String ?c "" +:+ t) with (String c t). cbn [leadingFraction].
  rewrite pretty_char_digit by lia. rewrite Z2N.id by lia.
  rewrite (proj2 (Z.ltb_ge _ (y / 10))) by (transitivity (10 ^ 9); [lia|by vm_compute]).
  replace (y / 10 * 10 + y mod 10) with y by lia. unfold uint64. rewrite Z.mod_small by lia.
  cbv zeta. rewrite (proj2 (Z.ltb_ge _ y)) by lia. rewrite f64_mul_exact by lia. do 2 f_equal. lia.
Qed.

Lemma f64_div_pow10 p k :
  (k ≤ p ≤ 9)%nat →
  f64_div (f64_of_Z (10 ^ Z.of_nat p)) (f64_of_Z (10 ^ Z.of_nat k)) = f64_of_Z (10 ^ Z.of_nat (p - k)).
Proof.
  intros Hp. assert (Forall (λ p, Forall (λ k, f64_div (f64_of_Z (10 ^ Z.of_nat p))
    (f64_of_Z (10 ^ Z.of_nat k)) = f64_of_Z (10 ^ Z.of_nat (p - k))) (seq 0 (S p))) (seq 0 10)) as Hall.
  { apply (bool_decide_unpack _). vm_compute. exact I. }
  rewrite Forall_forall in Hall. specialize (Hall p ltac:(rewrite elem_of_seq; lia)).
  rewrite Forall_forall in Hall. apply Hall. rewrite elem_of_seq. lia.
Qed.

(** A fraction below one unit of [10^p] is read exactly. *)
Lemma in_units_exact v p k y :
  (k ≤ p ≤ 9)%nat → 0 ≤ v → 0 ≤ y < 10 ^ Z.of_nat k →
  v * 10 ^ Z.of_nat p + y * 10 ^ Z.of_nat (p - k) ≤ 2 ^ 63 →
  in_units v y (f64_of_Z (10 ^ Z.of_nat k)) (10 ^ Z.of_nat p) =
  Some (v * 10 ^ Z.of_nat p + y * 10 ^ Z.of_nat (p - k)).
Proof.
  intros Hk Hv Hy Hb. unfold in_units. pose proof (pow10_bound p ltac:(lia)).
  pose proof (pow10_bound (p - k) ltac:(lia)). pose proof (pow10_bound k ltac:(lia)).
  assert (10 ^ Z.of_nat p = 10 ^ Z.of_nat k * 10 ^ Z.of_nat (p - k)) as Hsplit.
  { rewrite <- Z.pow_add_r by lia. f_equal. lia. }
  rewrite (proj2 (Z.ltb_ge _ v)) by (apply Z.div_le_lower_bound; nia).
  destruct (0 <? y) eqn:E; bool_split; [|f_equal; nia].
  rewrite f64_div_pow10, f64_mul_exact by nia. rewrite f64_trunc_of_Z by nia.
  unfold uint64. rewrite Z.mod_small by nia. cbv zeta. by rewrite (proj2 (Z.ltb_ge _ _)) by lia.
Qed.

(** *** Segments *)

(** A unit's name, and what may follow it. *)
Definition unit_word (u : string) : Prop := u ≠ "" ∧ str_all (λ c, negb (number_char c)) u = true.
Definition follows (t : string) : Prop := t = "" ∨ starts_digit t = true.

Lemma take_unit_word u t : unit_word u → follows t → take_unit (u +:+ t) = (u, t).
Proof.
  intros [_ Hu] Ht. induction u as [|c u IH].
  - destruct t as [|c t]; [done|]. destruct Ht as [|Ht]; [done|]. cbn [starts_digit] in Ht.
    change (take_unit (String c t) = ("", String c t)). cbn [take_unit]. by rewrite Ht.
  - cbn [str_all] in Hu. bool_split. rewrite str_app_cons. cbn [take_unit].
    by rewrite H, IH.
Qed.

Lemma follows_Sprint z t : 0 ≤ z → follows (Sprint z +:+ t).
Proof.
  intros Hz. destruct (Sprint_head z Hz) as (c & s & d & -> & Hc). right.
  rewrite str_app_cons. cbn [starts_digit]. unfold number_char. rewrite Hc. by rewrite orb_true_r.
Qed.

(** What does not go on with a digit. *)
Definition no_digit (t : string) : Prop :=
  match t with "" => True | String c _ => digit_val c = None end.

Lemma no_digit_word u t : unit_word u → no_digit (u +:+ t) ∧ HasPrefix (u +:+ t) "." = false.
Proof.
  intros [Hne Hu]. destruct u as [|c u]; [done|]. cbn [str_all] in Hu. bool_split.
  unfold number_char in H. apply orb_false_iff in H as [H1 H2]. rewrite str_app_cons.
  cbn [no_digit]. rewrite HasPrefix_char. split; [by destruct (digit_val c)|done].
Qed.

Lemma leadingInt_Sprint v t : 0 ≤ v ≤ 2 ^ 63 → no_digit t → leadingInt (Sprint v +:+ t) 0 = Some (v, t).
Proof.
  intros Hv Ht. rewrite (read_pretty leadingInt (2 ^ 63)); [|clear|done].
  - destruct t as [|c t]; [done|]. cbn in Ht |- *. by rewrite Ht.
  - intros c s x d Hd Hx Hb. cbn [leadingInt]. rewrite Hd. unfold leadingInt_step.
    assert (0 ≤ d) by (unfold digit_val in Hd; destruct (_ && _) eqn:E; [|done]; bool_split; naive_solver).
    rewrite (proj2 (Z.ltb_ge _ x)) by (apply Z.div_le_lower_bound; lia). cbv zeta.
    by rewrite (proj2 (Z.ltb_ge _ _)) by lia.
Qed.

Lemma no_digit_fmtFrac p x u t : unit_word u → no_digit (fmtFrac p x +:+ u +:+ t).
Proof.
  intros Hu. unfold fmtFrac. destruct (String.eqb _ "").
  - exact (proj1 (no_digit_word u t Hu)).
  - exact (eq_refl : digit_val "." = None).
Qed.

(** The fraction of a printed number. *)
Lemma fraction_fmtFrac p x u t :
  (p ≤ 9)%nat → unit_word u →
  ∃ k y post, (k ≤ p)%nat ∧ 0 ≤ y < 10 ^ Z.of_nat k ∧
    x mod 10 ^ Z.of_nat p = y * 10 ^ Z.of_nat (p - k) ∧
    fraction (fmtFrac p x +:+ u +:+ t) = (y, f64_of_Z (10 ^ Z.of_nat k), u +:+ t, post).
Proof.
  intros Hp Hu. pose proof (pow10_bound p Hp) as [Hpos _].
  destruct (trim_dec_digits p (x mod 10 ^ Z.of_nat p)) as (k & y & Hk & Ht & Hy & Hx);
    [by apply Z.mod_pos_bound|].
  destruct (no_digit_word u t Hu) as [Hnd Hdot]. unfold fmtFrac. cbv zeta. rewrite Ht.
  destruct (String.eqb (dec_digits k y) "") eqn:E.
  - apply String.eqb_eq in E. assert (k = 0%nat) as ->.
    { destruct k; [done|]. cbn [dec_digits] in E. rewrite Sprint_digit in E by (apply Z.mod_pos_bound; lia).
      by destruct (dec_digits k (y / 10)). }
    exists 0%nat, y, false. split_and!; [lia..|done|]. unfold fraction.
    change (10 ^ Z.of_nat 0) with 1 in Hy. change ("" +:+ (u +:+ t)) with (u +:+ t). rewrite Hdot.
    by replace y with 0 by lia.
  - eexists k, y, _. split_and!; [lia..|done|]. unfold fraction.
    change (("." +:+ dec_digits k y) +:+ u +:+ t) with (String "." (dec_digits k y +:+ u +:+ t)).
    rewrite HasPrefix_char, Ascii.eqb_refl. cbn [str_drop]. rewrite leadingFraction_dec by lia.
    assert (∀ sc, leadingFraction (u +:+ t) y sc false = (y, sc, u +:+ t)) as ->; [|done].
    intros sc. destruct (u +:+ t) as [|c s]; [done|]. cbn in Hnd |- *. by rewrite Hnd.
Qed.

Lemma segment_head v t :
  0 ≤ v ≤ 2 ^ 63 → no_digit t →
  segment (Sprint v +:+ t) =
    let '(f, scale, s2, _) := fraction t in
    let '(u, s3) := take_unit s2 in
    if String.eqb u "" then None
    else unit ← unitMap u; v ← in_units v f scale unit; Some (v, s3).
Proof.
  intros Hv Ht. pose proof (leadingInt_Sprint v t Hv Ht) as Hl.
  assert (strlen (Sprint v) ≠ 0)%nat as Hlen.
  { destruct (Sprint_head v) as (c & s & d & -> & _); [lia|]. done. }
  assert (follows (Sprint v +:+ t)) as [Hf|Hf] by (apply follows_Sprint; lia).
  { apply (f_equal strlen) in Hf. rewrite strlen_app in Hf. simpl in Hf. lia. }
  unfold segment. destruct (Sprint v +:+ t) as [|c s] eqn:E; [done|]. cbn [starts_digit] in Hf. rewrite Hf, Hl.
  cbn [negb mbind option_bind]. rewrite <- E, strlen_app.
  rewrite (proj2 (Nat.eqb_neq _ _)) by lia. cbn [negb andb]. by destruct (fraction t) as [[[f sc] s2] post].
Qed.

Lemma segment_plain v u unit t :
  0 ≤ v → 0 < unit → v * unit ≤ 2 ^ 63 → unit_word u → unitMap u = Some unit → follows t →
  segment (Sprint v +:+ u +:+ t) = Some (v * unit, t).
Proof.
  intros Hv Hpos Hb Hu Hm Ht. destruct (no_digit_word u t Hu) as [Hnd Hdot].
  rewrite segment_head by (done || nia). unfold fraction. rewrite Hdot, take_unit_word by done.
  destruct Hu as [Hne _]. rewrite (proj2 (String.eqb_neq _ _) Hne), Hm. cbn [mbind option_bind].
  unfold in_units. by rewrite (proj2 (Z.ltb_ge _ v)) by (apply Z.div_le_lower_bound; lia).
Qed.

Lemma segment_frac v p x u t :
  (p ≤ 9)%nat → 0 ≤ v → v * 10 ^ Z.of_nat p + x mod 10 ^ Z.of_nat p ≤ 2 ^ 63 →
  unit_word u → unitMap u = Some (10 ^ Z.of_nat p) → follows t →
  segment (Sprint v +:+ fmtFrac p x +:+ u +:+ t) =
    Some (v * 10 ^ Z.of_nat p + x mod 10 ^ Z.of_nat p, t).
Proof.
  intros Hp Hv Hb Hu Hm Ht. pose proof (pow10_bound p Hp).
  pose proof (Z.mod_pos_bound x (10 ^ Z.of_nat p) ltac:(lia)).
  rewrite segment_head by (first [by apply no_digit_fmtFrac|nia]).
  destruct (fraction_fmtFrac p x u t Hp Hu) as (k & y & post & Hk & Hy & Hx & ->).
  rewrite take_unit_word by done. destruct Hu as [Hne _].
  rewrite (proj2 (String.eqb_neq _ _) Hne), Hm. cbn [mbind option_bind].
  rewrite in_units_exact by (lia || (rewrite <- Hx; lia)). cbn [mbind option_bind]. by rewrite Hx.
Qed.

(** *** Durations *)

Lemma leadingInt_shrinks s x v t : leadingInt s x = Some (v, t) → (strlen t ≤ strlen s)%nat.
Proof.
  revert x; induction s as [|c s IH]; intros x; cbn [leadingInt]; [intros [= <- <-]; done|].
  destruct (digit_val c); [|intros [= <- <-]; done].
  destruct (leadingInt_step x _); [|done]. cbn [mbind option_bind]. intros ?%IH. simpl. lia.
Qed.

Lemma leadingFraction_shrinks s x sc o : (strlen (leadingFraction s x sc o).2 ≤ strlen s)%nat.
Proof.
  revert x sc o; induction s as [|c s IH]; intros x sc o; cbn [leadingFraction]; [done|].
  destruct (digit_val c); [|done]. cbv zeta.
  repeat case_match; (etrans; [apply IH|simpl; lia]).
Qed.

Lemma fraction_shrinks s f sc t post : fraction s = (f, sc, t, post) → (strlen t ≤ strlen s)%nat.
Proof.
  unfold fraction. destruct (HasPrefix s "."); [|by intros [= <- <- <- <-]].
  pose proof (leadingFraction_shrinks (str_drop 1 s) 0 f64_one false) as Hl.
  destruct (leadingFraction _ _ _ _) as [[f' sc'] t']. intros [= <- <- <- <-]. cbn [snd] in Hl.
  etrans; [exact Hl|]. destruct s; simpl; lia.
Qed.

Lemma take_unit_length s u t : take_unit s = (u, t) → (strlen s = strlen u + strlen t)%nat.
Proof.
  revert u t; induction s as [|c s IH]; intros u t; cbn [take_unit]; [by intros [= <- <-]|].
  destruct (number_char c); [by intros [= <- <-]|].
  destruct (take_unit s) as [u' t'] eqn:E. intros [= <- <-]. simpl. by rewrite (IH _ _ eq_refl).
Qed.

(** A segment consumes its unit at least. *)
Lemma segment_shrinks s v t : segment s = Some (v, t) → (strlen t < strlen s)%nat.
Proof.
  unfold segment. destruct s as [|c s]; [done|]. destruct (negb (number_char c)); [done|].
  destruct (leadingInt _ 0) as [[v0 s1]|] eqn:El; [|done]. cbn [mbind option_bind].
  destruct (fraction s1) as [[[f sc] s2] post] eqn:Ef. destruct (_ && _); [done|].
  destruct (take_unit s2) as [u s3] eqn:Eu. destruct (String.eqb u "") eqn:Ee; [done|].
  destruct (unitMap u); [|done]. cbn [mbind option_bind]. destruct (in_units _ _ _ _); [|done].
  cbn [mbind option_bind]. intros [= <- <-].
  apply leadingInt_shrinks in El. apply fraction_shrinks in Ef. apply take_unit_length in Eu.
  apply String.eqb_neq in Ee. destruct u; [done|]. simpl in *. lia.
Qed.

(** The fuel of [ParseDuration] is enough: more changes nothing. *)
Lemma segments_fuel n m s d : (strlen s ≤ n)%nat → (strlen s ≤ m)%nat → segments n s d = segments m s d.
Proof.
  revert m s d; induction n as [|n IH]; intros m s d Hn Hm.
  - destruct s; [|simpl in Hn; lia]. by destruct m.
  - destruct m as [|m]; [destruct s; [done|simpl in Hm; lia]|]. cbn [segments].
    destruct (String.eqb s ""); [done|]. destruct (segment s) as [[v t]|] eqn:E; [|done].
    apply segment_shrinks in E. cbn [mbind option_bind]. cbv zeta.
    destruct (2 ^ 63 <? _); [done|]. apply IH; lia.
Qed.

Lemma segments_step n s d v t :
  (strlen s ≤ n)%nat → segment s = Some (v, t) → 0 ≤ d → 0 ≤ v → d + v ≤ 2 ^ 63 →
  segments n s d = segments n t (d + v).
Proof.
  intros Hn Hs Hd Hv Hb. pose proof (segment_shrinks _ _ _ Hs) as Hlt.
  destruct n as [|n]; [lia|]. trans (segments n t (d + v)); [|apply segments_fuel; lia].
  cbn [segments].
  destruct (String.eqb s "") eqn:E; [apply String.eqb_eq in E as ->; done|].
  rewrite Hs. cbn [mbind option_bind]. unfold uint64. rewrite Z.mod_small by lia. cbv zeta.
  by rewrite (proj2 (Z.ltb_ge _ _)) by lia.
Qed.

Lemma segments_range n s d r : 0 ≤ d ≤ 2 ^ 63 → segments n s d = Some r → 0 ≤ r ≤ 2 ^ 63.
Proof.
  revert s d; induction n as [|n IH]; intros s d Hd; cbn [segments];
    (destruct (String.eqb s ""); [naive_solver|]); [done|].
  destruct (segment s) as [[v t]|]; [|done]. cbn [mbind option_bind]. cbv zeta.
  destruct (2 ^ 63 <? uint64 (d + v)) eqn:E; [done|]. bool_split. apply IH.
  split; [|done]. unfold uint64. by apply Z.mod_pos_bound.
Qed.

(** ParseDuration yields int64 values only. *)
Lemma ParseDuration_range s d : ParseDuration s = Some d → is_int64 d.
Proof.
  unfold ParseDuration, is_int64. cbv zeta. destruct (String.eqb _ "0"); [intros [= <-]; lia|].
  destruct (String.eqb _ ""); [done|]. destruct (segments _ _ 0) as [r|] eqn:E; [|done].
  apply segments_range in E; [|lia]. cbn [mbind option_bind]. destruct (HasPrefix s "-"); [naive_solver lia|].
  destruct (2 ^ 63 - 1 <? r) eqn:E'; [done|]. bool_split. naive_solver lia.
Qed.

Lemma segments_plain n v u unit t d :
  (strlen (Sprint v +:+ u +:+ t) ≤ n)%nat → 0 ≤ d → 0 ≤ v → 0 < unit → d + v * unit ≤ 2 ^ 63 →
  unit_word u → unitMap u = Some unit → follows t →
  segments n (Sprint v +:+ u +:+ t) d = segments n t (d + v * unit).
Proof. intros. apply segments_step; [done|apply segment_plain; (done || lia)|lia..]. Qed.

Lemma segments_frac n v p x u t d :
  (strlen (Sprint v +:+ fmtFrac p x +:+ u +:+ t) ≤ n)%nat → 0 ≤ d → 0 ≤ v → (p ≤ 9)%nat →
  d + (v * 10 ^ Z.of_nat p + x mod 10 ^ Z.of_nat p) ≤ 2 ^ 63 →
  unit_word u → unitMap u = Some (10 ^ Z.of_nat p) → follows t →
  segments n (Sprint v +:+ fmtFrac p x +:+ u +:+ t) d =
    segments n t (d + (v * 10 ^ Z.of_nat p + x mod 10 ^ Z.of_nat p)).
Proof.
  intros. pose proof (pow10_bound p ltac:(done)).
  pose proof (Z.mod_pos_bound x (10 ^ Z.of_nat p) ltac:(lia)).
  apply segments_step; [done|apply segment_frac; (done || lia)|nia..].
Qed.

Lemma segments_end n d : segments n "" d = Some d.
Proof. by destruct n. Qed.

(** The last segment of a magnitude: a number of [10^p] with its fraction. *)
Lemma segments_last n x p u d :
  (strlen (Sprint (x / 10 ^ Z.of_nat p) +:+ fmtFrac p x +:+ u) ≤ n)%nat →
  0 ≤ d → 0 ≤ x → (p ≤ 9)%nat → d + x ≤ 2 ^ 63 → unit_word u → unitMap u = Some (10 ^ Z.of_nat p) →
  segments n (Sprint (x / 10 ^ Z.of_nat p) +:+ fmtFrac p x +:+ u) d = Some (d + x).
Proof.
  intros Hn Hd Hx Hp Hb Hu Hm. pose proof (pow10_bound p Hp).
  pose proof (Z.div_mod x (10 ^ Z.of_nat p) ltac:(lia)).
  assert (0 ≤ x / 10 ^ Z.of_nat p) by (apply Z.div_pos; lia). rewrite <- (str_app_nil_r u).
  rewrite segments_frac by (rewrite ?str_app_nil_r; (done || lia || by left)).
  rewrite segments_end. f_equal. lia.
Qed.

(** Seconds, which are below a minute, and the fraction of [x]. *)
Lemma segments_secs n x d :
  let s := Sprint (x / second mod 60) +:+ fmtFrac 9 x +:+ "s" in
  (strlen s ≤ n)%nat → 0 ≤ d → 0 ≤ x → d + x mod minute ≤ 2 ^ 63 →
  segments n s d = Some (d + x mod minute).
Proof.
  intros s Hn Hd Hx Hb.
  assert (x mod minute = (x / second mod 60) * second + x mod second) as Hm.
  { unfold minute, second. Z.to_euclidean_division_equations. lia. }
  pose proof (Z.mod_pos_bound (x / second) 60 ltac:(lia)). subst s.
  change "s" with ("s" +:+ "") in *. change (10 ^ Z.of_nat 9) with second in *.
  rewrite (segments_frac n _ 9 x "s" "" d) by
    (done || lia || (change (10 ^ Z.of_nat 9) with second; lia) || by left).
  change (10 ^ Z.of_nat 9) with second. rewrite segments_end. by rewrite Hm.
Qed.

(** Reading back the text of a magnitude. *)
Lemma segments_body u n :
  0 ≤ u ≤ 2 ^ 63 → (strlen (duration_body u) ≤ n)%nat → segments n (duration_body u) 0 = Some u.
Proof.
  intros Hu. unfold duration_body. cbv zeta.
  destruct (u =? 0) eqn:E0; [bool_split; subst u; intros Hn; by rewrite (segments_fuel _ 2)|].
  destruct (u <? 1000) eqn:E1; bool_split.
  { change "ns" with ("ns" +:+ ""). intros Hn.
    rewrite (segments_plain _ _ _ 1) by (done || lia || by left). rewrite segments_end. f_equal. lia. }
  destruct (u <? 1000000) eqn:E2; bool_split; [intros Hn; apply (segments_last n u 3 _ 0); (done || lia)|].
  destruct (u <? second) eqn:E3; bool_split; [intros Hn; apply (segments_last n u 6 _ 0); (done || lia)|].
  destruct (u / second / 60 =? 0) eqn:E4; bool_split; intros Hn.
  { rewrite segments_secs by (done || lia || (pose proof (Z.mod_le u minute); unfold minute, second in *; lia)).
    f_equal. unfold minute, second in *. Z.to_euclidean_division_equations. lia. }
  set (m := u / second / 60) in *.
  assert (0 < m ∧ u = m * minute + u mod minute ∧ 0 ≤ u mod minute) as (Hm & Hdm & Hmm).
  { unfold m, minute, second in *. Z.to_euclidean_division_equations. lia. }
  assert (m mod 60 = m - 60 * (m / 60) ∧ 0 ≤ m / 60 ∧ 0 ≤ m mod 60) as (Hh & Hh0 & Hmod)
    by (Z.to_euclidean_division_equations; lia).
  assert (∀ t d, 0 ≤ d → d + m mod 60 * minute + u mod minute ≤ 2 ^ 63 → (strlen t ≤ n)%nat →
    t = Sprint (m mod 60) +:+ "m" +:+ Sprint (u / second mod 60) +:+ fmtFrac 9 u +:+ "s" →
    segments n t d = Some (d + m mod 60 * minute + u mod minute)) as Hmin.
  { intros t d Hd Hb Ht ->. assert (0 < minute) by done.
    rewrite (segments_plain _ _ "m" minute) by
      (done || nia || (apply follows_Sprint; apply Z.mod_pos_bound; lia)).
    apply segments_secs; [|nia..]. rewrite !strlen_app in *. lia. }
  destruct (m / 60 =? 0) eqn:E5; bool_split.
  - rewrite (Hmin _ 0); [f_equal|..]; (done || lia).
  - rewrite <- str_app_assoc in *.
    rewrite (segments_plain _ _ "h" hour) by
      (done || (apply follows_Sprint; lia) || (unfold hour, minute, second in *; lia)).
    rewrite (Hmin _ (0 + m / 60 * hour)); [f_equal| | | |done]; try (unfold hour, minute, second in *; lia).
    rewrite !strlen_app in *. lia.
Qed.

Lemma follows_body u : 0 ≤ u → follows (duration_body u) ∧ duration_body u ≠ "".
Proof.
  intros Hu. assert (∀ z t, 0 ≤ z → follows (Sprint z +:+ t) ∧ Sprint z +:+ t ≠ "") as Hs.
  { intros z t Hz. split; [by apply follows_Sprint|].
    by destruct (Sprint_head z Hz) as (c & s & d & -> & _). }
  unfold duration_body. cbv zeta. repeat case_match; rewrite <- ?str_app_assoc;
    first [split; [by right|done] | apply Hs]; rewrite ?str_app_nil_l; try done;
    try (apply Z.mod_pos_bound; lia); repeat (apply Z.div_pos; [|done]); done.
Qed.

(** ParseDuration inverts [Duration.String] on every int64. *)
Lemma ParseDuration_String d : is_int64 d → ParseDuration (Duration_String d) = Some d.
Proof.
  unfold is_int64. intros Hd. set (u := Z.abs d). destruct (follows_body u ltac:(lia)) as [Hf Hne].
  pose proof (segments_body u _ ltac:(lia) (le_n _)) as Hs.
  assert (duration_body u ≠ "0") as Hne0 by (intros E; by rewrite E in Hs).
  unfold ParseDuration, Duration_String. fold u. destruct (d <? 0) eqn:E; bool_split.
  - change ("-" +:+ duration_body u) with (String "-" (duration_body u)).
    rewrite !HasPrefix_char, Ascii.eqb_refl. cbn [orb str_drop]. cbv zeta.
    rewrite (proj2 (String.eqb_neq _ _) Hne), (proj2 (String.eqb_neq _ _) Hne0), Hs.
    cbn [mbind option_bind]. f_equal. lia.
  - change ("" +:+ duration_body u) with (duration_body u).
    assert (HasPrefix (duration_body u) "-" = false ∧ HasPrefix (duration_body u) "+" = false) as [-> ->].
    { destruct Hf as [Hf|Hf]; [done|]. destruct (duration_body u) as [|c s]; [done|].
      cbn [starts_digit] in Hf. rewrite !HasPrefix_char. split; apply Ascii.eqb_neq; by intros ->. }
    cbn [orb]. cbv zeta.
    rewrite (proj2 (String.eqb_neq _ _) Hne), (proj2 (String.eqb_neq _ _) Hne0), Hs.
    cbn [mbind option_bind]. rewrite (proj2 (Z.ltb_ge _ _)) by lia. f_equal. lia.
Qed.
