(* ===== verification/Config.v ===== *)
(** * internal/config

    The configuration package ([config.go]): the records of tunable parameters, their
    defaults and the overrides read from the environment.  An environment is the
    function [os.Getenv], which answers the empty string for an unset variable.  No
    other package of the program uses this one. *)

From S2P Require Import Prelude GoStrings Hashing Domain GoTime GoNumbers.

Local Open Scope Z_scope.

(** ** The parameters *)

Record ServerConfig := mkServerConfig {
  RequestTimeout : duration;
  WorkerPruneInterval : duration;
  GCInterval : duration;
  GCRetention : duration;
  MaxUploadBytes : Z;
  MaxBulkUploadBytes : Z;
  DefaultBuildTimeout : Z;
  MaxBuildTimeout : Z;
  MaxListLimit : Z;
}.

Record WorkerConfig := mkWorkerConfig {
  HTTPTimeout : duration;
  HeartbeatInterval : duration;
  PollInterval : duration;
  CancelCheckInterval : duration;
  MaxCacheKeys : Z;
  MaxRetries : Z;
}.

Record SchedulerConfig := mkSchedulerConfig { VirtualReplicas : Z }.

Record QueueConfig := mkQueueConfig { MaxLen : Z }.

Record BuildKitConfig := mkBuildKitConfig { MaxLogBuffer : Z }.

Record Config := mkConfig {
  Server : ServerConfig;
  Worker : WorkerConfig;
  Scheduler : SchedulerConfig;
  Queue : QueueConfig;
  BuildKit : BuildKitConfig;
}.

Definition Default : Config :=
  mkConfig
    (mkServerConfig (5 * minute) (30 * second) (1 * hour) (24 * hour)
       (Z.shiftl 100 20) (Z.shiftl 500 20) 600 3600 200)
    (mkWorkerConfig (10 * minute) (5 * second) (2 * second) (10 * second) 512 3)
    (mkSchedulerConfig 150)
    (mkQueueConfig 10000)
    (mkBuildKitConfig (Z.shiftl 10 20)).

(** ** Overrides *)

(** The assignments of the overridable fields. *)
Definition set_server (cfg : Config) (s : ServerConfig) : Config :=
  mkConfig s (Worker cfg) (Scheduler cfg) (Queue cfg) (BuildKit cfg).

Definition set_worker (cfg : Config) (w : WorkerConfig) : Config :=
  mkConfig (Server cfg) w (Scheduler cfg) (Queue cfg) (BuildKit cfg).

Definition set_RequestTimeout (d : duration) (cfg : Config) : Config :=
  let s := Server cfg in
  set_server cfg (mkServerConfig d (WorkerPruneInterval s) (GCInterval s) (GCRetention s)
    (MaxUploadBytes s) (MaxBulkUploadBytes s) (DefaultBuildTimeout s) (MaxBuildTimeout s) (MaxListLimit s)).

Definition set_GCRetention (d : duration) (cfg : Config) : Config :=
  let s := Server cfg in
  set_server cfg (mkServerConfig (RequestTimeout s) (WorkerPruneInterval s) (GCInterval s) d
    (MaxUploadBytes s) (MaxBulkUploadBytes s) (DefaultBuildTimeout s) (MaxBuildTimeout s) (MaxListLimit s)).

Definition set_MaxUploadBytes (n : Z) (cfg : Config) : Config :=
  let s := Server cfg in
  set_server cfg (mkServerConfig (RequestTimeout s) (WorkerPruneInterval s) (GCInterval s) (GCRetention s)
    n (MaxBulkUploadBytes s) (DefaultBuildTimeout s) (MaxBuildTimeout s) (MaxListLimit s)).

Definition set_MaxBuildTimeout (n : Z) (cfg : Config) : Config :=
  let s := Server cfg in
  set_server cfg (mkServerConfig (RequestTimeout s) (WorkerPruneInterval s) (GCInterval s) (GCRetention s)
    (MaxUploadBytes s) (MaxBulkUploadBytes s) (DefaultBuildTimeout s) n (MaxListLimit s)).

Definition set_MaxListLimit (n : Z) (cfg : Config) : Config :=
  let s := Server cfg in
  set_server cfg (mkServerConfig (RequestTimeout s) (WorkerPruneInterval s) (GCInterval s) (GCRetention s)
    (MaxUploadBytes s) (MaxBulkUploadBytes s) (DefaultBuildTimeout s) (MaxBuildTimeout s) n).

Definition set_HTTPTimeout (d : duration) (cfg : Config) : Config :=
  let w := Worker cfg in
  set_worker cfg (mkWorkerConfig d (HeartbeatInterval w) (PollInterval w) (CancelCheckInterval w)
    (MaxCacheKeys w) (MaxRetries w)).

Definition set_HeartbeatInterval (d : duration) (cfg : Config) : Config :=
  let w := Worker cfg in
  set_worker cfg (mkWorkerConfig (HTTPTimeout w) d (PollInterval w) (CancelCheckInterval w)
    (MaxCacheKeys w) (MaxRetries w)).

Definition set_PollInterval (d : duration) (cfg : Config) : Config :=
  let w := Worker cfg in
  set_worker cfg (mkWorkerConfig (HTTPTimeout w) (HeartbeatInterval w) d (CancelCheckInterval w)
    (MaxCacheKeys w) (MaxRetries w)).

Definition set_MaxCacheKeys (n : Z) (cfg : Config) : Config :=
  let w := Worker cfg in
  set_worker cfg (mkWorkerConfig (HTTPTimeout w) (HeartbeatInterval w) (PollInterval w)
    (CancelCheckInterval w) n (MaxRetries w)).

Definition set_VirtualReplicas (n : Z) (cfg : Config) : Config :=
  mkConfig (Server cfg) (Worker cfg) (mkSchedulerConfig n) (Queue cfg) (BuildKit cfg).

Definition set_MaxLen (n : Z) (cfg : Config) : Config :=
  mkConfig (Server cfg) (Worker cfg) (Scheduler cfg) (mkQueueConfig n) (BuildKit cfg).

Definition set_MaxLogBuffer (n : Z) (cfg : Config) : Config :=
  mkConfig (Server cfg) (Worker cfg) (Scheduler cfg) (Queue cfg) (mkBuildKitConfig n).

(** One override: a variable that is set and parses is assigned. *)
Definition override (v : string) (parse : string → option Z) (assign : Z → Config → Config)
    (cfg : Config) : Config :=
  if String.eqb v "" then cfg
  else match parse v with Some x => assign x cfg | None => cfg end.

Definition LoadFromEnv (getenv : string → string) : Config :=
  let cfg := Default in
  let cfg := override (getenv "DTBUILD_REQUEST_TIMEOUT") ParseDuration set_RequestTimeout cfg in
  let cfg := override (getenv "DTBUILD_GC_RETENTION") ParseDuration set_GCRetention cfg in
  let cfg := override (getenv "DTBUILD_MAX_UPLOAD_BYTES") ParseInt set_MaxUploadBytes cfg in
  let cfg := override (getenv "DTBUILD_MAX_BUILD_TIMEOUT") Atoi set_MaxBuildTimeout cfg in
  let cfg := override (getenv "DTBUILD_MAX_LIST_LIMIT") Atoi set_MaxListLimit cfg in
  let cfg := override (getenv "DTBUILD_WORKER_HTTP_TIMEOUT") ParseDuration set_HTTPTimeout cfg in
  let cfg := override (getenv "DTBUILD_HEARTBEAT_INTERVAL") ParseDuration set_HeartbeatInterval cfg in
  let cfg := override (getenv "DTBUILD_POLL_INTERVAL") ParseDuration set_PollInterval cfg in
  let cfg := override (getenv "DTBUILD_MAX_CACHE_KEYS") Atoi set_MaxCacheKeys cfg in
  let cfg := override (getenv "DTBUILD_VIRTUAL_REPLICAS") Atoi set_VirtualReplicas cfg in
  let cfg := override (getenv "DTBUILD_QUEUE_MAX") Atoi set_MaxLen cfg in
  let cfg := override (getenv "DTBUILD_MAX_LOG_BUFFER") Atoi set_MaxLogBuffer cfg in
  cfg.

(** An environment with one variable set. *)
Definition setenv (k v : string) (getenv : string → string) : string → string :=
  λ x, if String.eqb x k then v else getenv x.

Definition no_env : string → string := λ _, "".

Example load_default : LoadFromEnv no_env = Default.
Proof. reflexivity. Qed.
Example load_poll :
  PollInterval (Worker (LoadFromEnv (setenv "DTBUILD_POLL_INTERVAL" "1m30s" no_env))) = 90 * second.
Proof. vm_compute. reflexivity. Qed.

(** ** Laws *)

(** The value a variable gives: its parse, the default when it is unset or malformed. *)
Definition setting (getenv : string → string) (k : string) (parse : string → option Z) (d : Z) : Z :=
  if String.eqb (getenv k) "" then d else default d (parse (getenv k)).

(** The configuration of an environment, field by field. *)
Definition loaded (getenv : string → string) : Config :=
  let dur k d := setting getenv k ParseDuration d in
  let num k d := setting getenv k ParseInt d in
  mkConfig
    (mkServerConfig (dur "DTBUILD_REQUEST_TIMEOUT" (5 * minute)) (30 * second) (1 * hour)
       (dur "DTBUILD_GC_RETENTION" (24 * hour)) (num "DTBUILD_MAX_UPLOAD_BYTES" (Z.shiftl 100 20)) (Z.shiftl 500 20) 600
       (num "DTBUILD_MAX_BUILD_TIMEOUT" 3600) (num "DTBUILD_MAX_LIST_LIMIT" 200))
    (mkWorkerConfig (dur "DTBUILD_WORKER_HTTP_TIMEOUT" (10 * minute))
       (dur "DTBUILD_HEARTBEAT_INTERVAL" (5 * second)) (dur "DTBUILD_POLL_INTERVAL" (2 * second))
       (10 * second) (num "DTBUILD_MAX_CACHE_KEYS" 512) 3)
    (mkSchedulerConfig (num "DTBUILD_VIRTUAL_REPLICAS" 150))
    (mkQueueConfig (num "DTBUILD_QUEUE_MAX" 10000))
    (mkBuildKitConfig (num "DTBUILD_MAX_LOG_BUFFER" (Z.shiftl 10 20))).

(** An override whose assignment writes one field. *)
Lemma override_setting getenv k parse assign cfg d :
  assign d cfg = cfg →
  override (getenv k) parse assign cfg = assign (setting getenv k parse d) cfg.
Proof.
  intros Hd. unfold override, setting. destruct (String.eqb (getenv k) ""); [done|].
  by destruct (parse (getenv k)).
Qed.

(** Rewrites one override and evaluates the assignment. *)
Ltac load_field k d :=
  rewrite (override_setting _ k _ _ _ d) by reflexivity;
  cbv [set_RequestTimeout set_GCRetention set_MaxUploadBytes set_MaxBuildTimeout set_MaxListLimit
    set_HTTPTimeout set_HeartbeatInterval set_PollInterval set_MaxCacheKeys set_VirtualReplicas
    set_MaxLen set_MaxLogBuffer set_server set_worker Server Worker Scheduler Queue BuildKit
    RequestTimeout WorkerPruneInterval GCInterval GCRetention MaxUploadBytes MaxBulkUploadBytes
    DefaultBuildTimeout MaxBuildTimeout MaxListLimit HTTPTimeout HeartbeatInterval PollInterval
    CancelCheckInterval MaxCacheKeys MaxRetries].

Lemma LoadFromEnv_loaded getenv : LoadFromEnv getenv = loaded getenv.
Proof.
  unfold LoadFromEnv. cbv zeta. unfold Default.
  load_field "DTBUILD_REQUEST_TIMEOUT" (5 * minute).
  load_field "DTBUILD_GC_RETENTION" (24 * hour).
  load_field "DTBUILD_MAX_UPLOAD_BYTES" (Z.shiftl 100 20).
  load_field "DTBUILD_MAX_BUILD_TIMEOUT" 3600.
  load_field "DTBUILD_MAX_LIST_LIMIT" 200.
  load_field "DTBUILD_WORKER_HTTP_TIMEOUT" (10 * minute).
  load_field "DTBUILD_HEARTBEAT_INTERVAL" (5 * second).
  load_field "DTBUILD_POLL_INTERVAL" (2 * second).
  load_field "DTBUILD_MAX_CACHE_KEYS" 512.
  load_field "DTBUILD_VIRTUAL_REPLICAS" 150.
  load_field "DTBUILD_QUEUE_MAX" 10000.
  load_field "DTBUILD_MAX_LOG_BUFFER" (Z.shiftl 10 20).
  reflexivity.
Qed.

Lemma setting_range getenv k parse d :
  (∀ s n, parse s = Some n → is_int64 n) → is_int64 d → is_int64 (setting getenv k parse d).
Proof.
  intros Hp Hd. unfold setting. destruct (String.eqb _ ""); [done|].
  destruct (parse (getenv k)) eqn:E; [by eapply Hp|done].
Qed.

Lemma setting_parsed getenv k parse d x :
  parse "" = None → parse (getenv k) = Some x → setting getenv k parse d = x.
Proof.
  intros Hn Hx. unfold setting. destruct (String.eqb_spec (getenv k) "") as [E|_]; [|by rewrite Hx].
  rewrite E in Hx. congruence.
Qed.

Definition duration_vars : list string :=
  ["DTBUILD_REQUEST_TIMEOUT"; "DTBUILD_GC_RETENTION"; "DTBUILD_WORKER_HTTP_TIMEOUT";
   "DTBUILD_HEARTBEAT_INTERVAL"; "DTBUILD_POLL_INTERVAL"].

Definition number_vars : list string :=
  ["DTBUILD_MAX_UPLOAD_BYTES"; "DTBUILD_MAX_BUILD_TIMEOUT"; "DTBUILD_MAX_LIST_LIMIT";
   "DTBUILD_MAX_CACHE_KEYS"; "DTBUILD_VIRTUAL_REPLICAS"; "DTBUILD_QUEUE_MAX"; "DTBUILD_MAX_LOG_BUFFER"].

(** A text a parser rejects, in one variable, is as good as none. *)
Lemma setting_rejected getenv k v parse k' d :
  (k' = k → parse v = None) →
  setting (setenv k v getenv) k' parse d = setting (setenv k "" getenv) k' parse d.
Proof.
  intros Hr. unfold setting, setenv. destruct (String.eqb_spec k' k) as [E|_]; [|done].
  rewrite (Hr E). by destruct (String.eqb v "").
Qed.

(** What an environment can express: the twelve tunable parameters hold any int64, the
    others keep their defaults. *)
Definition tunable (cfg : Config) : Prop :=
  let s := Server cfg in let w := Worker cfg in
  Forall is_int64
    [RequestTimeout s; GCRetention s; MaxUploadBytes s; MaxBuildTimeout s; MaxListLimit s;
     HTTPTimeout w; HeartbeatInterval w; PollInterval w; MaxCacheKeys w;
     VirtualReplicas (Scheduler cfg); MaxLen (Queue cfg); MaxLogBuffer (BuildKit cfg)] ∧
  WorkerPruneInterval s = 30 * second ∧ GCInterval s = 1 * hour ∧
  MaxBulkUploadBytes s = Z.shiftl 500 20 ∧ DefaultBuildTimeout s = 600 ∧
  CancelCheckInterval w = 10 * second ∧ MaxRetries w = 3.

(** The environment that asks for a configuration. *)
Definition env_of (cfg : Config) : string → string :=
  let s := Server cfg in let w := Worker cfg in
  setenv "DTBUILD_REQUEST_TIMEOUT" (Duration_String (RequestTimeout s)) $
  setenv "DTBUILD_GC_RETENTION" (Duration_String (GCRetention s)) $
  setenv "DTBUILD_MAX_UPLOAD_BYTES" (Sprint (MaxUploadBytes s)) $
  setenv "DTBUILD_MAX_BUILD_TIMEOUT" (Sprint (MaxBuildTimeout s)) $
  setenv "DTBUILD_MAX_LIST_LIMIT" (Sprint (MaxListLimit s)) $
  setenv "DTBUILD_WORKER_HTTP_TIMEOUT" (Duration_String (HTTPTimeout w)) $
  setenv "DTBUILD_HEARTBEAT_INTERVAL" (Duration_String (HeartbeatInterval w)) $
  setenv "DTBUILD_POLL_INTERVAL" (Duration_String (PollInterval w)) $
  setenv "DTBUILD_MAX_CACHE_KEYS" (Sprint (MaxCacheKeys w)) $
  setenv "DTBUILD_VIRTUAL_REPLICAS" (Sprint (VirtualReplicas (Scheduler cfg))) $
  setenv "DTBUILD_QUEUE_MAX" (Sprint (MaxLen (Queue cfg))) $
  setenv "DTBUILD_MAX_LOG_BUFFER" (Sprint (MaxLogBuffer (BuildKit cfg))) no_env.

Lemma LoadFromEnv_tunable getenv : tunable (LoadFromEnv getenv).
Proof.
  rewrite LoadFromEnv_loaded. split; [|done].
  repeat (apply Forall_cons; split; [apply setting_range; [first [exact ParseDuration_range|exact ParseInt_range]|done]|]).
  constructor.
Qed.

Lemma LoadFromEnv_env_of cfg : tunable cfg → LoadFromEnv (env_of cfg) = cfg.
Proof.
  destruct cfg as [[] [] [] [] []]. unfold tunable. cbn -[is_int64].
  intros (Hr & -> & -> & -> & -> & -> & ->). repeat setoid_rewrite Forall_cons in Hr. destruct_and? Hr.
  rewrite LoadFromEnv_loaded. unfold loaded. cbv zeta.
  repeat f_equal;
    (eapply setting_parsed; [reflexivity|]);
    first [by apply ParseDuration_String|by apply ParseInt_Sprint].
Qed.

(** An environment in which some variables are set to other texts, the first one of the
    list on top. *)
Definition overlaid (bad : list (string * string)) (getenv : string → string) : string → string :=
  foldr (λ kv, setenv kv.1 kv.2) getenv bad.

(** The empty text, or one that the variable's parser rejects. *)
Definition useless (kv : string * string) : Prop :=
  (kv.1 ∈ duration_vars → ParseDuration kv.2 = None) ∧ (kv.1 ∈ number_vars → ParseInt kv.2 = None).

Lemma setting_overlaid bad getenv k parse d :
  (∀ v, (k, v) ∈ bad → parse v = None) →
  setting (overlaid bad getenv) k parse d = if bool_decide (k ∈ bad.*1) then d else setting getenv k parse d.
Proof.
  induction bad as [|[k' v] bad IH]; intros Hb; [done|].
  cbn [overlaid foldr fst snd fmap list_fmap]. fold (overlaid bad getenv).
  assert (setting (setenv k' v (overlaid bad getenv)) k parse d =
    if String.eqb k k' then d else setting (overlaid bad getenv) k parse d) as ->.
  { unfold setting, setenv. destruct (String.eqb_spec k k') as [->|_]; [|done].
    rewrite (Hb v) by by left. by destruct (String.eqb v ""). }
  rewrite IH by (intros w Hw; apply Hb; by right).
  destruct (String.eqb_spec k k') as [->|Hne].
  - by rewrite bool_decide_true by by left.
  - erewrite bool_decide_ext; [done|]. rewrite elem_of_cons. naive_solver.
Qed.

(** A value, or the default if the variable is one of these. *)
Definition unless (ks : list string) (k : string) (x d : Z) : Z := if bool_decide (k ∈ ks) then d else x.

(** C38. The environment decides the configuration variable by variable: when it asks for a
    configuration (any int64 values of the twelve tunable parameters), each duration
    printed by [Duration.String] and each number in decimal, and then any of the variables
    are emptied or set to texts that their parsers reject, exactly the parameters of these
    variables are the defaults, here in nanoseconds, bytes and counts, and every other one
    has the value asked for; the six parameters without a variable are always the
    defaults, and no environment loads a value out of range. *)
Theorem configuration_loaded getenv cfg bad (Hc : tunable cfg) (Hb : Forall useless bad) :
  let s := Server cfg in let w := Worker cfg in let get := unless bad.*1 in
  LoadFromEnv (overlaid bad (env_of cfg)) =
    mkConfig
      (mkServerConfig
         (get "DTBUILD_REQUEST_TIMEOUT" (RequestTimeout s) 300000000000) 30000000000 3600000000000
         (get "DTBUILD_GC_RETENTION" (GCRetention s) 86400000000000)
         (get "DTBUILD_MAX_UPLOAD_BYTES" (MaxUploadBytes s) 104857600) 524288000 600
         (get "DTBUILD_MAX_BUILD_TIMEOUT" (MaxBuildTimeout s) 3600)
         (get "DTBUILD_MAX_LIST_LIMIT" (MaxListLimit s) 200))
      (mkWorkerConfig
         (get "DTBUILD_WORKER_HTTP_TIMEOUT" (HTTPTimeout w) 600000000000)
         (get "DTBUILD_HEARTBEAT_INTERVAL" (HeartbeatInterval w) 5000000000)
         (get "DTBUILD_POLL_INTERVAL" (PollInterval w) 2000000000) 10000000000
         (get "DTBUILD_MAX_CACHE_KEYS" (MaxCacheKeys w) 512) 3)
      (mkSchedulerConfig (get "DTBUILD_VIRTUAL_REPLICAS" (VirtualReplicas (Scheduler cfg)) 150))
      (mkQueueConfig (get "DTBUILD_QUEUE_MAX" (MaxLen (Queue cfg)) 10000))
      (mkBuildKitConfig (get "DTBUILD_MAX_LOG_BUFFER" (MaxLogBuffer (BuildKit cfg)) 10485760)) ∧
  tunable (LoadFromEnv getenv).
Proof.
  intros s w get. split; [|apply LoadFromEnv_tunable].
  assert (∀ k, k ∈ duration_vars → ∀ v, (k, v) ∈ bad → ParseDuration v = None) as Hd.
  { intros k Hk v Hin. rewrite Forall_forall in Hb. by apply (Hb (k, v) Hin). }
  assert (∀ k, k ∈ number_vars → ∀ v, (k, v) ∈ bad → ParseInt v = None) as Hn.
  { intros k Hk v Hin. rewrite Forall_forall in Hb. by apply (Hb (k, v) Hin). }
  pose proof (LoadFromEnv_env_of cfg Hc) as He. rewrite LoadFromEnv_loaded in *. unfold loaded in *. cbv zeta in *.
  rewrite !setting_overlaid by first
    [apply Hd; apply (bool_decide_unpack _); vm_compute; exact I|apply Hn; apply (bool_decide_unpack _); vm_compute; exact I].
  subst s w get. unfold unless. clear Hd Hn Hb Hc. revert He. generalize (env_of cfg). intros env <-. reflexivity.
Qed.

Definition bad0 : list (string * string) := [("DTBUILD_POLL_INTERVAL", "30"); ("DTBUILD_QUEUE_MAX", "")].
Definition cfg0 : Config :=
  LoadFromEnv (setenv "DTBUILD_QUEUE_MAX" "7" (setenv "DTBUILD_MAX_LIST_LIMIT" "9" no_env)).

Lemma bad0_useless : Forall useless bad0.
Proof.
  unfold bad0. apply Forall_cons. split.
  { split; [intros _; vm_compute; reflexivity|]. intros Hk. exfalso. revert Hk.
    apply (bool_decide_unpack _). vm_compute. exact I. }
  apply Forall_cons. split; [split; intros _; vm_compute; reflexivity|]. apply Forall_nil. exact I.
Qed.

Lemma configuration_loaded_witness :
  LoadFromEnv (overlaid bad0 (env_of cfg0)) = LoadFromEnv (setenv "DTBUILD_MAX_LIST_LIMIT" "9" no_env).
Proof.
  rewrite (proj1 (configuration_loaded no_env cfg0 bad0 (LoadFromEnv_tunable _) bad0_useless)).
  vm_compute. reflexivity.
Defined.

(** A variable whose text its parser rejects is ignored: the configuration is the one
    loaded with that variable unset, every other variable counting as before; and with no
    variable set it is the default. *)
Lemma malformed_ignored getenv k v :
  (k ∈ duration_vars → ParseDuration v = None) → (k ∈ number_vars → ParseInt v = None) →
  LoadFromEnv (setenv k v getenv) = LoadFromEnv (setenv k "" getenv) ∧ LoadFromEnv no_env = Default.
Proof.
  intros Hd Hn. split; [|done]. rewrite !LoadFromEnv_loaded. unfold loaded. cbv zeta.
  rewrite !(setting_rejected getenv k v); [done|..]; intros <-;
    first [apply Hd; unfold duration_vars; set_solver|apply Hn; unfold number_vars; set_solver].
Qed.

Lemma malformed_ignored_witness :
  LoadFromEnv (setenv "DTBUILD_POLL_INTERVAL" "30" no_env) = Default.
Proof.
  rewrite (proj1 (malformed_ignored no_env "DTBUILD_POLL_INTERVAL" "30"
    ltac:(intros _; vm_compute; reflexivity)
    ltac:(intros H; exfalso; revert H; apply (bool_decide_unpack _); vm_compute; exact I))).
  reflexivity.
Defined.
