(* ===== verification/Queue.v ===== *)
(** * internal/queue

    The bounded priority queue of pending builds ([queue.go]).  [Queue] holds
    the slice of [container/heap] and the capacity; every method is one
    critical section of the queue's mutex, so it is one function here.  The
    abstract specification is a bag of builds ([bag_step]); [run_refines] and
    the trace theorem show that the heap implements it. *)

From S2P Require Import Prelude Float64 GoHeap Domain.
From Stdlib Require Import SpecFloat.

Record Task := mkTask { Task_Build : Build; Score : float64 }.

#[global] Instance Task_inhabited : Inhabited Task :=
  populate (mkTask inhabitant inhabitant).

Record Queue := mkQueue { q_heap : list Task; maxLen : Z }.

(** [taskHeap.Less]. *)
Definition task_less (a b : Task) : bool := f64_gtb (Score a) (Score b).

Definition New (maxLen : Z) : Queue := mkQueue [] maxLen.

Definition heap_len (q : Queue) : Z := Z.of_nat (length (q_heap q)).

Definition Len (q : Queue) : Z := heap_len q.

Definition Full (q : Queue) : bool :=
  ((0 <? maxLen q) && (maxLen q <=? heap_len q))%Z.

Definition Push (q : Queue) (b : Build) : bool * Queue :=
  if ((0 <? maxLen q) && (maxLen q <=? heap_len q))%Z then (false, q)
  else (true, mkQueue (GoHeap.Push task_less (q_heap q) (mkTask b (f64_of_Z (Priority b))))
                      (maxLen q)).

Definition Pop (q : Queue) : option Build * Queue :=
  if (heap_len q =? 0)%Z then (None, q)
  else
    let '(t, h) := GoHeap.Pop task_less (q_heap q) in
    (Some (Task_Build t), mkQueue h (maxLen q)).

(** [float64(t.Build.Priority)*0.5 + scoreFn(t.Build)*10.0] *)
Definition combined (scoreFn : Build → float64) (b : Build) : float64 :=
  f64_add (f64_mul (f64_of_Z (Priority b)) f64_half)
          (f64_mul (scoreFn b) (f64_of_Z 10)).

(** The range loop of [PeekByScore], from index [i] on. *)
Fixpoint best_loop (scoreFn : Build → float64) (i : nat) (ts : list Task)
    (bestIdx : nat) (bestScore : float64) : nat :=
  match ts with
  | [] => bestIdx
  | t :: ts =>
      let c := combined scoreFn (Task_Build t) in
      if f64_gtb c bestScore then best_loop scoreFn (S i) ts i c
      else best_loop scoreFn (S i) ts bestIdx bestScore
  end.

Definition PeekByScore (q : Queue) (scoreFn : Build → float64) : option Build * Queue :=
  if (heap_len q =? 0)%Z then (None, q)
  else
    let bestIdx := best_loop scoreFn 0 (q_heap q) 0 f64_zero in
    let result := q_heap q !!! bestIdx in
    (Some (Task_Build result),
     mkQueue (GoHeap.Remove task_less (q_heap q) bestIdx).2 (maxLen q)).

(** The range loop of [Remove]: the first index that holds [buildID]. *)
Fixpoint find_id (buildID : string) (i : nat) (ts : list Task) : option nat :=
  match ts with
  | [] => None
  | t :: ts => if String.eqb (ID (Task_Build t)) buildID then Some i
               else find_id buildID (S i) ts
  end.

Definition Remove (q : Queue) (buildID : string) : option Build * Queue :=
  match find_id buildID 0 (q_heap q) with
  | Some i =>
      (Some (Task_Build (q_heap q !!! i)),
       mkQueue (GoHeap.Remove task_less (q_heap q) i).2 (maxLen q))
  | None => (None, q)
  end.

(** ** Well-formed queues *)

(** A task scores its build's priority, which fits a PostgreSQL INTEGER (or any
    int a float64 holds exactly). *)
Definition task_ok (t : Task) : Prop :=
  Score t = f64_of_Z (Priority (Task_Build t)) ∧ exact_int (Priority (Task_Build t)).

Record queue_wf (q : Queue) : Prop := {
  wf_heap : heap_ok task_less (q_heap q);
  wf_tasks : Forall task_ok (q_heap q);
  wf_cap : (0 < maxLen q → heap_len q ≤ maxLen q)%Z;
}.

(** The builds the queue holds, with multiplicity; their order is the heap's
    own business. *)
Definition contents (q : Queue) : list Build := Task_Build <$> q_heap q.

Lemma task_less_asym a b :
  task_ok a → task_ok b → task_less a b = true → task_less b a = false.
Proof. intros _ _. apply f64_ltb_asym. Qed.

Lemma task_nless_trans a b c :
  task_ok a → task_ok b → task_ok c →
  task_less a b = false → task_less b c = false → task_less a c = false.
Proof.
  intros [Ha ?] [Hb ?] [Hc ?] Hab Hbc. unfold task_less, f64_gtb in *.
  eapply f64_nltb_trans; [| | |exact Hbc|exact Hab]; rewrite ?Ha, ?Hb, ?Hc;
    by apply f64_of_Z_not_nan.
Qed.

(** Between well-formed tasks the heap's order is the order of priorities. *)
Lemma task_nless_priority a b :
  task_ok a → task_ok b →
  task_less a b = false ↔ (Priority (Task_Build a) ≤ Priority (Task_Build b))%Z.
Proof.
  intros [Ha ?] [Hb ?]. unfold task_less, f64_gtb. rewrite Ha, Hb. by apply f64_of_Z_nlt.
Qed.

#[local] Hint Resolve task_less_asym task_nless_trans wf_heap wf_tasks : dt.

Lemma length_contents q : Z.of_nat (length (contents q)) = Len q.
Proof. unfold contents, Len, heap_len. by rewrite length_fmap. Qed.

Lemma Forall_contents (P : Build → Prop) q :
  Forall P (contents q) ↔ Forall (λ t, P (Task_Build t)) (q_heap q).
Proof. unfold contents. by rewrite Forall_fmap. Qed.

Lemma heap_len_zero q : (heap_len q =? 0)%Z = true ↔ q_heap q = [].
Proof.
  unfold heap_len. rewrite Z.eqb_eq. split; [|by intros ->].
  destruct (q_heap q); simpl; [done|lia].
Qed.

Lemma New_wf n : queue_wf (New n).
Proof. split; simpl; [intros k; simpl; lia|constructor|]. intros; unfold heap_len; simpl; lia. Qed.

(** ** What the loops compute *)

Lemma best_loop_spec scoreFn ts i bi bs h :
  drop i h = ts → bi < length h →
  (∀ k, k < i → f64_gtb (combined scoreFn (Task_Build (h !!! k))) bs = false) →
  (bs = f64_zero ∧ bi = 0 ∨
   bs = combined scoreFn (Task_Build (h !!! bi)) ∧ f64_gtb bs f64_zero = true) →
  let r := best_loop scoreFn i ts bi bs in
  r < length h ∧
  ((r = 0 ∧ ∀ k, k < length h → f64_gtb (combined scoreFn (Task_Build (h !!! k))) f64_zero = false) ∨
   (f64_gtb (combined scoreFn (Task_Build (h !!! r))) f64_zero = true ∧
    ∀ k, k < length h →
      f64_gtb (combined scoreFn (Task_Build (h !!! k)))
              (combined scoreFn (Task_Build (h !!! r))) = false)).
Proof.
  revert i bi bs; induction ts as [|t ts IH]; intros i bi bs Hd Hbi Hlt Hbs; simpl.
  - assert (length h ≤ i).
    { apply (f_equal length) in Hd. rewrite length_drop in Hd. simpl in Hd. lia. }
    split; [done|]. destruct Hbs as [[-> ->]|[-> Hp]]; [left|right].
    all: split; [done|]; intros k Hk; apply Hlt; lia.
  - assert (Hi : h !! i = Some t).
    { rewrite <- (Nat.add_0_r i), <- lookup_drop, Hd. done. }
    assert (Hti : h !!! i = t) by by apply list_lookup_total_correct.
    assert (i < length h) by (by eapply lookup_lt_Some).
    assert (Hd' : drop (S i) h = ts).
    { rewrite <- Nat.add_1_r, <- drop_drop, Hd. done. }
    destruct (f64_gtb (combined scoreFn (Task_Build t)) bs) eqn:E; apply IH; auto.
    + intros k Hk. destruct (decide (k = i)) as [->|]; [rewrite Hti; apply f64_ltb_irrefl|].
      assert (k < i) as Hk' by lia. specialize (Hlt k Hk').
      apply not_true_iff_false in Hlt. apply not_true_iff_false. intros Hc. apply Hlt.
      unfold f64_gtb in *. by eapply f64_ltb_trans.
    + right. rewrite Hti. split; [done|].
      destruct Hbs as [[-> _]|[_ Hp]]; [done|]. unfold f64_gtb in *. by eapply f64_ltb_trans.
    + intros k Hk. destruct (decide (k = i)) as [->|]; [by rewrite Hti|]. apply Hlt; lia.
Qed.

Lemma find_id_spec buildID ts i :
  match find_id buildID i ts with
  | Some k => i ≤ k < i + length ts ∧ ID (Task_Build (ts !!! (k - i))) = buildID
  | None => Forall (λ t, ID (Task_Build t) ≠ buildID) ts
  end.
Proof.
  revert i; induction ts as [|t ts IH]; intros i; simpl; [constructor|].
  destruct (String.eqb_spec (ID (Task_Build t)) buildID) as [He|He].
  - split; [lia|]. by rewrite Nat.sub_diag.
  - specialize (IH (S i)). destruct (find_id _ _ _) as [k|]; [|by constructor].
    destruct IH as [Hk Hid]. split; [lia|]. by replace (k - i) with (S (k - S i)) by lia.
Qed.

(** Removing the task at [i] from a well-formed queue. *)
Lemma remove_at_wf q i :
  queue_wf q → i < length (q_heap q) →
  queue_wf (mkQueue (GoHeap.Remove task_less (q_heap q) i).2 (maxLen q)) ∧
  contents q ≡ₚ Task_Build (q_heap q !!! i) ::
                (Task_Build <$> (GoHeap.Remove task_less (q_heap q) i).2).
Proof.
  intros Hq Hi. destruct (Remove_removes task_less task_ok task_less_asym task_nless_trans
    (q_heap q) i) as (Hx & Hp & Hh); auto with dt.
  destruct (GoHeap.Remove task_less (q_heap q) i) as [x h]. simpl in *. subst x. split.
  - split; simpl; [done| |].
    + eapply Forall_cons_1. rewrite <- Hp. auto with dt.
    + intros Hc. pose proof (wf_cap q Hq Hc) as Hcap. unfold heap_len in *.
      rewrite Hp in Hcap. simpl in *. lia.
  - unfold contents. rewrite Hp at 1. done.
Qed.

(** ** The operations, one by one *)

Lemma Push_full q b : Full q = true → Push q b = (false, q).
Proof. unfold Full, Push. by intros ->. Qed.

Lemma Push_room q b :
  queue_wf q → exact_int (Priority b) → Full q = false →
  (Push q b).1 = true ∧ queue_wf (Push q b).2 ∧ contents (Push q b).2 ≡ₚ b :: contents q.
Proof.
  intros Hq Hb Hf. unfold Push. unfold Full in Hf. rewrite Hf. simpl.
  split; [done|]. split; [split; simpl|].
  - eapply Push_heap; eauto with dt. by split.
  - rewrite Push_Permutation. constructor; [by split|auto with dt].
  - intros Hc. unfold heap_len in *. simpl. rewrite Push_Permutation. simpl.
    apply andb_false_iff in Hf as [Hf|Hf]; bool_split; lia.
  - unfold contents. simpl. rewrite Push_Permutation. done.
Qed.

Lemma maxLen_Push q b : maxLen (Push q b).2 = maxLen q.
Proof. unfold Push. by case_match. Qed.

(** [b] has the highest priority of [bag]. *)
Definition top_priority (bag : list Build) (b : Build) : Prop :=
  Forall (λ x, (Priority x ≤ Priority b)%Z) bag.

(** What [PeekByScore] selects: a build of maximal positive combined score, and
    when no build has a positive one, a build of the highest priority. *)
Definition best_choice (scoreFn : Build → float64) (bag : list Build) (b : Build) : Prop :=
  (Forall (λ x, f64_gtb (combined scoreFn x) f64_zero = false) bag ∧ top_priority bag b) ∨
  (f64_gtb (combined scoreFn b) f64_zero = true ∧
   Forall (λ x, f64_gtb (combined scoreFn x) (combined scoreFn b) = false) bag).

Lemma Forall_heap (P : Build → Prop) (h : list Task) :
  (∀ k, k < length h → P (Task_Build (h !!! k))) → Forall P (Task_Build <$> h).
Proof.
  intros HP. apply Forall_fmap, Forall_lookup. intros i t Hi. simpl.
  rewrite <- (list_lookup_total_correct h i t Hi). apply HP. by eapply lookup_lt_Some.
Qed.

Lemma root_top_priority q : queue_wf q → q_heap q ≠ [] →
  top_priority (contents q) (Task_Build (q_heap q !!! 0)).
Proof.
  intros Hq Hne. apply Forall_heap. intros k Hk.
  assert (0 < length (q_heap q)) by lia. pose proof (wf_tasks q Hq).
  rewrite <- task_nless_priority by by apply lookup_total_Forall.
  apply (heap_root_max task_less task_ok); eauto with dt.
Qed.

Lemma Pop_empty q : q_heap q = [] → Pop q = (None, q).
Proof. intros H. unfold Pop. by rewrite (proj2 (heap_len_zero q) H). Qed.

Lemma Pop_nonempty q :
  queue_wf q → q_heap q ≠ [] →
  ∃ b q', Pop q = (Some b, q') ∧ queue_wf q' ∧ maxLen q' = maxLen q ∧
          contents q ≡ₚ b :: contents q' ∧ top_priority (contents q) b.
Proof.
  intros Hq Hne. unfold Pop. destruct (_ =? 0)%Z eqn:E; [by apply heap_len_zero in E|].
  destruct (Pop_removes task_less task_ok task_less_asym task_nless_trans (q_heap q))
    as (Hx & Hp & Hh); auto with dt.
  destruct (GoHeap.Pop task_less (q_heap q)) as [t h]. simpl in *. subst t.
  eexists _, _. split_and!; [done| |done| |by apply root_top_priority].
  - split; simpl; [done| |].
    + eapply Forall_cons_1. rewrite <- Hp. auto with dt.
    + intros Hc. pose proof (wf_cap q Hq Hc) as Hcap. unfold heap_len in *.
      rewrite Hp in Hcap. simpl in *. lia.
  - unfold contents. rewrite Hp at 1. done.
Qed.

Lemma PeekByScore_empty q f : q_heap q = [] → PeekByScore q f = (None, q).
Proof. intros H. unfold PeekByScore. by rewrite (proj2 (heap_len_zero q) H). Qed.

Lemma PeekByScore_nonempty q f :
  queue_wf q → q_heap q ≠ [] →
  ∃ b q', PeekByScore q f = (Some b, q') ∧ queue_wf q' ∧ maxLen q' = maxLen q ∧
          contents q ≡ₚ b :: contents q' ∧ best_choice f (contents q) b.
Proof.
  intros Hq Hne. unfold PeekByScore.
  destruct (_ =? 0)%Z eqn:E; [by apply heap_len_zero in E|].
  assert (0 < length (q_heap q)) by (destruct (q_heap q); simpl; [done|lia]).
  destruct (best_loop_spec f (q_heap q) 0 0 f64_zero (q_heap q)) as [Hr Hbest];
    [done|done|lia|by left|].
  set (r := best_loop f 0 (q_heap q) 0 f64_zero) in *.
  destruct (remove_at_wf q r) as [Hwf Hp]; auto.
  eexists _, _. split_and!; [done|done|done|done|].
  destruct Hbest as [[-> Hz]|[Hpos Hmax]]; [left|right].
  - split; [by apply Forall_heap|by apply root_top_priority].
  - split; [done|by apply Forall_heap].
Qed.

Lemma Remove_absent q id :
  Forall (λ b, ID b ≠ id) (contents q) → Remove q id = (None, q).
Proof.
  intros Hid. apply Forall_contents in Hid. unfold Remove.
  pose proof (find_id_spec id (q_heap q) 0) as Hf. destruct (find_id _ _ _) as [i|]; [|done].
  destruct Hf as [Hi Heq]. rewrite Nat.sub_0_r in Heq.
  exfalso. revert Heq. apply (lookup_total_Forall (λ t, ID (Task_Build t) ≠ id)); [exact Hid|lia].
Qed.

Lemma Remove_present q id :
  queue_wf q → ¬ Forall (λ b, ID b ≠ id) (contents q) →
  ∃ b q', Remove q id = (Some b, q') ∧ queue_wf q' ∧ maxLen q' = maxLen q ∧
          contents q ≡ₚ b :: contents q' ∧ ID b = id.
Proof.
  intros Hq Hid. unfold Remove.
  pose proof (find_id_spec id (q_heap q) 0) as Hf. destruct (find_id _ _ _) as [i|].
  - destruct Hf as [Hi Heq]. rewrite Nat.sub_0_r in Heq.
    destruct (remove_at_wf q i) as [Hwf Hp]; [done|lia|]. eexists _, _. split_and!; done.
  - exfalso. apply Hid. by apply Forall_contents.
Qed.

(** ** The abstract queue *)

Inductive qop :=
  | OPush (b : Build)
  | OPop
  | OPeekByScore (scoreFn : Build → float64)
  | ORemove (id : string).

Inductive qres :=
  | RPushed (ok : bool)
  | RBuild (b : option Build).

(** A bounded bag of builds: what each call may answer and leave behind. *)
Inductive bag_step (cap : Z) : qop → qres → list Build → list Build → Prop :=
  | bag_push b bag bag' :
      (cap ≤ 0 ∨ Z.of_nat (length bag) < cap)%Z → bag' ≡ₚ b :: bag →
      bag_step cap (OPush b) (RPushed true) bag bag'
  | bag_push_full b bag :
      (0 < cap ≤ Z.of_nat (length bag))%Z →
      bag_step cap (OPush b) (RPushed false) bag bag
  | bag_pop b bag bag' :
      bag ≡ₚ b :: bag' → top_priority bag b →
      bag_step cap OPop (RBuild (Some b)) bag bag'
  | bag_pop_empty : bag_step cap OPop (RBuild None) [] []
  | bag_peek f b bag bag' :
      bag ≡ₚ b :: bag' → best_choice f bag b →
      bag_step cap (OPeekByScore f) (RBuild (Some b)) bag bag'
  | bag_peek_empty f : bag_step cap (OPeekByScore f) (RBuild None) [] []
  | bag_remove id b bag bag' :
      bag ≡ₚ b :: bag' → ID b = id →
      bag_step cap (ORemove id) (RBuild (Some b)) bag bag'
  | bag_remove_absent id bag :
      Forall (λ b, ID b ≠ id) bag → bag_step cap (ORemove id) (RBuild None) bag bag.

Inductive bag_steps (cap : Z) : list (qop * qres) → list Build → list Build → Prop :=
  | bag_steps_nil bag : bag_steps cap [] bag bag
  | bag_steps_cons op r ops bag1 bag2 bag3 :
      bag_step cap op r bag1 bag2 → bag_steps cap ops bag2 bag3 →
      bag_steps cap ((op, r) :: ops) bag1 bag3.

(** The concrete queue answering a call, and a sequence of calls. *)
Definition run (op : qop) (q : Queue) : qres * Queue :=
  match op with
  | OPush b => let '(ok, q) := Push q b in (RPushed ok, q)
  | OPop => let '(b, q) := Pop q in (RBuild b, q)
  | OPeekByScore f => let '(b, q) := PeekByScore q f in (RBuild b, q)
  | ORemove id => let '(b, q) := Remove q id in (RBuild b, q)
  end.

Fixpoint runs (ops : list qop) (q : Queue) : list (qop * qres) * Queue :=
  match ops with
  | [] => ([], q)
  | op :: ops =>
      let '(r, q) := run op q in
      let '(rs, q) := runs ops q in ((op, r) :: rs, q)
  end.

(** The priorities pushed fit a float64. *)
Definition op_ok (op : qop) : Prop :=
  match op with OPush b => exact_int (Priority b) | _ => True end.

Lemma contents_nil q : q_heap q = [] ↔ contents q = [].
Proof. unfold contents. destruct (q_heap q); simpl; split; congruence. Qed.

Lemma run_refines op q :
  queue_wf q → op_ok op →
  let '(r, q') := run op q in
  queue_wf q' ∧ maxLen q' = maxLen q ∧
  bag_step (maxLen q) op r (contents q) (contents q').
Proof.
  intros Hq Hop. destruct op as [b| |f|id]; simpl in *.
  - destruct (Full q) eqn:Hf.
    + rewrite Push_full by done. split_and!; [done..|]. apply bag_push_full.
      rewrite length_contents. unfold Full in Hf. unfold Len. bool_split. lia.
    + destruct (Push_room q b) as (Hok & Hwf & Hc); auto.
      pose proof (maxLen_Push q b). destruct (Push q b) as [ok q']. simpl in *. subst ok.
      split_and!; [done..|]. apply bag_push; [|done].
      rewrite length_contents. unfold Full in Hf. unfold Len.
      apply andb_false_iff in Hf as [?|?]; bool_split; lia.
  - destruct (decide (q_heap q = [])) as [He|He].
    + rewrite Pop_empty by done. split_and!; [done..|].
      rewrite (proj1 (contents_nil q) He). constructor.
    + destruct (Pop_nonempty q) as (b & q' & -> & ? & ? & ? & ?); auto.
      split_and!; [done..|]. by apply bag_pop.
  - destruct (decide (q_heap q = [])) as [He|He].
    + rewrite PeekByScore_empty by done. split_and!; [done..|].
      rewrite (proj1 (contents_nil q) He). constructor.
    + destruct (PeekByScore_nonempty q f) as (b & q' & -> & ? & ? & ? & ?); auto.
      split_and!; [done..|]. by apply bag_peek.
  - destruct (decide (Forall (λ b, ID b ≠ id) (contents q))) as [Hn|Hn].
    + rewrite Remove_absent by done. split_and!; [done..|]. by constructor.
    + destruct (Remove_present q id) as (b & q' & -> & ? & ? & ? & ?); auto.
      split_and!; [done..|]. by apply bag_remove.
Qed.

Lemma runs_refine ops q :
  queue_wf q → Forall op_ok ops →
  let '(tr, q') := runs ops q in
  queue_wf q' ∧ maxLen q' = maxLen q ∧ bag_steps (maxLen q) tr (contents q) (contents q').
Proof.
  revert q; induction ops as [|op ops IH]; intros q Hq Hops; simpl.
  { split_and!; [done..|constructor]. }
  apply Forall_cons in Hops as [Hop Hops].
  pose proof (run_refines op q Hq Hop) as Hr. destruct (run op q) as [r q1].
  destruct Hr as (Hq1 & Hm1 & Hs1). specialize (IH q1 Hq1 Hops).
  destruct (runs ops q1) as [tr q2]. destruct IH as (? & ? & Hs2).
  rewrite Hm1 in *. split_and!; [done..|]. by econstructor.
Qed.

(** ** Draining *)

(** Pops until the queue is empty; [Len] rounds are enough. *)
Fixpoint drain (fuel : nat) (q : Queue) : list Build :=
  match fuel with
  | 0 => []
  | S fuel => match Pop q with
              | (Some b, q) => b :: drain fuel q
              | (None, _) => []
              end
  end.

Lemma drain_spec fuel q :
  queue_wf q → length (contents q) ≤ fuel →
  drain fuel q ≡ₚ contents q ∧
  StronglySorted (λ a b, Priority b ≤ Priority a)%Z (drain fuel q).
Proof.
  revert q; induction fuel as [|fuel IH]; intros q Hq Hl; simpl.
  - destruct (contents q); simpl in *; [split; [done|constructor]|lia].
  - destruct (decide (q_heap q = [])) as [He|He].
    + rewrite Pop_empty by done. rewrite (proj1 (contents_nil q) He). split; [done|constructor].
    + destruct (Pop_nonempty q) as (b & q' & -> & Hq' & _ & Hp & Ht); auto.
      destruct (IH q') as [Hp' Hs']; auto; [rewrite Hp in Hl; simpl in Hl; lia|].
      split; [by rewrite Hp', Hp|]. constructor; [done|]. rewrite Hp'.
      unfold top_priority in Ht. rewrite Hp in Ht. by apply Forall_cons in Ht as [_ ?].
Qed.

(** ** Properties *)


Definition sample (id : string) (p : Z) : Build :=
  mkBuild id StatusPending "" "" "" "" "" None [] "" "" 0 0 0 "" p f64_zero 0 0 None.



(** Draining a well-formed queue with [Pop] returns every queued build, in
    order of decreasing priority. *)
Lemma queue_drain_sorted (q : Queue) (Hq : queue_wf q) :
  drain (length (contents q)) q ≡ₚ contents q ∧
  StronglySorted (λ a b, Priority b ≤ Priority a)%Z (drain (length (contents q)) q).
Proof. by apply drain_spec. Qed.

Lemma queue_drain_sorted_witness :
  ID <$> drain 3 (runs [OPush (sample "low" 1); OPush (sample "high" 10);
                        OPush (sample "mid" 5)] (New 100)).2 = ["high"; "mid"; "low"] ∧
  let q := (runs [OPush (sample "low" 1); OPush (sample "high" 10);
                  OPush (sample "mid" 5)] (New 100)).2 in
  StronglySorted (λ a b, Priority b ≤ Priority a)%Z (drain (length (contents q)) q).
Proof.
  split; [vm_compute; reflexivity|]. apply queue_drain_sorted.
  pose proof (runs_refine [OPush (sample "low" 1); OPush (sample "high" 10);
                           OPush (sample "mid" 5)] (New 100) (New_wf 100)) as H.
  destruct (runs _ _) as [tr q]. apply H.
  repeat constructor; unfold op_ok, exact_int; simpl; lia.
Defined.
