(* ===== verification/Scheduler.v ===== *)
(** * internal/scheduler

    The consistent-hash ring and the cache-affinity score ([scheduler.go]).
    [Scheduler] is the ring (a slice sorted by hash) and the map of worker
    states; each exported method takes the scheduler's lock for its whole body,
    so it is one function.  [sort.Sort] is used through its contract
    ([Sorter]). *)

From S2P Require Import Prelude Float64 GoStrings GoSort Hashing Domain.
From Stdlib Require Import SpecFloat.

Definition virtualReplicas : nat := 150.

Record WorkerState := mkWS {
  ws_ID : string;
  ws_Status : string;
  ws_CacheKeys : list string;
  ws_Load : Z;
}.

Record ringNode := mkNode { hash : Z; node_worker : string }.

Record Scheduler := mkSched { ring : list ringNode; workers : gmap string WorkerState }.

#[global] Instance WorkerState_eq_dec : EqDecision WorkerState.
Proof. solve_decision. Defined.
#[global] Instance ringNode_eq_dec : EqDecision ringNode.
Proof. solve_decision. Defined.
#[global] Instance ringNode_inhabited : Inhabited ringNode := populate (mkNode 0 "").

(** [ringNodes.Less] is [r[i].hash < r[j].hash]; sorted means "not greater". *)
Definition node_le (a b : ringNode) : Prop := (hash a ≤ hash b)%Z.

#[global] Instance node_le_dec : RelDecision node_le.
Proof. intros a b. apply Z_le_dec. Defined.
#[global] Instance node_le_trans : Transitive node_le.
Proof. intros a b c. unfold node_le. lia. Qed.
#[global] Instance node_le_total : Total node_le.
Proof. intros a b. unfold node_le. lia. Qed.

Definition New : Scheduler := mkSched [] ∅.

Definition hashKey (s : string) : Z := fnv64a s.

Definition hashToRing (h : Z) : Z := h.

(** The text hashed for replica [i] of a worker. *)
Definition replica_key (workerID : string) (cacheKeys : list string) (i : nat) : string :=
  foldl (λ sb ck, sb +:+ ":" +:+ ck)
        (workerID +:+ ":" +:+ Sprint (Z.of_nat i)) cacheKeys.

(** The nodes appended by the replica loops of RegisterWorker and MarkWorkerIdle. *)
Definition replicas (workerID : string) (cacheKeys : list string) : list ringNode :=
  (λ i, mkNode (hashToRing (hashKey (replica_key workerID cacheKeys i))) workerID)
    <$> seq 0 virtualReplicas.

Definition removeWorkerLocked (s : Scheduler) (workerID : string) : Scheduler :=
  mkSched (filter (λ n, node_worker n ≠ workerID) (ring s)) (workers s).

Section scheduler.
Context `{!Sorter node_le}.

Definition RegisterWorker (s : Scheduler) (workerID status : string)
    (cacheKeys : list string) : Scheduler :=
  let s := removeWorkerLocked s workerID in
  let ws := mkWS workerID status cacheKeys 0 in
  let s := mkSched (ring s) (<[workerID := ws]> (workers s)) in
  if String.eqb status "offline" then s
  else mkSched (Sort (ring s ++ replicas workerID cacheKeys)) (workers s).

Definition RemoveWorker (s : Scheduler) (workerID : string) : Scheduler :=
  let s := removeWorkerLocked s workerID in
  mkSched (ring s) (delete workerID (workers s)).

Definition MarkWorkerIdle (s : Scheduler) (workerID : string)
    (cacheKeys : list string) : Scheduler :=
  let s := removeWorkerLocked s workerID in
  let ws := mkWS workerID "idle" cacheKeys 0 in
  let s := mkSched (ring s) (<[workerID := ws]> (workers s)) in
  mkSched (Sort (ring s ++ replicas workerID cacheKeys)) (workers s).

Definition set_ws_status (st : string) (ws : WorkerState) : WorkerState :=
  mkWS (ws_ID ws) st (ws_CacheKeys ws) (ws_Load ws).

Definition MarkWorkerBusy (s : Scheduler) (workerID : string) : Scheduler :=
  match workers s !! workerID with
  | Some ws => mkSched (ring s) (<[workerID := set_ws_status "busy" ws]> (workers s))
  | None => s
  end.

Definition PruneStaleWorkers (s : Scheduler) (staleIDs : list string) : Scheduler :=
  foldl (λ s id, let s := removeWorkerLocked s id in
                 mkSched (ring s) (delete id (workers s))) s staleIDs.

(** [ws, ok := s.workers[id]; ok && ws.Status == "idle"] *)
Definition idle_worker (s : Scheduler) (id : string) : option WorkerState :=
  match workers s !! id with
  | Some ws => if String.eqb (ws_Status ws) "idle" then Some ws else None
  | None => None
  end.

(** The clockwise walk: rounds [i], [i+1], ... of the for loop, [k] of them left. *)
Fixpoint walk (s : Scheduler) (idx i k : nat) : (string * bool) * Scheduler :=
  match k with
  | 0 => (("", false), s)
  | S k =>
      let nodeIdx := (idx + i) mod length (ring s) in
      let node := ring s !!! nodeIdx in
      match idle_worker s (node_worker node) with
      | Some ws =>
          let ws' := mkWS (ws_ID ws) "busy" (ws_CacheKeys ws) (ws_Load ws + 1) in
          ((node_worker node, true),
           mkSched (ring s) (<[node_worker node := ws']> (workers s)))
      | None => walk s idx (S i) k
      end
  end.

Definition AssignBuild (s : Scheduler) (fingerprint : string) : (string * bool) * Scheduler :=
  if length (ring s) =? 0 then (("", false), s)
  else
    let targetHash := hashToRing (hashKey fingerprint) in
    let idx := Search (length (ring s)) (λ i, (targetHash <=? hash (ring s !!! i))%Z) in
    walk s idx 0 (length (ring s)).
End scheduler.

(** ** Scores *)

(** [sharedPrefixLen]: the index of the first difference within the shorter
    length. *)
Fixpoint shared_prefix (a b : string) : nat :=
  match a, b with
  | String c a, String d b => if Ascii.eqb c d then S (shared_prefix a b) else 0
  | _, _ => 0
  end.

Definition sharedPrefixLen (a b : string) : float64 :=
  f64_of_Z (Z.of_nat (shared_prefix a b)).

(** [math.Min] away from NaN and signed zeros. *)
Definition f64_min (x y : float64) : float64 := if f64_ltb x y then x else y.

Definition cacheScore (workerCacheKeys : list string) (fingerprint : string) : float64 :=
  if length workerCacheKeys =? 0 then f64_zero
  else
    let fpHash := hex (sha256 fingerprint) in
    let bestScore :=
      foldl (λ best ck, let score := sharedPrefixLen ck fpHash in
                        if f64_gtb score best then score else best)
            f64_zero workerCacheKeys in
    f64_min (f64_div bestScore (f64_of_Z 64)) (f64_of_Z 1).

(** The counters of the Jaccard loops: [intersection] and [union]. *)
Definition jaccard_counts (keys instrs : list string) : nat * nat :=
  let buildSet : gset string := list_to_set instrs in
  let cacheSet : gset string := list_to_set keys in
  let '(inter, union) :=
    foldl (λ '(inter, union) ck,
             (if bool_decide (ck ∈ buildSet) then S inter else inter, S union))
          (0, 0) keys in
  (inter, foldl (λ union instr, if bool_decide (instr ∈ cacheSet) then union else S union)
                union instrs).

Definition ScoreBuildForWorker (s : Scheduler) (buildInstructions : list string)
    (workerID : string) : float64 :=
  match workers s !! workerID with
  | None => f64_zero
  | Some ws =>
      if (length (ws_CacheKeys ws) =? 0) || (length buildInstructions =? 0) then f64_zero
      else
        let '(inter, union) := jaccard_counts (ws_CacheKeys ws) buildInstructions in
        if union =? 0 then f64_zero
        else f64_div (f64_of_Z (Z.of_nat inter)) (f64_of_Z (Z.of_nat union))
  end.

Definition GetWorker (s : Scheduler) (workerID : string) : WorkerState * bool :=
  match workers s !! workerID with
  | Some ws => (ws, true)
  | None => (mkWS "" "" [] 0, false)
  end.

(** ** The ring as a circle *)

(** The nodes in the order of the clockwise walk from [t]. *)
Definition clockwise (t : Z) (r : list ringNode) : list ringNode :=
  filter (λ n, (t ≤ hash n)%Z) r ++ filter (λ n, (hash n < t)%Z) r.

Definition idle (s : Scheduler) (n : ringNode) : Prop := is_Some (idle_worker s (node_worker n)).
#[global] Instance idle_dec s n : Decision (idle s n).
Proof. unfold idle. apply _. Defined.

Definition first_idle (s : Scheduler) (l : list ringNode) : option ringNode :=
  head (filter (idle s) l).

(** Taking a worker: busy, one more build. *)
Definition take_worker (s : Scheduler) (id : string) : Scheduler :=
  match workers s !! id with
  | Some ws => mkSched (ring s) (<[id := mkWS (ws_ID ws) "busy" (ws_CacheKeys ws) (ws_Load ws + 1)]> (workers s))
  | None => s
  end.

(** The reference definition of [AssignBuild]: the owner of the first node, going
    clockwise from the fingerprint's hash, that is idle. *)
Definition AssignBuild_ref (s : Scheduler) (fingerprint : string) : (string * bool) * Scheduler :=
  match first_idle s (clockwise (hashKey fingerprint) (ring s)) with
  | Some n => ((node_worker n, true), take_worker s (node_worker n))
  | None => (("", false), s)
  end.

Lemma idle_worker_Some s id ws :
  idle_worker s id = Some ws ↔ workers s !! id = Some ws ∧ ws_Status ws = "idle".
Proof.
  unfold idle_worker. destruct (workers s !! id) as [ws'|]; [|by split; [|intros []]].
  destruct (String.eqb_spec (ws_Status ws') "idle"); split; intuition congruence.
Qed.

Lemma rotation_lookup (r : list ringNode) idx i :
  idx ≤ length r → i < length r →
  (drop idx r ++ take idx r) !!! i = r !!! ((idx + i) mod length r).
Proof.
  intros Hidx Hi. destruct (decide (idx + i < length r)).
  - rewrite lookup_total_app_l by (rewrite length_drop; lia).
    rewrite Nat.mod_small by done. by rewrite lookup_total_drop.
  - rewrite lookup_total_app_r by (rewrite length_drop; lia).
    rewrite length_drop, lookup_total_take_lt by lia. f_equal.
    replace (idx + i) with (i - (length r - idx) + 1 * length r) by lia.
    rewrite Nat.Div0.mod_add, Nat.mod_small by lia. done.
Qed.

Lemma walk_first_idle s idx i k :
  idx ≤ length (ring s) → i + k = length (ring s) →
  walk s idx i k =
    match first_idle s (drop i (drop idx (ring s) ++ take idx (ring s))) with
    | Some n => ((node_worker n, true), take_worker s (node_worker n))
    | None => (("", false), s)
    end.
Proof.
  intros Hidx. set (l := drop idx (ring s) ++ take idx (ring s)).
  assert (length l = length (ring s)) as Hl
    by (unfold l; rewrite length_app, length_drop, length_take; lia).
  revert i; induction k as [|k IH]; intros i Hik; cbn [walk].
  { rewrite drop_ge by lia. done. }
  rewrite <- rotation_lookup by lia. fold l.
  rewrite (drop_S l (l !!! i) i) by (apply list_lookup_lookup_total_lt; lia).
  unfold first_idle. rewrite filter_cons. destruct (idle_worker s _) as [ws|] eqn:E.
  - rewrite decide_True by (unfold idle; rewrite E; eauto). simpl.
    unfold take_worker. apply idle_worker_Some in E as [-> _]. done.
  - rewrite decide_False by (unfold idle; rewrite E; by intros [? [=]]).
    apply IH. lia.
Qed.

(** In a sorted ring the binary search splits the ring at the target. *)
Lemma sorted_split t (r : list ringNode) idx :
  (∀ k, k < idx → (t <=? hash (r !!! k))%Z = false) →
  (∀ k, idx ≤ k → k < length r → (t <=? hash (r !!! k))%Z = true) →
  drop idx r ++ take idx r = clockwise t r.
Proof.
  intros Hlo Hhi. unfold clockwise.
  assert (Forall (λ n, t ≤ hash n)%Z (drop idx r)) as Hd.
  { apply Forall_lookup. intros i n. rewrite lookup_drop. intros Hn.
    pose proof (lookup_lt_Some _ _ _ Hn). specialize (Hhi (idx + i)).
    rewrite (list_lookup_total_correct _ _ _ Hn) in Hhi.
    specialize (Hhi ltac:(lia) ltac:(lia)). by bool_split. }
  assert (Forall (λ n, hash n < t)%Z (take idx r)) as Ht.
  { apply Forall_lookup. intros i n. rewrite lookup_take_Some. intros [Hn Hi].
    specialize (Hlo i Hi). rewrite (list_lookup_total_correct _ _ _ Hn) in Hlo.
    by bool_split. }
  rewrite <- (take_drop idx r) at 3 4. rewrite !filter_app.
  rewrite (filter_none (λ n, t ≤ hash n)%Z (take idx r))
    by (eapply Forall_impl; [exact Ht|simpl; intros; lia]).
  rewrite (filter_none (λ n, hash n < t)%Z (drop idx r))
    by (eapply Forall_impl; [exact Hd|simpl; intros; lia]).
  rewrite (filter_all (λ n, t ≤ hash n)%Z), (filter_all (λ n, hash n < t)%Z) by done.
  by rewrite app_nil_r.
Qed.

Lemma sorted_le (r : list ringNode) a b :
  StronglySorted node_le r → a ≤ b → b < length r → (hash (r !!! a) ≤ hash (r !!! b))%Z.
Proof.
  intros Hs Hab Hb. destruct (decide (a = b)) as [->|]; [lia|].
  rewrite <- (take_drop b r) in Hs.
  apply (StronglySorted_app_1_elem_of node_le (take b r) (drop b r)); [done| |].
  - apply list_elem_of_lookup. exists a. rewrite lookup_take_lt by lia.
    apply list_lookup_lookup_total_lt. lia.
  - apply list_elem_of_lookup. exists 0. rewrite lookup_drop, Nat.add_0_r.
    apply list_lookup_lookup_total_lt. lia.
Qed.

Lemma AssignBuild_is_ref s fp :
  StronglySorted node_le (ring s) → AssignBuild s fp = AssignBuild_ref s fp.
Proof.
  intros Hs. unfold AssignBuild, AssignBuild_ref.
  destruct (length (ring s) =? 0) eqn:E; bool_split.
  { apply nil_length_inv in E. by rewrite E. }
  set (f := λ i, (hashToRing (hashKey fp) <=? hash (ring s !!! i))%Z).
  destruct (Search_spec (length (ring s)) f) as (Hle & Hlo & Hhi).
  { unfold f. intros a b Hab Hb Ha. bool_split. apply Z.leb_le.
    pose proof (sorted_le (ring s) a b Hs Hab Hb). lia. }
  rewrite walk_first_idle by lia. rewrite drop_0.
  by rewrite (sorted_split (hashKey fp)).
Qed.

(** ** The invariant *)

Definition nodes_of (id : string) (r : list ringNode) : list ringNode :=
  filter (λ n, node_worker n = id) r.

(** The ring is sorted; a worker that is not registered has no node; a registered
    one has exactly the replicas of its id and cache keys, or none at all, and
    then it is not idle. *)
Record sched_wf (s : Scheduler) : Prop := {
  wf_sorted : StronglySorted node_le (ring s);
  wf_nodes id :
    match workers s !! id with
    | Some ws => ws_ID ws = id ∧
        (nodes_of id (ring s) ≡ₚ replicas id (ws_CacheKeys ws) ∨
         nodes_of id (ring s) = [] ∧ ws_Status ws ≠ "idle")
    | None => nodes_of id (ring s) = []
    end;
}.

Lemma replicas_owner id ks : Forall (λ n, node_worker n = id) (replicas id ks).
Proof. apply Forall_fmap, Forall_true. done. Qed.

Lemma nodes_of_remove id w r :
  nodes_of id (filter (λ n, node_worker n ≠ w) r) = if decide (id = w) then [] else nodes_of id r.
Proof.
  unfold nodes_of. case_decide as Hid.
  - subst. apply filter_none, Forall_forall. by intros n [? _]%list_elem_of_filter.
  - rewrite list_filter_filter_l; [done|]. naive_solver.
Qed.

Lemma nodes_of_replicas id w ks :
  nodes_of id (replicas w ks) = if decide (id = w) then replicas w ks else [].
Proof.
  unfold nodes_of. pose proof (replicas_owner w ks) as Ho. case_decide as Hid.
  - subst. by apply filter_all.
  - apply filter_none. eapply Forall_impl; [exact Ho|]. naive_solver.
Qed.

Lemma New_sched_wf : sched_wf New.
Proof. split; [constructor|]. intros id. done. Qed.

Section invariant.
Context `{!Sorter node_le}.

(** What RegisterWorker (not offline) and MarkWorkerIdle both do. *)
Definition enroll (s : Scheduler) (ws : WorkerState) : Scheduler :=
  mkSched (Sort (filter (λ n, node_worker n ≠ ws_ID ws) (ring s) ++
                 replicas (ws_ID ws) (ws_CacheKeys ws)))
          (<[ws_ID ws := ws]> (workers s)).

Lemma nodes_of_enroll s ws id :
  nodes_of id (ring (enroll s ws)) ≡ₚ
  if decide (id = ws_ID ws) then replicas id (ws_CacheKeys ws) else nodes_of id (ring s).
Proof.
  simpl. unfold nodes_of at 1. rewrite Sort_Permutation, filter_app.
  change (filter (λ n, node_worker n = id) ?l) with (nodes_of id l).
  rewrite nodes_of_remove, nodes_of_replicas.
  case_decide; subst; [done|]. by rewrite app_nil_r.
Qed.

Lemma enroll_wf s ws : sched_wf s → sched_wf (enroll s ws).
Proof.
  intros [Hs Hn]. split; [apply Sort_sorted|]. intros id.
  pose proof (nodes_of_enroll s ws id) as Hp. simpl in *.
  rewrite lookup_insert. destruct (decide (ws_ID ws = id)) as [<-|Hne].
  - rewrite decide_True in Hp by done. split; [done|]. by left.
  - rewrite decide_False in Hp by done. specialize (Hn id).
    destruct (workers s !! id) as [ws'|]; [|by rewrite Hn in Hp; apply Permutation_nil_r in Hp].
    destruct Hn as [? [Hr|[Hr ?]]]; (split; [done|]).
    + left. by rewrite Hp.
    + right. split; [|done]. by rewrite Hr in Hp; apply Permutation_nil_r in Hp.
Qed.

Lemma drop_worker_wf s w :
  sched_wf s →
  sched_wf (mkSched (filter (λ n, node_worker n ≠ w) (ring s)) (delete w (workers s))).
Proof.
  intros [Hs Hn]. split; simpl; [by apply StronglySorted_filter|]. intros id.
  rewrite nodes_of_remove, lookup_delete. destruct (decide (w = id)) as [->|].
  - by rewrite decide_True.
  - rewrite decide_False by done. apply Hn.
Qed.

(** Changing a state in place, without making the worker idle. *)
Lemma update_wf s id ws ws' :
  sched_wf s → workers s !! id = Some ws → ws_ID ws' = ws_ID ws →
  ws_CacheKeys ws' = ws_CacheKeys ws → ws_Status ws' ≠ "idle" →
  sched_wf (mkSched (ring s) (<[id := ws']> (workers s))).
Proof.
  intros [Hs Hn] Hid He Hk Hst. split; [done|]. intros id'. simpl.
  rewrite lookup_insert. destruct (decide (id = id')) as [<-|]; [|apply Hn].
  specialize (Hn id). rewrite Hid in Hn. rewrite He, Hk.
  destruct Hn as [? [?|[? _]]]; auto.
Qed.

Lemma RegisterWorker_wf s id st ks : sched_wf s → sched_wf (RegisterWorker s id st ks).
Proof.
  intros Hs. unfold RegisterWorker. destruct (String.eqb_spec st "offline") as [->|].
  - destruct Hs as [Hs Hn]. split; simpl; [by apply StronglySorted_filter|]. intros id'.
    rewrite nodes_of_remove, lookup_insert. destruct (decide (id = id')) as [->|].
    + rewrite decide_True by done. split; [done|]. by right.
    + rewrite decide_False by done. apply Hn.
  - apply (enroll_wf s (mkWS id st ks 0) Hs).
Qed.

Lemma MarkWorkerIdle_wf s id ks : sched_wf s → sched_wf (MarkWorkerIdle s id ks).
Proof. intros Hs. apply (enroll_wf s (mkWS id "idle" ks 0) Hs). Qed.

Lemma take_worker_wf s id : sched_wf s → sched_wf (take_worker s id).
Proof.
  intros Hs. unfold take_worker. destruct (workers s !! id) eqn:E; [|done].
  by eapply update_wf.
Qed.

Lemma PruneStaleWorkers_wf ids s : sched_wf s → sched_wf (PruneStaleWorkers s ids).
Proof.
  revert s; induction ids as [|id ids IH]; intros s Hs; [done|]. simpl.
  apply IH, drop_worker_wf, Hs.
Qed.

(** The calls of the scheduler, as steps. *)
Inductive sched_op :=
  | SRegister (id status : string) (keys : list string)
  | SRemove (id : string)
  | SIdle (id : string) (keys : list string)
  | SBusy (id : string)
  | SPrune (ids : list string)
  | SAssign (fingerprint : string).

Definition sched_step (s : Scheduler) (op : sched_op) : Scheduler :=
  match op with
  | SRegister id st ks => RegisterWorker s id st ks
  | SRemove id => RemoveWorker s id
  | SIdle id ks => MarkWorkerIdle s id ks
  | SBusy id => MarkWorkerBusy s id
  | SPrune ids => PruneStaleWorkers s ids
  | SAssign fp => (AssignBuild s fp).2
  end.

Inductive sched_reachable : Scheduler → Prop :=
  | sched_init : sched_reachable New
  | sched_next s op : sched_reachable s → sched_reachable (sched_step s op).

Lemma sched_step_wf s op : sched_wf s → sched_wf (sched_step s op).
Proof.
  intros Hs. destruct op as [id st ks|id|id ks|id|ids|fp]; simpl.
  - by apply RegisterWorker_wf.
  - apply (drop_worker_wf s id Hs).
  - by apply MarkWorkerIdle_wf.
  - unfold MarkWorkerBusy. destruct (workers s !! id) eqn:E; [|done]. by eapply update_wf.
  - by apply PruneStaleWorkers_wf.
  - rewrite AssignBuild_is_ref by apply Hs. unfold AssignBuild_ref.
    destruct (first_idle _ _); [|done]. by apply take_worker_wf.
Qed.

Lemma sched_reachable_wf s : sched_reachable s → sched_wf s.
Proof. induction 1; [apply New_sched_wf|by apply sched_step_wf]. Qed.
End invariant.

(** ** Consistent hashing *)

Lemma clockwise_filter t (P : ringNode → Prop) `{!∀ n, Decision (P n)} r :
  clockwise t (filter P r) = filter P (clockwise t r).
Proof. unfold clockwise. by rewrite filter_app, !(filter_swap P). Qed.

Lemma elem_of_clockwise t r n : n ∈ clockwise t r ↔ n ∈ r.
Proof.
  unfold clockwise. rewrite elem_of_app, !list_elem_of_filter.
  destruct (decide (t ≤ hash n)%Z); split; intuition lia.
Qed.

(** Rings without colliding hashes are determined by their nodes. *)
Lemma ring_unique r1 r2 :
  StronglySorted node_le r1 → StronglySorted node_le r2 → r1 ≡ₚ r2 →
  NoDup (hash <$> r1) → r1 = r2.
Proof.
  intros Hs1 Hs2 Hp Hnd. apply (StronglySorted_unique_strong node_le); auto.
  intros n1 n2 H1 H2 Hle Hge. rewrite <- Hp in H2. unfold node_le in *.
  apply list_elem_of_lookup in H1 as [i1 H1]. apply list_elem_of_lookup in H2 as [i2 H2].
  assert (i1 = i2) as ->; [|congruence].
  eapply (NoDup_lookup _ _ _ (hash n1) Hnd); rewrite list_lookup_fmap, ?H1, ?H2; [done|].
  simpl. f_equal. lia.
Qed.

Lemma first_idle_ext s s' l :
  (∀ n, n ∈ l → idle s n ↔ idle s' n) → first_idle s l = first_idle s' l.
Proof.
  intros Hi. unfold first_idle. f_equal. induction l as [|n l IH]; [done|].
  rewrite !filter_cons, IH by (intros; apply Hi; by right).
  destruct (decide (idle s n)) as [H|H]; [rewrite decide_True|rewrite decide_False]; try done.
  all: rewrite <- Hi; [done|by left].
Qed.

Lemma first_idle_Some s l n : first_idle s l = Some n → n ∈ l ∧ idle s n.
Proof.
  unfold first_idle. intros H. apply head_Some_elem_of in H.
  apply list_elem_of_filter in H. tauto.
Qed.

Lemma first_idle_None s l : first_idle s l = None ↔ ∀ n, n ∈ l → ¬ idle s n.
Proof.
  unfold first_idle. split.
  - intros H n Hn Hi. apply head_None in H. eapply filter_nil_not_elem_of; eauto.
  - intros H. rewrite filter_none; [done|]. by apply Forall_forall.
Qed.

(** An idle worker owns a node of the ring. *)
Lemma idle_has_node s id ws :
  sched_wf s → workers s !! id = Some ws → ws_Status ws = "idle" →
  ∃ n, n ∈ ring s ∧ node_worker n = id.
Proof.
  intros [_ Hn] Hid Hst. specialize (Hn id). rewrite Hid in Hn.
  destruct Hn as [_ [Hp|[_ ?]]]; [|done].
  assert (mkNode (hashKey (replica_key id (ws_CacheKeys ws) 0)) id ∈ nodes_of id (ring s)) as He.
  { rewrite Hp. unfold replicas. simpl. left. }
  apply list_elem_of_filter in He as [_ He]. by eexists.
Qed.

(** The nodes of a worker [w] aside, a state that agrees on the other workers
    sends a build to the same worker. *)
Lemma first_idle_without s s' w t n :
  first_idle s (clockwise t (ring s)) = Some n → node_worker n ≠ w →
  filter (λ m, node_worker m ≠ w) (ring s') = filter (λ m, node_worker m ≠ w) (ring s) →
  (∀ id, id ≠ w → workers s' !! id = workers s !! id) →
  first_idle s' (filter (λ m, node_worker m ≠ w) (clockwise t (ring s'))) = Some n.
Proof.
  intros Hf Hw Hr Hm. rewrite <- clockwise_filter, Hr, clockwise_filter.
  rewrite (first_idle_ext s' s).
  - by apply head_filter_filter.
  - intros m [Hne _]%list_elem_of_filter. unfold idle, idle_worker. by rewrite Hm.
Qed.

(** What the caller sees of an assignment. *)
Lemma AssignBuild_assigned s fp wid :
  sched_wf s → (AssignBuild s fp).1 = (wid, true) ↔
  ∃ n, first_idle s (clockwise (hashKey fp) (ring s)) = Some n ∧ node_worker n = wid.
Proof.
  intros Hs. rewrite AssignBuild_is_ref by apply Hs. unfold AssignBuild_ref.
  destruct (first_idle _ _); simpl; split; [intros [= <-]; eauto|intros (?&?&?); congruence|done|by intros (?&?&?)].
Qed.

(** The nodes of the other workers, after a registration. *)
Lemma others_RegisterWorker `{!Sorter node_le} s w st keys :
  filter (λ m, node_worker m ≠ w) (ring s) ≡ₚ
  filter (λ m, node_worker m ≠ w) (ring (RegisterWorker s w st keys)).
Proof.
  unfold RegisterWorker. case_match; simpl; [|rewrite Sort_Permutation, filter_app].
  - by rewrite list_filter_filter_l by done.
  - rewrite list_filter_filter_l by done. rewrite (filter_none _ (replicas w keys)); [by rewrite app_nil_r|].
    eapply Forall_impl; [apply replicas_owner|]. naive_solver.
Qed.

Lemma workers_RegisterWorker_ne `{!Sorter node_le} s w st keys id :
  id ≠ w → workers (RegisterWorker s w st keys) !! id = workers s !! id.
Proof.
  intros Hne. unfold RegisterWorker. case_match; simpl; by rewrite lookup_insert_ne.
Qed.

(** With a worker [w] more, the first idle node is the same or one of [w]'s. *)
Lemma first_idle_join s s' w t n :
  first_idle s (clockwise t (ring s)) = Some n → node_worker n ≠ w →
  filter (λ m, node_worker m ≠ w) (ring s') = filter (λ m, node_worker m ≠ w) (ring s) →
  (∀ id, id ≠ w → workers s' !! id = workers s !! id) →
  ∃ m, first_idle s' (clockwise t (ring s')) = Some m ∧ (m = n ∨ node_worker m = w).
Proof.
  intros Hf Hw Hr Hm. pose proof (first_idle_without s s' w t n Hf Hw Hr Hm) as Hn.
  destruct (first_idle s' (clockwise t (ring s'))) as [m|] eqn:E.
  - exists m. split; [done|]. destruct (decide (node_worker m = w)) as [|Hmw]; [by right|left].
    pose proof (head_filter_filter (idle s') (λ m, node_worker m ≠ w) _ m E Hmw) as Hm'.
    unfold first_idle in Hn. congruence.
  - exfalso. rewrite first_idle_None in E. apply first_idle_Some in Hn as [Hin Hi].
    apply list_elem_of_filter in Hin as [_ Hin]. by apply (E n).
Qed.

(** ** Similarity *)

Lemma jaccard_fold1 (B : gset string) keys i u :
  foldl (λ '(inter, union) ck,
           (if bool_decide (ck ∈ B) then S inter else inter, S union)) (i, u) keys =
  (i + length (filter (.∈ B) keys), u + length keys).
Proof.
  revert i u; induction keys as [|k keys IH]; intros i u; simpl; [f_equal; lia|].
  rewrite IH, filter_cons. case_bool_decide; [rewrite decide_True by done|rewrite decide_False by done];
    simpl; f_equal; lia.
Qed.

Lemma jaccard_fold2 (A : gset string) instrs u :
  foldl (λ union instr, if bool_decide (instr ∈ A) then union else S union) u instrs =
  u + length (filter (.∉ A) instrs).
Proof.
  revert u; induction instrs as [|k l IH]; intros u; simpl; [lia|].
  rewrite IH, filter_cons. case_bool_decide; [rewrite decide_False by auto|rewrite decide_True by done];
    simpl; lia.
Qed.

Lemma jaccard_counts_eq keys instrs :
  jaccard_counts keys instrs =
  (length (filter (.∈ (list_to_set instrs : gset string)) keys),
   length keys + length (filter (.∉ (list_to_set keys : gset string)) instrs)).
Proof. unfold jaccard_counts. by rewrite jaccard_fold1, jaccard_fold2. Qed.

(** On keys without repetition the first counter is the size of the intersection, and the
    second one at least that of the union. *)
Lemma inter_size keys instrs :
  NoDup keys → length (filter (.∈ (list_to_set instrs : gset string)) keys) =
    size (list_to_set keys ∩ list_to_set instrs : gset string).
Proof.
  intros Hk. rewrite <- (size_list_to_set (C:=gset string)) by by apply NoDup_filter.
  f_equal. apply set_eq. intros x.
  rewrite elem_of_list_to_set, list_elem_of_filter, elem_of_intersection, !elem_of_list_to_set. tauto.
Qed.

Lemma list_to_set_size_le (l : list string) : size (list_to_set l : gset string) ≤ length l.
Proof.
  induction l as [|x l IH]; cbn [list_to_set length]; [by rewrite size_empty|].
  pose proof (size_union_alt ({[x]} : gset string) (list_to_set l)) as Hu.
  pose proof (subseteq_size (list_to_set l ∖ {[x]} : gset string) (list_to_set l)) as Hs.
  rewrite size_singleton in Hu. specialize (Hs ltac:(apply subseteq_difference_l; done)). lia.
Qed.

Lemma difference_filter (A : gset string) instrs :
  list_to_set instrs ∖ A = (list_to_set (filter (.∉ A) instrs) : gset string).
Proof.
  apply set_eq. intros x. rewrite elem_of_difference, !elem_of_list_to_set, list_elem_of_filter. tauto.
Qed.

Lemma union_size_le keys instrs :
  NoDup keys → size (list_to_set keys ∪ list_to_set instrs : gset string) ≤
    length keys + length (filter (.∉ (list_to_set keys : gset string)) instrs).
Proof.
  intros Hk. rewrite size_union_alt, size_list_to_set, difference_filter by done.
  pose proof (list_to_set_size_le (filter (.∉ (list_to_set keys : gset string)) instrs)). lia.
Qed.

(** On lists without repetition the counters are the sizes of the intersection and
    of the union of the two sets. *)
Lemma jaccard_counts_sets keys instrs :
  NoDup keys → NoDup instrs →
  jaccard_counts keys instrs =
  (size (list_to_set keys ∩ list_to_set instrs : gset string),
   size (list_to_set keys ∪ list_to_set instrs : gset string)).
Proof.
  intros Hk Hi. rewrite jaccard_counts_eq. f_equal; [by apply inter_size|].
  rewrite size_union_alt, size_list_to_set, difference_filter by done. f_equal.
  by rewrite size_list_to_set by by apply NoDup_filter.
Qed.

Lemma jaccard_counts_le keys instrs :
  (jaccard_counts keys instrs).1 ≤ (jaccard_counts keys instrs).2.
Proof.
  rewrite jaccard_counts_eq. simpl. pose proof (length_filter (.∈ (list_to_set instrs : gset string)) keys). lia.
Qed.

(** ** Properties *)

Section properties.
Context `{!Sorter node_le}.

(** C10. In every state reachable by the scheduler's calls, AssignBuild (binary
    search and index arithmetic modulo the ring's length) is the reference
    definition: the owner of the first idle node clockwise from the fingerprint's
    hash, which becomes busy. *)
Theorem AssignBuild_clockwise (s : Scheduler) (fp : string) (Hs : sched_reachable s) :
  AssignBuild s fp = AssignBuild_ref s fp.
Proof. apply AssignBuild_is_ref, sched_reachable_wf, Hs. Qed.

(** In every reachable state the ring is sorted and holds, for each worker,
    exactly the 150 replicas of its id and cache keys or nothing, and an idle
    worker always has its replicas; an unregistered worker has none. *)
Lemma scheduler_invariant (s : Scheduler) (Hs : sched_reachable s) : sched_wf s.
Proof. by apply sched_reachable_wf. Qed.

(** AssignBuild answers for every reachable state: it succeeds exactly when
    some worker is idle; the worker it returns was idle and is afterwards busy with
    one more build, and nothing else changes; a failed call changes nothing. *)
Lemma AssignBuild_complete (s : Scheduler) (fp : string) (Hs : sched_reachable s) :
  match AssignBuild s fp with
  | ((w, true), s') => ∃ ws, workers s !! w = Some ws ∧ ws_Status ws = "idle" ∧
      ring s' = ring s ∧
      workers s' = <[w := mkWS w "busy" (ws_CacheKeys ws) (ws_Load ws + 1)]> (workers s)
  | ((w, false), s') => w = "" ∧ s' = s ∧
      ∀ id ws, workers s !! id = Some ws → ws_Status ws ≠ "idle"
  end.
Proof.
  apply sched_reachable_wf in Hs. rewrite AssignBuild_is_ref by apply Hs.
  unfold AssignBuild_ref. destruct (first_idle _ _) as [n|] eqn:E.
  - apply first_idle_Some in E as [_ [ws [Hw Hi]%idle_worker_Some]]. exists ws.
    unfold take_worker. rewrite Hw. pose proof (wf_nodes s Hs (node_worker n)) as Hn.
    rewrite Hw in Hn. destruct Hn as [<- _]. done.
  - split_and!; [done..|]. intros id ws Hid Hidle.
    destruct (idle_has_node s id ws) as (n & Hn & <-); [done..|].
    rewrite first_idle_None in E. apply (E n); [by apply elem_of_clockwise|].
    exists ws. by apply idle_worker_Some.
Qed.

(** Consistent hashing, a worker leaves: removing a worker does not move the
    builds that went to another one. *)
Lemma RemoveWorker_minimal (s : Scheduler) (fp w wid : string)
    (Hs : sched_reachable s) (Ha : (AssignBuild s fp).1 = (wid, true)) (Hne : wid ≠ w) :
  (AssignBuild (RemoveWorker s w) fp).1 = (wid, true).
Proof.
  apply sched_reachable_wf in Hs.
  apply AssignBuild_assigned in Ha as (n & Hf & <-); [|done].
  apply AssignBuild_assigned; [apply (drop_worker_wf s w Hs)|]. exists n. split; [|done].
  simpl. rewrite clockwise_filter.
  rewrite (first_idle_ext _ s); [by apply head_filter_filter|].
  intros m [Hm _]%list_elem_of_filter. unfold idle, idle_worker. simpl.
  by rewrite lookup_delete_ne.
Qed.

(** Consistent hashing, a worker joins: registering a new worker leaves every
    build on its worker or moves it to the new one, as long as the nodes of the ring
    have distinct hashes. *)
Lemma RegisterWorker_minimal (s : Scheduler) (fp w st wid : string) (keys : list string)
    (Hs : sched_reachable s) (Hnd : NoDup (hash <$> ring s))
    (Hnew : workers s !! w = None) (Ha : (AssignBuild s fp).1 = (wid, true)) :
  (AssignBuild (RegisterWorker s w st keys) fp).1 = (wid, true) ∨
  (AssignBuild (RegisterWorker s w st keys) fp).1 = (w, true).
Proof.
  apply sched_reachable_wf in Hs. pose proof (RegisterWorker_wf s w st keys Hs) as Hs'.
  apply AssignBuild_assigned in Ha as (n & Hf & <-); [|done].
  pose proof (first_idle_Some _ _ _ Hf) as [_ [ws [Hws _]%idle_worker_Some]].
  assert (node_worker n ≠ w) as Hne by congruence.
  assert (filter (λ m, node_worker m ≠ w) (ring (RegisterWorker s w st keys)) =
          filter (λ m, node_worker m ≠ w) (ring s)) as Hring.
  { symmetry. apply ring_unique; [apply StronglySorted_filter, Hs|apply StronglySorted_filter, Hs'| |].
    - by apply others_RegisterWorker.
    - eapply sublist_NoDup; [exact Hnd|]. apply fmap_sublist, sublist_filter. }
  destruct (first_idle_join s (RegisterWorker s w st keys) w (hashKey fp) n) as (m & Hm & Hmw); auto.
  - intros id Hid. by apply workers_RegisterWorker_ne.
  - destruct Hmw as [->|<-]; [left|right]; apply AssignBuild_assigned; eauto.
Qed.

(** A worker that finishes and comes back with the same cache keys gets the
    same builds again: taking it and marking it idle restores the ring, when the
    nodes have distinct hashes. *)
Lemma MarkWorkerIdle_restores (s : Scheduler) (fp w : string) (ws : WorkerState)
    (Hs : sched_reachable s) (Hnd : NoDup (hash <$> ring s))
    (Ha : (AssignBuild s fp).1 = (w, true)) (Hw : workers s !! w = Some ws) :
  let s' := MarkWorkerIdle (AssignBuild s fp).2 w (ws_CacheKeys ws) in
  ring s' = ring s ∧ (AssignBuild s' fp).1 = (w, true).
Proof.
  apply sched_reachable_wf in Hs. cbv zeta.
  pose proof (proj1 (AssignBuild_assigned s fp w Hs) Ha) as (n & Hf & Hn).
  rewrite (AssignBuild_is_ref s) by apply Hs. unfold AssignBuild_ref. rewrite Hf, Hn. cbn [snd].
  unfold take_worker. rewrite Hw.
  pose proof (first_idle_Some _ _ _ Hf) as [_ [ws' [Hws Hi]%idle_worker_Some]].
  assert (ws' = ws) as -> by congruence.
  set (s' := MarkWorkerIdle _ _ _).
  assert (ring s' = ring s) as Hr.
  { symmetry. apply ring_unique; [apply Hs|apply Sort_sorted| |done].
    simpl. rewrite Sort_Permutation.
    pose proof (wf_nodes s Hs w) as Hn'. rewrite Hw in Hn'.
    destruct Hn' as [_ [Hp|[_ ?]]]; [|done]. rewrite <- Hp, Permutation_app_comm.
    apply (filter_split_Permutation (λ m, node_worker m = w)). }
  split; [done|]. apply AssignBuild_assigned.
  - apply MarkWorkerIdle_wf. by eapply update_wf.
  - exists n. split; [|done]. rewrite Hr, <- Hf. apply first_idle_ext. intros m _.
    unfold idle, idle_worker. simpl. rewrite lookup_insert.
    case_decide as Hm; [subst w; rewrite <- Hm, Hw; simpl; rewrite Hi; simpl; split; eauto|].
    by rewrite lookup_insert_ne.
Qed.
End properties.

(** C34. ScoreBuildForWorker, for any lists: 0 for an unknown worker, without cache keys or
    without instructions; otherwise the float64 quotient of the number of cache keys that
    are among the instructions by the number of cache keys plus the number of instructions
    that are not cache keys, each repetition counted.  For cache keys without repetition
    (those of a worker) that is at most the Jaccard similarity of the two sets, and exactly
    that if no instruction is repeated either. *)
Theorem ScoreBuildForWorker_jaccard (s : Scheduler) (w : string) (instrs : list string) :
  let keys := default [] (ws_CacheKeys <$> workers s !! w) in
  let A : gset string := list_to_set keys in
  let B : gset string := list_to_set instrs in
  let inter := length (filter (.∈ B) keys) in
  let union := length keys + length (filter (.∉ A) instrs) in
  (keys = [] ∨ instrs = [] → ScoreBuildForWorker s instrs w = f64_zero) ∧
  (keys ≠ [] → instrs ≠ [] →
    ScoreBuildForWorker s instrs w = f64_div (f64_of_Z (Z.of_nat inter)) (f64_of_Z (Z.of_nat union)) ∧
    0 < union ∧ inter ≤ union ∧
    (NoDup keys →
       inter = size (A ∩ B) ∧ size (A ∪ B) ≤ union ∧ (NoDup instrs → union = size (A ∪ B)))).
Proof.
  intros keys A B inter union. unfold ScoreBuildForWorker, keys in *.
  destruct (workers s !! w) as [ws|]; cbn [fmap option_fmap option_map from_option default id] in *; [|by split].
  split.
  { intros [->| ->]; [done|]. by rewrite orb_true_r. }
  intros Hk0 Hi0. pose proof (jaccard_counts_eq (ws_CacheKeys ws) instrs) as Hj. fold A B inter union in Hj.
  pose proof (jaccard_counts_le (ws_CacheKeys ws) instrs) as Hle. rewrite Hj in Hle. simpl in Hle.
  assert (0 < union) as Hpos by (unfold union; destruct (ws_CacheKeys ws); simpl; [done|lia]).
  split_and!; [|done..|].
  - rewrite Hj, (proj2 (Nat.eqb_neq (length (ws_CacheKeys ws)) 0)) by (by destruct (ws_CacheKeys ws)).
    rewrite (proj2 (Nat.eqb_neq (length instrs) 0)) by (by destruct instrs).
    by rewrite (proj2 (Nat.eqb_neq union 0)) by lia.
  - intros Hk. split_and!; [by apply inter_size|by apply union_size_le|]. intros Hi.
    pose proof (jaccard_counts_sets _ _ Hk Hi) as Hs. rewrite Hj in Hs. by injection Hs.
Qed.

(** A repeated instruction counts twice, as in a Dockerfile that copies the same tree into
    two stages. *)
Lemma repeated_instruction_lowers keys instrs i :
  i ∉ keys → jaccard_counts keys (i :: i :: instrs) =
    (length (filter (.∈ (list_to_set (i :: instrs) : gset string)) keys),
     S (S (length keys + length (filter (.∉ (list_to_set keys : gset string)) instrs)))).
Proof.
  intros Hi. rewrite jaccard_counts_eq, !filter_cons, !decide_True by (by rewrite elem_of_list_to_set).
  f_equal; [|simpl; lia]. f_equal. apply list_filter_iff. intros x. set_solver.
Qed.

(** How far the replicas of one worker spread over the 64-bit circle: the arc
    lengths between consecutive hashes. *)
Definition arcs (hs : list Z) : list Z :=
  match merge_sort Z.le hs with
  | [] => []
  | h :: t => zip_with (λ a b, (b - a) mod 2 ^ 64)%Z (h :: t) (t ++ [h])
  end.

(** The 150 replicas of a worker that registers without cache keys do not spread:
    three arcs without any of its nodes cover 99.9% of the circle.  (FNV-1a mixes
    the last bytes of its input weakly, and the replica number comes last.) *)
Lemma replicas_clustered :
  let wide := filter (λ a, 2 ^ 64 ≤ 100 * a)%Z (arcs (hash <$> replicas "w2" [])) in
  length wide = 3 ∧ (999 * 2 ^ 64 ≤ 1000 * foldr Z.add 0 wide)%Z.
Proof. cbv zeta. split; [|apply Z.leb_le]; vm_compute; reflexivity. Qed.

(** ** Concrete runs *)

Section examples.
#[local] Existing Instance merge_sorter.

Definition two_workers : Scheduler :=
  sched_step (sched_step New (SRegister "w1" "idle" ["RUN make"])) (SIdle "w2" ["RUN test"]).

Lemma two_workers_reachable : sched_reachable two_workers.
Proof. repeat constructor. Qed.

Lemma two_workers_NoDup : NoDup (hash <$> ring two_workers).
Proof. refine (bool_decide_unpack _ _). vm_compute. exact I. Qed.

Lemma nginx_to_w2 : (AssignBuild two_workers "nginx").1 = ("w2", true).
Proof. vm_compute. reflexivity. Qed.

Lemma AssignBuild_clockwise_witness :
  AssignBuild two_workers "nginx" = AssignBuild_ref two_workers "nginx" ∧
  (AssignBuild two_workers "nginx").1 = ("w2", true).
Proof.
  split; [|exact nginx_to_w2]. apply AssignBuild_clockwise, two_workers_reachable.
Defined.

Lemma scheduler_invariant_witness : sched_wf two_workers.
Proof. apply scheduler_invariant, two_workers_reachable. Defined.

Lemma AssignBuild_complete_witness :
  ∃ ws, workers two_workers !! "w2" = Some ws ∧ ws_Status ws = "idle".
Proof.
  pose proof (AssignBuild_complete two_workers "nginx" two_workers_reachable) as H.
  destruct (AssignBuild two_workers "nginx") as [[w b] s'] eqn:E.
  assert ((w, b) = ("w2", true)) as [= -> ->].
  { change (w, b) with ((w, b, s').1). rewrite <- E. exact nginx_to_w2. }
  destruct H as (ws & Hw & Hi & _). exact (ex_intro _ ws (conj Hw Hi)).
Defined.

Lemma RemoveWorker_minimal_witness :
  (AssignBuild (RemoveWorker two_workers "w1") "nginx").1 = ("w2", true).
Proof.
  apply RemoveWorker_minimal; [apply two_workers_reachable|exact nginx_to_w2|done].
Defined.

Lemma RegisterWorker_minimal_witness :
  (AssignBuild (RegisterWorker two_workers "w3" "idle" []) "nginx").1 = ("w2", true) ∨
  (AssignBuild (RegisterWorker two_workers "w3" "idle" []) "nginx").1 = ("w3", true).
Proof.
  apply RegisterWorker_minimal;
    [apply two_workers_reachable|apply two_workers_NoDup|vm_compute; reflexivity|exact nginx_to_w2].
Defined.

Lemma MarkWorkerIdle_restores_witness :
  ring (MarkWorkerIdle (AssignBuild two_workers "nginx").2 "w2" ["RUN test"]) = ring two_workers.
Proof.
  refine (proj1 (MarkWorkerIdle_restores two_workers "nginx" "w2"
                   (mkWS "w2" "idle" ["RUN test"] 0) two_workers_reachable two_workers_NoDup nginx_to_w2 _)).
  vm_compute. reflexivity.
Defined.

Lemma ScoreBuildForWorker_jaccard_witness :
  ScoreBuildForWorker two_workers ["FROM alpine"; "RUN make"] "w1" = f64_half.
Proof.
  destruct (ScoreBuildForWorker_jaccard two_workers "w1" ["FROM alpine"; "RUN make"]) as [_ Hs].
  destruct Hs as [Hs _]; [vm_compute; discriminate..|]. rewrite Hs. vm_compute. reflexivity.
Defined.
End examples.
