(* ===== verification/Repo.v ===== *)
(** * internal/repo

    The PostgreSQL persistence ([repo.go]).  [DB] is the two tables; each method
    is the SQL text of the source read as an operation on them, under the
    repository's lock.  Instants are the RFC3339 texts the source writes, and SQL
    compares those texts.  What the program cannot see is an argument: the clock
    ([now]), the database's refusal of a statement ([fault], [None] when it
    executes), and the order in which SQL returns rows that its ORDER BY leaves
    equal ([Sorter]). *)

From S2P Require Import Prelude Float64 GoStrings GoSort GoJSON Domain GoTime.
From Stdlib Require Import SpecFloat.

(** ** The tables *)

Record BuildRow := mkBuildRow {
  r_id : string;
  r_status : string;
  r_fingerprint : string;
  r_worker_id : string;
  r_context_key : string;
  r_dockerfile : string;
  r_image_tag : string;
  r_args : string;
  r_logs : string;
  r_error : string;
  r_retry_count : Z;
  r_max_retries : Z;
  r_timeout_seconds : Z;
  r_instructions : string;
  r_user_id : string;
  r_priority : Z;
  r_cache_hit_rate : float64;
  r_created_at : string;
  r_updated_at : string;
  r_completed_at : option string;
}.

Record WorkerRow := mkWorkerRow {
  w_id : string;
  w_hostname : string;
  w_ip : string;
  w_status : string;
  w_last_heartbeat : string;
  w_cache_keys : string;
}.

Record DB := mkDB { builds : gmap string BuildRow; db_workers : gmap string WorkerRow }.

Definition empty_db : DB := mkDB ∅ ∅.

(** The database's refusal of a statement: [None] when it executes it. *)
Abbreviation fault := (option string) (only parsing).

Definition utc (now : time) : string := Format 0 now.

(** [UPDATE builds SET ... WHERE cond]: the new table and the rows affected. *)
Definition update_builds (cond : BuildRow → bool) (set : BuildRow → BuildRow) (db : DB) : DB :=
  mkDB ((λ r, if cond r then set r else r) <$> builds db) (db_workers db).

Definition affected (cond : BuildRow → bool) (db : DB) : nat :=
  size (filter (λ kr, cond kr.2 = true) (builds db)).

(** The columns the statements assign. *)
Definition set_row (st wid : option string) (log : string) (err : option string)
    (upd : string) (comp : option string) (r : BuildRow) : BuildRow :=
  mkBuildRow (r_id r) (default (r_status r) st) (r_fingerprint r) (default (r_worker_id r) wid)
    (r_context_key r) (r_dockerfile r) (r_image_tag r) (r_args r) (r_logs r +:+ log)
    (default (r_error r) err) (r_retry_count r) (r_max_retries r) (r_timeout_seconds r)
    (r_instructions r) (r_user_id r) (r_priority r) (r_cache_hit_rate r) (r_created_at r) upd
    (match comp with Some c => Some c | None => r_completed_at r end).

Section repo.
(** *** insertBuild *)

(** The values fit the INTEGER columns; the driver refuses the statement otherwise. *)
Definition int4 (z : Z) : bool := ((- 2 ^ 31 <=? z) && (z <? 2 ^ 31))%Z.
Definition int4_build (b : Build) : bool :=
  int4 (RetryCount b) && int4 (MaxRetries b) && int4 (TimeoutSeconds b) && int4 (Priority b).

Definition insertBuild (e : fault) (now : time) (db : DB) (b : Build) :
    result () * Build * DB :=
  let argsJSON := marshal_args (Args b) in
  let instrJSON := marshal_strings (Instructions b) in
  let b := mkBuild (ID b) (BStatus b) (BFingerprint b) (WorkerID b) (ContextKey b) (Dockerfile b)
             (ImageTag b) (Args b) (Instructions b) (Logs b) (BError b) (RetryCount b)
             (MaxRetries b) (TimeoutSeconds b) (UserID b) (Priority b) (CacheHitRate b)
             now now (CompletedAt b) in
  match e with
  | Some msg => (Err (EDriver msg), b, db)
  | None =>
      if negb (int4_build b) then (Err (EDriver "integer out of range"), b, db) else
      match builds db !! ID b with
      | Some _ => (Err (EDriver "duplicate key value violates unique constraint"), b, db)
      | None =>
          let row := mkBuildRow (ID b) (BStatus b) (BFingerprint b) (WorkerID b) (ContextKey b)
            (Dockerfile b) (ImageTag b) argsJSON "" "" (RetryCount b) (MaxRetries b)
            (TimeoutSeconds b) instrJSON (UserID b) (Priority b) (f64_via_real (CacheHitRate b))
            (utc (CreatedAt b)) (utc (UpdatedAt b)) None in
          (Ok (), b, mkDB (<[ID b := row]> (builds db)) (db_workers db))
      end
  end.

Definition Create (e : fault) (now : time) (db : DB) (b : Build) : result () * Build * DB :=
  insertBuild e now db b.

(** *** scanBuild *)

Definition parse_time (s : string) : time := default zero_time (Parse s).

Definition scanBuild (r : BuildRow) : Build :=
  let args := match unmarshal_args (r_args r) with Some a => a | None => None end in
  let args := match args with None => Some ∅ | Some a => Some a end in
  let instrs := default [] (unmarshal_strings (r_instructions r)) in
  mkBuild (r_id r) (r_status r) (r_fingerprint r) (r_worker_id r) (r_context_key r)
    (r_dockerfile r) (r_image_tag r) args instrs (r_logs r) (r_error r) (r_retry_count r)
    (r_max_retries r) (r_timeout_seconds r) (r_user_id r) (r_priority r) (r_cache_hit_rate r)
    (parse_time (r_created_at r)) (parse_time (r_updated_at r))
    (match r_completed_at r with Some c => Some (parse_time c) | None => None end).

Definition Get (e : fault) (db : DB) (id : string) : result Build :=
  match e with
  | Some msg => Err (EDriver msg)
  | None => match builds db !! id with
            | Some r => Ok (scanBuild r)
            | None => Err ENoRows
            end
  end.

(** *** Lists *)

(** ORDER BY created_at DESC, and ORDER BY priority DESC, created_at ASC. *)
Definition newest_first (a b : BuildRow) : Prop := String.le (r_created_at b) (r_created_at a).
Definition pending_order (a b : BuildRow) : Prop :=
  (r_priority b < r_priority a)%Z ∨
  (r_priority a = r_priority b ∧ String.le (r_created_at a) (r_created_at b)).

#[global] Instance newest_first_dec : RelDecision newest_first.
Proof. intros a b. unfold newest_first. apply _. Defined.
#[global] Instance newest_first_trans : Transitive newest_first.
Proof. intros a b c. unfold newest_first. intros. by etrans. Qed.
#[global] Instance newest_first_total : Total newest_first.
Proof. intros a b. apply (total String.le). Qed.

#[global] Instance pending_order_dec : RelDecision pending_order.
Proof. intros a b. unfold pending_order. apply _. Defined.
#[global] Instance pending_order_trans : Transitive pending_order.
Proof.
  intros a b c. unfold pending_order.
  intros [Hab|[Hab Hs]] [Hbc|[Hbc Ht]]; [left; lia|left; lia|left; lia|].
  right. split; [lia|]. by etrans.
Qed.
#[global] Instance pending_order_total : Total pending_order.
Proof.
  intros a b. unfold pending_order. pose proof (total String.le (r_created_at a) (r_created_at b)) as Ht.
  destruct (Z.lt_trichotomy (r_priority a) (r_priority b)) as [?|[?|?]]; [by auto| |by auto].
  destruct Ht; [left|right]; right; auto.
Qed.

Definition rows (db : DB) : list BuildRow := (map_to_list (builds db)).*2.

Definition listBuilds (e : fault) (rs : list BuildRow) : result (list Build) :=
  match e with
  | Some msg => Err (EDriver msg)
  | None => Ok (scanBuild <$> rs)
  end.

Definition List `{!Sorter newest_first} (e : fault) (db : DB) (limit : Z) : result (list Build) :=
  if (limit <? 0)%Z then Err (EDriver "LIMIT must not be negative")
  else listBuilds e (take (Z.to_nat limit) (Sort (rows db))).

Definition is_pending (r : BuildRow) : bool := String.eqb (r_status r) StatusPending.

Definition ListPending `{!Sorter pending_order} (e : fault) (db : DB) : result (list Build) :=
  listBuilds e (take 100 (Sort (filter (λ r, is_pending r = true) (rows db)))).

(** *** UpdateStatus *)

(** [status NOT IN ('succeeded','failed','cancelled','timed_out')] *)
Definition not_terminal (r : BuildRow) : bool := negb (IsTerminal (r_status r)).

Definition has_id (id : string) (r : BuildRow) : bool := String.eqb (r_id r) id.

(** The statement chosen for a status: its WHERE and its SET clause. *)
Definition update_stmt (now id : string) (status : Status) (workerID logLine errMsg : string) :
    (BuildRow → bool) * (BuildRow → BuildRow) :=
  if IsTerminal status then
    if String.eqb workerID "" then
      (λ r, has_id id r && not_terminal r,
       set_row (Some status) None logLine (Some errMsg) now (Some now))
    else
      (λ r, has_id id r && not_terminal r,
       set_row (Some status) (Some workerID) logLine (Some errMsg) now (Some now))
  else if String.eqb status StatusBuilding then
    (λ r, has_id id r && is_pending r,
     set_row (Some status) (Some workerID) logLine (Some errMsg) now None)
  else if String.eqb status "" then
    (λ r, has_id id r, set_row None None logLine None now None)
  else
    (λ r, has_id id r, set_row (Some status) (Some workerID) logLine (Some errMsg) now None).

Definition UpdateStatus (e : fault) (now : time) (db : DB)
    (id : string) (status : Status) (workerID logLine errMsg : string) : result () * DB :=
  let '(cond, set) := update_stmt (utc now) id status workerID logLine errMsg in
  match e with
  | Some msg => (Err (EDriver msg), db)
  | None =>
      let n := affected cond db in
      let db' := update_builds cond set db in
      if String.eqb status StatusBuilding && (n =? 0)
      then (Err (EErrorf "build already claimed or not pending"), db')
      else (Ok (), db')
  end.

(** *** Counts *)

Definition count (e : fault) (cond : BuildRow → bool) (db : DB) : result Z :=
  match e with
  | Some msg => Err (EDriver msg)
  | None => Ok (Z.of_nat (affected cond db))
  end.

Definition CountPending (e : fault) (db : DB) : result Z := count e is_pending db.

Definition CountAll (e : fault) (db : DB) : result Z := count e (λ _, true) db.

Definition CountUserBuilding (e : fault) (db : DB) (userID : string) : result Z :=
  count e (λ r, String.eqb (r_status r) StatusBuilding && String.eqb (r_user_id r) userID) db.

Definition CountUserDaily (e : fault) (now : time) (db : DB) (userID : string) : result Z :=
  let today := utc (TruncateDay now) in
  count e (λ r, String.eqb (r_user_id r) userID && negb (String.ltb (r_created_at r) today)) db.

(** *** ReassignStale *)

Definition is_building (r : BuildRow) : bool := String.eqb (r_status r) StatusBuilding.

(** [EXTRACT(EPOCH FROM s::timestamptz)], in seconds. *)
Definition epoch (s : string) : option Z := unix <$> Parse s.

Definition timed_out (nowStr : string) (r : BuildRow) : bool :=
  is_building r &&
  match epoch nowStr, epoch (r_updated_at r) with
  | Some n, Some u => (r_timeout_seconds r <? n - u)%Z
  | _, _ => false
  end.

(** The cast fails, and with it the statement, on a text that is no timestamp. *)
Definition casts (nowStr : string) (db : DB) : bool :=
  bool_decide (is_Some (epoch nowStr)) &&
  bool_decide (map_Forall (λ _ r, is_building r = true → is_Some (epoch (r_updated_at r))) (builds db)).

Definition stale_worker (cutoff : string) (db : DB) (id : string) : bool :=
  match db_workers db !! id with
  | Some w => String.ltb (w_last_heartbeat w) cutoff
  | None => false
  end.

Definition ReassignStale (e1 e2 : fault) (now : time) (db : DB)
    (workerTimeout buildTimeout : duration) : result () * DB :=
  let nowStr := utc now in
  let cutoff := utc (now - workerTimeout) in
  match e1 with
  | Some msg => (Err (EDriver msg), db)
  | None =>
      if negb (casts nowStr db) then (Err (EDriver "invalid input syntax for type timestamp"), db)
      else
        let db := update_builds (timed_out nowStr)
          (λ r, set_row (Some StatusTimedOut) None "" (Some "build timed out") nowStr (Some nowStr) r) db in
        match e2 with
        | Some msg => (Err (EDriver msg), db)
        | None =>
            (Ok (), update_builds (λ r, is_building r && stale_worker cutoff db (r_worker_id r))
                      (set_row (Some StatusPending) (Some "") "" None nowStr None) db)
        end
  end.

(** *** GC, SetCacheRate *)

Definition collectable (before : string) (r : BuildRow) : bool :=
  IsTerminal (r_status r) &&
  match r_completed_at r with Some c => String.ltb c before | None => false end.

(** [before] is formatted in its own zone, [off] seconds east of UTC. *)
Definition GC (e : fault) (db : DB) (off : Z) (before : time) : result Z * DB :=
  match e with
  | Some msg => (Err (EDriver msg), db)
  | None =>
      let cond := collectable (Format off before) in
      (Ok (Z.of_nat (affected cond db)),
       mkDB (filter (λ kr, cond kr.2 = false) (builds db)) (db_workers db))
  end.

Definition SetCacheRate (e : fault) (db : DB) (id : string) (rate : float64) : result () * DB :=
  match e with
  | Some msg => (Err (EDriver msg), db)
  | None =>
      (Ok (), update_builds (has_id id) (λ r,
        mkBuildRow (r_id r) (r_status r) (r_fingerprint r) (r_worker_id r) (r_context_key r)
          (r_dockerfile r) (r_image_tag r) (r_args r) (r_logs r) (r_error r) (r_retry_count r)
          (r_max_retries r) (r_timeout_seconds r) (r_instructions r) (r_user_id r) (r_priority r)
          (f64_via_real rate) (r_created_at r) (r_updated_at r) (r_completed_at r)) db)
  end.

(** ** Workers *)

Definition Upsert (e : fault) (now : time) (db : DB) (w : Worker) : result () * Worker * DB :=
  let cacheJSON := marshal_strings (CacheKeys w) in
  let w := mkWorker (Worker_ID w) (Hostname w) (IP w) (Worker_Status w) now (CacheKeys w) in
  match e with
  | Some msg => (Err (EDriver msg), w, db)
  | None =>
      let row := mkWorkerRow (Worker_ID w) (Hostname w) (IP w) (Worker_Status w) (utc now) cacheJSON in
      (Ok (), w, mkDB (builds db) (<[Worker_ID w := row]> (db_workers db)))
  end.

Definition CountActive (e : fault) (now : time) (db : DB) (maxAge : duration) : result Z :=
  let cutoff := utc (now - maxAge) in
  match e with
  | Some msg => Err (EDriver msg)
  | None => Ok (Z.of_nat (size (filter (λ kw : string * WorkerRow,
              String.ltb cutoff (w_last_heartbeat kw.2) = true ∧ w_status kw.2 ≠ "offline")
              (db_workers db))))
  end.

Definition MarkOffline (e : fault) (now : time) (db : DB) (maxAge : duration) : result () * DB :=
  let cutoff := utc (now - maxAge) in
  match e with
  | Some msg => (Err (EDriver msg), db)
  | None =>
      (Ok (), mkDB (builds db) ((λ w,
        if String.ltb (w_last_heartbeat w) cutoff && negb (String.eqb (w_status w) "offline")
        then mkWorkerRow (w_id w) (w_hostname w) (w_ip w) "offline" (w_last_heartbeat w) (w_cache_keys w)
        else w) <$> db_workers db))
  end.

(** ** Steps *)

(** The methods that change the tables. *)
Inductive repo_op :=
  | RCreate (e : fault) (now : time) (b : Build)
  | RUpdate (e : fault) (now : time) (id : string) (status : Status) (workerID logLine errMsg : string)
  | RReassign (e1 e2 : fault) (now : time) (workerTimeout buildTimeout : duration)
  | RGC (e : fault) (off : Z) (before : time)
  | RRate (e : fault) (id : string) (rate : float64)
  | RUpsert (e : fault) (now : time) (w : Worker)
  | RMarkOffline (e : fault) (now : time) (maxAge : duration).

Definition repo_step (db : DB) (op : repo_op) : DB :=
  match op with
  | RCreate e now b => (Create e now db b).2
  | RUpdate e now id st w l m => (UpdateStatus e now db id st w l m).2
  | RReassign e1 e2 now wt bt => (ReassignStale e1 e2 now db wt bt).2
  | RGC e off before => (GC e db off before).2
  | RRate e id rate => (SetCacheRate e db id rate).2
  | RUpsert e now w => (Upsert e now db w).2
  | RMarkOffline e now maxAge => (MarkOffline e now db maxAge).2
  end.

(** The calls that are made: builds are created pending (SubmitBuild), and clocks are
    between 1970 and 9999.  The status written is any text, as it comes from the request
    that completes a build. *)
Definition call_ok (op : repo_op) : Prop :=
  match op with
  | RCreate _ now b => modern now ∧ BStatus b = StatusPending
  | RUpdate _ now _ _ _ _ _ => modern now
  | RReassign _ _ now _ _ => modern now
  | RUpsert _ now _ => modern now
  | _ => True
  end.

(** The calls whose status is empty (a log line), building or terminal: all of them but
    the completions with another status, which the handler does not refuse. *)
Definition service_op (op : repo_op) : Prop :=
  call_ok op ∧ match op with RUpdate _ _ _ st _ _ _ => named st | _ => True end.

Inductive reachable_by (ok : repo_op → Prop) : DB → Prop :=
  | repo_init : reachable_by ok empty_db
  | repo_next db op : reachable_by ok db → ok op → reachable_by ok (repo_step db op).

Definition repo_reachable : DB → Prop := reachable_by call_ok.
Definition service_reachable : DB → Prop := reachable_by service_op.

Lemma service_call op : service_op op → call_ok op.
Proof. by intros [? _]. Qed.

Lemma service_reachable_calls db : service_reachable db → repo_reachable db.
Proof. induction 1; [constructor|]. constructor; [done|by apply service_call]. Qed.

(** ** The invariant *)

Definition is_utc (s : string) : Prop := ∃ t, modern t ∧ s = utc t.

Record row_wf (id : string) (r : BuildRow) : Prop := {
  row_key : r_id r = id;
  row_priority : int4 (r_priority r) = true;
  row_created : is_utc (r_created_at r);
  row_updated : is_utc (r_updated_at r);
  row_completed : match r_completed_at r with
                  | Some c => is_utc c
                  | None => IsTerminal (r_status r) = false
                  end;
}.

(** Only finished builds have a completion time. *)
Definition row_done (r : BuildRow) : Prop := is_Some (r_completed_at r) → IsTerminal (r_status r) = true.

Record worker_row_wf (id : string) (w : WorkerRow) : Prop := {
  wrow_key : w_id w = id;
  wrow_heartbeat : is_utc (w_last_heartbeat w);
}.

Record db_wf (db : DB) : Prop := {
  wf_builds : map_Forall row_wf (builds db);
  wf_workers : map_Forall worker_row_wf (db_workers db);
}.

Definition db_done (db : DB) : Prop := map_Forall (λ _, row_done) (builds db).

Lemma lookup_update cond set db id :
  builds (update_builds cond set db) !! id =
  (λ r, if cond r then set r else r) <$> builds db !! id.
Proof. apply lookup_fmap. Qed.

Lemma update_none cond set db :
  (∀ k r, builds db !! k = Some r → cond r = false) → update_builds cond set db = db.
Proof.
  intros Hc. destruct db as [bs ws]. unfold update_builds. simpl in *. f_equal.
  apply map_eq. intros k. rewrite lookup_fmap. destruct (bs !! k) as [r|] eqn:E; [|done].
  simpl. by rewrite (Hc k r E).
Qed.

Lemma update_builds_wf cond set db :
  db_wf db → (∀ id r, row_wf id r → cond r = true → row_wf id (set r)) →
  db_wf (update_builds cond set db).
Proof.
  intros [Hb Hw] Hset. split; [|done]. intros id r. rewrite lookup_update.
  destruct (builds db !! id) as [r0|] eqn:E; [|done]. simpl. intros [= <-].
  specialize (Hb id r0 E). destruct (cond r0) eqn:Ec; auto.
Qed.

(** How a status may change in one step. *)
Inductive may_move : Status → Status → Prop :=
  | move_stay s : may_move s s
  | move_claim : may_move StatusPending StatusBuilding
  | move_finish s t : IsTerminal s = false → IsTerminal t = true → may_move s t
  | move_requeue : may_move StatusBuilding StatusPending.

(** Each statement of UpdateStatus keeps rows well formed; those for a named status move
    them along, and give a completion time to finished builds only. *)
Lemma update_stmt_wf now id st w l m k r :
  modern now → row_wf k r →
  let '(cond, set) := update_stmt (utc now) id st w l m in
  cond r = true → row_wf k (set r).
Proof.
  intros Hnow [Hk Hp4 Hc Hu Hcomp]. unfold update_stmt.
  assert (is_utc (utc now)) as Hutc by by exists now.
  assert (IsTerminal st = false →
    match r_completed_at r with Some c => is_utc c | None => IsTerminal st = false end) as Hcomp'
    by (by destruct (r_completed_at r)).
  destruct (IsTerminal st) eqn:Et; [destruct (String.eqb w ""); by split|].
  destruct (String.eqb st StatusBuilding) eqn:Eb; [|destruct (String.eqb st "") eqn:Ez]; intros _.
  - split; simpl; auto. apply String.eqb_eq in Eb as ->. by destruct (r_completed_at r).
  - by split.
  - split; simpl; auto. by destruct (r_completed_at r).
Qed.

Lemma update_stmt_moves now id st w l m r :
  named st → row_done r →
  let '(cond, set) := update_stmt now id st w l m in
  cond r = true → may_move (r_status r) (r_status (set r)) ∧ row_done (set r).
Proof.
  intros Hst Hd. unfold update_stmt, row_done in *. destruct (IsTerminal st) eqn:Et.
  - destruct (String.eqb w ""); intros [_ Hnt]%andb_true_iff; apply negb_true_iff in Hnt.
    all: split; [by apply move_finish|done].
  - destruct Hst as [->|[->|?]]; [| |congruence]; simpl.
    + intros _. split; [constructor|done].
    + intros [_ Hp%String.eqb_eq]%andb_true_iff. rewrite Hp in *. split; [constructor|].
      intros Hs. by apply Hd in Hs.
Qed.

Lemma UpdateStatus_wf e now db id st w l m :
  modern now → db_wf db → db_wf (UpdateStatus e now db id st w l m).2.
Proof.
  intros Hnow Hdb. unfold UpdateStatus.
  pose proof (update_stmt_wf now id st w l m) as Hok.
  destruct (update_stmt _ _ _ _ _ _) as [cond set].
  assert (db_wf (update_builds cond set db)).
  { apply update_builds_wf; [done|]. intros k r Hr Hc. by apply (Hok k r). }
  destruct e; [done|]. by destruct (_ && _).
Qed.

Lemma update_builds_done cond set db :
  db_done db → (∀ r, row_done r → cond r = true → row_done (set r)) → db_done (update_builds cond set db).
Proof.
  intros Hd Hset id r. rewrite lookup_update. destruct (builds db !! id) as [r0|] eqn:E; [|done]. simpl.
  intros [= <-]. specialize (Hd id r0 E). destruct (cond r0) eqn:Ec; auto.
Qed.

Lemma UpdateStatus_done e now db id st w l m :
  named st → db_done db → db_done (UpdateStatus e now db id st w l m).2.
Proof.
  intros Hst Hd. unfold UpdateStatus. pose proof (update_stmt_moves (utc now) id st w l m) as Hok.
  destruct (update_stmt _ _ _ _ _ _) as [cond set].
  assert (db_done (update_builds cond set db)).
  { apply update_builds_done; [done|]. intros r Hr Hc. by apply Hok. }
  destruct e; [done|]. by destruct (_ && _).
Qed.

(** The two statements of ReassignStale. *)
Definition reassign1 (now : time) (db : DB) : DB :=
  update_builds (timed_out (utc now))
    (set_row (Some StatusTimedOut) None "" (Some "build timed out") (utc now) (Some (utc now))) db.
Definition reassign2 (now : time) (cutoff : string) (db : DB) : DB :=
  update_builds (λ r, is_building r && stale_worker cutoff db (r_worker_id r))
    (set_row (Some StatusPending) (Some "") "" None (utc now) None) db.

Lemma is_building_status r : is_building r = true → r_status r = StatusBuilding.
Proof. apply String.eqb_eq. Qed.

Lemma timed_out_ok now k r :
  modern now → row_wf k r → timed_out (utc now) r = true →
  row_wf k (set_row (Some StatusTimedOut) None "" (Some "build timed out") (utc now) (Some (utc now)) r) ∧
  may_move (r_status r) StatusTimedOut.
Proof.
  intros Hnow [Hk Hp4 Hc Hu Hcomp] [Hb%is_building_status _]%andb_true_iff.
  assert (is_utc (utc now)) by by exists now. rewrite Hb. split; [by split|]. by apply move_finish.
Qed.

Lemma requeue_ok now cutoff db k r :
  modern now → row_wf k r → is_building r && stale_worker cutoff db (r_worker_id r) = true →
  row_wf k (set_row (Some StatusPending) (Some "") "" None (utc now) None r) ∧
  may_move (r_status r) StatusPending.
Proof.
  intros Hnow [Hk Hp4 Hc Hu Hcomp] [Hb%is_building_status _]%andb_true_iff.
  assert (is_utc (utc now)) by by exists now. rewrite Hb in *. split; [|apply move_requeue].
  split; simpl; auto.
Qed.

Lemma reassign1_wf now db : modern now → db_wf db → db_wf (reassign1 now db).
Proof. intros Hn Hdb. apply update_builds_wf; [done|]. intros k r Hr Hc. by eapply timed_out_ok. Qed.

Lemma reassign2_wf now cutoff db : modern now → db_wf db → db_wf (reassign2 now cutoff db).
Proof. intros Hn Hdb. apply update_builds_wf; [done|]. intros k r Hr Hc. by eapply requeue_ok. Qed.

(** In a well-formed database the casts of ReassignStale succeed. *)
Lemma epoch_utc t : modern t → epoch (utc t) = Some (unix t).
Proof.
  intros Ht. unfold epoch, utc. rewrite Parse_Format by by apply modern_four_digit.
  cbn [fmap option_fmap option_map]. unfold unix at 1. by rewrite Z.div_mul.
Qed.

Lemma casts_wf now db : modern now → db_wf db → casts (utc now) db = true.
Proof.
  intros Hn [Hb _]. unfold casts. rewrite epoch_utc by done.
  rewrite bool_decide_true by by eexists. simpl. apply bool_decide_eq_true.
  intros k r Hr _. destruct (row_updated _ _ (Hb k r Hr)) as (t & Ht & ->).
  rewrite epoch_utc by done. by eexists.
Qed.

Lemma ReassignStale_eq e1 e2 now db wt bt :
  modern now → db_wf db →
  ReassignStale e1 e2 now db wt bt =
  match e1, e2 with
  | Some msg, _ => (Err (EDriver msg), db)
  | None, Some msg => (Err (EDriver msg), reassign1 now db)
  | None, None => (Ok (), reassign2 now (utc (now - wt)) (reassign1 now db))
  end.
Proof. intros Hn Hdb. unfold ReassignStale. by rewrite casts_wf. Qed.

Lemma repo_step_wf db op : call_ok op → db_wf db → db_wf (repo_step db op).
Proof.
  intros Hop Hdb. pose proof Hdb as [Hb Hw].
  destruct op as [e now b|e now id st w l m|e1 e2 now wt bt|e off before|e id rate|e now w|e now ma];
    simpl in *.
  - destruct Hop as [Hn Hs]. unfold Create, insertBuild. destruct e; [done|]. simpl.
    unfold int4_build. cbn [RetryCount MaxRetries TimeoutSeconds Priority].
    destruct (_ && int4 (Priority b)) eqn:E4; simpl; [|done].
    apply andb_true_iff in E4 as [_ E4]. destruct (builds db !! ID b) eqn:E; [done|]. split; [|done]. simpl.
    apply map_Forall_insert_2; [|done].
    assert (is_utc (utc now)) by by exists now. split; simpl; auto. by rewrite Hs.
  - by apply UpdateStatus_wf.
  - rewrite ReassignStale_eq by done. destruct e1, e2; simpl; auto using reassign1_wf, reassign2_wf.
  - destruct e; [done|]. split; [|done]. simpl. intros k r [Hr _]%map_lookup_filter_Some. by apply Hb.
  - destruct e; [done|]. apply update_builds_wf; [done|]. by intros k r [] _.
  - destruct e; [done|]. split; [done|]. simpl. apply map_Forall_insert_2; [|done].
    split; [done|]. by exists now.
  - destruct e; [done|]. split; [done|]. simpl. intros k w'. rewrite lookup_fmap.
    destruct (db_workers db !! k) as [w0|] eqn:E; [|done]. simpl. intros [= <-].
    destruct (Hw k w0 E) as [Hk Hh]. by destruct (_ && _).
Qed.

Lemma repo_reachable_wf db : repo_reachable db → db_wf db.
Proof. induction 1; [by split; apply map_Forall_empty|by apply repo_step_wf]. Qed.

Lemma repo_step_done db op : service_op op → db_wf db → db_done db → db_done (repo_step db op).
Proof.
  intros [Hop Hst] Hdb Hd.
  destruct op as [e now b|e now id st w l m|e1 e2 now wt bt|e off before|e id rate|e now w|e now ma];
    simpl in *.
  - unfold Create, insertBuild. destruct e; [done|]. simpl. destruct (negb _); [done|].
    destruct (builds db !! ID b) eqn:E; [done|]. simpl. apply map_Forall_insert_2; [|done]. by intros [? ?].
  - by apply UpdateStatus_done.
  - assert (db_done (reassign1 now db)) as H1 by (by apply update_builds_done).
    rewrite ReassignStale_eq by done. destruct e1, e2; simpl; [done..| |]; [done|].
    apply update_builds_done; [done|]. intros r Hr [Hb%is_building_status _]%andb_true_iff.
    unfold row_done in *. rewrite Hb in Hr. exact Hr.
  - destruct e; [done|]. simpl. intros k r [Hr _]%map_lookup_filter_Some. by apply Hd in Hr.
  - destruct e; [done|]. apply update_builds_done; [done|]. by intros r Hr _.
  - by destruct e.
  - by destruct e.
Qed.

Lemma service_reachable_wf db : service_reachable db → db_wf db ∧ db_done db.
Proof.
  induction 1 as [|db op _ [Hdb Hd] Hop]; [split; [by apply repo_reachable_wf; constructor|apply map_Forall_empty]|].
  split; [by apply repo_step_wf, Hdb; apply service_call|by apply repo_step_done].
Qed.

(** ** The life of a row *)

(** The columns no statement but INSERT writes. *)
Definition submitted (r : BuildRow) :=
  (r_id r, r_fingerprint r, r_context_key r, r_dockerfile r, r_image_tag r, r_args r,
   r_retry_count r, r_max_retries r, r_timeout_seconds r, r_instructions r, r_user_id r,
   r_priority r, r_created_at r).

(** One step of a row: what was submitted stays, logs only grow, the status moves
    along [may_move], and the outcome of a finished build is final. *)
Record row_evolves (r r' : BuildRow) : Prop := {
  ev_submitted : submitted r' = submitted r;
  ev_logs : ∃ l, r_logs r' = r_logs r +:+ l;
  ev_move : may_move (r_status r) (r_status r');
  ev_final : IsTerminal (r_status r) = true →
    r_status r' = r_status r ∧ r_worker_id r' = r_worker_id r ∧ r_error r' = r_error r ∧
    r_completed_at r' = r_completed_at r;
}.

Lemma row_evolves_refl r : row_evolves r r.
Proof. split; [done|exists ""; by rewrite str_app_nil_r|constructor|done]. Qed.

Lemma set_row_evolves st w l m upd comp r :
  may_move (r_status r) (default (r_status r) st) →
  (IsTerminal (r_status r) = true → st = None ∧ w = None ∧ m = None ∧ comp = None) →
  row_evolves r (set_row st w l m upd comp r).
Proof.
  intros Hm Hf. split; [done|by exists l|done|]. intros Ht. by destruct (Hf Ht) as (-> & -> & -> & ->).
Qed.

(** The statement for a status that is neither named nor empty has no guard. *)
Definition forced (op : repo_op) (r r' : BuildRow) : Prop :=
  ∃ now st w l m, op = RUpdate None now (r_id r) st w l m ∧ ¬ named st ∧
    r' = set_row (Some st) (Some w) l (Some m) (utc now) None r.

Lemma update_stmt_evolves now id st w l m r :
  let '(cond, set) := update_stmt (utc now) id st w l m in
  row_evolves r (if cond r then set r else r) ∨
  has_id id r = true ∧ ¬ named st ∧
    (if cond r then set r else r) = set_row (Some st) (Some w) l (Some m) (utc now) None r.
Proof.
  unfold update_stmt. destruct (IsTerminal st) eqn:Et.
  - destruct (String.eqb w ""); left; destruct (_ && _) eqn:E; auto using row_evolves_refl.
    all: apply andb_true_iff in E as [_ E%negb_true_iff].
    all: apply set_row_evolves; [by apply move_finish|congruence].
  - destruct (String.eqb_spec st StatusBuilding) as [->|Hb]; [|destruct (String.eqb_spec st "") as [->|Hz]].
    + left. destruct (_ && _) eqn:E; [|apply row_evolves_refl].
      apply andb_true_iff in E as [_ Hp%String.eqb_eq]. apply set_row_evolves; rewrite Hp; [constructor|done].
    + left. destruct (has_id id r); [|apply row_evolves_refl]. apply set_row_evolves; [constructor|done].
    + destruct (has_id id r) eqn:Ei; [|left; apply row_evolves_refl]. right. split_and!; [done| |done].
      intros [?|[?|?]]; congruence.
Qed.

Lemma reassign1_row now db id r :
  modern now → db_wf db → builds db !! id = Some r →
  ∃ r', builds (reassign1 now db) !! id = Some r' ∧ row_evolves r r' ∧
        (r' = r ∨ r_status r' = StatusTimedOut).
Proof.
  intros Hn [Hb _] Hr. unfold reassign1. rewrite lookup_update, Hr. simpl. eexists. split; [done|].
  destruct (timed_out _ r) eqn:E; [|split; [apply row_evolves_refl|by left]].
  split; [|by right]. destruct (timed_out_ok now id r) as [_ Hm]; auto.
  apply set_row_evolves; [done|]. apply andb_true_iff in E as [->%is_building_status _]. done.
Qed.

Lemma reassign2_row now cutoff db id r :
  modern now → db_wf db → builds db !! id = Some r →
  ∃ r', builds (reassign2 now cutoff db) !! id = Some r' ∧ row_evolves r r' ∧
        (r' = r ∨ r_status r = StatusBuilding).
Proof.
  intros Hn [Hb _] Hr. unfold reassign2. rewrite lookup_update, Hr. simpl. eexists. split; [done|].
  destruct (_ && _) eqn:E; [|split; [apply row_evolves_refl|by left]].
  destruct (requeue_ok now cutoff db id r) as [_ Hm]; auto.
  apply andb_true_iff in E as [Hs%is_building_status _]. split; [|by right].
  apply set_row_evolves; [done|]. by rewrite Hs.
Qed.

Lemma ReassignStale_row e1 e2 now db wt bt id r :
  modern now → db_wf db → builds db !! id = Some r →
  ∃ r', builds (ReassignStale e1 e2 now db wt bt).2 !! id = Some r' ∧ row_evolves r r'.
Proof.
  intros Hn Hdb Hr. rewrite ReassignStale_eq by done.
  destruct e1; simpl; [exists r; split; [done|apply row_evolves_refl]|].
  destruct (reassign1_row now db id r) as (r1 & Hr1 & He1 & Hs1); [done..|].
  destruct e2; simpl; [by exists r1|].
  destruct (reassign2_row now (utc (now - wt)) (reassign1 now db) id r1) as (r2 & Hr2 & He2 & Hs2);
    auto using reassign1_wf.
  exists r2. split; [done|]. destruct Hs1 as [->|Hs1]; [done|].
  destruct Hs2 as [->|Hs2]; [done|]. rewrite Hs1 in Hs2. done.
Qed.

Lemma ReassignStale_absent e1 e2 now db wt bt id :
  builds db !! id = None → builds (ReassignStale e1 e2 now db wt bt).2 !! id = None.
Proof.
  intros Hn. unfold ReassignStale. destruct e1; [done|]. destruct (negb _); [done|].
  destruct e2; simpl; rewrite !lookup_fmap, Hn; done.
Qed.

(** Every step on every row. *)
Lemma repo_step_row db op id r :
  db_wf db → call_ok op → builds db !! id = Some r →
  match builds (repo_step db op) !! id with
  | Some r' => row_evolves r r' ∨ forced op r r'
  | None => IsTerminal (r_status r) = true ∧ ∃ off before, op = RGC None off before
  end.
Proof.
  intros Hdb Hop Hr. pose proof Hdb as [Hb _].
  destruct op as [e now b|e now i st w l m|e1 e2 now wt bt|e off before|e i rate|e now w|e now ma];
    simpl in *.
  - unfold Create, insertBuild. destruct e; simpl; [rewrite Hr; left; apply row_evolves_refl|].
    destruct (negb _); simpl; [rewrite Hr; left; apply row_evolves_refl|].
    destruct (builds db !! ID b) eqn:E; simpl; [rewrite Hr; left; apply row_evolves_refl|].
    rewrite lookup_insert_ne by congruence. rewrite Hr. left. apply row_evolves_refl.
  - unfold UpdateStatus. pose proof (update_stmt_evolves now i st w l m r) as He.
    destruct (update_stmt _ _ _ _ _ _) as [cond set].
    destruct e; cbn [snd]; [rewrite Hr; left; apply row_evolves_refl|].
    assert (builds (update_builds cond set db) !! id = Some (if cond r then set r else r)) as Hu
      by by rewrite lookup_update, Hr.
    destruct (_ && _); cbn [snd]; rewrite Hu; (destruct He as [He|(Hi%String.eqb_eq & Hst & ->)]; [by left|]);
      right; exists now, st, w, l, m; by rewrite <- Hi.
  - destruct (ReassignStale_row e1 e2 now db wt bt id r) as (r' & -> & He); auto.
  - destruct e; simpl; [rewrite Hr; left; apply row_evolves_refl|].
    destruct (collectable (Format off before) r) eqn:Ec.
    + rewrite (proj2 (map_lookup_filter_None _ _ _)).
      * split; [by apply andb_true_iff in Ec as [? _]|eauto].
      * right. intros r0 Hr0. simpl. congruence.
    + rewrite (proj2 (map_lookup_filter_Some _ _ _ _) (conj Hr Ec)). left. apply row_evolves_refl.
  - destruct e; simpl; [rewrite Hr; left; apply row_evolves_refl|].
    rewrite lookup_fmap, Hr. simpl. left. destruct (has_id i r); [|apply row_evolves_refl].
    split; [done|exists ""; by rewrite str_app_nil_r|constructor|done].
  - destruct e; simpl; rewrite Hr; left; apply row_evolves_refl.
  - destruct e; simpl; rewrite Hr; left; apply row_evolves_refl.
Qed.

(** ** Claims *)

Definition pending_at (db : DB) (id : string) : bool :=
  match builds db !! id with Some r => is_pending r | None => false end.

Lemma affected_id cond db id :
  db_wf db →
  affected (λ r, has_id id r && cond r) db =
  match builds db !! id with Some r => if cond r then 1 else 0 | None => 0 end.
Proof.
  intros [Hb _]. unfold affected.
  assert (filter (λ kr : string * BuildRow, has_id id kr.2 && cond kr.2 = true) (builds db) =
    match builds db !! id with
    | Some r => if cond r then {[id := r]} else ∅ | None => ∅ end) as ->.
  { apply map_eq. intros k. apply option_eq. intros r. rewrite map_lookup_filter_Some. simpl.
    rewrite andb_true_iff. unfold has_id. rewrite String.eqb_eq. split.
    - intros (Hk & Hid & Hc). rewrite (row_key _ _ (Hb k r Hk)) in Hid. subst k. rewrite Hk, Hc.
      by rewrite lookup_singleton_eq.
    - destruct (builds db !! id) as [r0|] eqn:E; [|by rewrite lookup_empty].
      destruct (cond r0) eqn:Ec; [|by rewrite lookup_empty].
      rewrite lookup_singleton_Some. intros [<- <-]. split_and!; [done| |done].
      apply (row_key _ _ (Hb id r0 E)). }
  destruct (builds db !! id) as [r|]; [|done]. destruct (cond r); [|done]. by rewrite map_size_singleton.
Qed.

(** A claim succeeds exactly on a pending build, which is then building for the
    claiming worker; a refused claim changes nothing. *)
Lemma claim_spec now db id w l m :
  db_wf db →
  let '(res, db') := UpdateStatus None now db id StatusBuilding w l m in
  if pending_at db id then
    res = Ok () ∧ ∃ r, builds db !! id = Some r ∧
      db' = mkDB (<[id := set_row (Some StatusBuilding) (Some w) l (Some m) (utc now) None r]> (builds db))
                 (db_workers db)
  else res = Err (EErrorf "build already claimed or not pending") ∧ db' = db.
Proof.
  intros Hdb. unfold UpdateStatus. cbn [update_stmt]. change (IsTerminal StatusBuilding) with false.
  cbn [String.eqb]. unfold update_stmt. simpl.
  rewrite affected_id by done. unfold pending_at. pose proof Hdb as [Hb _].
  assert (∀ k r, builds db !! k = Some r → has_id id r = true → k = id) as Hid.
  { intros k r Hk Hi%String.eqb_eq. rewrite <- (row_key _ _ (Hb k r Hk)). done. }
  destruct (builds db !! id) as [r|] eqn:E; [destruct (is_pending r) eqn:Ep|]; simpl.
  - split; [done|]. exists r. split; [done|]. unfold update_builds. f_equal. apply map_eq. intros k.
    rewrite lookup_fmap, lookup_insert. case_decide as Hk.
    + subst k. rewrite E. simpl. unfold has_id. rewrite (row_key _ _ (Hb id r E)), String.eqb_refl, Ep. done.
    + destruct (builds db !! k) as [r'|] eqn:E'; [|done]. simpl.
      destruct (has_id id r') eqn:Ei; [|done]. by rewrite (Hid k r' E' Ei) in Hk.
  - split; [done|]. apply update_none. intros k r' Hk.
    destruct (has_id id r') eqn:Ei; [|done]. rewrite (Hid k r' Hk Ei) in Hk. simplify_eq/=. done.
  - split; [done|]. apply update_none. intros k r' Hk.
    destruct (has_id id r') eqn:Ei; [|done]. rewrite (Hid k r' Hk Ei) in Hk. congruence.
Qed.

(** The step hands the build out: a claim of it that returns without error. *)
Definition hands_out (id : string) (db : DB) (op : repo_op) : bool :=
  match op with
  | RUpdate e now i st w l m =>
      String.eqb i id && String.eqb st StatusBuilding &&
      bool_decide ((UpdateStatus e now db i st w l m).1 = Ok ())
  | _ => false
  end.

(** The step makes the build available: it creates it, it takes it back from a worker,
    or it writes the status pending outright. *)
Definition offers (id : string) (db : DB) (op : repo_op) : bool :=
  match op with
  | RCreate e now b =>
      String.eqb (ID b) id && bool_decide ((Create e now db b).1.1 = Ok ())
  | RReassign _ _ _ _ _ =>
      match builds db !! id with Some r => is_building r | None => false end &&
      pending_at (repo_step db op) id
  | RUpdate e now i st w l m =>
      String.eqb i id && String.eqb st StatusPending &&
      bool_decide ((UpdateStatus e now db i st w l m).1 = Ok ())
  | _ => false
  end.

Fixpoint count_steps (f : DB → repo_op → bool) (db : DB) (ops : list repo_op) : nat :=
  match ops with
  | [] => 0
  | op :: ops => (if f db op then 1 else 0) + count_steps f (repo_step db op) ops
  end.

Definition repo_steps (db : DB) (ops : list repo_op) : DB := foldl repo_step db ops.

Lemma hands_out_step id db op :
  db_wf db → hands_out id db op = true →
  pending_at db id = true ∧ pending_at (repo_step db op) id = false.
Proof.
  intros Hdb. destruct op as [| e now i st w l m| | | | |]; try done. simpl.
  intros [[->%String.eqb_eq ->%String.eqb_eq]%andb_true_iff Hres%bool_decide_eq_true]%andb_true_iff.
  destruct e; [unfold UpdateStatus in Hres; by destruct (update_stmt _ _ _ _ _ _)|].
  pose proof (claim_spec now db id w l m Hdb) as Hc.
  destruct (UpdateStatus None now db id StatusBuilding w l m) as [res db'].
  destruct (pending_at db id); [|destruct Hc; simpl in *; congruence].
  split; [done|]. destruct Hc as (_ & r & _ & ->). unfold pending_at. simpl.
  by rewrite lookup_insert_eq.
Qed.

Lemma UpdateStatus_absent e now db id i st w l m :
  builds db !! id = None → builds (UpdateStatus e now db i st w l m).2 !! id = None.
Proof.
  intros Hn. unfold UpdateStatus. destruct (update_stmt _ _ _ _ _ _) as [cond set].
  assert (builds (update_builds cond set db) !! id = None) by by rewrite lookup_update, Hn.
  destruct e; [done|]. by destruct (_ && _).
Qed.

(** A row that another step leaves pending was pending, is new, or got the status written. *)
Lemma pending_stays db op id r' :
  db_wf db → call_ok op → builds (repo_step db op) !! id = Some r' → r_status r' = StatusPending →
  match op with RReassign _ _ _ _ _ => True | _ =>
    match builds db !! id with
    | Some r => r_status r = StatusPending ∨ offers id db op = true
    | None => offers id db op = true
    end
  end.
Proof.
  intros [Hb _] Hop Hr' Hs.
  destruct op as [e now b|e now i st w l m|e1 e2 now wt bt|e off before|e i rate|e now w|e now ma];
    simpl in *; [..|destruct e; simpl in Hr'; rewrite Hr'; by left|destruct e; simpl in Hr'; rewrite Hr'; by left].
  - unfold Create, insertBuild in *. destruct e; simpl in *; [rewrite Hr'; by left|].
    destruct (negb _); simpl in *; [rewrite Hr'; by left|].
    destruct (builds db !! ID b) eqn:E; simpl in *; [rewrite Hr'; by left|].
    destruct (decide (ID b = id)) as [<-|Hne].
    + by rewrite E, String.eqb_refl.
    + rewrite lookup_insert_ne in Hr' by done. rewrite Hr'. by left.
  - destruct (builds db !! id) as [r|] eqn:Er; [|by rewrite UpdateStatus_absent in Hr'].
    destruct e as [msg|]; [left; unfold UpdateStatus in Hr'; destruct (update_stmt _ _ _ _ _ _); cbn in Hr'; congruence|].
    unfold UpdateStatus in Hr' |- *. destruct (update_stmt _ _ _ _ _ _) as [cond set] eqn:Eu.
    assert (builds (update_builds cond set db) !! id = Some r') as Hu by (by destruct (_ && _)).
    rewrite lookup_update, Er in Hu. cbn in Hu. injection Hu as <-.
    destruct (cond r) eqn:Ec; [|by left]. revert Eu Hs. unfold update_stmt.
    destruct (IsTerminal st) eqn:Et; [destruct (String.eqb w "")|].
    1,2: intros [= <- <-] Hs; simpl in Hs; by rewrite Hs in Et.
    destruct (String.eqb st StatusBuilding) eqn:Eb.
    { apply String.eqb_eq in Eb as ->. by intros [= <- <-]. }
    destruct (String.eqb st "") eqn:Ez; [by intros [= <- <-] Hs; left|].
    intros [= <- <-] Hs. simpl in Hs. subst st. right. unfold has_id in Ec. apply String.eqb_eq in Ec.
    by rewrite <- Ec, (row_key _ _ (Hb id r Er)), String.eqb_refl.
  - done.
  - destruct e; simpl in Hr'; [rewrite Hr'; by left|].
    apply map_lookup_filter_Some in Hr' as [-> _]. by left.
  - destruct e; simpl in Hr'; [rewrite Hr'; by left|].
    rewrite lookup_fmap in Hr'. destruct (builds db !! id) as [r|]; [|done]. simpl in Hr'.
    injection Hr' as <-. left. by destruct (has_id i r).
Qed.

(** Only a creation, a requeue or a write of that status makes a build pending. *)
Lemma offers_step id db op :
  db_wf db → call_ok op → pending_at (repo_step db op) id = true →
  pending_at db id = true ∨ offers id db op = true.
Proof.
  intros Hdb Hop Hp. pose proof Hp as Hp'. unfold pending_at in Hp'.
  destruct (builds (repo_step db op) !! id) as [r'|] eqn:Er'; [|done]. apply String.eqb_eq in Hp'.
  pose proof (pending_stays db op id r' Hdb Hop Er' Hp') as Hst.
  destruct (builds db !! id) as [r|] eqn:Er.
  - unfold pending_at. rewrite Er. unfold is_pending. rewrite String.eqb_eq.
    destruct op as [| |e1 e2 now wt bt| | | |]; auto.
    pose proof (ev_move r r') as Hm. pose proof (repo_step_row _ _ _ _ Hdb Hop Er) as He.
    rewrite Er' in He. destruct He as [He|(?&?&?&?&?&?&_)]; [|done]. specialize (Hm He). rewrite Hp' in Hm. simpl. simpl in Hp.
    rewrite Er, Hp, andb_true_r. unfold is_building. rewrite String.eqb_eq. by inv Hm; auto.
  - destruct op as [| |e1 e2 now wt bt| | | |]; auto.
    simpl in Er'. by rewrite ReassignStale_absent in Er'.
Qed.

Lemma hand_outs_offered id db ops :
  db_wf db → Forall call_ok ops →
  count_steps (hands_out id) db ops + (if pending_at (repo_steps db ops) id then 1 else 0)
  ≤ count_steps (offers id) db ops + (if pending_at db id then 1 else 0).
Proof.
  intros Hdb Hops. revert db Hdb; induction Hops as [|op ops Hop _ IH]; intros db Hdb; simpl; [lia|].
  specialize (IH (repo_step db op) (repo_step_wf db op Hop Hdb)).
  pose proof (hands_out_step id db op Hdb) as Hh. pose proof (offers_step id db op Hdb Hop) as Ho.
  destruct (hands_out id db op).
  - destruct (Hh eq_refl) as [-> Hp]. rewrite Hp in IH. destruct (offers id db op); lia.
  - destruct (pending_at (repo_step db op) id); [|destruct (offers id db op), (pending_at db id); lia].
    destruct (Ho eq_refl) as [->| ->]; destruct (offers id db op), (pending_at db id); lia.
Qed.

Lemma reachable_steps ok db ops :
  reachable_by ok db → Forall ok ops → reachable_by ok (repo_steps db ops).
Proof.
  intros Hdb Hops. revert db Hdb. induction Hops as [|op ops Hop _ IH]; intros db Hdb; [done|].
  apply IH. by constructor.
Qed.

(** ** Text comparisons and instants *)

Lemma utc_ltb t1 t2 :
  modern t1 → modern t2 → String.ltb (utc t1) (utc t2) = (unix t1 <? unix t2)%Z.
Proof. intros H1 H2. apply Format_ltb; by apply modern_four_digit. Qed.

Lemma parse_time_utc t : modern t → parse_time (utc t) = (unix t * second)%Z.
Proof. intros Ht. unfold parse_time, utc. by rewrite Parse_Format by by apply modern_four_digit. Qed.

Lemma elem_of_rows db r : db_wf db → r ∈ rows db ↔ builds db !! r_id r = Some r.
Proof.
  intros [Hb _]. unfold rows. rewrite list_elem_of_fmap. split.
  - intros ([k r'] & -> & Hin%elem_of_map_to_list). simpl.
    by rewrite (row_key _ _ (Hb k r' Hin)).
  - intros Hr. exists (r_id r, r). by rewrite elem_of_map_to_list.
Qed.

Lemma NoDup_row_ids db : db_wf db → NoDup (r_id <$> rows db).
Proof.
  intros [Hb _]. unfold rows. rewrite <- list_fmap_compose.
  replace ((r_id ∘ snd) <$> map_to_list (builds db)) with (map_to_list (builds db)).*1.
  { apply NoDup_fst_map_to_list. }
  apply list_fmap_ext. intros ? [k r] Hin%list_elem_of_lookup_2%elem_of_map_to_list.
  simpl. by rewrite (row_key _ _ (Hb k r Hin)).
Qed.

(** ** Properties *)

(** C19. Through every sequence of calls that create builds as pending, whatever statuses
    they write and whatever fails, each row keeps its key, an int4 priority, and UTC texts
    for its timestamps, a finished build has a completion time, and the workers' rows keep
    their keys and UTC heartbeats.  As long as no status is written but the empty one,
    building and the terminal ones, only finished builds have a completion time. *)
Theorem repo_invariant (ops : list repo_op) (Hops : Forall call_ok ops) :
  db_wf (repo_steps empty_db ops) ∧
  (Forall service_op ops → ∀ id r, builds (repo_steps empty_db ops) !! id = Some r →
     is_Some (r_completed_at r) ↔ IsTerminal (r_status r) = true).
Proof.
  assert (db_wf (repo_steps empty_db ops)) as Hwf
    by (by apply repo_reachable_wf, reachable_steps; [constructor|]).
  split; [done|]. intros Hs id r Hr.
  destruct (service_reachable_wf (repo_steps empty_db ops)) as [_ Hd]; [by apply reachable_steps; [constructor|]|].
  split; [by apply (Hd id r Hr)|]. intros Ht. pose proof (row_completed _ _ (wf_builds _ Hwf id r Hr)) as Hc.
  destruct (r_completed_at r); [by eexists|congruence].
Qed.

(** C9. The life cycle of a build, in any database that calls have made and under any
    call: what was submitted never changes, logs only grow, the status only moves from
    pending to building, from building back to pending, or into a terminal status, and a
    terminal build keeps its status, worker, error and completion time, unless the call
    writes a status that is neither empty, building nor terminal, which overwrites status,
    worker and error without a guard; and only GC removes a row, a terminal one. *)
Theorem repo_lifecycle (db : DB) (op : repo_op) (id : string) (r : BuildRow)
    (Hdb : repo_reachable db) (Hop : call_ok op) (Hr : builds db !! id = Some r) :
  match builds (repo_step db op) !! id with
  | Some r' => row_evolves r r' ∨ forced op r r'
  | None => IsTerminal (r_status r) = true ∧ ∃ off before, op = RGC None off before
  end.
Proof. apply repo_step_row; auto using repo_reachable_wf. Qed.

(** C6. No double assignment: over any sequence of calls, a build is handed out at most as
    often as it was offered (created, taken back from a dead worker, or set to pending by
    a call that writes this status), plus once if it was pending at the start. *)
Theorem repo_claims_exclusive (db : DB) (id : string) (ops : list repo_op)
    (Hdb : repo_reachable db) (Hops : Forall call_ok ops) :
  count_steps (hands_out id) db ops + (if pending_at (repo_steps db ops) id then 1 else 0)
  ≤ count_steps (offers id) db ops + (if pending_at db id then 1 else 0).
Proof. apply hand_outs_offered; auto using repo_reachable_wf. Qed.


(** C20. ReassignStale, by the instants behind the texts: a building build whose last
    update is more than its timeout ago is timed out; one in time whose worker's last
    heartbeat is older than the worker timeout is pending again without a worker;
    every other row is untouched. *)
Theorem ReassignStale_exact (db : DB) (now : time) (wt bt : duration) (id : string) (r : BuildRow)
    (Hdb : repo_reachable db) (Hn : modern now) (Hc : modern (now - wt))
    (Hr : builds db !! id = Some r) :
  let '(res, db') := ReassignStale None None now db wt bt in
  res = Ok () ∧
  builds db' !! id = Some (
    if String.eqb (r_status r) StatusBuilding then
      if (r_timeout_seconds r <? unix now - unix (parse_time (r_updated_at r)))%Z
      then set_row (Some StatusTimedOut) None "" (Some "build timed out") (utc now) (Some (utc now)) r
      else match db_workers db !! r_worker_id r with
           | Some w => if (unix (parse_time (w_last_heartbeat w)) <? unix (now - wt))%Z
                       then set_row (Some StatusPending) (Some "") "" None (utc now) None r
                       else r
           | None => r
           end
    else r).
Proof.
  apply repo_reachable_wf in Hdb. rewrite ReassignStale_eq by done. split; [done|].
  pose proof Hdb as [Hwb Hww]. unfold reassign2. rewrite lookup_update. unfold reassign1 at 2.
  rewrite lookup_update, Hr. cbn [fmap option_fmap option_map].
  destruct (row_updated _ _ (Hwb id r Hr)) as (u & Hu & Eu).
  assert (unix (parse_time (utc u)) = unix u) as Hpu
    by (rewrite parse_time_utc by done; unfold unix at 1; by rewrite Z.div_mul).
  assert (timed_out (utc now) r = is_building r && (r_timeout_seconds r <? unix now - unix u)%Z) as ->.
  { unfold timed_out. by rewrite Eu, !epoch_utc. }
  rewrite Eu, Hpu. change (String.eqb (r_status r) StatusBuilding) with (is_building r).
  destruct (is_building r) eqn:Es; simpl; [|by rewrite Es].
  destruct (r_timeout_seconds r <? unix now - unix u)%Z; [done|].
  rewrite Es. unfold stale_worker. simpl.
  destruct (db_workers db !! r_worker_id r) as [w|] eqn:Ew; [|done].
  destruct (wrow_heartbeat _ _ (Hww _ w Ew)) as (h & Hh & ->).
  rewrite utc_ltb, parse_time_utc by done. unfold unix at 3. rewrite Z.div_mul by done.
  by destruct (unix h <? unix (now - wt))%Z.
Qed.

(** What [Get] shows of a build that was just created: the submitted fields, a
    non-nil args map, no log and no error, the single-precision rate, and the
    timestamps to the second. *)
Definition stored (now : time) (b : Build) : Build :=
  mkBuild (ID b) (BStatus b) (BFingerprint b) (WorkerID b) (ContextKey b) (Dockerfile b)
    (ImageTag b) (Some (default ∅ (Args b))) (Instructions b) "" "" (RetryCount b) (MaxRetries b)
    (TimeoutSeconds b) (UserID b) (Priority b) (f64_via_real (CacheHitRate b))
    (unix now * second) (unix now * second) None.

Definition utf8_build (b : Build) : Prop :=
  (∀ m k v, Args b = Some m → m !! k = Some v → utf8_valid k ∧ utf8_valid v) ∧
  Forall utf8_valid (Instructions b).

Lemma scanBuild_created now b :
  modern now → utf8_build b →
  scanBuild (mkBuildRow (ID b) (BStatus b) (BFingerprint b) (WorkerID b) (ContextKey b)
    (Dockerfile b) (ImageTag b) (marshal_args (Args b)) "" "" (RetryCount b) (MaxRetries b)
    (TimeoutSeconds b) (marshal_strings (Instructions b)) (UserID b) (Priority b)
    (f64_via_real (CacheHitRate b)) (utc now) (utc now) None) = stored now b.
Proof.
  intros Hn [Ha Hi]. unfold scanBuild, stored. cbn [r_id r_status r_fingerprint r_worker_id
    r_context_key r_dockerfile r_image_tag r_args r_logs r_error r_retry_count r_max_retries
    r_timeout_seconds r_instructions r_user_id r_priority r_cache_hit_rate r_created_at
    r_updated_at r_completed_at].
  rewrite strings_roundtrip, !parse_time_utc by done. f_equal.
  destruct (Args b) as [m|].
  - rewrite args_roundtrip by eauto. done.
  - by rewrite nil_args_roundtrip.
Qed.

(** C22. Create followed by Get, on a fresh id, returns the submitted build. *)
Theorem create_get_roundtrip (db : DB) (now : time) (b : Build)
    (Hn : modern now) (H4 : int4_build b = true) (Hfresh : builds db !! ID b = None) (Hsafe : utf8_build b) :
  let '(res, b', db') := Create None now db b in
  res = Ok () ∧ CreatedAt b' = now ∧ Get None db' (ID b) = Ok (stored now b) ∧
  ∀ id, id ≠ ID b → Get None db' id = Get None db id.
Proof.
  unfold Create, insertBuild. unfold int4_build in *.
  cbn [ID RetryCount MaxRetries TimeoutSeconds Priority]. rewrite H4, Hfresh. cbn [negb]. unfold Get. cbn [builds]. split_and!; [done..| |].
  - rewrite lookup_insert_eq. cbn. by rewrite scanBuild_created.
  - intros id Hne. by rewrite lookup_insert_ne.
Qed.

(** C23. ListPending returns pending builds only, each once, ordered by decreasing
    priority and then by age; all of them when there are at most 100, and otherwise no
    omitted build comes strictly before a returned one. *)
Theorem ListPending_exact `{!Sorter pending_order} (db : DB) (Hdb : repo_reachable db) :
  ∃ rs, ListPending None db = Ok (scanBuild <$> rs) ∧
    StronglySorted pending_order rs ∧ NoDup (r_id <$> rs) ∧ length rs ≤ 100 ∧
    (∀ r, r ∈ rs → builds db !! r_id r = Some r ∧ r_status r = StatusPending) ∧
    (∀ id r, builds db !! id = Some r → r_status r = StatusPending → r ∉ rs →
       length rs = 100 ∧ ∀ r', r' ∈ rs → pending_order r' r).
Proof.
  apply repo_reachable_wf in Hdb. set (l := Sort (filter (λ r, is_pending r = true) (rows db))).
  assert (∀ r, r ∈ l ↔ builds db !! r_id r = Some r ∧ r_status r = StatusPending) as Hl.
  { intros r. unfold l. rewrite Sort_Permutation, list_elem_of_filter, elem_of_rows by done.
    unfold is_pending. rewrite String.eqb_eq. tauto. }
  assert (StronglySorted pending_order l) as Hs by apply Sort_sorted.
  exists (take 100 l). split_and!; [done|by apply (StronglySorted_app_1_l _ _ (drop 100 l)); rewrite take_drop| |rewrite length_take; lia| |].
  - rewrite fmap_take. eapply sublist_NoDup; [|apply sublist_take]. unfold l.
    rewrite Sort_Permutation. eapply sublist_NoDup; [by apply NoDup_row_ids|].
    apply fmap_sublist, sublist_filter.
  - intros r Hr. apply Hl. eapply elem_of_sublist; [exact Hr|apply sublist_take].
  - intros id r Hr Hp Hnin. pose proof Hdb as [Hb _].
    assert (r ∈ l) as Hin by (apply Hl; by rewrite (row_key _ _ (Hb id r Hr))).
    rewrite <- (take_drop 100 l) in Hin. apply elem_of_app in Hin as [?|Hin]; [done|]. split.
    + rewrite length_take.
      assert (length (drop 100 l) ≠ 0) as Hd by (by destruct (drop 100 l); [apply elem_of_nil in Hin|]).
      rewrite length_drop in Hd. lia.
    + intros r' Hr'. rewrite <- (take_drop 100 l) in Hs. by eapply StronglySorted_app_1_elem_of.
Qed.
End repo.

(** ** Concrete runs *)

Section examples.
#[local] Open Scope Z_scope.

Definition t0 : time := 1718000000 * second.

Definition sample_build (id : string) : Build :=
  mkBuild id StatusPending "fp" "" "ctx.tar" "FROM alpine" "app:1" (Some {["V" := "1"]}) ["RUN x"]
    "" "" 0 0 600 "u1" 5 (f64_of_Z (-1)) zero_time zero_time None.

Definition claim (id w : string) : repo_op := RUpdate None (t0 + second) id StatusBuilding w "" "".
Definition finish (id : string) : repo_op :=
  RUpdate None (t0 + 60 * second) id StatusSucceeded "" "done" "".

Definition sample_ops : list repo_op :=
  [RCreate None t0 (sample_build "b1"); RCreate None t0 (sample_build "b2");
   RUpsert None t0 (mkWorker "w1" "h" "10.0.0.1" "idle" 0 []);
   claim "b1" "w1"; claim "b1" "w2"; finish "b1"; claim "b2" "w1"].

Lemma sample_ops_ok : Forall service_op sample_ops.
Proof.
  unfold sample_ops. rewrite !Forall_cons, Forall_nil. unfold service_op, named. simpl.
  split_and!; first [done|modern_now|auto].
Qed.

Lemma sample_calls_ok : Forall call_ok sample_ops.
Proof. eapply Forall_impl; [exact sample_ops_ok|apply service_call]. Qed.

Definition sample_db : DB := repo_steps empty_db sample_ops.

Lemma sample_db_service : service_reachable sample_db.
Proof. apply reachable_steps; [constructor|apply sample_ops_ok]. Qed.

Lemma sample_db_reachable : repo_reachable sample_db.
Proof. apply service_reachable_calls, sample_db_service. Qed.

(** A finished build that is set back to pending, and claimed again. *)
Definition revive (id : string) : repo_op := RUpdate None (t0 + 90 * second) id StatusPending "" "" "".
Definition revived_ops : list repo_op := sample_ops ++ [revive "b1"; claim "b1" "w3"].

Lemma revived_ops_ok : Forall call_ok revived_ops.
Proof. apply Forall_app. split; [apply sample_calls_ok|]. rewrite !Forall_cons, Forall_nil. split_and!; [modern_now..|done]. Qed.

Lemma repo_invariant_witness :
  db_wf (repo_steps empty_db revived_ops) ∧
  r_status <$> builds (repo_steps empty_db revived_ops) !! "b1" = Some StatusBuilding.
Proof.
  split; [|vm_compute; reflexivity]. apply (repo_invariant revived_ops), revived_ops_ok.
Defined.

Definition b1_row : BuildRow := default (mkBuildRow "" "" "" "" "" "" "" "" "" "" 0 0 0 "" "" 0 f64_zero "" "" None)
  (builds sample_db !! "b1").
Definition b2_row : BuildRow := default b1_row (builds sample_db !! "b2").

Lemma repo_lifecycle_witness :
  match builds (repo_step sample_db (claim "b1" "w9")) !! "b1" with
  | Some r' => row_evolves b1_row r' ∨ forced (claim "b1" "w9") b1_row r'
  | None => IsTerminal (r_status b1_row) = true ∧ ∃ off before, claim "b1" "w9" = RGC None off before
  end.
Proof. apply repo_lifecycle; [apply sample_db_reachable|modern_now|vm_compute; reflexivity]. Defined.

Lemma repo_claims_exclusive_witness :
  count_steps (hands_out "b1") empty_db revived_ops = 2%nat ∧
  (count_steps (hands_out "b1") empty_db revived_ops +
     (if pending_at (repo_steps empty_db revived_ops) "b1" then 1 else 0)
   ≤ count_steps (offers "b1") empty_db revived_ops + (if pending_at empty_db "b1" then 1 else 0))%nat.
Proof.
  split; [vm_compute; reflexivity|].
  apply repo_claims_exclusive; [constructor|apply revived_ops_ok].
Defined.


(** [GC] formats its cutoff in the local zone. East of UTC it deletes builds that
    finished after the cutoff: here one that finished a minute after [t0], with a cutoff
    an hour before [t0]. *)
Lemma GC_local_zone :
  builds (GC None sample_db 28800 (t0 - 3600 * second)).2 !! "b1" = None.
Proof. vm_compute. reflexivity. Qed.

Lemma ReassignStale_exact_witness :
  let '(res, db') := ReassignStale None None (t0 + 120 * second) sample_db (60 * second) 0 in
  r_status <$> builds db' !! "b2" = Some StatusPending.
Proof.
  pose proof (ReassignStale_exact sample_db (t0 + 120 * second) (60 * second) 0 "b2" b2_row
                sample_db_reachable ltac:(modern_now)) as H.
  destruct (ReassignStale None None (t0 + 120 * second) sample_db (60 * second) 0) as [res db'].
  destruct H as [_ ->].
  - modern_now.
  - vm_compute. reflexivity.
  - vm_compute. reflexivity.
Defined.

Lemma create_get_roundtrip_witness :
  let '(res, b', db') := Create None t0 sample_db (sample_build "b3") in
  Get None db' "b3" = Ok (stored t0 (sample_build "b3")).
Proof.
  pose proof (create_get_roundtrip sample_db t0 (sample_build "b3")) as H.
  destruct (Create None t0 sample_db (sample_build "b3")) as [[res b'] db'].
  apply H.
  - modern_now.
  - reflexivity.
  - vm_compute. reflexivity.
  - split; [|repeat constructor; apply is_ascii_valid; reflexivity].
    intros m k v [= <-]. rewrite lookup_singleton_Some. intros [<- <-].
    split; apply is_ascii_valid; reflexivity.
Defined.

#[local] Existing Instance merge_sorter.

Lemma ListPending_exact_witness :
  ∃ rs, ListPending None (repo_steps empty_db (take 2 sample_ops)) = Ok (scanBuild <$> rs) ∧
        StronglySorted pending_order rs ∧ length rs = 2%nat.
Proof.
  destruct (ListPending_exact (repo_steps empty_db (take 2 sample_ops))) as (rs & Hl & Hs & _).
  { apply reachable_steps; [constructor|]. apply Forall_take, sample_calls_ok. }
  exists rs. split; [exact Hl|]. split; [exact Hs|].
  assert (length <$> (match ListPending None (repo_steps empty_db (take 2 sample_ops)) with
                      | Ok bs => Some bs | Err _ => None end) = Some 2%nat) as H2
    by (vm_compute; reflexivity).
  rewrite Hl in H2. simpl in H2. rewrite length_fmap in H2. by injection H2.
Defined.
End examples.

(** A status outside the six, or "pending", is written without any guard: completing
    a finished build as "pending" makes it assignable again. *)
Lemma UpdateStatus_resurrects :
  pending_at (UpdateStatus None t0 sample_db "b1" StatusPending "" "" "").2 "b1" = true ∧
  IsTerminal (r_status b1_row) = true.
Proof. split; vm_compute; reflexivity. Qed.

(** Only the claim looks at the number of rows: completing or logging to a build that
    does not exist succeeds. *)
Lemma UpdateStatus_unknown_id :
  (UpdateStatus None t0 empty_db "nope" StatusSucceeded "" "" "").1 = Ok () ∧
  (UpdateStatus None t0 empty_db "nope" "" "" "line" "").1 = Ok ().
Proof. split; reflexivity. Qed.
