(* ===== verification/Schema.v ===== *)
(** * internal/repo: opening the database

    [Open], [Close] and [migrate] of [repo.go].  The relations of the database (its
    tables with their columns and rows, and its indexes, in one name space) are a map;
    the DDL statements of the source are values of [statement], and [execute] is what
    PostgreSQL documents for them.  The statements of one Exec without arguments run in
    one transaction.  Columns are of the three types the source uses. *)

From S2P Require Import Prelude GoStrings Domain Repo.

(** ** Relations *)

Inductive col_type := TText | TInteger | TReal.
Inductive const := CText (s : string) | CInt (z : Z).

Record column := mkCol {
  c_name : string;
  c_type : col_type;
  c_primary : bool;
  c_not_null : bool;
  c_default : option const;
}.

(** A row has no value where the column is NULL. *)
Record table := mkTable { t_cols : list column; t_rows : list (gmap string const) }.

Inductive relation := Tbl (t : table) | Idx (on : string) (col : string).
Abbreviation database := (gmap string relation) (only parsing).

(** [CREATE TABLE IF NOT EXISTS], [CREATE INDEX IF NOT EXISTS i ON t(c)],
    [ALTER TABLE t ADD COLUMN IF NOT EXISTS] and [ALTER TABLE t ALTER COLUMN c SET
    DEFAULT]. *)
Inductive statement :=
  | CreateTable (t : string) (cols : list column)
  | CreateIndex (i t c : string)
  | AddColumn (t : string) (c : column)
  | SetDefault (t c : string) (d : const).

Definition has_column (tb : table) (c : string) : bool := existsb (λ k, String.eqb (c_name k) c) (t_cols tb).

(** A new column gets its default in every row. *)
Definition add_column (c : column) (tb : table) : table :=
  if has_column tb (c_name c) then tb
  else mkTable (t_cols tb ++ [c])
         ((λ r, match c_default c with Some d => <[c_name c := d]> r | None => r end) <$> t_rows tb).

Definition set_default (c : string) (d : const) (tb : table) : table :=
  mkTable ((λ k, if String.eqb (c_name k) c
                 then mkCol (c_name k) (c_type k) (c_primary k) (c_not_null k) (Some d) else k) <$> t_cols tb)
    (t_rows tb).

Definition not_a_table {A} (t : string) : result A := Err (EDriver ("relation " +:+ t +:+ " does not exist")).
Definition no_column {A} (t c : string) : result A :=
  Err (EDriver ("column " +:+ c +:+ " of relation " +:+ t +:+ " does not exist")).

Definition execute (st : statement) (db : database) : result database :=
  match st with
  | CreateTable t cols =>
      match db !! t with Some _ => Ok db | None => Ok (<[t := Tbl (mkTable cols [])]> db) end
  | CreateIndex i t c =>
      match db !! t with
      | Some (Tbl tb) =>
          if has_column tb c then
            match db !! i with Some _ => Ok db | None => Ok (<[i := Idx t c]> db) end
          else no_column t c
      | _ => not_a_table t
      end
  | AddColumn t c =>
      match db !! t with
      | Some (Tbl tb) => Ok (<[t := Tbl (add_column c tb)]> db)
      | _ => not_a_table t
      end
  | SetDefault t c d =>
      match db !! t with
      | Some (Tbl tb) => if has_column tb c then Ok (<[t := Tbl (set_default c d tb)]> db) else no_column t c
      | _ => not_a_table t
      end
  end.

Fixpoint execute_all (sts : list statement) (db : database) : result database :=
  match sts with
  | [] => Ok db
  | st :: sts => match execute st db with Ok db => execute_all sts db | Err e => Err e end
  end.

(** [db.Exec(text)]: refused by the driver ([fault]), or one transaction. *)
Definition Exec (f : fault) (sts : list statement) (db : database) : result () * database :=
  match f with
  | Some msg => (Err (EDriver msg), db)
  | None => match execute_all sts db with Ok db' => (Ok (), db') | Err e => (Err e, db) end
  end.

(** ** migrate *)

Definition key_col (n : string) : column := mkCol n TText true true None.
Definition text_col (n : string) (d : string) : column := mkCol n TText false true (Some (CText d)).
Definition int_col (n : string) (d : Z) : column := mkCol n TInteger false true (Some (CInt d)).

Definition builds_columns : list column :=
  [key_col "id"; text_col "status" "pending"; text_col "fingerprint" "";
   mkCol "worker_id" TText false false (Some (CText "")); text_col "context_key" ""; text_col "dockerfile" "";
   text_col "image_tag" ""; text_col "args" "{}"; text_col "logs" ""; text_col "error" "";
   int_col "retry_count" 0; int_col "max_retries" 0; int_col "timeout_seconds" 600; text_col "instructions" "[]";
   text_col "user_id" ""; int_col "priority" 0; mkCol "cache_hit_rate" TReal false true (Some (CInt (-1)));
   mkCol "created_at" TText false true None; mkCol "updated_at" TText false true None;
   mkCol "completed_at" TText false false None].

Definition workers_columns : list column :=
  [key_col "id"; text_col "hostname" ""; text_col "ip" ""; text_col "status" "offline";
   mkCol "last_heartbeat" TText false true None; text_col "cache_keys" "[]"].

Definition base_indexes : list (string * string * string) :=
  [("idx_builds_status", "builds", "status"); ("idx_builds_user", "builds", "user_id");
   ("idx_builds_worker", "builds", "worker_id"); ("idx_workers_status", "workers", "status")].

Definition base_schema : list statement :=
  [CreateTable "builds" builds_columns; CreateTable "workers" workers_columns] ++
  map (λ x, CreateIndex x.1.1 x.1.2 x.2) base_indexes.

(** The columns that older databases may lack. *)
Definition new_columns : list column :=
  [mkCol "cache_hit_rate" TReal false true (Some (CInt (-1))); text_col "instructions" "[]"; int_col "priority" 0;
   text_col "user_id" ""].

Definition migrations : list statement :=
  map (AddColumn "builds") new_columns ++ [SetDefault "builds" "cache_hit_rate" (CInt (-1))].

(** The loop over the migrations, whose errors it ignores; [fs] has the driver's answer to
    each, and it executes those beyond the list. *)
Fixpoint migrate_loop (sts : list statement) (fs : list fault) (db : database) : database :=
  match sts with
  | [] => db
  | st :: sts => migrate_loop sts (tail fs) (Exec (default None (head fs)) [st] db).2
  end.

Definition migrate (f : fault) (fs : list fault) (db : database) : result () * database :=
  match Exec f base_schema db with
  | (Err e, db) => (Err e, db)
  | (Ok _, db) => (Ok (), migrate_loop migrations fs db)
  end.

(** ** Open *)

(** The handle: the pool's limits. *)
Record handle := mkHandle { MaxOpenConns : Z; MaxIdleConns : Z; ConnMaxLifetime : duration }.

(** What opening meets: the errors of [sql.Open] and [Ping], and the driver's answers. *)
Record open_env := mkOpenEnv {
  o_open : option error;
  o_ping : option error;
  o_ddl : fault;
  o_migrations : list fault;
}.

(** The result, and whether a handle is left open. *)
Definition Open (o : open_env) (db : database) : result handle * bool * database :=
  match o_open o with
  | Some e => (Err (EWrap "open postgres" e), false, db)
  | None =>
      let d := mkHandle 25 5 (5 * minute) in
      match o_ping o with
      | Some e => (Err (EWrap "ping postgres" e), false, db)
      | None =>
          match migrate (o_ddl o) (o_migrations o) db with
          | (Err e, db) => (Err (EWrap "migrate" e), false, db)
          | (Ok _, db) => (Ok d, true, db)
          end
      end
  end.

(** ** What statements keep *)

Definition table_wf (tb : table) : Prop :=
  Forall (λ r : gmap string const, ∀ c, is_Some (r !! c) → has_column tb c = true) (t_rows tb).

(** Columns and values are only added. *)
Definition upgraded (tb tb' : table) : Prop :=
  table_wf tb' ∧ (∀ c, has_column tb c = true → has_column tb' c = true) ∧ Forall2 (⊆) (t_rows tb) (t_rows tb').

Lemma upgraded_refl tb : table_wf tb → upgraded tb tb.
Proof. intros Hw. split_and!; [done..|]. by apply Forall_Forall2_diag, Forall_true. Qed.

Lemma upgraded_trans tb1 tb2 tb3 : upgraded tb1 tb2 → upgraded tb2 tb3 → upgraded tb1 tb3.
Proof.
  intros (_ & Hc & Hr) (Hw & Hc' & Hr'). split_and!; [done|auto|].
  etransitivity; [exact Hr|exact Hr'].
Qed.

Lemma has_column_app tb c cols rs : has_column (mkTable (t_cols tb ++ cols) rs) c =
  has_column tb c || existsb (λ k, String.eqb (c_name k) c) cols.
Proof. unfold has_column. apply existsb_app. Qed.

Lemma has_add_column c tb n : has_column (add_column c tb) n = has_column tb n || String.eqb (c_name c) n.
Proof.
  unfold add_column. destruct (has_column tb (c_name c)) eqn:E.
  - destruct (String.eqb_spec (c_name c) n) as [<-|_]; [by rewrite E|by rewrite orb_false_r].
  - rewrite has_column_app. cbn. by rewrite orb_false_r.
Qed.

Lemma has_set_default c d tb n : has_column (set_default c d tb) n = has_column tb n.
Proof.
  unfold has_column, set_default. cbn [t_cols]. induction (t_cols tb) as [|k ks IH]; [done|].
  cbn. rewrite IH. by destruct (String.eqb (c_name k) c).
Qed.

Lemma add_column_upgraded c tb : table_wf tb → upgraded tb (add_column c tb).
Proof.
  intros Hw. unfold add_column. destruct (has_column tb (c_name c)) eqn:E; [by apply upgraded_refl|].
  assert (Forall (λ r : gmap string const, r !! c_name c = None) (t_rows tb)) as Hn.
  { eapply Forall_impl; [exact Hw|]. intros r Hr. apply eq_None_not_Some. intros Hs%Hr. congruence. }
  split_and!.
  - apply Forall_fmap. eapply Forall_impl; [exact Hw|]. intros r Hr n. cbn beta. rewrite has_column_app. cbn [existsb].
    destruct (c_default c) as [d|]; [|by intros ->%Hr].
    rewrite lookup_insert_is_Some. intros [->|[_ ->%Hr]]; [|done]. by rewrite String.eqb_refl, orb_true_r.
  - intros n Hc. rewrite has_column_app. by rewrite Hc.
  - cbn [t_rows]. apply Forall2_fmap_r, Forall_Forall2_diag. eapply Forall_impl; [exact Hn|]. intros r Hr.
    cbv beta; unfold compose; destruct (c_default c); [by apply insert_subseteq|reflexivity].
Qed.

Lemma set_default_upgraded c d tb : table_wf tb → upgraded tb (set_default c d tb).
Proof.
  intros Hw. split_and!.
  - eapply Forall_impl; [exact Hw|]. intros r Hr n Hn. rewrite has_set_default. by apply Hr.
  - intros n. by rewrite has_set_default.
  - cbn [t_rows set_default]. by apply Forall_Forall2_diag, Forall_true.
Qed.

(** *** The base schema *)

Definition relation_has (db : database) (t c : string) : bool :=
  match db !! t with Some (Tbl tb) => has_column tb c | _ => false end.

(** The relation is not there yet, or is a table with these columns. *)
Definition indexable (db : database) (t : string) (cs : list string) : bool :=
  match db !! t with
  | None => true
  | Some (Tbl tb) => forallb (has_column tb) cs
  | Some (Idx _ _) => false
  end.

Lemma relation_has_mono db db' t c :
  is_Some (db !! t) → db ⊆ db' → relation_has db' t c = relation_has db t c.
Proof. intros [r Hr] Hsub. unfold relation_has. by rewrite Hr, (lookup_weaken _ _ _ _ Hr Hsub). Qed.

Lemma index_execute i t c db :
  if relation_has db t c then ∃ db', execute (CreateIndex i t c) db = Ok db' ∧ db ⊆ db' ∧ is_Some (db' !! i)
  else ∃ e, execute (CreateIndex i t c) db = Err e.
Proof.
  unfold relation_has. cbn [execute]. destruct (db !! t) as [[tb|on col]|]; [|by eexists..].
  destruct (has_column tb c); [|by eexists].
  destruct (db !! i) eqn:Ei; eexists; (split; [done|]); [by rewrite Ei|].
  split; [by apply insert_subseteq|by rewrite lookup_insert_eq].
Qed.

Lemma indexes_execute l db :
  Forall (λ x : string * string * string, is_Some (db !! x.1.2)) l →
  let sts := map (λ x, CreateIndex x.1.1 x.1.2 x.2) l in
  if forallb (λ x, relation_has db x.1.2 x.2) l
  then ∃ db', execute_all sts db = Ok db' ∧ db ⊆ db' ∧ Forall (λ x, is_Some (db' !! x.1.1)) l
  else ∃ e, execute_all sts db = Err e.
Proof.
  intros Hl sts. subst sts. revert db Hl. induction l as [|[[i t] c] l IH]; intros db Hl; [by eexists|].
  apply Forall_cons in Hl as [Ht Hl]. cbn [map fst snd forallb execute_all] in *.
  pose proof (index_execute i t c db) as Hi. destruct (relation_has db t c); cbn [andb].
  2: { destruct Hi as [e ->]. by exists e. }
  destruct Hi as (db1 & -> & Hsub & [ri Hri]).
  assert (Forall (λ x : string * string * string, is_Some (db1 !! x.1.2)) l) as Hl1.
  { eapply Forall_impl; [exact Hl|]. intros x [r Hr]. exists r. by eapply lookup_weaken. }
  specialize (IH db1 Hl1).
  assert (forallb (λ x, relation_has db1 x.1.2 x.2) l = forallb (λ x, relation_has db x.1.2 x.2) l) as Heq.
  { clear IH Hl1. induction Hl as [|x l Hx _ IH]; [done|]. cbn. by rewrite IH, (relation_has_mono db db1). }
  rewrite Heq in IH. destruct (forallb _ l); [|exact IH].
  destruct IH as (db' & -> & Hsub' & Hf). exists db'. split; [done|]. split; [by etransitivity|].
  constructor; [|done]. exists ri. by eapply lookup_weaken.
Qed.

(** Creating the tables that are missing. *)
Definition created (t : string) (cols : list column) (db : database) : database :=
  match db !! t with Some _ => db | None => <[t := Tbl (mkTable cols [])]> db end.

Lemma created_lookup t cols db : created t cols db !! t = Some (default (Tbl (mkTable cols [])) (db !! t)).
Proof. unfold created. destruct (db !! t) eqn:E; [done|]. by rewrite lookup_insert_eq. Qed.

Lemma created_sub t cols db : db ⊆ created t cols db.
Proof. unfold created. destruct (db !! t) eqn:E; [done|by apply insert_subseteq]. Qed.

Lemma created_ne t cols db n : n ≠ t → created t cols db !! n = db !! n.
Proof. intros Hn. unfold created. destruct (db !! t); [done|by rewrite lookup_insert_ne]. Qed.

Lemma created_execute t cols sts db : execute_all (CreateTable t cols :: sts) db = execute_all sts (created t cols db).
Proof. cbn. unfold created. by destruct (db !! t). Qed.

Lemma created_indexable db db1 t cols c cs :
  forallb (has_column (mkTable cols [])) (c :: cs) = true →
  db1 !! t = Some (default (Tbl (mkTable cols [])) (db !! t)) →
  forallb (relation_has db1 t) (c :: cs) = indexable db t (c :: cs).
Proof.
  intros Hnew Hl. unfold indexable.
  assert (∀ l, forallb (relation_has db1 t) l = forallb (λ n, match default (Tbl (mkTable cols [])) (db !! t) with
    Tbl tb => has_column tb n | _ => false end) l) as ->.
  { intros l. induction l as [|n l IH]; [done|]. cbn. rewrite IH. unfold relation_has at 1. by rewrite Hl. }
  by destruct (db !! t) as [[tb|on col]|].
Qed.

(** The base schema can be laid over a database exactly if its tables, where they exist,
    have the columns that are indexed. *)
Definition base_ok (db : database) : bool :=
  indexable db "builds" ["status"; "user_id"; "worker_id"] && indexable db "workers" ["status"].

Definition base_tables (db : database) : database :=
  created "workers" workers_columns (created "builds" builds_columns db).

(** Nothing is left to create. *)
Definition settled (db : database) : Prop :=
  Forall (λ x, is_Some (db !! x.1.1) ∧ relation_has db x.1.2 x.2 = true) base_indexes.

Lemma base_tables_builds db :
  base_tables db !! "builds" = Some (default (Tbl (mkTable builds_columns [])) (db !! "builds")).
Proof. unfold base_tables. rewrite created_ne by done. apply created_lookup. Qed.

Lemma base_tables_sub db : db ⊆ base_tables db.
Proof. unfold base_tables. etransitivity; apply created_sub. Qed.

Lemma base_execute db :
  if base_ok db then ∃ db', execute_all base_schema db = Ok db' ∧ base_tables db ⊆ db' ∧ settled db'
  else ∃ e, execute_all base_schema db = Err e.
Proof.
  unfold base_schema. cbn [app]. rewrite !created_execute. fold (base_tables db).
  pose proof (base_tables_builds db) as Hb.
  assert (base_tables db !! "workers" = Some (default (Tbl (mkTable workers_columns [])) (db !! "workers"))) as Hw.
  { unfold base_tables. rewrite created_lookup. by rewrite created_ne by done. }
  pose proof (created_indexable db _ "builds" builds_columns "status" ["user_id"; "worker_id"] eq_refl Hb) as Hib.
  pose proof (created_indexable db _ "workers" workers_columns "status" [] eq_refl Hw) as Hiw.
  assert (base_ok db = forallb (λ x, relation_has (base_tables db) x.1.2 x.2) base_indexes) as ->.
  { unfold base_ok. rewrite <- Hib, <- Hiw. cbn [forallb fst snd base_indexes]. by rewrite !andb_true_r, <- !andb_assoc. }
  assert (Forall (λ x : string * string * string, is_Some (base_tables db !! x.1.2)) base_indexes) as Hd
    by (repeat constructor; cbn [fst snd]; rewrite ?Hb, ?Hw; by eexists).
  pose proof (indexes_execute base_indexes (base_tables db) Hd) as Hi.
  destruct (forallb _ base_indexes) eqn:Ef; [|exact Hi].
  destruct Hi as (db' & He & Hsub & Hf). exists db'. split_and!; [done..|].
  apply Forall_forall. intros x Hx. rewrite Forall_forall in Hf, Hd. split; [auto|].
  rewrite (relation_has_mono (base_tables db)) by auto. rewrite forallb_forall in Ef. by apply Ef, list_elem_of_In.
Qed.

Lemma settled_execute db : settled db → execute_all base_schema db = Ok db.
Proof.
  intros Hs. unfold base_schema. cbn [app]. rewrite !created_execute. unfold settled, base_indexes in Hs.
  rewrite !Forall_cons in Hs. cbn [fst snd] in Hs. destruct Hs as ([Hi1 Hr1] & [Hi2 Hr2] & [Hi3 Hr3] & [Hi4 Hr4] & _).
  assert (∀ t c cols, relation_has db t c = true → created t cols db = db) as Hc.
  { intros t c cols. unfold relation_has, created. by destruct (db !! t). }
  rewrite (Hc _ _ _ Hr1), (Hc _ _ _ Hr4). clear Hc. unfold base_indexes. cbn [map fst snd execute_all].
  assert (∀ i t c, is_Some (db !! i) → relation_has db t c = true → execute (CreateIndex i t c) db = Ok db) as Hx.
  { intros i t c [r Hr]. unfold relation_has. cbn [execute].
    destruct (db !! t) as [[tb|on col]|]; [|done..]. intros ->. by rewrite Hr. }
  by rewrite !Hx.
Qed.

Lemma settled_insert db tb tb' :
  settled db → db !! "builds" = Some (Tbl tb) → (∀ c, has_column tb c = true → has_column tb' c = true) →
  settled (<["builds" := Tbl tb']> db).
Proof.
  intros Hs Hb Hc. eapply Forall_impl; [exact Hs|]. intros [[i t] c] [Hi Hr]. cbn [fst snd] in *.
  split; [rewrite lookup_insert_is_Some'; by right|]. unfold relation_has in *.
  destruct (decide (t = "builds")) as [->|Ht]; [|by rewrite lookup_insert_ne].
  rewrite lookup_insert_eq. rewrite Hb in Hr. auto.
Qed.

(** *** The migrations *)

(** The i-th migration is not refused by the driver. *)
Definition granted (fs : list fault) (i : nat) : Prop := default None (fs !! i) = None.

(** The columns whose statement is not refused. *)
Fixpoint add_columns (fs : list fault) (cs : list column) (tb : table) : table :=
  match cs with
  | [] => tb
  | c :: cs => add_columns (tail fs) cs (if default None (head fs) is Some _ then tb else add_column c tb)
  end.

(** The table after all of them. *)
Definition migrated (fs : list fault) (tb : table) : table :=
  let tb := add_columns fs new_columns tb in
  if default None (fs !! 4) is Some _ then tb else set_default "cache_hit_rate" (CInt (-1)) tb.

Lemma granted_0 fs : granted fs 0 ↔ default None (head fs) = None.
Proof. by destruct fs. Qed.

Lemma granted_S fs i : granted fs (S i) ↔ granted (tail fs) i.
Proof. unfold granted. by rewrite lookup_tail. Qed.

(** Which columns there are afterwards: the old ones and those that were granted. *)
Lemma has_add_columns cs fs tb n :
  has_column (add_columns fs cs tb) n = true ↔
  has_column tb n = true ∨ ∃ i c, cs !! i = Some c ∧ c_name c = n ∧ granted fs i.
Proof.
  revert fs tb. induction cs as [|c cs IH]; intros fs tb; cbn [add_columns].
  { split; [by left|by intros [?|(i & c & ? & _)]]. }
  rewrite IH. assert (has_column (if default None (head fs) is Some _ then tb else add_column c tb) n = true ↔
    has_column tb n = true ∨ c_name c = n ∧ granted fs 0) as ->.
  { rewrite granted_0. destruct (default None (head fs)); [by intuition|].
    rewrite has_add_column, orb_true_iff, String.eqb_eq. tauto. }
  split.
  - intros [[?|[? ?]]|(i & c' & ? & ? & ?)]; [by left|right; by exists 0, c|right; exists (S i), c'].
    by rewrite granted_S.
  - intros [?|([|i] & c' & Hc & Hn & Hg)]; [by left; left| |].
    + injection Hc as ->. left. by right.
    + right. exists i, c'. by rewrite <- granted_S.
Qed.

Lemma set_default_absent c d tb : has_column tb c = false → set_default c d tb = tb.
Proof.
  destruct tb as [cs rs]. unfold has_column, set_default. cbn. intros Hc. f_equal.
  induction cs as [|k cs IH]; [done|]. cbn in *. apply orb_false_iff in Hc as [-> Hc]. by rewrite IH.
Qed.

Lemma migrate_loop_all fs db tb :
  db !! "builds" = Some (Tbl tb) → migrate_loop migrations fs db = <["builds" := Tbl (migrated fs tb)]> db.
Proof.
  intros Hb. assert (∀ cs sts fs db tb, db !! "builds" = Some (Tbl tb) →
    migrate_loop (map (AddColumn "builds") cs ++ sts) fs db =
    migrate_loop sts (drop (length cs) fs) (<["builds" := Tbl (add_columns fs cs tb)]> db)) as Hadd.
  { clear. induction cs as [|c cs IH]; intros sts fs db tb Hb; [by rewrite insert_id|].
    cbn [map app migrate_loop add_columns length]. rewrite (IH _ _ _ (if default None (head fs) is Some _ then tb else add_column c tb)).
    - destruct fs as [|[msg|] fs]; cbn [head default Exec execute_all execute tail drop snd id lookup];
        rewrite ?drop_nil, ?Hb; cbn [snd]; by rewrite ?insert_insert_eq.
    - destruct (default None (head fs)); [done|]. cbn. rewrite Hb. apply lookup_insert_eq. }
  unfold migrations. rewrite (Hadd _ _ _ _ tb Hb). cbn [migrate_loop length new_columns].
  assert (head (drop 4 fs) = fs !! 4) as -> by (by rewrite head_lookup, lookup_drop).
  unfold migrated. fold new_columns. destruct (default None (fs !! 4)); [done|].
  cbn [Exec execute_all execute]. rewrite lookup_insert_eq.
  destruct (has_column (add_columns fs new_columns tb) "cache_hit_rate") eqn:E; cbn [snd].
  - by rewrite insert_insert_eq.
  - by rewrite set_default_absent.
Qed.

Lemma add_columns_upgraded cs fs tb : table_wf tb → upgraded tb (add_columns fs cs tb).
Proof.
  revert fs tb. induction cs as [|c cs IH]; intros fs tb Hw; [by apply upgraded_refl|]. cbn [add_columns].
  destruct (default None (head fs)); [by apply IH|].
  pose proof (add_column_upgraded c tb Hw) as Hu. eapply upgraded_trans; [exact Hu|]. apply IH, Hu.
Qed.

(** A column that was missing and was granted has its default in every row. *)
Lemma add_columns_fill cs fs tb i c d :
  table_wf tb → NoDup (c_name <$> cs) → cs !! i = Some c → c_default c = Some d → granted fs i →
  has_column tb (c_name c) = false →
  Forall (λ r : gmap string const, r !! c_name c = Some d) (t_rows (add_columns fs cs tb)).
Proof.
  intros Hw Hnd Hin Hd. revert i fs tb Hw Hin. induction cs as [|c' cs IH]; intros i fs tb Hw Hin Hg Hno; [done|].
  apply NoDup_cons in Hnd as [Hn Hnd]. cbn [add_columns].
  destruct i as [|i]; cbn [lookup] in Hin; [injection Hin as ->; apply granted_0 in Hg; rewrite Hg|].
  - pose proof (add_column_upgraded c tb Hw) as (Hw' & _ & _).
    destruct (add_columns_upgraded cs (tail fs) (add_column c tb) Hw') as (_ & _ & Hr).
    assert (Forall (λ r : gmap string const, r !! c_name c = Some d) (t_rows (add_column c tb))) as Hf.
    { unfold add_column. rewrite Hno, Hd. cbn [t_rows]. apply Forall_fmap, Forall_true. intros r. apply lookup_insert_eq. }
    clear -Hf Hr. induction Hr as [|r r' rs rs' Hs _ IH]; [done|].
    apply Forall_cons in Hf as [Hr Hf]. constructor; [by eapply lookup_weaken|auto].
  - change (cs !! i = Some c) in Hin. apply granted_S in Hg.
    apply (IH Hnd i); [by destruct (default None (head fs)); [|apply add_column_upgraded]|done..|].
    destruct (default None (head fs)); [done|]. rewrite has_add_column, Hno. cbn. apply String.eqb_neq. intros Heq.
    apply Hn. rewrite Heq. apply list_elem_of_fmap_2. by eapply list_elem_of_lookup_2.
Qed.

Lemma add_columns_id cs fs tb :
  Forall (λ c, has_column tb (c_name c) = true) cs → add_columns fs cs tb = tb.
Proof.
  intros Hc. revert fs. induction Hc as [|c cs Hc _ IH]; intros fs; [done|]. cbn [add_columns].
  unfold add_column. rewrite Hc. by destruct (default None (head fs)).
Qed.

Lemma set_default_again c d tb : set_default c d (set_default c d tb) = set_default c d tb.
Proof.
  unfold set_default. cbn [t_cols t_rows]. f_equal. rewrite <- list_fmap_compose.
  apply list_fmap_ext. intros i k _. cbn. destruct (String.eqb (c_name k) c) eqn:E; cbn; by rewrite E.
Qed.

(** Nothing is left to migrate. *)
Definition up_to_date (tb : table) : Prop :=
  Forall (λ c, has_column tb (c_name c) = true) new_columns ∧ set_default "cache_hit_rate" (CInt (-1)) tb = tb.

Lemma migrated_again fs tb : up_to_date tb → migrated fs tb = tb.
Proof.
  intros [Hc Hd]. unfold migrated. rewrite add_columns_id by done. by destruct (default None (fs !! 4)).
Qed.

Lemma has_migrated fs tb n : has_column (migrated fs tb) n = has_column (add_columns fs new_columns tb) n.
Proof. unfold migrated. destruct (default None (fs !! 4)); [done|]. apply has_set_default. Qed.

Lemma migrated_up_to_date fs tb : (∀ i, i < 5 → granted fs i) → up_to_date (migrated fs tb).
Proof.
  intros Hg. split.
  - apply Forall_lookup_2. intros i c Hc. rewrite has_migrated. apply has_add_columns. right.
    exists i, c. split_and!; [done..|]. apply Hg. apply lookup_lt_Some in Hc. cbn in Hc. lia.
  - unfold migrated. assert (granted fs 4) as -> by (apply Hg; lia). apply set_default_again.
Qed.

Lemma migrated_upgraded fs tb : table_wf tb → upgraded tb (migrated fs tb).
Proof.
  intros Hw. pose proof (add_columns_upgraded new_columns fs tb Hw) as Hu. unfold migrated.
  destruct (default None (fs !! 4)); [done|].
  eapply upgraded_trans; [exact Hu|]. apply set_default_upgraded, Hu.
Qed.

Lemma migrated_rows fs tb : t_rows (migrated fs tb) = t_rows (add_columns fs new_columns tb).
Proof. unfold migrated. by destruct (default None (fs !! 4)). Qed.

(** The builds table that the migrations find. *)
Definition builds_table (db : database) : table :=
  match db !! "builds" with Some (Tbl tb) => tb | _ => mkTable builds_columns [] end.

Lemma base_builds db db1 :
  base_ok db = true → base_tables db ⊆ db1 → db1 !! "builds" = Some (Tbl (builds_table db)).
Proof.
  intros Hok Hsub. pose proof (lookup_weaken _ _ _ _ (base_tables_builds db) Hsub) as Hb. rewrite Hb.
  unfold builds_table, base_ok, indexable in *. by destruct (db !! "builds") as [[tb|on col]|].
Qed.

Lemma new_column_default i c : new_columns !! i = Some c → ∃ d, c_default c = Some d.
Proof. intros Hc. repeat (destruct i as [|i]; [injection Hc as <-; by eexists|]). done. Qed.

(** ** Properties *)

(** C16. migrate succeeds exactly if the driver executes its first statement and the tables
    that exist already have the columns that are indexed, user_id among them; otherwise
    the database is unchanged.  When it succeeds, whatever happens to the later
    statements, whose errors it drops, no relation that was there changes but the builds
    table, which loses no column and no value.  The columns of that table are then those
    it had (those of the CREATE TABLE if it is new) and, of the four that older databases
    may lack, exactly those whose ALTER was not refused, with their default in the old
    rows; and when none of the five ALTERs was refused the default of cache_hit_rate is -1
    and migrating again changes nothing. *)
Theorem migrate_outcome f fs (db : database) (Hwf : table_wf (builds_table db)) :
  let '(res, db') := migrate f fs db in
  (res = Ok () ↔ f = None ∧ base_ok db = true) ∧
  (res ≠ Ok () → db' = db) ∧
  (res = Ok () →
    (∀ n, n ≠ "builds" → is_Some (db !! n) → db' !! n = db !! n) ∧
    ∃ tb', db' !! "builds" = Some (Tbl tb') ∧ upgraded (builds_table db) tb' ∧
      (∀ n, has_column tb' n = true ↔
         has_column (builds_table db) n = true ∨
         ∃ i c, new_columns !! i = Some c ∧ c_name c = n ∧ granted fs i) ∧
      (∀ i c, new_columns !! i = Some c → granted fs i → has_column (builds_table db) (c_name c) = false →
         Forall (λ r : gmap string const, r !! c_name c = c_default c) (t_rows tb')) ∧
      ((∀ i, i < 5 → granted fs i) →
         Forall (λ k, c_name k = "cache_hit_rate" → c_default k = Some (CInt (-1))) (t_cols tb') ∧
         ∀ fs', migrate None fs' db' = (Ok (), db'))).
Proof.
  unfold migrate at 1. destruct f as [msg|]; cbn [Exec].
  { split_and!; [split; [done|by intros [? _]]|done|done]. }
  pose proof (base_execute db) as Hb. destruct (base_ok db) eqn:Hok.
  2: { destruct Hb as [e ->]. split_and!; [split; [done|by intros [_ ?]]|done|done]. }
  destruct Hb as (db1 & -> & Hsub & Hset). pose proof (base_builds db db1 Hok Hsub) as Hb1.
  rewrite (migrate_loop_all fs db1 _ Hb1). set (tb := builds_table db) in *.
  split_and!; [done|done|]. intros _. split.
  { intros n Hn [r Hr]. rewrite lookup_insert_ne by done. rewrite Hr. eapply lookup_weaken; [exact Hr|].
    etransitivity; [apply base_tables_sub|done]. }
  exists (migrated fs tb). split_and!; [apply lookup_insert_eq|by apply migrated_upgraded|..].
  - intros n. rewrite has_migrated. apply has_add_columns.
  - intros i c Hc Hg Hno. destruct (new_column_default i c Hc) as [d Hd]. rewrite Hd, migrated_rows.
    apply (add_columns_fill new_columns fs tb i c d); [done| |done..].
    eapply bool_decide_unpack. vm_compute. exact I.
  - intros Hg. split.
    + unfold migrated. rewrite (Hg 4) by lia. unfold set_default. cbn [t_cols]. apply Forall_fmap, Forall_true.
      intros k. cbn. destruct (String.eqb_spec (c_name k) "cache_hit_rate") as [_|Hne]; [done|by intros ?].
    + intros fs'. unfold migrate, Exec. rewrite settled_execute.
      * rewrite (migrate_loop_all _ _ (migrated fs tb)) by apply lookup_insert_eq.
        by rewrite insert_insert_eq, (migrated_again fs') by by apply migrated_up_to_date.
      * apply (settled_insert db1 tb); [done..|]. intros c Hc. rewrite has_migrated. apply has_add_columns. by left.
Qed.

(** ** Databases of older versions *)

Definition without (cs : list string) : table :=
  mkTable (filter (λ k, c_name k ∉ cs) builds_columns) [{["id" := CText "b1"; "status" := CText "pending"]}].

(** Without the column of the priorities. *)
Definition old_db : database := {["builds" := Tbl (without ["priority"])]}.

Lemma old_db_wf : table_wf (builds_table old_db).
Proof.
  repeat constructor. intros c Hc.
  apply lookup_insert_is_Some in Hc as [<-|[_ Hc]]; [reflexivity|].
  apply lookup_singleton_is_Some in Hc as <-. reflexivity.
Qed.

Lemma migrate_outcome_witness :
  ∃ db' tb', migrate None [] old_db = (Ok (), db') ∧ db' !! "builds" = Some (Tbl tb') ∧
    Forall (λ r : gmap string const, r !! "priority" = Some (CInt 0)) (t_rows tb') ∧
    migrate None [] db' = (Ok (), db').
Proof.
  pose proof (migrate_outcome None [] old_db old_db_wf) as Hm.
  destruct (migrate None [] old_db) as [res db']. destruct Hm as (Hok & _ & Hup).
  assert (res = Ok ()) as -> by (apply Hok; split; reflexivity).
  destruct (Hup eq_refl) as (_ & tb' & Hb & _ & _ & Hfill & Hall).
  exists db', tb'. split; [reflexivity|]. split; [exact Hb|].
  split; [exact (Hfill 2 (int_col "priority" 0) eq_refl eq_refl eq_refl)|].
  exact (proj2 (Hall (λ i _, eq_refl)) []).
Defined.

(** A refused ALTER is dropped: migrate reports success and the column is still missing. *)
Lemma refused_column_missing :
  match migrate None [None; None; Some "permission denied"] old_db with
  | (res, db') => res = Ok () ∧ relation_has db' "builds" "priority" = false
  end.
Proof. vm_compute. split; reflexivity. Qed.

(** The column of the users is among the migrations, but a database without it never gets
    to them: the base schema's index on it fails first. *)
Lemma user_id_not_migrated :
  text_col "user_id" "" ∈ new_columns ∧
  migrate None [] {["builds" := Tbl (without ["user_id"])]} =
    (no_column "builds" "user_id", {["builds" := Tbl (without ["user_id"])]}).
Proof. split; [unfold new_columns; set_solver|]. vm_compute. reflexivity. Qed.
