(* ===== verification/Persister.v ===== *)
(** * The buildPersister interface

    What the build service needs of its store ([service.go], [buildPersister]): four
    operations, and the laws they obey in terms of a view of the store, the status
    and the worker of each build.  The service is verified against this interface;
    [RepoPersister] shows that the repository implements it. *)

From S2P Require Import Prelude Float64 Domain GoTime.

(** What a call meets: the database's refusal, if any, and the clock. *)
Record env := mkEnv { env_fault : option string; env_now : time }.

Class buildPersister (D : Type) := {
  p_Create : env → D → Build → result () * Build * D;
  p_Get : env → D → string → result Build;
  p_ListPending : env → D → result (list Build);
  p_UpdateStatus : env → D → string → Status → string → string → string → result () * D;
}.

(** [Create] stamps the build it is given. *)
Definition stamped (now : time) (b : Build) : Build :=
  mkBuild (ID b) (BStatus b) (BFingerprint b) (WorkerID b) (ContextKey b) (Dockerfile b)
    (ImageTag b) (Args b) (Instructions b) (Logs b) (BError b) (RetryCount b) (MaxRetries b)
    (TimeoutSeconds b) (UserID b) (Priority b) (CacheHitRate b) now now (CompletedAt b).

Abbreviation view_t := (gmap string (Status * string)).

(** What an update that returns without error does to the view: a terminal status finishes
    the build unless it is finished, building claims it if it is pending, the empty one is
    a log line, and any other one is written as it is. *)
Definition view_update (id : string) (st : Status) (w : string) (v : view_t) : view_t :=
  match v !! id with
  | None => v
  | Some (s, w0) =>
      if IsTerminal st then
        if IsTerminal s then v else <[id := (st, if String.eqb w "" then w0 else w)]> v
      else if String.eqb st StatusBuilding then
        if String.eqb s StatusPending then <[id := (StatusBuilding, w)]> v else v
      else if String.eqb st "" then v
      else <[id := (st, w)]> v
  end.

Definition pending_in (v : view_t) (id : string) : Prop := ∃ w, v !! id = Some (StatusPending, w).

Class PersisterLaws (D : Type) `{buildPersister D} := {
  valid : D → Prop;
  view : D → view_t;
  create_law en d b :
    valid d → modern (env_now en) → BStatus b = StatusPending →
    let '(res, b', d') := p_Create en d b in
    valid d' ∧ b' = stamped (env_now en) b ∧
    match res with
    | Ok _ => view d !! ID b = None ∧
              view d' = <[ID b := (StatusPending, WorkerID b)]> (view d)
    | Err _ => d' = d
    end;
  get_law en d id :
    valid d →
    match p_Get en d id with
    | Ok b => ID b = id ∧ view d !! id = Some (BStatus b, WorkerID b)
    | Err _ => env_fault en ≠ None ∨ view d !! id = None
    end;
  list_law en d :
    valid d →
    match p_ListPending en d with
    | Ok bs => NoDup (ID <$> bs) ∧
        Forall (λ b, pending_in (view d) (ID b) ∧ exact_int (Priority b)) bs ∧
        (bs = [] → ∀ id, ¬ pending_in (view d) id)
    | Err _ => env_fault en ≠ None
    end;
  update_law en d id st w l m :
    valid d → modern (env_now en) →
    let '(res, d') := p_UpdateStatus en d id st w l m in
    valid d' ∧
    match res with
    | Ok _ => view d' = view_update id st w (view d) ∧
              (st = StatusBuilding → pending_in (view d) id)
    | Err _ => view d' = view d ∧
               (env_fault en ≠ None ∨ (st = StatusBuilding ∧ ¬ pending_in (view d) id))
    end;
}.
