(* ===== verification/RepoPersister.v ===== *)
(** * The repository implements buildPersister

    The four methods of [BuildRepo] that the service uses, as an instance of
    [buildPersister], and the proof of the interface's laws for the SQL of
    [repo.go]: the service's theorems hold of the service over this database. *)

From S2P Require Import Prelude Float64 GoSort GoTime Domain Repo Persister.

Section persister.
Context `{!Sorter pending_order}.

#[global] Instance repo_persister : buildPersister DB := {|
  p_Create en db b := Create (env_fault en) (env_now en) db b;
  p_Get en db id := Get (env_fault en) db id;
  p_ListPending en db := ListPending (env_fault en) db;
  p_UpdateStatus en db id st w l m := UpdateStatus (env_fault en) (env_now en) db id st w l m;
|}.

Definition row_view (r : BuildRow) : Status * string := (r_status r, r_worker_id r).
Definition db_view (db : DB) : view_t := row_view <$> builds db.

Lemma lookup_db_view db id : db_view db !! id = row_view <$> builds db !! id.
Proof. apply lookup_fmap. Qed.

Lemma pending_in_view db id : pending_in (db_view db) id ↔ pending_at db id = true.
Proof.
  unfold pending_in, pending_at, is_pending. setoid_rewrite lookup_db_view.
  destruct (builds db !! id) as [r|]; simpl.
  - rewrite String.eqb_eq. unfold row_view. split; [by intros [w [= ? _]]|]. intros <-. by eexists.
  - by split; [intros [? [=]]|].
Qed.

Lemma repo_create_law en db b :
  db_wf db → modern (env_now en) → BStatus b = StatusPending →
  let '(res, b', db') := Create (env_fault en) (env_now en) db b in
  db_wf db' ∧ b' = stamped (env_now en) b ∧
  match res with
  | Ok _ => db_view db !! ID b = None ∧
            db_view db' = <[ID b := (StatusPending, WorkerID b)]> (db_view db)
  | Err _ => db' = db
  end.
Proof.
  intros Hdb Hn Hb.
  pose proof (repo_step_wf db (RCreate (env_fault en) (env_now en) b) (conj Hn Hb) Hdb) as Hwf.
  simpl in Hwf. unfold Create, insertBuild in *. destruct (env_fault en); [done|].
  destruct (negb _); [done|]. cbn [ID] in *. destruct (builds db !! ID b) eqn:E; [done|].
  cbn [snd] in Hwf. split_and!; [done|done|by rewrite lookup_db_view, E|].
  unfold db_view. cbn [builds]. rewrite fmap_insert. by rewrite <- Hb.
Qed.

Lemma repo_get_law e db id :
  db_wf db →
  match Get e db id with
  | Ok b => ID b = id ∧ db_view db !! id = Some (BStatus b, WorkerID b)
  | Err _ => e ≠ None ∨ db_view db !! id = None
  end.
Proof.
  intros [Hb _]. unfold Get. destruct e; [by left|]. rewrite lookup_db_view.
  destruct (builds db !! id) as [r|] eqn:E; [|by right]. split; [|done].
  apply (row_key _ _ (Hb id r E)).
Qed.

Lemma int4_exact z : int4 z = true → exact_int z.
Proof. unfold int4, exact_int. intros. bool_split. lia. Qed.

Lemma repo_list_law e db :
  db_wf db →
  match ListPending e db with
  | Ok bs => NoDup (ID <$> bs) ∧
      Forall (λ b, pending_in (db_view db) (ID b) ∧ exact_int (Priority b)) bs ∧
      (bs = [] → ∀ id, ¬ pending_in (db_view db) id)
  | Err _ => e ≠ None
  end.
Proof.
  intros Hdb. unfold ListPending, listBuilds. destruct e; [done|].
  set (l := Sort (filter (λ r, is_pending r = true) (rows db))).
  assert (∀ r, r ∈ l ↔ builds db !! r_id r = Some r ∧ is_pending r = true) as Hl.
  { intros r. unfold l. rewrite Sort_Permutation, list_elem_of_filter, elem_of_rows by done. tauto. }
  split_and!.
  - rewrite <- list_fmap_compose. change (ID ∘ scanBuild) with r_id. rewrite fmap_take.
    eapply sublist_NoDup; [|apply sublist_take]. unfold l. rewrite Sort_Permutation.
    eapply sublist_NoDup; [by apply NoDup_row_ids|]. apply fmap_sublist, sublist_filter.
  - apply Forall_fmap, Forall_forall. intros r Hr. simpl.
    assert (r ∈ l) as [Hb Hp]%Hl by (eapply elem_of_sublist; [done|apply sublist_take]). split.
    + apply pending_in_view. unfold pending_at. by rewrite Hb.
    + apply int4_exact, (row_priority _ _ (wf_builds db Hdb _ _ Hb)).
  - intros Hnil id Hp. apply pending_in_view in Hp. unfold pending_at in Hp.
    destruct (builds db !! id) as [r|] eqn:E; [|done].
    assert (r ∈ l) as Hin.
    { apply Hl. by rewrite (row_key _ _ (wf_builds db Hdb id r E)). }
    destruct l as [|x l']; [by apply elem_of_nil in Hin|]. done.
Qed.

(** What the statement chosen for a status does to one row's view. *)
Lemma update_stmt_view now id st w l m k r :
  r_id r = k →
  let '(cond, set) := update_stmt now id st w l m in
  row_view (if cond r then set r else r) =
  default (row_view r) (if decide (k = id) then view_update id st w {[id := row_view r]} !! id else None).
Proof.
  intros Hk. unfold update_stmt, view_update.
  rewrite (lookup_singleton_eq id (row_view r)). unfold row_view at 3.
  destruct (IsTerminal st) eqn:Et;
    [destruct (String.eqb w "") eqn:Ew
    |destruct (String.eqb st StatusBuilding) eqn:Eb;
       [apply String.eqb_eq in Eb as ->|destruct (String.eqb st "") eqn:Ez]];
    cbn -[decide IsTerminal]; unfold has_id, not_terminal, is_pending; rewrite Hk;
    (destruct (decide (k = id)) as [->|Hid];
      [rewrite String.eqb_refl|by rewrite (proj2 (String.eqb_neq _ _) Hid)]); cbn -[IsTerminal].
  - destruct (IsTerminal (r_status r)); cbn; by rewrite ?lookup_singleton_eq, ?lookup_insert_eq.
  - destruct (IsTerminal (r_status r)); cbn; by rewrite ?lookup_singleton_eq, ?lookup_insert_eq.
  - destruct (String.eqb (r_status r) StatusPending); cbn; by rewrite ?lookup_singleton_eq, ?lookup_insert_eq.
  - by rewrite lookup_singleton_eq.
  - by rewrite lookup_insert_eq.
Qed.

(** A view is updated at one key, from what it holds there. *)
Lemma view_update_lookup id st w (v : view_t) k :
  view_update id st w v !! k =
  (λ x, default x (if decide (k = id) then view_update id st w {[id := x]} !! id else None)) <$> v !! k.
Proof.
  unfold view_update at 1. destruct (decide (k = id)) as [->|Hne]; simpl.
  - destruct (v !! id) as [[s w0]|] eqn:E; simpl; [|done].
    unfold view_update. rewrite lookup_singleton_eq.
    destruct (IsTerminal st); [destruct (IsTerminal s)|destruct (String.eqb st StatusBuilding);
      [destruct (String.eqb s StatusPending)|destruct (String.eqb st "")]]; simpl;
      rewrite ?lookup_insert_eq, ?lookup_singleton_eq, ?E; done.
  - assert (∀ x, (<[id := x]> v) !! k = v !! k) as Hi by (intros; by rewrite lookup_insert_ne).
    destruct (v !! id) as [[s w0]|]; [|by destruct (v !! k)].
    repeat case_match; rewrite ?Hi; by destruct (v !! k).
Qed.

Lemma update_builds_view now id st w l m db :
  db_wf db →
  let '(cond, set) := update_stmt now id st w l m in
  db_view (update_builds cond set db) = view_update id st w (db_view db).
Proof.
  intros [Hb _]. pose proof (update_stmt_view now id st w l m) as Hu.
  destruct (update_stmt _ _ _ _ _ _) as [cond set]. apply map_eq. intros k.
  rewrite view_update_lookup, !lookup_db_view, lookup_update.
  destruct (builds db !! k) as [r|] eqn:E; [|done]. simpl. f_equal.
  apply Hu, (row_key _ _ (Hb k r E)).
Qed.

Lemma repo_update_law en db id st w l m :
  db_wf db → modern (env_now en) →
  let '(res, db') := UpdateStatus (env_fault en) (env_now en) db id st w l m in
  db_wf db' ∧
  match res with
  | Ok _ => db_view db' = view_update id st w (db_view db) ∧
            (st = StatusBuilding → pending_in (db_view db) id)
  | Err _ => db_view db' = db_view db ∧
             (env_fault en ≠ None ∨ (st = StatusBuilding ∧ ¬ pending_in (db_view db) id))
  end.
Proof.
  intros Hdb Hn. pose proof (UpdateStatus_wf (env_fault en) (env_now en) db id st w l m Hn Hdb) as Hwf.
  pose proof (update_builds_view (utc (env_now en)) id st w l m db Hdb) as Hv.
  destruct (env_fault en) as [msg|] eqn:Ef.
  { unfold UpdateStatus in *. destruct (update_stmt _ _ _ _ _ _). split; [done|]. split; [done|]. by left. }
  destruct (decide (st = StatusBuilding)) as [->|Hnb].
  - pose proof (claim_spec (env_now en) db id w l m Hdb) as Hc. unfold UpdateStatus in *.
    destruct (update_stmt _ _ _ _ _ _) as [cond set]. pose proof (pending_in_view db id) as Hp.
    destruct (_ && _); cbn [fst snd] in *; (split; [done|]).
    + destruct (pending_at db id); [by destruct Hc|]. destruct Hc as [_ ->].
      split; [done|]. right. by rewrite Hp.
    + destruct (pending_at db id); [|by destruct Hc]. split; [done|]. by rewrite Hp.
  - unfold UpdateStatus in *. destruct (update_stmt _ _ _ _ _ _) as [cond set].
    rewrite (proj2 (String.eqb_neq _ _) Hnb) in *. simpl in *. done.
Qed.

#[global] Instance repo_laws : PersisterLaws DB := {|
  valid := db_wf;
  view := db_view;
  create_law := repo_create_law;
  get_law en := repo_get_law (env_fault en);
  list_law en := repo_list_law (env_fault en);
  update_law := repo_update_law;
|}.
End persister.
