(* ===== verification/Service.v ===== *)
(** * internal/service: BuildService

    The build life cycle ([service.go]) over a store that implements
    [buildPersister], the scheduler and the in-memory queue.  Each method is run to
    its end; the calls it makes of the store get their environments as arguments, in
    the order of the calls.  [uuid.New] is the argument [uuid].  Interleavings of
    concurrent calls are the subject of [ServiceRace]. *)

From S2P Require Import Queue Scheduler Prelude Float64 GoStrings GoTime Domain Fingerprint Validate Persister.

Section service.
Context {D : Type} `{buildPersister D} `{UnicodeTables}.

Record BuildService := mkService {
  repo : D;
  scheduler : Scheduler.Scheduler;
  queue : Queue.Queue;
}.

Definition set_repo (s : BuildService) (d : D) : BuildService := mkService d (scheduler s) (queue s).
Definition set_queue (s : BuildService) (q : Queue.Queue) : BuildService :=
  mkService (repo s) (scheduler s) q.

(** The build that a submission describes. *)
Definition new_build (buildID ctxKey content imageTag userID : string) (timeoutSec : Z)
    (args : option (gmap string string)) (fp : Fingerprint) : Build :=
  mkBuild buildID StatusPending (Hash fp) "" ctxKey content imageTag args (FPInstructions fp)
    "" "" 0 0 timeoutSec userID 0 (f64_of_Z (-1)) zero_time zero_time None.

Definition SubmitBuild (enC enU : env) (uuid : string) (s : BuildService)
    (buildID ctxKey dockerfileContent imageTag userID : string) (timeoutSec : Z)
    (args : option (gmap string string)) : option (result Build * BuildService) :=
  v ← Single (mkInput dockerfileContent imageTag);
  if negb (Valid v) then Some (Err (EErrorf ("validation failed: " +:+ Join v "; ")), s)
  else
    let buildID := if String.eqb buildID "" then uuid else buildID in
    fp ← FromDockerfile dockerfileContent;
    let b := new_build buildID ctxKey dockerfileContent imageTag userID timeoutSec args fp in
    if Queue.Full (queue s) then Some (Err EQueueFull, s)
    else
      match p_Create enC (repo s) b with
      | (Err e, _, d) => Some (Err (EWrap "create build" e), set_repo s d)
      | (Ok _, b, d) =>
          match Queue.Push (queue s) b with
          | (false, q) =>
              let '(_, d) := p_UpdateStatus enU d (ID b) StatusCancelled "" "" "queue full at submit time" in
              Some (Err EQueueFull, mkService d (scheduler s) q)
          | (true, q) => Some (Ok b, mkService d (scheduler s) q)
          end
      end.

(** The push loop of AssignBuild and WarmQueue: the number pushed before the queue
    filled. *)
Fixpoint push_all (q : Queue.Queue) (bs : list Build) : nat * Queue.Queue :=
  match bs with
  | [] => (0, q)
  | b :: bs =>
      match Queue.Push q b with
      | (false, q) => (0, q)
      | (true, q) => let '(n, q) := push_all q bs in (S n, q)
      end
  end.

Definition score (s : BuildService) (workerID : string) (b : Build) : float64 :=
  Scheduler.ScoreBuildForWorker (scheduler s) (Instructions b) workerID.

(** [build.Status = StatusBuilding; build.WorkerID = workerID] *)
Definition assigned_build (workerID : string) (b : Build) : Build :=
  mkBuild (ID b) StatusBuilding (BFingerprint b) workerID (ContextKey b) (Dockerfile b)
    (ImageTag b) (Args b) (Instructions b) (Logs b) (BError b) (RetryCount b) (MaxRetries b)
    (TimeoutSeconds b) (UserID b) (Priority b) (CacheHitRate b) (CreatedAt b) (UpdatedAt b)
    (CompletedAt b).

(** The claim at the end of AssignBuild. *)
Definition claim_build (enU : env) (s : BuildService) (workerID : string) (b : Build) :
    result (option Build) * BuildService :=
  match p_UpdateStatus enU (repo s) (ID b) StatusBuilding workerID "" "" with
  | (Err e, d) => (Err e, set_repo s d)
  | (Ok _, d) => (Ok (Some (assigned_build workerID b)), set_repo s d)
  end.

Definition AssignBuild (enL enU : env) (s : BuildService) (workerID : string) :
    result (option Build) * BuildService :=
  match Queue.PeekByScore (queue s) (score s workerID) with
  | (Some b, q) => claim_build enU (set_queue s q) workerID b
  | (None, q) =>
      let s := set_queue s q in
      match p_ListPending enL (repo s) with
      | Err _ => (Ok None, s)
      | Ok [] => (Ok None, s)
      | Ok (b0 :: bs) =>
          let '(_, q) := push_all (queue s) (b0 :: bs) in
          match Queue.PeekByScore q (score s workerID) with
          | (Some b, q) => claim_build enU (set_queue s q) workerID b
          | (None, q) => claim_build enU (set_queue s q) workerID b0
          end
      end
  end.

Definition CompleteBuild `{!GoSort.Sorter Scheduler.node_le} (enU enG : env) (s : BuildService)
    (id : string) (status : Status) (errMsg : string) : result () * BuildService :=
  match p_UpdateStatus enU (repo s) id status "" "" errMsg with
  | (Err e, d) => (Err e, set_repo s d)
  | (Ok _, d) =>
      match p_Get enG d id with
      | Err _ => (Ok (), set_repo s d)
      | Ok b =>
          if String.eqb (WorkerID b) "" then (Ok (), set_repo s d)
          else (Ok (), mkService d (Scheduler.MarkWorkerIdle (scheduler s) (WorkerID b) [BFingerprint b])
                         (queue s))
      end
  end.

Definition CancelBuild (enG enU : env) (s : BuildService) (id : string) : result () * BuildService :=
  match p_Get enG (repo s) id with
  | Err e => (Err e, s)
  | Ok b =>
      if negb (String.eqb (BStatus b) StatusPending || String.eqb (BStatus b) StatusBuilding)
      then (Err (EErrorf "build not cancellable"), s)
      else
        let '(_, q) := Queue.Remove (queue s) id in
        let '(res, d) := p_UpdateStatus enU (repo s) id StatusCancelled "" "" "cancelled by user" in
        (res, mkService d (scheduler s) q)
  end.

Definition QueueLen (s : BuildService) : Z := Queue.Len (queue s).

Definition WarmQueue (enL : env) (s : BuildService) : result nat * BuildService :=
  match p_ListPending enL (repo s) with
  | Err e => (Err (EWrap "list pending" e), s)
  | Ok bs => let '(n, q) := push_all (queue s) bs in (Ok n, set_queue s q)
  end.

Definition AppendLog (enU : env) (s : BuildService) (id line : string) : result () * BuildService :=
  let '(res, d) := p_UpdateStatus enU (repo s) id "" "" line "" in (res, set_repo s d).
End service.

Arguments BuildService D : clear implicits.

(** ** The invariant *)

Section laws.
Context {D : Type} `{PersisterLaws D} `{UnicodeTables}.
Implicit Types s : BuildService D.

Abbreviation contents := Queue.contents.

(** A queue in step with a view: distinct builds, all of them pending there. *)
Record queue_tracks (v : view_t) (q : Queue.Queue) : Prop := {
  qt_wf : Queue.queue_wf q;
  qt_distinct : NoDup (ID <$> contents q);
  qt_pending : Forall (λ b, pending_in v (ID b)) (contents q);
}.

Record svc_wf s : Prop := {
  swf_valid : valid (repo s);
  swf_queue : queue_tracks (view (repo s)) (queue s);
}.

Lemma queue_tracks_mono v v' q :
  queue_tracks v q → (∀ id, id ∈ ID <$> contents q → pending_in v id → pending_in v' id) →
  queue_tracks v' q.
Proof.
  intros [Hq Hd Hp] Hm. split; [done..|]. rewrite Forall_forall in *.
  intros b Hb. apply Hm; [|by apply Hp]. apply list_elem_of_fmap. eauto.
Qed.

Lemma queue_tracks_New v n : queue_tracks v (Queue.New n).
Proof. split; [apply Queue.New_wf|constructor|constructor]. Qed.

(** Taking a build out of the queue. *)
Lemma queue_tracks_remove v q q' b :
  queue_tracks v q → Queue.queue_wf q' → contents q ≡ₚ b :: contents q' →
  queue_tracks v q' ∧ pending_in v (ID b) ∧ ID b ∉ ID <$> contents q'.
Proof.
  intros [Hq Hd Hp] Hq' Hc. rewrite Hc in Hd, Hp. simpl in Hd.
  apply NoDup_cons in Hd as [Hn Hd]. apply Forall_cons in Hp as [Hb Hp]. by split_and!.
Qed.

Lemma Push_tracks v q b :
  queue_tracks v q → exact_int (Priority b) → pending_in v (ID b) → ID b ∉ ID <$> contents q →
  let '(ok, q') := Queue.Push q b in
  ok = negb (Queue.Full q) ∧ queue_tracks v q' ∧
  contents q' ≡ₚ (if ok then [b] else []) ++ contents q.
Proof.
  intros Hq Hpr Hp Hn. destruct (Queue.Full q) eqn:Hf.
  - rewrite Queue.Push_full by done. done.
  - destruct (Queue.Push_room q b) as (Hok & Hwf & Hc); [apply Hq|done|done|].
    destruct (Queue.Push q b) as [ok q']. simpl in *. subst ok. split_and!; [done| |done].
    destruct Hq as [_ Hd Hps]. split; [done| |]; rewrite Hc; [|by constructor].
    simpl. by apply NoDup_cons.
Qed.

(** The push loop keeps the queue in step, and pushes something on an empty queue. *)
Lemma push_all_tracks v bs q :
  queue_tracks v q → NoDup (ID <$> bs) →
  Forall (λ b, pending_in v (ID b) ∧ exact_int (Priority b)) bs →
  (∀ b, b ∈ bs → ID b ∉ ID <$> contents q) →
  let '(n, q') := push_all q bs in
  queue_tracks v q' ∧ n ≤ length bs ∧ contents q' ≡ₚ reverse (take n bs) ++ contents q ∧
  (n < length bs → Queue.Full q' = true).
Proof.
  revert q; induction bs as [|b bs IH]; intros q Hq Hnd Hbs Hdis; cbn [push_all].
  { by split_and!; [..|simpl; lia]. }
  apply Forall_cons in Hbs as [[Hb Hpr] Hbs]. simpl in Hnd. apply NoDup_cons in Hnd as [Hbn Hnd].
  pose proof (Push_tracks v q b Hq Hpr Hb (Hdis b ltac:(left))) as Hpush.
  destruct (Queue.Push q b) as [ok q1] eqn:Ep. destruct Hpush as (Hok & Hq1 & Hc1). destruct ok.
  - specialize (IH q1 Hq1 Hnd Hbs). destruct (push_all q1 bs) as [n q2].
    destruct IH as (Hq2 & Hn & Hc2 & Hfull).
    + intros b' Hb'. rewrite Hc1. simpl. rewrite not_elem_of_cons. split.
      * intros He. apply Hbn. rewrite <- He. apply list_elem_of_fmap. eauto.
      * apply Hdis. by right.
    + split_and!; [done|simpl; lia| |simpl; intros; apply Hfull; lia].
      rewrite Hc2, Hc1. simpl. rewrite reverse_cons, <- app_assoc. done.
  - split_and!; [done|simpl; lia|by rewrite Hc1|]. intros _.
    rewrite Queue.Push_full in Ep by (by destruct (Queue.Full q)). injection Ep as <-.
    by destruct (Queue.Full q).
Qed.

(** On an empty queue the loop pushes at least one build. *)
Lemma push_all_nonempty v bs q :
  queue_tracks v q → contents q = [] → NoDup (ID <$> bs) →
  Forall (λ b, pending_in v (ID b) ∧ exact_int (Priority b)) bs → bs ≠ [] →
  let '(n, q') := push_all q bs in
  queue_tracks v q' ∧ contents q' ≠ [] ∧ ∀ b, b ∈ contents q' → b ∈ bs.
Proof.
  intros Hq He Hnd Hbs Hne. pose proof (push_all_tracks v bs q Hq Hnd Hbs) as Ht.
  destruct (push_all q bs) as [n q']. rewrite He in Ht.
  destruct Ht as (Hq' & Hn & Hc & Hfull); [by intros; apply not_elem_of_nil|].
  rewrite app_nil_r in Hc. split_and!; [done| |].
  - intros Hz. rewrite Hz in Hc. apply Permutation_nil_l in Hc.
    apply (f_equal length) in Hc. rewrite length_reverse, length_take in Hc. simpl in Hc.
    destruct bs as [|b bs]; [done|]. simpl in *.
    specialize (Hfull ltac:(lia)). unfold Queue.Full in Hfull.
    pose proof (Queue.length_contents q') as Hl. rewrite Hz in Hl. simpl in Hl.
    unfold Queue.Len in Hl. bool_split. lia.
  - intros b Hb. rewrite Hc, elem_of_reverse in Hb. eapply elem_of_sublist; [done|apply sublist_take].
Qed.

(** ** The operations on a state in step *)

Lemma claim_build_spec enU s w b :
  valid (repo s) → modern (env_now enU) →
  let '(res, s') := claim_build enU s w b in
  valid (repo s') ∧ scheduler s' = scheduler s ∧ queue s' = queue s ∧
  match res with
  | Ok ob => ob = Some (assigned_build w b) ∧ pending_in (view (repo s)) (ID b) ∧
             view (repo s') = <[ID b := (StatusBuilding, w)]> (view (repo s))
  | Err _ => view (repo s') = view (repo s) ∧
             (env_fault enU ≠ None ∨ ¬ pending_in (view (repo s)) (ID b))
  end.
Proof.
  intros Hv Hn. unfold claim_build.
  pose proof (update_law enU (repo s) (ID b) StatusBuilding w "" "" Hv Hn) as Hu.
  destruct (p_UpdateStatus _ _ _ _ _ _ _) as [[u|e] d'].
  - destruct Hu as (Hv' & Hview & Hp). simpl. split_and!; [done..| |].
    + by apply Hp.
    + rewrite Hview. unfold view_update. destruct (Hp eq_refl) as [w' ->]. done.
  - destruct Hu as (Hv' & Hview & Hf). simpl. split_and!; [done..|].
    destruct Hf as [?|[_ ?]]; auto.
Qed.

(** Claiming a build that was taken out of the queue keeps the rest in step. *)
Lemma claim_tracks v q id w :
  queue_tracks v q → id ∉ ID <$> contents q → queue_tracks (<[id := (StatusBuilding, w)]> v) q.
Proof.
  intros Hq Hid. eapply queue_tracks_mono; [done|]. intros id' Hin [w' Hw]. exists w'.
  rewrite lookup_insert_ne; [done|]. by intros <-.
Qed.

(** What AssignBuild may answer. *)
Definition assign_answer (enL enU : env) s (w : string) (res : result (option Build)) s' : Prop :=
  match res with
  | Ok (Some b) => pending_in (view (repo s)) (ID b) ∧ BStatus b = StatusBuilding ∧ WorkerID b = w ∧
      view (repo s') = <[ID b := (StatusBuilding, w)]> (view (repo s))
  | Ok None => view (repo s') = view (repo s) ∧
      (env_fault enL ≠ None ∨ ∀ id, ¬ pending_in (view (repo s)) id)
  | Err _ => view (repo s') = view (repo s) ∧ env_fault enU ≠ None
  end.

Lemma claim_answer enL enU s q w b :
  valid (repo s) → modern (env_now enU) →
  queue_tracks (view (repo s)) q → pending_in (view (repo s)) (ID b) → ID b ∉ ID <$> contents q →
  let '(res, s') := claim_build enU (set_queue s q) w b in
  svc_wf s' ∧ scheduler s' = scheduler s ∧ assign_answer enL enU s w res s'.
Proof.
  intros Hv Hn Hq Hp Hnin. pose proof (claim_build_spec enU (set_queue s q) w b Hv Hn) as Hc.
  destruct (claim_build _ _ _ _) as [res s']. simpl in Hc. destruct Hc as (Hv' & Hs & Hqq & Hres).
  split_and!; [|done|].
  - split; [done|]. rewrite Hqq. destruct res as [ob|e].
    + destruct Hres as (_ & _ & ->). by apply claim_tracks.
    + destruct Hres as [-> _]. done.
  - destruct res as [ob|e]; simpl.
    + by destruct Hres as (-> & _ & ->).
    + destruct Hres as [-> [?|?]]; done.
Qed.

Lemma AssignBuild_spec enL enU s w :
  svc_wf s → modern (env_now enU) →
  let '(res, s') := AssignBuild enL enU s w in
  svc_wf s' ∧ scheduler s' = scheduler s ∧ assign_answer enL enU s w res s'.
Proof.
  intros [Hv Hq] Hn. unfold AssignBuild.
  destruct (decide (Queue.q_heap (queue s) = [])) as [He|He].
  - rewrite Queue.PeekByScore_empty by done. cbn [repo set_queue queue].
    assert (contents (queue s) = []) as Hce by by apply Queue.contents_nil.
    pose proof (list_law enL (repo s) Hv) as Hl.
    destruct (p_ListPending enL (repo s)) as [[|b0 bs]|e].
    + destruct Hl as (_ & _ & Hnone). split_and!; [by split|done|]. split; [done|]. right. by apply Hnone.
    + destruct Hl as (Hnd & Hbs & _).
      pose proof (push_all_nonempty (view (repo s)) (b0 :: bs) (queue s) Hq Hce Hnd Hbs ltac:(done)) as Hp.
      destruct (push_all (queue s) (b0 :: bs)) as [n q1]. destruct Hp as (Hq1 & Hne1 & _).
      match goal with |- context [PeekByScore q1 ?f] =>
        destruct (Queue.PeekByScore_nonempty q1 f) as (b & q2 & -> & Hq2 & _ & Hc & _) end;
        [apply Hq1|by intros ?%Queue.contents_nil|].
      destruct (queue_tracks_remove _ _ _ _ Hq1 Hq2 Hc) as (Hq2' & Hpb & Hnin).
      by apply (claim_answer enL enU s q2 w b).
    + split_and!; [by split|done|]. split; [done|]. by left.
  - destruct (Queue.PeekByScore_nonempty (queue s) (score s w))
      as (b & q2 & -> & Hq2 & _ & Hc & _); [apply Hq|done|].
    destruct (queue_tracks_remove _ _ _ _ Hq Hq2 Hc) as (Hq2' & Hpb & Hnin).
    by apply (claim_answer enL enU s q2 w b).
Qed.

(** What SubmitBuild may answer, once it answers. *)
Definition submit_answer s (res : result Build) s' : Prop :=
  match res with
  | Ok b => view (repo s) !! ID b = None ∧
      view (repo s') = <[ID b := (StatusPending, "")]> (view (repo s)) ∧
      contents (queue s') ≡ₚ b :: contents (queue s)
  | Err _ => view (repo s') = view (repo s) ∧ queue s' = queue s
  end.

Lemma SubmitBuild_spec enC enU uuid s id ctx df tag user tmo args res s' :
  svc_wf s → modern (env_now enC) →
  SubmitBuild enC enU uuid s id ctx df tag user tmo args = Some (res, s') →
  svc_wf s' ∧ scheduler s' = scheduler s ∧ submit_answer s res s'.
Proof.
  intros Hs Hn. unfold SubmitBuild. destruct (Single _) as [v|]; [|done]. cbn [mbind option_bind].
  destruct (negb (Valid v)); [intros [= <- <-]; done|].
  destruct (FromDockerfile df) as [fp|]; [|done]. cbn [mbind option_bind].
  set (b := new_build _ _ _ _ _ _ _ _). destruct (Queue.Full (queue s)) eqn:Hf; [intros [= <- <-]; done|].
  destruct Hs as [Hv Hq]. pose proof (create_law enC (repo s) b Hv Hn eq_refl) as Hc.
  destruct (p_Create enC (repo s) b) as [[[u|e] b'] d].
  - destruct Hc as (Hv' & Hb' & Hnew & Hview).
    assert (queue_tracks (view d) (queue s)) as Hq'.
    { eapply queue_tracks_mono; [done|]. intros i _ [w Hw]. exists w. rewrite Hview.
      rewrite lookup_insert_ne; [done|]. intros <-. congruence. }
    assert (ID b' = ID b) as Hid by by rewrite Hb'.
    assert (ID b' ∉ ID <$> contents (queue s)) as Hnin.
    { rewrite Hid. intros (x & Hx & Hin)%list_elem_of_fmap. destruct Hq as [_ _ Hp].
      rewrite Forall_forall in Hp. destruct (Hp x Hin) as [w Hw]. rewrite <- Hx in Hw. congruence. }
    pose proof (Push_tracks (view d) (queue s) b' Hq') as Hpush.
    destruct (Queue.Push (queue s) b') as [ok q]. rewrite Hf in Hpush.
    destruct Hpush as (-> & Hq'' & Hcont); [by rewrite Hb'; unfold exact_int; simpl; lia| |done|].
    { rewrite Hid. exists "". rewrite Hview. by rewrite lookup_insert_eq. }
    simpl. intros [= <- <-]. split_and!; [by split|done|]. simpl. rewrite Hid.
    split_and!; [done| |done]. by rewrite Hview.
  - destruct Hc as (Hv' & _ & ->). intros [= <- <-]. by split_and!; [split|..].
Qed.

(** Finishing a build that is not queued keeps the queue in step. *)
Lemma update_tracks v q id st w :
  queue_tracks v q → (id ∈ ID <$> contents q → st = "") →
  queue_tracks (view_update id st w v) q.
Proof.
  intros Hq Hid. eapply queue_tracks_mono; [done|]. intros i Hin [w' Hw]. exists w'.
  unfold view_update. destruct (v !! id) as [[s0 w0]|] eqn:E; [|done].
  destruct (decide (i = id)) as [->|Hne].
  - by rewrite (Hid Hin).
  - repeat case_match; rewrite ?lookup_insert_ne by done; done.
Qed.

Lemma Remove_tracks v q id :
  queue_tracks v q →
  let '(_, q') := Queue.Remove q id in
  queue_tracks v q' ∧ contents q' ≡ₚ filter (λ b, ID b ≠ id) (contents q).
Proof.
  intros Hq. destruct (decide (Forall (λ b, ID b ≠ id) (contents q))) as [Hn|Hn].
  - rewrite Queue.Remove_absent by done. split; [done|]. by rewrite filter_all.
  - destruct (Queue.Remove_present q id) as (b & q' & -> & Hq' & _ & Hc & Hb); [apply Hq|done|].
    destruct (queue_tracks_remove _ _ _ _ Hq Hq' Hc) as (? & _ & Hnin). rewrite Hb in Hnin.
    split; [done|]. rewrite Hc, filter_cons_False by (intros ?; done). rewrite filter_all; [done|].
    apply Forall_forall. intros x Hx Hid. apply Hnin. rewrite <- Hid. by apply list_elem_of_fmap_2.
Qed.

(** No build of that id is left. *)
Lemma filter_id_free (l : list Build) id : id ∉ ID <$> filter (λ b, ID b ≠ id) l.
Proof. intros (b & -> & [Hb _]%list_elem_of_filter)%list_elem_of_fmap. done. Qed.

(** What CancelBuild may answer.  When the write of the status fails, the build is already
    out of the queue. *)
Definition cancellable (v : view_t) (id : string) : Prop :=
  ∃ st w, v !! id = Some (st, w) ∧ (st = StatusPending ∨ st = StatusBuilding).

Definition cancel_answer (enG enU : env) s (id : string) (res : result ()) s' : Prop :=
  match res with
  | Ok _ => ∃ st w, view (repo s) !! id = Some (st, w) ∧ (st = StatusPending ∨ st = StatusBuilding) ∧
      view (repo s') = <[id := (StatusCancelled, w)]> (view (repo s)) ∧
      contents (queue s') ≡ₚ filter (λ b, ID b ≠ id) (contents (queue s))
  | Err _ => view (repo s') = view (repo s) ∧
      (s' = s ∧ (env_fault enG ≠ None ∨ ¬ cancellable (view (repo s)) id) ∨
       env_fault enU ≠ None ∧ cancellable (view (repo s)) id ∧
         contents (queue s') ≡ₚ filter (λ b, ID b ≠ id) (contents (queue s)))
  end.

(** The second half of CancelBuild, on a pending or building build. *)
Lemma cancel_commit enG enU s id st w :
  svc_wf s → modern (env_now enU) → view (repo s) !! id = Some (st, w) →
  st = StatusPending ∨ st = StatusBuilding →
  let '(_, q) := Queue.Remove (queue s) id in
  let '(res, d) := p_UpdateStatus enU (repo s) id StatusCancelled "" "" "cancelled by user" in
  svc_wf (mkService d (scheduler s) q) ∧
  cancel_answer enG enU s id res (mkService d (scheduler s) q).
Proof.
  intros [Hv Hq] Hn Hview Hst. pose proof (Remove_tracks _ _ id Hq) as Hr.
  destruct (Queue.Remove (queue s) id) as [ob q]. destruct Hr as (Hq' & Hc).
  assert (id ∉ ID <$> contents q) as Hnin by (rewrite Hc; apply filter_id_free).
  pose proof (update_law enU (repo s) id StatusCancelled "" "" "cancelled by user" Hv Hn) as Hu.
  destruct (p_UpdateStatus _ _ _ _ _ _ _) as [[u|e] d']; destruct Hu as (Hv' & Hvw & Hf).
  - split.
    + split; [done|]. cbn [repo queue]. rewrite Hvw. apply update_tracks; [done|by intros ?%Hnin].
    + exists st, w. cbn [repo queue]. rewrite Hvw. unfold view_update. rewrite Hview.
      split_and!; [done|done|by destruct Hst as [->| ->]|done].
  - split; [split; [done|]; cbn [repo queue]; by rewrite Hvw|].
    split; [done|]. right. destruct Hf as [?|[? _]]; [|done]. split_and!; [done|by exists st, w|done].
Qed.

Lemma CancelBuild_spec enG enU s id :
  svc_wf s → modern (env_now enU) →
  let '(res, s') := CancelBuild enG enU s id in
  svc_wf s' ∧ scheduler s' = scheduler s ∧ cancel_answer enG enU s id res s'.
Proof.
  intros Hs Hn. unfold CancelBuild. pose proof (swf_valid s Hs) as Hv.
  pose proof (get_law enG (repo s) id Hv) as Hg. destruct (p_Get enG (repo s) id) as [b|e].
  2: { split_and!; [done..|]. split; [done|]. left. split; [done|]. destruct Hg as [?|Hg]; [by left|]. right.
       intros (st & w & Hl & _). congruence. }
  destruct Hg as [Hid Hview].
  destruct (String.eqb (BStatus b) StatusPending || String.eqb (BStatus b) StatusBuilding) eqn:E; cbn [negb].
  - apply orb_true_iff in E. rewrite !String.eqb_eq in E.
    pose proof (cancel_commit enG enU s id _ _ Hs Hn Hview E) as Hc.
    destruct (Queue.Remove (queue s) id) as [ob q]. destruct (p_UpdateStatus _ _ _ _ _ _ _) as [res d].
    by destruct Hc.
  - apply orb_false_iff in E as [E1%String.eqb_neq E2%String.eqb_neq].
    split_and!; [done..|]. split; [done|]. left. split; [done|]. right.
    intros (st & w & Hl & Hst). rewrite Hview in Hl. injection Hl as <- <-. by destruct Hst.
Qed.

(** What CompleteBuild does, whatever the status and the build. *)
Definition complete_answer `{!GoSort.Sorter Scheduler.node_le} (enU enG : env) s (id : string) (st : Status)
    (res : result ()) s' : Prop :=
  match res with
  | Ok _ => view (repo s') = view_update id st "" (view (repo s)) ∧
      (st = StatusBuilding → pending_in (view (repo s)) id) ∧
      match p_Get enG (repo s') id with
      | Ok b => snd <$> view (repo s') !! id = Some (WorkerID b) ∧
          scheduler s' = if decide (WorkerID b = "") then scheduler s
                         else Scheduler.MarkWorkerIdle (scheduler s) (WorkerID b) [BFingerprint b]
      | Err _ => scheduler s' = scheduler s ∧ (env_fault enG ≠ None ∨ view (repo s') !! id = None)
      end
  | Err _ => view (repo s') = view (repo s) ∧ scheduler s' = scheduler s ∧
      (env_fault enU ≠ None ∨ st = StatusBuilding ∧ ¬ pending_in (view (repo s)) id)
  end.

Lemma CompleteBuild_effect `{!GoSort.Sorter Scheduler.node_le} enU enG s id st msg :
  valid (repo s) → modern (env_now enU) →
  let '(res, s') := CompleteBuild enU enG s id st msg in
  valid (repo s') ∧ queue s' = queue s ∧ complete_answer enU enG s id st res s'.
Proof.
  intros Hv Hn. unfold CompleteBuild, complete_answer. pose proof (update_law enU (repo s) id st "" "" msg Hv Hn) as Hu.
  destruct (p_UpdateStatus _ _ _ _ _ _ _) as [[u|e] d']; destruct Hu as (Hv' & Hvw & Hf); [|done].
  pose proof (get_law enG d' id Hv') as Hg. destruct (p_Get enG d' id) as [b|e] eqn:EG.
  - destruct Hg as [_ Hg].
    destruct (String.eqb_spec (WorkerID b) "") as [Hwb|Hwb]; cbn [repo queue scheduler set_repo]; rewrite EG, Hg;
      (split_and!; [done..|]); [by rewrite decide_True|by rewrite decide_False].
  - cbn [repo queue scheduler set_repo]. rewrite EG. by split_and!.
Qed.

(** A completion with a terminal status keeps queue and store in step if the build is not
    pending. *)
Lemma CompleteBuild_spec `{!GoSort.Sorter Scheduler.node_le} enU enG s id st msg :
  svc_wf s → modern (env_now enU) → IsTerminal st = true → ¬ pending_in (view (repo s)) id →
  let '(res, s') := CompleteBuild enU enG s id st msg in
  svc_wf s' ∧ queue s' = queue s ∧
  match res with
  | Ok _ => view (repo s') = view_update id st "" (view (repo s))
  | Err _ => view (repo s') = view (repo s) ∧ scheduler s' = scheduler s ∧ env_fault enU ≠ None
  end.
Proof.
  intros [Hv Hq] Hn Hst Hnp. pose proof (CompleteBuild_effect enU enG s id st msg Hv Hn) as He.
  assert (id ∉ ID <$> contents (queue s)) as Hnin.
  { intros (b & -> & Hb)%list_elem_of_fmap. destruct Hq as [_ _ Hp]. rewrite Forall_forall in Hp. auto. }
  destruct (CompleteBuild _ _ _ _ _ _) as [res s']. destruct He as (Hv' & Hqq & Hres).
  split_and!; [split; [done|]; rewrite Hqq|done|].
  - destruct res; destruct Hres as [-> _]; [|done]. apply update_tracks; [done|by intros ?%Hnin].
  - destruct res; [by destruct Hres|]. destruct Hres as (? & ? & [?|[-> _]]); [done|done].
Qed.

Lemma AppendLog_spec enU s id line :
  svc_wf s → modern (env_now enU) →
  let '(res, s') := AppendLog enU s id line in
  svc_wf s' ∧ queue s' = queue s ∧ scheduler s' = scheduler s ∧ view (repo s') = view (repo s).
Proof.
  intros [Hv Hq] Hn. unfold AppendLog.
  pose proof (update_law enU (repo s) id "" "" line "" Hv Hn) as Hu.
  destruct (p_UpdateStatus _ _ _ _ _ _ _) as [res d']. destruct Hu as [Hv' Hu].
  assert (view d' = view (repo s)) as Hvw.
  { destruct res; destruct Hu as [-> _]; [|done]. unfold view_update.
    by destruct (view (repo s) !! id) as [[? ?]|]. }
  split_and!; [|done..]. split; [done|]. simpl. by rewrite Hvw.
Qed.

Lemma WarmQueue_spec enL s :
  svc_wf s → contents (queue s) = [] →
  let '(res, s') := WarmQueue enL s in
  svc_wf s' ∧ repo s' = repo s ∧ scheduler s' = scheduler s ∧
  match res with
  | Ok n => length (contents (queue s')) = n ∧
      (env_fault enL = None → (∃ id, pending_in (view (repo s)) id) → 0 < n)
  | Err _ => queue s' = queue s ∧ env_fault enL ≠ None
  end.
Proof.
  intros [Hv Hq] He. unfold WarmQueue. pose proof (list_law enL (repo s) Hv) as Hl.
  destruct (p_ListPending enL (repo s)) as [bs|e]; [|by split_and!; [split|..]].
  destruct Hl as (Hnd & Hbs & Hnil).
  pose proof (push_all_tracks (view (repo s)) bs (queue s) Hq Hnd Hbs) as Ht.
  pose proof (push_all_nonempty (view (repo s)) bs (queue s) Hq He Hnd Hbs) as Hne.
  destruct (push_all (queue s) bs) as [n q]. rewrite He in Ht.
  destruct Ht as (Hq' & Hn & Hc & _); [by intros; apply not_elem_of_nil|].
  assert (length (contents q) = n) as Hlen.
  { rewrite Hc, app_nil_r, length_reverse, length_take. lia. }
  split_and!; [by split|done..|]. intros _ [id Hid]. destruct bs as [|b bs].
  - exfalso. by apply (Hnil eq_refl id).
  - destruct Hne as (_ & Hne & _); [done|]. rewrite <- Hlen. destruct (contents q); [done|simpl; lia].
Qed.

(** ** Steps *)

(** The calls of the service, and a change of the store by another component
    (maintenance, heartbeats), which must not touch pending builds. *)
Inductive svc_op :=
  | SubmitOp (enC enU : env) (uuid id ctx df tag user : string) (tmo : Z) (args : option (gmap string string))
  | AssignOp (enL enU : env) (w : string)
  | CompleteOp (enU enG : env) (id : string) (st : Status) (msg : string)
  | CancelOp (enG enU : env) (id : string)
  | WarmOp (enL : env)
  | LogOp (enU : env) (id line : string)
  | StoreOp (d : D).

(** A panic of SubmitBuild happens before any change, and the server recovers it. *)
Definition svc_step `{!GoSort.Sorter Scheduler.node_le} s (op : svc_op) : BuildService D :=
  match op with
  | SubmitOp enC enU uuid id ctx df tag user tmo args =>
      match SubmitBuild enC enU uuid s id ctx df tag user tmo args with
      | Some (_, s') => s' | None => s end
  | AssignOp enL enU w => (AssignBuild enL enU s w).2
  | CompleteOp enU enG id st msg => (CompleteBuild enU enG s id st msg).2
  | CancelOp enG enU id => (CancelBuild enG enU s id).2
  | WarmOp enL => (WarmQueue enL s).2
  | LogOp enU id line => (AppendLog enU s id line).2
  | StoreOp d => set_repo s d
  end.

(** The calls in order: a worker completes, with a terminal status, a build that is
    not pending; the queue is warmed while it is empty. *)
Definition svc_op_ok s (op : svc_op) : Prop :=
  match op with
  | SubmitOp enC _ _ _ _ _ _ _ _ _ => modern (env_now enC)
  | AssignOp _ enU _ => modern (env_now enU)
  | CompleteOp enU _ id st _ =>
      modern (env_now enU) ∧ IsTerminal st = true ∧ ¬ pending_in (view (repo s)) id
  | CancelOp _ enU _ => modern (env_now enU)
  | WarmOp _ => contents (queue s) = []
  | LogOp enU _ _ => modern (env_now enU)
  | StoreOp d => valid d ∧ ∀ id, pending_in (view (repo s)) id → pending_in (view d) id
  end.

Context `{!GoSort.Sorter Scheduler.node_le}.

Lemma svc_step_wf s op : svc_wf s → svc_op_ok s op → svc_wf (svc_step s op).
Proof.
  intros Hs Hop.
  destruct op as [enC enU uuid id ctx df tag user tmo args|enL enU w|enU enG id st msg|enG enU id|enL|enU id line|d];
    simpl in *.
  - destruct (SubmitBuild _ _ _ _ _ _ _ _ _ _ _) as [[res s']|] eqn:E; [|done].
    by eapply SubmitBuild_spec in E as [? _].
  - pose proof (AssignBuild_spec enL enU s w Hs Hop). destruct (AssignBuild _ _ _ _). tauto.
  - destruct Hop as (Hn & Hst & Hp). pose proof (CompleteBuild_spec enU enG s id st msg Hs Hn Hst Hp).
    destruct (CompleteBuild _ _ _ _ _ _). tauto.
  - pose proof (CancelBuild_spec enG enU s id Hs Hop). destruct (CancelBuild _ _ _ _). tauto.
  - pose proof (WarmQueue_spec enL s Hs Hop). destruct (WarmQueue _ _). tauto.
  - pose proof (AppendLog_spec enU s id line Hs Hop). destruct (AppendLog _ _ _ _). tauto.
  - destruct Hop as [Hv Hm]. split; [done|]. simpl. eapply queue_tracks_mono; [apply Hs|]. auto.
Qed.

Inductive svc_reachable : BuildService D → Prop :=
  | svc_init d sch n : valid d → svc_reachable (mkService d sch (Queue.New n))
  | svc_next s op : svc_reachable s → svc_op_ok s op → svc_reachable (svc_step s op).

Lemma svc_reachable_wf s : svc_reachable s → svc_wf s.
Proof.
  induction 1; [|by apply svc_step_wf]. split; [done|apply queue_tracks_New].
Qed.

(** *** Without conditions on the calls

    Whatever is completed, with whatever status, and whenever the queue is warmed: the
    store stays valid, the queue a well-formed heap, and nothing is handed out that was
    not pending. *)
Definition svc_sound s : Prop := valid (repo s) ∧ Queue.queue_wf (queue s).

Lemma Push_wf q b : Queue.queue_wf q → exact_int (Priority b) → Queue.queue_wf (Queue.Push q b).2.
Proof.
  intros Hq Hp. destruct (Queue.Full q) eqn:Hf; [by rewrite Queue.Push_full|].
  by apply Queue.Push_room.
Qed.

Lemma push_all_wf bs q :
  Queue.queue_wf q → Forall (λ b, exact_int (Priority b)) bs → Queue.queue_wf (push_all q bs).2.
Proof.
  intros Hq Hbs. revert q Hq; induction Hbs as [|b bs Hb _ IH]; intros q Hq; [done|]. cbn [push_all].
  pose proof (Push_wf q b Hq Hb) as Hp. destruct (Queue.Push q b) as [[] q1]; [|done].
  specialize (IH q1 Hp). by destruct (push_all q1 bs).
Qed.

Lemma PeekByScore_wf q f : Queue.queue_wf q → Queue.queue_wf (Queue.PeekByScore q f).2.
Proof.
  intros Hq. destruct (decide (Queue.q_heap q = [])); [by rewrite Queue.PeekByScore_empty|].
  by destruct (Queue.PeekByScore_nonempty q f) as (b & q' & -> & Hq' & _).
Qed.

Lemma Remove_wf q id : Queue.queue_wf q → Queue.queue_wf (Queue.Remove q id).2.
Proof.
  intros Hq. destruct (decide (Forall (λ b, ID b ≠ id) (contents q))); [by rewrite Queue.Remove_absent|].
  by destruct (Queue.Remove_present q id) as (b & q' & -> & Hq' & _).
Qed.

Lemma listed_exact en s : valid (repo s) →
  match p_ListPending en (repo s) with Ok bs => Forall (λ b, exact_int (Priority b)) bs | Err _ => True end.
Proof.
  intros Hv. pose proof (list_law en (repo s) Hv) as Hl. destruct (p_ListPending en (repo s)); [|done].
  destruct Hl as (_ & Hbs & _). eapply Forall_impl; [exact Hbs|]. by intros b [_ ?].
Qed.

(** What a poll hands out in any state. *)
Definition assign_safe s (w : string) (res : result (option Build)) s' : Prop :=
  match res with
  | Ok (Some b) => pending_in (view (repo s)) (ID b) ∧ BStatus b = StatusBuilding ∧ WorkerID b = w ∧
      view (repo s') = <[ID b := (StatusBuilding, w)]> (view (repo s))
  | _ => view (repo s') = view (repo s)
  end.

Lemma claim_safe enU s q w b :
  valid (repo s) → Queue.queue_wf q → modern (env_now enU) →
  let '(res, s') := claim_build enU (set_queue s q) w b in svc_sound s' ∧ assign_safe s w res s'.
Proof.
  intros Hv Hq Hn. pose proof (claim_build_spec enU (set_queue s q) w b Hv Hn) as Hc.
  destruct (claim_build _ _ _ _) as [[ob|e] s']; destruct Hc as (Hv' & _ & Hqq & Hres).
  - destruct Hres as (-> & Hp & Hvw). split; [split; [done|by rewrite Hqq]|done].
  - split; [split; [done|by rewrite Hqq]|]. by destruct Hres.
Qed.

Lemma AssignBuild_safe enL enU s w :
  svc_sound s → modern (env_now enU) →
  let '(res, s') := AssignBuild enL enU s w in svc_sound s' ∧ assign_safe s w res s'.
Proof.
  intros [Hv Hq] Hn. unfold AssignBuild. pose proof (PeekByScore_wf (queue s) (score s w) Hq) as Hq1.
  destruct (Queue.PeekByScore (queue s) _) as [[b|] q1]; [by apply claim_safe|].
  cbv zeta. cbn [snd repo set_queue queue] in *. pose proof (listed_exact enL s Hv) as Hl.
  destruct (p_ListPending enL (repo s)) as [[|b0 bs]|e]; [done| |done].
  pose proof (push_all_wf (b0 :: bs) q1 Hq1 Hl) as Hq2. destruct (push_all q1 (b0 :: bs)) as [n q2].
  match goal with |- context [PeekByScore q2 ?f] => pose proof (PeekByScore_wf q2 f Hq2) as Hq3;
    destruct (Queue.PeekByScore q2 f) as [[b|] q3] end;
    [exact (claim_safe enU s q3 w b Hv Hq3 Hn)|exact (claim_safe enU s q3 w b0 Hv Hq3 Hn)].
Qed.

(** Clocks between 1970 and 9999, and no change of the store behind the service. *)
Definition svc_call_ok (op : svc_op) : Prop :=
  match op with
  | SubmitOp enC _ _ _ _ _ _ _ _ _ => modern (env_now enC)
  | AssignOp _ enU _ | CompleteOp enU _ _ _ _ | CancelOp _ enU _ | LogOp enU _ _ => modern (env_now enU)
  | WarmOp _ => True
  | StoreOp _ => False
  end.

Lemma svc_step_sound s op : svc_sound s → svc_call_ok op → svc_sound (svc_step s op).
Proof.
  intros Hs Hop. pose proof Hs as [Hv Hq].
  destruct op as [enC enU uuid id ctx df tag user tmo args|enL enU w|enU enG id st msg|enG enU id|enL|enU id line|d];
    simpl in *.
  - unfold SubmitBuild. destruct (Single _) as [v|]; [|done]. cbn [mbind option_bind].
    destruct (negb (Valid v)); [done|]. destruct (FromDockerfile df) as [fp|]; [|done]. cbn [mbind option_bind].
    set (b := new_build _ _ _ _ _ _ _ _). destruct (Queue.Full (queue s)) eqn:Hf; [done|].
    pose proof (create_law enC (repo s) b Hv Hop eq_refl) as Hc.
    destruct (p_Create enC (repo s) b) as [[[u|e] b'] d]; destruct Hc as (Hv' & -> & _); [|done].
    destruct (Queue.Push_room (queue s) (stamped (env_now enC) b) Hq) as (Hok & Hwf & _);
      [unfold exact_int; simpl; lia|done|].
    destruct (Queue.Push (queue s) _) as [[] q]; [done|done].
  - pose proof (AssignBuild_safe enL enU s w Hs Hop). destruct (AssignBuild _ _ _ _). tauto.
  - pose proof (CompleteBuild_effect enU enG s id st msg Hv Hop) as He.
    destruct (CompleteBuild _ _ _ _ _ _) as [res s']. destruct He as (? & Hqq & _).
    cbn [snd]. split; [done|]. by rewrite Hqq.
  - unfold CancelBuild. destruct (p_Get enG (repo s) id) as [b|e]; [|done]. destruct (negb _); [done|].
    pose proof (Remove_wf (queue s) id Hq) as Hr. destruct (Queue.Remove (queue s) id) as [ob q].
    pose proof (update_law enU (repo s) id StatusCancelled "" "" "cancelled by user" Hv Hop) as Hu.
    destruct (p_UpdateStatus _ _ _ _ _ _ _) as [res d]. by destruct Hu.
  - unfold WarmQueue. pose proof (listed_exact enL s Hv) as Hl. destruct (p_ListPending enL (repo s)) as [bs|e]; [|done].
    pose proof (push_all_wf bs (queue s) Hq Hl). by destruct (push_all (queue s) bs).
  - unfold AppendLog. pose proof (update_law enU (repo s) id "" "" line "" Hv Hop) as Hu.
    destruct (p_UpdateStatus _ _ _ _ _ _ _) as [res d]. by destruct Hu.
  - done.
Qed.

(** ** Draining *)

Definition pending_set (v : view_t) : gset string :=
  dom (filter (λ kv : string * (Status * string), kv.2.1 = StatusPending) v).

Lemma elem_of_pending_set v id : id ∈ pending_set v ↔ pending_in v id.
Proof.
  unfold pending_set, pending_in. rewrite elem_of_dom. unfold is_Some.
  setoid_rewrite map_lookup_filter_Some. split.
  - intros ([st w] & Hv & Hst). simpl in Hst. subst. by exists w.
  - intros [w Hw]. by exists (StatusPending, w).
Qed.

Lemma pending_set_claim v id w :
  pending_set (<[id := (StatusBuilding, w)]> v) = pending_set v ∖ {[id]}.
Proof.
  apply set_eq. intros i. rewrite elem_of_difference, elem_of_singleton, !elem_of_pending_set.
  unfold pending_in. setoid_rewrite lookup_insert. case_decide as Hd.
  - subst. split; [by intros [? [=]]|by intros [_ ?]].
  - split; [intros [w' ?]; split; [by exists w'|by auto]|intros [[w' ?] _]; by exists w'].
Qed.

(** Workers ask for builds until there is none: the ids handed out, in order. *)
Fixpoint assign_all (fuel : nat) (en : env) s (w : string) : list string * BuildService D :=
  match fuel with
  | 0 => ([], s)
  | S fuel =>
      match AssignBuild en en s w with
      | (Ok (Some b), s) => let '(ids, s) := assign_all fuel en s w in (ID b :: ids, s)
      | (_, s) => ([], s)
      end
  end.

Lemma assign_all_spec fuel en s w :
  svc_wf s → modern (env_now en) → env_fault en = None → size (pending_set (view (repo s))) ≤ fuel →
  let '(ids, s') := assign_all fuel en s w in
  NoDup ids ∧ (∀ id, id ∈ ids ↔ pending_in (view (repo s)) id) ∧ (∀ id, ¬ pending_in (view (repo s')) id).
Proof.
  intros Hs Hn Hf. revert s Hs; induction fuel as [|fuel IH]; intros s Hs Hsz; cbn [assign_all].
  - assert (pending_set (view (repo s)) = ∅) as He by (apply leibniz_equiv, size_empty_inv; lia).
    assert (∀ id, ¬ pending_in (view (repo s)) id) as Hnone
      by (intros id Hp%elem_of_pending_set; rewrite He in Hp; by apply elem_of_empty in Hp).
    split_and!; [constructor| |done]. intros id. split; [by intros ?%elem_of_nil|by intros ?%Hnone].
  - pose proof (AssignBuild_spec en en s w Hs Hn) as Ha. destruct (AssignBuild en en s w) as [[[b|]|e] s1].
    + destruct Ha as (Hs1 & _ & Hp & _ & _ & Hv). specialize (IH s1 Hs1).
      rewrite Hv, pending_set_claim in IH.
      rewrite size_difference in IH by (by apply singleton_subseteq_l, elem_of_pending_set).
      rewrite size_singleton in IH. destruct (assign_all fuel en s1 w) as [ids s2].
      destruct IH as (Hnd & Hids & Hnone); [lia|].
      assert (∀ id, id ∈ ids ↔ pending_in (view (repo s)) id ∧ id ≠ ID b) as Hids'.
      { intros id. rewrite Hids, <- !elem_of_pending_set, pending_set_claim.
        by rewrite elem_of_difference, elem_of_singleton. }
      split_and!; [|intros id; rewrite elem_of_cons, Hids'|done].
      * apply NoDup_cons. split; [|done]. rewrite Hids'. tauto.
      * destruct (decide (id = ID b)) as [->|]; tauto.
    + destruct Ha as (Hs1 & _ & Hv & Hnone). destruct Hnone as [?|Hnone]; [done|].
      split_and!; [constructor| |by rewrite Hv]. intros id. split; [by intros ?%elem_of_nil|by intros ?%Hnone].
    + destruct Ha as (_ & _ & _ & ?). done.
Qed.

(** ** Properties *)

(** In every state the service reaches by its calls (and by other components'
    changes that leave pending builds pending), the in-memory queue is well formed,
    holds no build twice, and every queued build is pending in the store; a panic, a
    validation error or a database error at any call keeps it so. *)
Lemma service_invariant s (Hs : svc_reachable s) : svc_wf s.
Proof. by apply svc_reachable_wf. Qed.

(** C11. AssignBuild in a reachable state, database errors included: a build it returns was pending in the
    store, is now building for the asking worker, and says so; it returns nothing only
    when the store has no pending build (or the listing failed), and an error only when
    the claim met a database error; in both cases no build changes hands. *)
Theorem AssignBuild_correct enL enU s w (Hs : svc_reachable s) (Hn : modern (env_now enU)) :
  let '(res, s') := AssignBuild enL enU s w in
  scheduler s' = scheduler s ∧ assign_answer enL enU s w res s'.
Proof.
  apply svc_reachable_wf in Hs. pose proof (AssignBuild_spec enL enU s w Hs Hn) as Ha.
  destruct (AssignBuild enL enU s w). tauto.
Qed.

(** C1. No build is lost and none is handed out twice: in a state that the service's
    calls reach (each of them atomic, completions terminal and of builds that are not
    pending, warm-ups of an empty queue), while the database answers, as many AssignBuild calls as there are pending builds hand out exactly the pending
    builds, each once, and leave none. *)
Theorem AssignBuild_drains en s w (Hs : svc_reachable s) (Hn : modern (env_now en))
    (Hf : env_fault en = None) :
  let '(ids, s') := assign_all (size (pending_set (view (repo s)))) en s w in
  NoDup ids ∧ (∀ id, id ∈ ids ↔ pending_in (view (repo s)) id) ∧
  (∀ id, ¬ pending_in (view (repo s')) id).
Proof. apply assign_all_spec; auto using svc_reachable_wf. Qed.

(** C12. SubmitBuild in a reachable state, when it returns: a returned build has a fresh id, is pending in
    the store and is in the queue; any error, the full queue included, leaves store and
    queue as they were. *)
Theorem SubmitBuild_correct enC enU uuid s id ctx df tag user tmo args res s'
    (Hs : svc_reachable s) (Hn : modern (env_now enC))
    (Hr : SubmitBuild enC enU uuid s id ctx df tag user tmo args = Some (res, s')) :
  scheduler s' = scheduler s ∧ submit_answer s res s'.
Proof. apply SubmitBuild_spec in Hr; auto using svc_reachable_wf. tauto. Qed.

(** C24. CancelBuild in a reachable state, database errors included: when it returns without error, the build was
    pending or building, is cancelled, keeps its worker, and no entry of it is left in the
    queue; otherwise no status changes, and either nothing changes at all, because the
    build is neither pending nor building or could not be read, or the write failed, and
    then the build, still pending or building, is out of the queue all the same. *)
Theorem CancelBuild_correct enG enU s id (Hs : svc_reachable s) (Hn : modern (env_now enU)) :
  let '(res, s') := CancelBuild enG enU s id in
  scheduler s' = scheduler s ∧ cancel_answer enG enU s id res s'.
Proof.
  apply svc_reachable_wf in Hs. pose proof (CancelBuild_spec enG enU s id Hs Hn) as Hc.
  destruct (CancelBuild enG enU s id). tauto.
Qed.

(** C25. CompleteBuild on any build with any status, over a valid store: without error the
    status and worker of that build alone change, as UpdateStatus has it (a terminal
    status finishes an unfinished build and leaves a finished one; building claims a
    pending build for no worker; the empty one changes nothing; any other one is written
    whatever the build's status was), and the worker that the row names afterwards is
    marked idle, with the build's fingerprint as its only cache key, if the row can be
    read (no other reason than a database error or a missing row stops that); an error
    leaves every status and the scheduler unchanged, and comes from the database or a
    refused claim; the queue is untouched. *)
Theorem CompleteBuild_correct enU enG s id st msg (Hv : valid (repo s)) (Hn : modern (env_now enU)) :
  let '(res, s') := CompleteBuild enU enG s id st msg in
  queue s' = queue s ∧ complete_answer enU enG s id st res s'.
Proof.
  pose proof (CompleteBuild_effect enU enG s id st msg Hv Hn) as Hc.
  destruct (CompleteBuild enU enG s id st msg). tauto.
Qed.

(** WarmQueue on an empty queue pushes pending builds only, as many as it reports,
    and at least one if the store has a pending build and answers. *)
Lemma WarmQueue_correct enL s (Hs : svc_reachable s) (He : contents (queue s) = []) :
  let '(res, s') := WarmQueue enL s in
  repo s' = repo s ∧ queue_tracks (view (repo s)) (queue s') ∧
  match res with
  | Ok n => length (contents (queue s')) = n ∧
      (env_fault enL = None → (∃ id, pending_in (view (repo s)) id) → 0 < n)
  | Err _ => queue s' = queue s ∧ env_fault enL ≠ None
  end.
Proof.
  apply svc_reachable_wf in Hs. pose proof (WarmQueue_spec enL s Hs He) as Hw.
  destruct (WarmQueue enL s) as [res s']. destruct Hw as ([_ Hq] & Hr & _ & Hres).
  rewrite Hr in Hq. done.
Qed.
End laws.
