(* ===== verification/Engine.v ===== *)
(** * The engine

    [WorkerService] and [Maintenance] of [service.go] over the repository, and the
    composition of the whole engine: one state of database, scheduler and queue that
    the build service, the worker service and the maintenance loop share.  The
    service's theorems hold of it because the repository implements its interface,
    and because the other components leave pending builds pending. *)

From S2P Require Import Repo Queue Scheduler Service.
From S2P Require Import Prelude Float64 GoStrings GoSort GoTime Domain Persister RepoPersister.

Section engine.
Context `{!Sorter node_le} `{!Sorter pending_order} `{UnicodeTables}.

Abbreviation Engine := (BuildService DB).

(** ** WorkerService *)

Definition Heartbeat (e : fault) (now : time) (s : Engine) (w : Worker) : result () * Engine :=
  match Upsert e now (repo s) w with
  | (Err err, _, db) => (Err err, set_repo s db)
  | (Ok _, w, db) =>
      (Ok (), mkService db (RegisterWorker (scheduler s) (Worker_ID w) (Worker_Status w) (CacheKeys w))
                (queue s))
  end.

Definition PruneStale (e : fault) (now : time) (s : Engine) (maxAge : duration) : result () * Engine :=
  let '(res, db) := MarkOffline e now (repo s) maxAge in (res, set_repo s db).

Definition ReassignStaleBuilds (e1 e2 : fault) (now : time) (s : Engine)
    (workerTimeout buildTimeout : duration) : result () * Engine :=
  let '(res, db) := ReassignStale e1 e2 now (repo s) workerTimeout buildTimeout in (res, set_repo s db).

(** ** Maintenance *)

Definition GCCompleted (e : fault) (s : Engine) (off : Z) (before : time) : result Z * Engine :=
  let '(res, db) := GC e (repo s) off before in (res, set_repo s db).

(** [SetCacheRate], which the HTTP layer calls on the repository. *)
Definition set_rate (e : fault) (s : Engine) (id : string) (rate : float64) : result () * Engine :=
  let '(res, db) := SetCacheRate e (repo s) id rate in (res, set_repo s db).

(** ** Steps of the engine *)

Inductive engine_op :=
  | EBuild (op : svc_op (D := DB))
  | EHeartbeat (e : fault) (now : time) (w : Worker)
  | EPrune (e : fault) (now : time) (maxAge : duration)
  | EReassign (e1 e2 : fault) (now : time) (workerTimeout buildTimeout : duration)
  | EGC (e : fault) (off : Z) (before : time)
  | ERate (e : fault) (id : string) (rate : float64).

Definition engine_step (s : Engine) (op : engine_op) : Engine :=
  match op with
  | EBuild op => svc_step s op
  | EHeartbeat e now w => (Heartbeat e now s w).2
  | EPrune e now maxAge => (PruneStale e now s maxAge).2
  | EReassign e1 e2 now wt bt => (ReassignStaleBuilds e1 e2 now s wt bt).2
  | EGC e off before => (GCCompleted e s off before).2
  | ERate e id rate => (set_rate e s id rate).2
  end.

(** Clocks between 1970 and 9999; the build service's calls as [svc_op_ok] says, and
    no change of the database behind its back. *)
Definition engine_op_ok (s : Engine) (op : engine_op) : Prop :=
  match op with
  | EBuild op => svc_op_ok s op ∧ match op with StoreOp _ => False | _ => True end
  | EHeartbeat _ now _ => modern now
  | EReassign _ _ now _ _ => modern now
  | _ => True
  end.

Inductive engine_reachable : Engine → Prop :=
  | engine_init n : engine_reachable (mkService empty_db Scheduler.New (Queue.New n))
  | engine_next s op : engine_reachable s → engine_op_ok s op → engine_reachable (engine_step s op).

(** *** Without conditions on the calls

    Clocks between 1970 and 9999 only: builds may be completed at any time with any
    status text, and the queue warmed whatever it holds. *)
Definition engine_call_ok (op : engine_op) : Prop :=
  match op with
  | EBuild op => svc_call_ok op
  | EHeartbeat _ now _ => modern now
  | EReassign _ _ now _ _ => modern now
  | _ => True
  end.

Inductive engine_any : Engine → Prop :=
  | any_init n : engine_any (mkService empty_db Scheduler.New (Queue.New n))
  | any_next s op : engine_any s → engine_call_ok op → engine_any (engine_step s op).

(** A repository step that the service layer makes never takes a pending build out of
    the pending ones, a claim or a completion apart. *)
Lemma maintenance_keeps_pending db op id :
  db_wf db → call_ok op → match op with RUpdate _ _ _ _ _ _ _ => False | _ => True end →
  pending_at db id = true → pending_at (repo_step db op) id = true.
Proof.
  intros Hdb Hop Hm Hp. unfold pending_at in *. destruct (builds db !! id) as [r|] eqn:E; [|done].
  pose proof Hp as Hst%String.eqb_eq.
  destruct op as [e now b|e now i st w l m|e1 e2 now wt bt|e off before|e i rate|e now w|e now ma]; try done;
    simpl in *.
  - unfold Create, insertBuild. destruct e; simpl; [by rewrite E|].
    destruct (negb _); simpl; [by rewrite E|].
    destruct (builds db !! ID b) eqn:Eb; simpl; [by rewrite E|].
    rewrite lookup_insert_ne by congruence. by rewrite E.
  - assert (is_building r = false) as Hnb by (unfold is_building; by rewrite Hst).
    assert (timed_out (utc now) r = false) as Ht by (unfold timed_out; by rewrite Hnb).
    rewrite ReassignStale_eq by done. destruct e1; simpl; [by rewrite E|].
    assert (builds (reassign1 now db) !! id = Some r) as E1.
    { unfold reassign1. rewrite lookup_update, E. simpl. by rewrite Ht. }
    destruct e2; cbn [snd]; [by rewrite E1|].
    unfold reassign2. rewrite lookup_update, E1. simpl. by rewrite Hnb.
  - destruct e; simpl; [by rewrite E|].
    rewrite map_lookup_filter, E. simpl. unfold collectable. by rewrite Hst.
  - destruct e; simpl; [by rewrite E|]. rewrite lookup_fmap, E. simpl. by destruct (has_id i r).
  - destruct e; simpl; by rewrite E.
  - destruct e; simpl; by rewrite E.
Qed.

(** So the maintenance components are [StoreOp] steps of the service. *)
Lemma store_step_wf (s : Engine) op :
  svc_wf s → call_ok op → match op with RUpdate _ _ _ _ _ _ _ => False | _ => True end →
  svc_wf (set_repo s (repo_step (repo s) op)).
Proof.
  intros Hs Hop Hm. pose proof (swf_valid s Hs) as Hv.
  apply (svc_step_wf s (StoreOp (repo_step (repo s) op)) Hs). split.
  - by apply repo_step_wf.
  - intros id. rewrite !pending_in_view. by apply maintenance_keeps_pending.
Qed.

Record engine_wf (s : Engine) : Prop := {
  ewf_service : svc_wf s;
  ewf_scheduler : sched_wf (scheduler s);
}.

(** The build service changes the scheduler only by MarkWorkerIdle. *)
Lemma svc_step_sched_wf (s : Engine) op : sched_wf (scheduler s) → sched_wf (scheduler (svc_step s op)).
Proof.
  intros Hs. destruct op; simpl.
  - unfold SubmitBuild. destruct (Validate.Single _); [|done]. simpl. destruct (negb _); [done|].
    destruct (Fingerprint.FromDockerfile _); [|done]. simpl. destruct (Full _); [done|].
    destruct (Create _ _ _ _) as [[[] ?] ?]; [|done]. destruct (Push _ _) as [[] ?]; [done|].
    by destruct (UpdateStatus _ _ _ _ _ _ _ _).
  - unfold AssignBuild, claim_build. destruct (PeekByScore _ _) as [[b|] q].
    + by destruct (p_UpdateStatus _ _ _ _ _ _ _) as [[] ?].
    + destruct (p_ListPending _ _) as [[|b0 bs]|]; [done| |done].
      destruct (push_all _ _) as [n q1]. destruct (PeekByScore q1 _) as [[b|] q2];
        by destruct (p_UpdateStatus _ _ _ _ _ _ _) as [[] ?].
  - unfold CompleteBuild. destruct (p_UpdateStatus _ _ _ _ _ _ _) as [[] ?]; [|done].
    destruct (p_Get _ _ _); [|done]. destruct (String.eqb _ ""); [done|]. by apply MarkWorkerIdle_wf.
  - unfold CancelBuild. destruct (p_Get _ _ _); [|done]. destruct (negb _); [done|].
    destruct (Remove _ _). by destruct (p_UpdateStatus _ _ _ _ _ _ _).
  - unfold WarmQueue. destruct (p_ListPending _ _); [|done]. by destruct (push_all _ _).
  - unfold AppendLog. by destruct (p_UpdateStatus _ _ _ _ _ _ _).
  - done.
Qed.

Lemma engine_step_wf s op : engine_wf s → engine_op_ok s op → engine_wf (engine_step s op).
Proof.
  intros [Hs Hc] Hop. destruct op as [op|e now w|e now ma|e1 e2 now wt bt|e off before|e id rate]; simpl in *.
  - destruct Hop as [Hop _]. split; [by apply svc_step_wf|by apply svc_step_sched_wf].
  - pose proof (store_step_wf s (RUpsert e now w) Hs Hop I) as Hu. simpl in Hu.
    unfold Heartbeat. destruct (Upsert e now (repo s) w) as [[[] w'] db]; simpl in *; (split; [|simpl]).
    + by destruct Hu.
    + by apply RegisterWorker_wf.
    + done.
    + done.
  - pose proof (store_step_wf s (RMarkOffline e now ma) Hs I I) as Hu. simpl in Hu.
    unfold PruneStale. by destruct (MarkOffline e now (repo s) ma) as [res db].
  - pose proof (store_step_wf s (RReassign e1 e2 now wt bt) Hs Hop I) as Hu. simpl in Hu.
    unfold ReassignStaleBuilds. by destruct (ReassignStale e1 e2 now (repo s) wt bt) as [res db].
  - pose proof (store_step_wf s (RGC e off before) Hs I I) as Hu. simpl in Hu.
    unfold GCCompleted. by destruct (GC e (repo s) off before) as [res db].
  - pose proof (store_step_wf s (RRate e id rate) Hs I I) as Hu. simpl in Hu.
    unfold set_rate. by destruct (SetCacheRate e (repo s) id rate) as [res db].
Qed.

Lemma engine_reachable_wf s : engine_reachable s → engine_wf s.
Proof.
  induction 1 as [n|s op _ IH Hop]; [|by apply engine_step_wf].
  split; [|apply New_sched_wf]. split; [by split; apply map_Forall_empty|apply queue_tracks_New].
Qed.

(** The calls other than the build service's keep the queue, and the database's
    invariant. *)
Lemma store_step_sound (s : Engine) op d :
  svc_sound s → call_ok op → d = repo_step (repo s) op → svc_sound (set_repo s d).
Proof. intros [Hv Hq] Hop ->. split; [by apply repo_step_wf|done]. Qed.

Lemma engine_step_sound s op :
  svc_sound s ∧ sched_wf (scheduler s) → engine_call_ok op →
  svc_sound (engine_step s op) ∧ sched_wf (scheduler (engine_step s op)).
Proof.
  intros [Hs Hc] Hop. destruct op as [op|e now w|e now ma|e1 e2 now wt bt|e off before|e id rate]; simpl in *.
  - split; [by apply svc_step_sound|by apply svc_step_sched_wf].
  - pose proof (store_step_sound s (RUpsert e now w) _ Hs Hop eq_refl) as Hu. simpl in Hu.
    unfold Heartbeat. destruct (Upsert e now (repo s) w) as [[[] w'] db]; simpl in *; [|done].
    split; [done|by apply RegisterWorker_wf].
  - pose proof (store_step_sound s (RMarkOffline e now ma) _ Hs I eq_refl) as Hu. simpl in Hu.
    unfold PruneStale. by destruct (MarkOffline e now (repo s) ma) as [res db].
  - pose proof (store_step_sound s (RReassign e1 e2 now wt bt) _ Hs Hop eq_refl) as Hu. simpl in Hu.
    unfold ReassignStaleBuilds. by destruct (ReassignStale e1 e2 now (repo s) wt bt) as [res db].
  - pose proof (store_step_sound s (RGC e off before) _ Hs I eq_refl) as Hu. simpl in Hu.
    unfold GCCompleted. by destruct (GC e (repo s) off before) as [res db].
  - pose proof (store_step_sound s (RRate e id rate) _ Hs I eq_refl) as Hu. simpl in Hu.
    unfold set_rate. by destruct (SetCacheRate e (repo s) id rate) as [res db].
Qed.

Lemma engine_any_sound s : engine_any s → svc_sound s ∧ sched_wf (scheduler s).
Proof.
  induction 1 as [n|s op _ IH Hop]; [|by apply engine_step_sound].
  split; [|apply New_sched_wf]. split; [by split; apply map_Forall_empty|].
  apply (queue_tracks_New (db_view empty_db) n).
Qed.

(** ** Properties *)

(** C7. The whole engine, each call taken as one step, with database errors anywhere and
    the clocks between 1970 and 9999.  Whatever is called in whatever order, completions
    with any status text of any build and a warm-up of a filled queue included: the
    database keeps its invariant, the queue is a heap, the scheduler's ring stays well
    formed, and a poll hands out only a build that was pending, claimed for that worker
    in the database.  If moreover every completion carries a terminal status for a build
    that is not pending and the queue is warmed while it is empty, the queue holds
    distinct pending builds of the database only. *)
Theorem engine_invariant s (Hs : engine_any s) :
  db_wf (repo s) ∧ Queue.queue_wf (queue s) ∧ sched_wf (scheduler s) ∧
  (∀ enL enU w, modern (env_now enU) →
     let '(res, s') := AssignBuild enL enU s w in assign_safe s w res s') ∧
  (engine_reachable s → queue_tracks (db_view (repo s)) (queue s)).
Proof.
  pose proof (engine_any_sound s Hs) as [Hso Hc]. pose proof Hso as [Hv Hq]. split_and!; [done..| |].
  - intros enL enU w Hn. pose proof (AssignBuild_safe enL enU s w Hso Hn).
    destruct (AssignBuild enL enU s w). tauto.
  - intros Hr%engine_reachable_wf. apply Hr.
Qed.

(** A heartbeat that succeeds records the worker's instant in the database and its
    status and cache keys in the scheduler; one that fails changes neither; builds and
    queue are never touched. *)
Lemma Heartbeat_correct e now s w :
  let '(res, s') := Heartbeat e now s w in
  builds (repo s') = builds (repo s) ∧ queue s' = queue s ∧
  match res with
  | Ok _ => GetWorker (scheduler s') (Worker_ID w) =
              (mkWS (Worker_ID w) (Worker_Status w) (CacheKeys w) 0, true) ∧
            w_last_heartbeat <$> db_workers (repo s') !! Worker_ID w = Some (utc now) ∧
            w_status <$> db_workers (repo s') !! Worker_ID w = Some (Worker_Status w)
  | Err _ => repo s' = repo s ∧ scheduler s' = scheduler s ∧ e ≠ None
  end.
Proof.
  unfold Heartbeat, Upsert. destruct e; [done|]. split_and!; [done..| | |]; simpl.
  - unfold GetWorker, RegisterWorker.
    destruct (String.eqb (Worker_Status w) "offline"); simpl; by rewrite lookup_insert_eq.
  - by rewrite lookup_insert_eq.
  - by rewrite lookup_insert_eq.
Qed.
End engine.

(** ** Concrete runs *)

Section examples.
#[local] Existing Instances merge_sorter no_special.

Definition en0 : env := mkEnv None t0.
Definition init : BuildService DB := mkService empty_db Scheduler.New (Queue.New 10).

Definition submit (id df : string) : svc_op (D := DB) :=
  SubmitOp en0 en0 "uuid" id "ctx.tar" df "app:1" "u1" 600 None.

Definition two_builds : BuildService DB :=
  svc_step (svc_step init (submit "b1" "FROM alpine")) (submit "b2" "FROM debian").

Lemma modern_en0 : modern (env_now en0).
Proof. modern_now. Qed.

Lemma two_builds_reachable : svc_reachable two_builds.
Proof.
  apply svc_next; [apply svc_next; [apply svc_init|]|]; [|exact modern_en0..].
  split; apply map_Forall_empty.
Qed.

(** One build is claimed, the other one still queued. *)
Definition one_building : BuildService DB := svc_step two_builds (AssignOp en0 en0 "w1").

Lemma one_building_reachable : svc_reachable one_building.
Proof. apply svc_next; [apply two_builds_reachable|exact modern_en0]. Qed.

Lemma service_invariant_witness :
  svc_wf two_builds ∧ ID <$> Queue.contents (queue two_builds) = ["b1"; "b2"].
Proof.
  split; [|vm_compute; reflexivity]. apply service_invariant, two_builds_reachable.
Defined.

Lemma AssignBuild_correct_witness :
  let '(res, s') := AssignBuild en0 en0 two_builds "w1" in
  scheduler s' = scheduler two_builds ∧ assign_answer en0 en0 two_builds "w1" res s'.
Proof. apply AssignBuild_correct; [apply two_builds_reachable|exact modern_en0]. Defined.

Lemma AssignBuild_drains_witness :
  (assign_all (size (pending_set (view (repo two_builds)))) en0 two_builds "w1").1 = ["b1"; "b2"] ∧
  NoDup (assign_all (size (pending_set (view (repo two_builds)))) en0 two_builds "w1").1.
Proof.
  split; [vm_compute; reflexivity|].
  pose proof (AssignBuild_drains en0 two_builds "w1" two_builds_reachable modern_en0 eq_refl) as Hd.
  destruct (assign_all _ _ _ _) as [ids s']. exact (proj1 Hd).
Defined.

Lemma SubmitBuild_correct_witness :
  ∃ res s', SubmitBuild en0 en0 "uuid" two_builds "" "c" "FROM busybox" "app:2" "u" 60 None = Some (res, s') ∧
            submit_answer two_builds res s'.
Proof.
  destruct (SubmitBuild en0 en0 "uuid" two_builds "" "c" "FROM busybox" "app:2" "u" 60 None)
    as [[res s']|] eqn:E; [|vm_compute in E; discriminate E].
  exists res, s'. split; [reflexivity|].
  exact (proj2 (SubmitBuild_correct _ _ _ _ _ _ _ _ _ _ _ _ _ two_builds_reachable modern_en0 E)).
Defined.

Lemma CancelBuild_correct_witness :
  let '(res, s') := CancelBuild en0 en0 two_builds "b1" in
  scheduler s' = scheduler two_builds ∧ cancel_answer en0 en0 two_builds "b1" res s'.
Proof. apply CancelBuild_correct; [apply two_builds_reachable|exact modern_en0]. Defined.

(** A second report for a build that is finished, with the status pending. *)
Definition one_done : BuildService DB :=
  svc_step one_building (CompleteOp en0 en0 "b1" StatusSucceeded "").

Lemma one_building_sound : svc_sound one_building.
Proof.
  apply svc_step_sound; [|exact modern_en0].
  apply svc_step_sound; [|exact modern_en0]. apply svc_step_sound; [|exact modern_en0].
  split; [by split; apply map_Forall_empty|apply (queue_tracks_New (db_view empty_db) 10)].
Qed.

Lemma CompleteBuild_correct_witness :
  let '(res, s') := CompleteBuild en0 en0 one_done "b1" StatusPending "" in
  queue s' = queue one_done ∧ complete_answer en0 en0 one_done "b1" StatusPending res s'.
Proof.
  apply CompleteBuild_correct; [|exact modern_en0].
  exact (proj1 (svc_step_sound one_building (CompleteOp en0 en0 "b1" StatusSucceeded "") one_building_sound
           modern_en0)).
Defined.

(** A restarted server: the database has builds, the queue is empty. *)
Definition restarted : BuildService DB :=
  mkService (repo two_builds) Scheduler.New (Queue.New 10).

Lemma restarted_reachable : svc_reachable restarted.
Proof. apply svc_init. apply (swf_valid _ (svc_reachable_wf _ two_builds_reachable)). Qed.

Lemma WarmQueue_correct_witness :
  (WarmQueue en0 restarted).1 = Ok 2 ∧
  queue_tracks (view (repo restarted)) (queue (WarmQueue en0 restarted).2).
Proof.
  split; [vm_compute; reflexivity|].
  pose proof (WarmQueue_correct en0 restarted restarted_reachable eq_refl) as H.
  destruct (WarmQueue en0 restarted). exact (proj1 (proj2 H)).
Defined.

Definition engine1 : BuildService DB :=
  engine_step (engine_step init (EHeartbeat None t0 (mkWorker "w1" "h" "ip" "idle" 0 ["RUN make"])))
    (EBuild (submit "b1" "FROM alpine")).

Lemma engine1_reachable : engine_reachable engine1.
Proof.
  apply engine_next; [apply engine_next; [apply engine_init|exact modern_en0]|].
  split; [exact modern_en0|exact I].
Qed.

(** A report for the queued build, with the status pending, and a second warm-up. *)
Definition engine2 : BuildService DB :=
  engine_step (engine_step engine1 (EBuild (CompleteOp en0 en0 "b1" StatusPending ""))) (EBuild (WarmOp en0)).

Lemma engine1_any : engine_any engine1.
Proof. apply any_next; [apply any_next; [apply any_init|exact modern_en0]|exact modern_en0]. Qed.

Lemma engine2_any : engine_any engine2.
Proof. apply any_next; [apply any_next; [apply engine1_any|exact modern_en0]|exact I]. Qed.

(** The second warm-up queues the build twice. *)
Lemma engine_invariant_witness :
  queue_tracks (db_view (repo engine1)) (queue engine1) ∧
  db_wf (repo engine2) ∧ ID <$> Queue.contents (queue engine2) = ["b1"; "b1"].
Proof.
  split; [apply (proj2 (proj2 (proj2 (proj2 (engine_invariant engine1 engine1_any)))) engine1_reachable)|].
  split; [exact (proj1 (engine_invariant engine2 engine2_any))|vm_compute; reflexivity].
Defined.

(** Completing a build hands the scheduler the build's fingerprint as the worker's only
    cache key, while scores compare instructions: the same build now scores 0 for the
    worker that has just built it. *)
Definition with_run : string := "FROM alpine" +:+ String nl "RUN make".
Definition affinity_before : BuildService DB :=
  engine_step engine1 (EBuild (submit "b3" with_run)).
Definition affinity_after : BuildService DB :=
  engine_step (engine_step affinity_before (EBuild (AssignOp en0 en0 "w1")))
    (EBuild (CompleteOp en0 en0 "b3" StatusSucceeded "")).

Lemma complete_forgets_cache :
  ScoreBuildForWorker (scheduler affinity_before) ["RUN make"] "w1" = f64_of_Z 1 ∧
  r_status <$> builds (repo affinity_after) !! "b3" = Some StatusSucceeded ∧
  ScoreBuildForWorker (scheduler affinity_after) ["RUN make"] "w1" = f64_zero.
Proof. split_and!; vm_compute; reflexivity. Qed.

(** A Dockerfile that copies the same tree twice: the fingerprint keeps both instructions,
    and a worker that has one of the two different instructions scores 1/3, not 1/2. *)
Definition copies_twice : string :=
  "FROM alpine" +:+ String nl "COPY . ." +:+ String nl "RUN make" +:+ String nl "COPY . .".

Definition third_worker : Scheduler := RegisterWorker Scheduler.New "w1" "idle" ["RUN make"].

Lemma repeated_copy_score :
  (Fingerprint.FPInstructions <$> Fingerprint.FromDockerfile copies_twice) =
    Some ["COPY . ."; "COPY . ."; "RUN make"] ∧
  ScoreBuildForWorker third_worker ["COPY . ."; "COPY . ."; "RUN make"] "w1" = f64_div (f64_of_Z 1) (f64_of_Z 3) ∧
  size (list_to_set ["RUN make"] ∪ list_to_set ["COPY . ."; "COPY . ."; "RUN make"] : gset string) = 2.
Proof. split_and!; vm_compute; reflexivity. Qed.
End examples.
