(* ===== verification/ServiceRace.v ===== *)
(** * internal/service under concurrency

    The HTTP server runs SubmitBuild, AssignBuild and CancelBuild of different
    requests concurrently.  Each call of the store and of the queue is one critical
    section of its own lock, so a request is a thread whose steps are those calls,
    and an execution is any interleaving of the steps of the threads.  A thread that
    runs alone computes what [Service] says; the claim of the store makes assignment
    exclusive under every interleaving; and the races that remain are exhibited. *)

From S2P Require Import Repo Queue Scheduler Prelude Float64 GoStrings GoSort GoTime Domain Persister Service.
From S2P Require Import RepoPersister Engine.

Section race.
Context {D : Type} `{buildPersister D}.

(** Where a request is: the call it makes next, or its answer. *)
Inductive pc :=
  | SubmitFull (b : Build)
  | SubmitCreate (b : Build)
  | SubmitPush (b : Build)
  | SubmitCancel (b : Build)
  | Submitted (res : result Build)
  | AssignPeek (w : string)
  | AssignList (w : string)
  | AssignPush (w : string) (b0 : Build) (rest : list Build)
  | AssignPeek2 (w : string) (b0 : Build)
  | AssignClaim (w : string) (b : Build)
  | Assigned (w : string) (res : result (option Build))
  | CancelGet (id : string)
  | CancelRemove (id : string)
  | CancelUpdate (id : string)
  | Cancelled (id : string) (res : result ()).

(** One call of a request, in the environment [en]; [f] is the score function that
    the scheduler gives at this moment. *)
Definition pc_step (en : env) (f : string → Build → float64) (d : D) (q : Queue) (p : pc) :
    option (D * Queue * pc) :=
  match p with
  | SubmitFull b => Some (d, q, if Queue.Full q then Submitted (Err EQueueFull) else SubmitCreate b)
  | SubmitCreate b =>
      match p_Create en d b with
      | (Err e, _, d) => Some (d, q, Submitted (Err (EWrap "create build" e)))
      | (Ok _, b, d) => Some (d, q, SubmitPush b)
      end
  | SubmitPush b =>
      match Queue.Push q b with
      | (false, q) => Some (d, q, SubmitCancel b)
      | (true, q) => Some (d, q, Submitted (Ok b))
      end
  | SubmitCancel b =>
      let '(_, d) := p_UpdateStatus en d (ID b) StatusCancelled "" "" "queue full at submit time" in
      Some (d, q, Submitted (Err EQueueFull))
  | AssignPeek w =>
      match Queue.PeekByScore q (f w) with
      | (Some b, q) => Some (d, q, AssignClaim w b)
      | (None, q) => Some (d, q, AssignList w)
      end
  | AssignList w =>
      match p_ListPending en d with
      | Err _ => Some (d, q, Assigned w (Ok None))
      | Ok [] => Some (d, q, Assigned w (Ok None))
      | Ok (b0 :: bs) => Some (d, q, AssignPush w b0 (b0 :: bs))
      end
  | AssignPush w b0 [] => Some (d, q, AssignPeek2 w b0)
  | AssignPush w b0 (b :: rest) =>
      match Queue.Push q b with
      | (false, q) => Some (d, q, AssignPeek2 w b0)
      | (true, q) => Some (d, q, AssignPush w b0 rest)
      end
  | AssignPeek2 w b0 =>
      match Queue.PeekByScore q (f w) with
      | (Some b, q) => Some (d, q, AssignClaim w b)
      | (None, q) => Some (d, q, AssignClaim w b0)
      end
  | AssignClaim w b =>
      match p_UpdateStatus en d (ID b) StatusBuilding w "" "" with
      | (Err e, d) => Some (d, q, Assigned w (Err e))
      | (Ok _, d) => Some (d, q, Assigned w (Ok (Some (assigned_build w b))))
      end
  | CancelGet id =>
      match p_Get en d id with
      | Err e => Some (d, q, Cancelled id (Err e))
      | Ok b =>
          if negb (String.eqb (BStatus b) StatusPending || String.eqb (BStatus b) StatusBuilding)
          then Some (d, q, Cancelled id (Err (EErrorf "build not cancellable")))
          else Some (d, q, CancelRemove id)
      end
  | CancelRemove id => let '(_, q) := Queue.Remove q id in Some (d, q, CancelUpdate id)
  | CancelUpdate id =>
      let '(res, d) := p_UpdateStatus en d id StatusCancelled "" "" "cancelled by user" in
      Some (d, q, Cancelled id res)
  | Submitted _ | Assigned _ _ | Cancelled _ _ => None
  end.

(** ** A thread alone *)

(** Runs one thread to its end, when the fuel is enough. *)
Fixpoint run_alone (fuel : nat) (en : env) (f : string → Build → float64) (d : D) (q : Queue) (p : pc) :
    D * Queue * pc :=
  match fuel with
  | 0 => (d, q, p)
  | S fuel => match pc_step en f d q p with
              | Some (d, q, p) => run_alone fuel en f d q p
              | None => (d, q, p)
              end
  end.

Lemma run_alone_done fuel en f d q p : pc_step en f d q p = None → run_alone fuel en f d q p = (d, q, p).
Proof. intros Hp. destruct fuel; simpl; [done|]. by rewrite Hp. Qed.

Lemma run_alone_S fuel en f d q p d' q' p' :
  pc_step en f d q p = Some (d', q', p') →
  run_alone (S fuel) en f d q p = run_alone fuel en f d' q' p'.
Proof. intros Hp. simpl. by rewrite Hp. Qed.

(** The state and the answer of AssignBuild, as a final thread. *)
Definition assign_final (w : string) (x : result (option Build) * BuildService D) : D * Queue * pc :=
  (repo x.2, queue x.2, Assigned w x.1).

Lemma run_claim fuel en f (s : BuildService D) w b :
  run_alone (S fuel) en f (repo s) (queue s) (AssignClaim w b) = assign_final w (claim_build en s w b).
Proof.
  unfold claim_build. simpl. destruct (p_UpdateStatus _ _ _ _ _ _ _) as [[] d]; by rewrite run_alone_done.
Qed.

Lemma push_all_count q bs : (push_all q bs).1 ≤ length bs.
Proof.
  revert q; induction bs as [|b bs IH]; intros q; simpl; [done|].
  destruct (Queue.Push q b) as [[] q1]; simpl; [|lia]. specialize (IH q1).
  destruct (push_all q1 bs). simpl in *. lia.
Qed.

(** One step for each push that succeeds, and one to end the loop. *)
Lemma run_pushes fuel en f d q w b0 bs :
  run_alone (S ((push_all q bs).1 + fuel)) en f d q (AssignPush w b0 bs) =
  run_alone fuel en f d (push_all q bs).2 (AssignPeek2 w b0).
Proof.
  revert q; induction bs as [|b bs IH]; intros q; [done|].
  cbn [push_all]. destruct (Queue.Push q b) as [[] q1] eqn:E.
  - specialize (IH q1). destruct (push_all q1 bs) as [n q2]. cbn [fst snd] in *.
    rewrite <- IH. apply run_alone_S. cbn [pc_step]. by rewrite E.
  - cbn [fst snd Nat.add]. apply run_alone_S. cbn [pc_step]. by rewrite E.
Qed.

(** Five calls and one push for each build listed are enough. *)
Lemma run_assign fuel en (s : BuildService D) w :
  (∀ bs, p_ListPending en (repo s) = Ok bs → length bs + 5 ≤ fuel) → 3 ≤ fuel →
  run_alone fuel en (score s) (repo s) (queue s) (AssignPeek w) = assign_final w (AssignBuild en en s w).
Proof.
  intros Hf Hf3. unfold AssignBuild. destruct fuel as [|fuel]; [lia|]. cbn [run_alone pc_step].
  destruct (Queue.PeekByScore (queue s) (score s w)) as [[b|] q] eqn:E.
  { destruct fuel as [|fuel]; [lia|]. apply (run_claim fuel en (score s) (set_queue s q)). }
  destruct fuel as [|fuel]; [lia|]. cbn [run_alone pc_step repo queue set_queue].
  destruct (p_ListPending en (repo s)) as [[|b0 bs]|e] eqn:El; [by rewrite run_alone_done| |by rewrite run_alone_done].
  specialize (Hf _ eq_refl). pose proof (push_all_count q (b0 :: bs)) as Hn. cbn [length] in *.
  replace fuel with (S ((push_all q (b0 :: bs)).1 + S (S (fuel - 3 - (push_all q (b0 :: bs)).1)))) by lia.
  rewrite run_pushes. destruct (push_all q (b0 :: bs)) as [n q1]. cbn [fst snd].
  change (score (set_queue s q) w) with (score s w).
  destruct (Queue.PeekByScore q1 (score s w)) as [ob q2] eqn:Ep.
  rewrite (run_alone_S _ en (score s) (repo s) q1 _ (repo s) q2 (AssignClaim w (default b0 ob)))
    by (cbn [pc_step]; rewrite Ep; by destruct ob).
  rewrite (run_claim _ en (score s) (set_queue (set_queue s q) q2)). by destruct ob.
Qed.

(** SubmitBuild after its validation, as a thread: four calls at most. *)
Lemma run_submit `{UnicodeTables} fuel en f uuid (s : BuildService D) id ctx df tag user tmo args v fp :
  Validate.Single (Validate.mkInput df tag) = Some v → Validate.Valid v = true →
  Fingerprint.FromDockerfile df = Some fp → 4 ≤ fuel →
  let b := new_build (if String.eqb id "" then uuid else id) ctx df tag user tmo args fp in
  ∃ res s', SubmitBuild en en uuid s id ctx df tag user tmo args = Some (res, s') ∧
    run_alone fuel en f (repo s) (queue s) (SubmitFull b) = (repo s', queue s', Submitted res).
Proof.
  intros Hv Hval Hfp Hf. cbv zeta. unfold SubmitBuild. rewrite Hv. cbn [mbind option_bind].
  rewrite Hval. cbn [negb]. rewrite Hfp. cbn [mbind option_bind].
  set (b := new_build _ _ _ _ _ _ _ _). do 4 (destruct fuel as [|fuel]; [lia|]).
  cbn [run_alone pc_step]. destruct (Queue.Full (queue s)).
  { by eexists _, _. }
  cbn [pc_step]. destruct (p_Create en (repo s) b) as [[[u|e] b'] d].
  2: { by eexists _, _. }
  cbn [pc_step]. destruct (Queue.Push (queue s) b') as [[] q].
  { by eexists _, _. }
  cbn [pc_step]. destruct (p_UpdateStatus _ _ _ _ _ _ _) as [r d'].
  eexists _, _. split; [done|]. by rewrite run_alone_done.
Qed.

(** ** Interleavings *)

Record world := mkWorld { store : D; shared : Queue; threads : list pc }.

Inductive wstep : world → world → Prop :=
  | wstep_call en f x i p d q p' :
      modern (env_now en) → threads x !! i = Some p →
      pc_step en f (store x) (shared x) p = Some (d, q, p') →
      wstep x (mkWorld d q (<[i := p']> (threads x))).

(** Requests start with their first call, submissions with a pending build. *)
Definition starting (p : pc) : Prop :=
  match p with
  | SubmitFull b => BStatus b = StatusPending
  | AssignPeek _ | CancelGet _ => True
  | _ => False
  end.

(** The builds handed out, one for each successful assignment. *)
Definition handed_pc (p : pc) : option string :=
  match p with Assigned _ (Ok (Some b)) => Some (ID b) | _ => None end.
Definition handed (ps : list pc) : list string := omap handed_pc ps.
End race.

Arguments world D : clear implicits.

Section exclusion.
Context {D : Type} `{PersisterLaws D}.

(** A build that is in the store and no longer pending. *)
Definition settled (v : view_t) (id : string) : Prop :=
  ∃ st w, v !! id = Some (st, w) ∧ st ≠ StatusPending.

Lemma settled_update v id st w i :
  st ≠ StatusPending → settled v i → settled (view_update id st w v) i.
Proof.
  intros Hst (s & w0 & Hi & Hs). unfold view_update.
  destruct (v !! id) as [[s1 w1]|] eqn:E; [|by exists s, w0].
  destruct (decide (i = id)) as [->|Hne].
  - destruct (IsTerminal st) eqn:Et.
    + destruct (IsTerminal s1); [by exists s, w0|]. eexists _, _. rewrite lookup_insert_eq.
      split; [done|]. by intros ->.
    + destruct (String.eqb_spec st StatusBuilding) as [->|Hb]; [|].
      { destruct (String.eqb s1 StatusPending); [|by exists s, w0]. eexists _, _. by rewrite lookup_insert_eq. }
      destruct (String.eqb_spec st "") as [->|He]; [by exists s, w0|]. eexists _, _. by rewrite lookup_insert_eq.
  - exists s, w0. split; [|done]. repeat case_match; rewrite ?lookup_insert_ne by done; done.
Qed.

(** What one call does to the view, and what a thread needs to make it. *)
Definition pc_ok (p : pc) : Prop :=
  match p with SubmitFull b | SubmitCreate b => BStatus b = StatusPending | _ => True end.

Lemma update_settled en d id st w l m :
  valid d → modern (env_now en) → st ≠ StatusPending →
  let '(res, d') := p_UpdateStatus en d id st w l m in
  valid d' ∧ ∀ i, settled (view d) i → settled (view d') i.
Proof.
  intros Hv Hn Hst. pose proof (update_law en d id st w l m Hv Hn) as Hu.
  destruct (p_UpdateStatus _ _ _ _ _ _ _) as [res d']. destruct Hu as [Hv' Hu]. split; [done|].
  intros i Hi. destruct res; destruct Hu as [-> _]; [by apply settled_update|done].
Qed.

(** A call keeps the store valid, keeps settled builds settled, and hands out a build
    only by moving it from pending to settled. *)
Lemma pc_step_spec en f d q p d' q' p' :
  valid d → modern (env_now en) → pc_ok p → pc_step en f d q p = Some (d', q', p') →
  valid d' ∧ pc_ok p' ∧ (∀ i, settled (view d) i → settled (view d') i) ∧ handed_pc p = None ∧
  (∀ id, handed_pc p' = Some id → pending_in (view d) id ∧ settled (view d') id).
Proof.
  intros Hv Hn Hp. destruct p as [b|b|b|b|r|w|w|w b0 rest|w b0|w b|w r|id|id|id|id r]; simpl; try done.
  - intros [= <- <- <-]. by destruct (Queue.Full q).
  - pose proof (create_law en d b Hv Hn Hp) as Hc. destruct (p_Create en d b) as [[[u|e] b'] d1].
    + destruct Hc as (Hv1 & _ & Hnew & Hview). intros [= <- <- <-]. split_and!; [done..| |done|done].
      intros i (st & w & Hi & Hst). exists st, w. split; [|done]. rewrite Hview.
      rewrite lookup_insert_ne; [done|]. intros <-. congruence.
    + destruct Hc as (Hv1 & _ & ->). by intros [= <- <- <-].
  - destruct (Queue.Push q b) as [[] q1]; by intros [= <- <- <-].
  - pose proof (update_settled en d (ID b) StatusCancelled "" "" "queue full at submit time" Hv Hn) as Hu.
    destruct (p_UpdateStatus _ _ _ _ _ _ _) as [r d1]. destruct Hu as [? ?]; [done|].
    by intros [= <- <- <-].
  - destruct (Queue.PeekByScore q (f w)) as [[b|] q1]; by intros [= <- <- <-].
  - destruct (p_ListPending en d) as [[|b0 bs]|e]; by intros [= <- <- <-].
  - destruct rest as [|b rest]; [by intros [= <- <- <-]|].
    destruct (Queue.Push q b) as [[] q1]; by intros [= <- <- <-].
  - destruct (Queue.PeekByScore q (f w)) as [[b|] q1]; by intros [= <- <- <-].
  - pose proof (update_law en d (ID b) StatusBuilding w "" "" Hv Hn) as Hl.
    pose proof (update_settled en d (ID b) StatusBuilding w "" "" Hv Hn) as Hu.
    destruct (p_UpdateStatus _ _ _ _ _ _ _) as [[u|e] d1]; (destruct Hu as [Hv1 Hset]; [done|]);
      intros [= <- <- <-]; [|done].
    destruct Hl as (_ & Hview & Hpend). split_and!; [done..|].
    intros id [= <-]. split; [by apply Hpend|]. destruct (Hpend eq_refl) as [w' Hw'].
    exists StatusBuilding, w. split; [|done]. rewrite Hview. unfold view_update. rewrite Hw'. simpl.
    by rewrite lookup_insert_eq.
  - destruct (p_Get en d id) as [b|e]; [destruct (negb _)|]; by intros [= <- <- <-].
  - destruct (Queue.Remove q id) as [ob q1]. by intros [= <- <- <-].
  - pose proof (update_settled en d id StatusCancelled "" "" "cancelled by user" Hv Hn) as Hu.
    destruct (p_UpdateStatus _ _ _ _ _ _ _) as [r d1]. destruct Hu as [? ?]; [done|].
    by intros [= <- <- <-].
Qed.

Record race_inv (x : world D) : Prop := {
  ri_valid : valid (store x);
  ri_threads : Forall pc_ok (threads x);
  ri_distinct : NoDup (handed (threads x));
  ri_settled : Forall (settled (view (store x))) (handed (threads x));
}.

Lemma handed_app ps qs : handed (ps ++ qs) = handed ps ++ handed qs.
Proof. apply omap_app. Qed.

Lemma wstep_inv x y : race_inv x → wstep x y → race_inv y.
Proof.
  intros [Hv Hok Hnd Hset] Hstep. destruct Hstep as [en f x i p d q p' Hn Hi Hp].
  pose proof (Forall_lookup_1 _ _ _ _ Hok Hi) as Hpok.
  destruct (pc_step_spec en f _ _ p d q p' Hv Hn Hpok Hp) as (Hv' & Hok' & Hmono & Hnone & Hgive).
  assert (handed (<[i := p']> (threads x)) ≡ₚ option_list (handed_pc p') ++ handed (threads x)) as Hh.
  { rewrite <- (take_drop_middle (threads x) i p Hi) at 2.
    rewrite insert_take_drop by (by eapply lookup_lt_Some).
    rewrite !handed_app. simpl. rewrite Hnone. destruct (handed_pc p'); simpl; [|done].
    by rewrite <- Permutation_middle. }
  assert (Forall (settled (view d)) (handed (threads x))) as Hset'
    by (eapply Forall_impl; [exact Hset|exact Hmono]).
  split; cbn [store threads]; [done|by apply Forall_insert| |]; rewrite Hh.
  - destruct (handed_pc p') as [id|]; simpl; [|done]. apply NoDup_cons. split; [|done].
    intros Hin. rewrite Forall_forall in Hset. destruct (Hset id Hin) as (st & w & Hw & Hst).
    destruct (Hgive id eq_refl) as [[w' Hw'] _]. congruence.
  - destruct (handed_pc p') as [id|]; simpl; [|done]. constructor; [|done]. by apply Hgive.
Qed.

Lemma rtc_inv x y : race_inv x → rtc wstep x y → race_inv y.
Proof. intros Hx. induction 1; [done|]. eauto using wstep_inv. Qed.

Lemma starting_inv d q ps : valid d → Forall starting ps → race_inv (mkWorld d q ps).
Proof.
  intros Hv Hps. assert (handed ps = []) as He.
  { induction Hps as [|p ps Hp _ IH]; [done|]. unfold handed in *. simpl.
    destruct p; simpl in *; try done. }
  split; cbn [store threads]; [done| |rewrite He; constructor|rewrite He; constructor].
  eapply Forall_impl; [exact Hps|]. by intros [].
Qed.

(** ** Properties *)

(** C3. Assignment is exclusive under every interleaving of any number of
    submissions, assignments and cancellations, with database errors anywhere: no build
    is handed to two workers, and a build that was handed out is no longer pending. *)
Theorem race_exclusive (d : D) (q : Queue) (ps : list pc) (x : world D)
    (Hv : valid d) (Hps : Forall starting ps) (Hx : rtc wstep (mkWorld d q ps) x) :
  NoDup (handed (threads x)) ∧ Forall (settled (view (store x))) (handed (threads x)).
Proof.
  destruct (rtc_inv _ _ (starting_inv d q ps Hv Hps) Hx) as [_ _ Hnd Hs]. done.
Qed.
End exclusion.

Section refinement.
Context {D : Type} `{buildPersister D}.

(** A thread that runs AssignBuild's calls without interference ends, and computes
    exactly AssignBuild: the step model and the sequential one agree. *)
Lemma assign_thread_refines (en : env) (s : BuildService D) (w : string) :
  ∃ n, ∀ fuel, n ≤ fuel →
    run_alone fuel en (score s) (repo s) (queue s) (AssignPeek w) =
    assign_final w (AssignBuild en en s w).
Proof.
  exists (5 + match p_ListPending en (repo s) with Ok bs => length bs | Err _ => 0 end).
  intros fuel Hf. apply run_assign; [|lia]. intros bs Hbs. rewrite Hbs in Hf. lia.
Qed.
End refinement.

(** ** Races *)

Section examples.
#[local] Existing Instances merge_sorter no_special.

(** Runs the next call of thread [i]. *)
Definition move (x : world DB) (i : nat) : world DB :=
  match threads x !! i with
  | Some p => match pc_step en0 (λ _ _, f64_zero) (store x) (shared x) p with
              | Some (d, q, p') => mkWorld d q (<[i := p']> (threads x))
              | None => x
              end
  | None => x
  end.

Lemma move_steps sched x : rtc wstep x (foldl move x sched).
Proof.
  revert x; induction sched as [|i sched IH]; intros x; simpl; [done|].
  transitivity (move x i); [|apply IH]. unfold move.
  destruct (threads x !! i) as [p|] eqn:Ei; [|done].
  destruct (pc_step en0 _ _ _ p) as [[[d q] p']|] eqn:Ep; [|done].
  apply rtc_once. by eapply wstep_call; [exact modern_en0|..].
Qed.

Definition pending_build (id : string) : Build :=
  mkBuild id StatusPending "" "" "" "" "" None [] "" "" 0 0 600 "" 0 (f64_of_Z (-1)) 0 0 None.

(** Two submissions and a poll, with room for one build in the queue. *)
Definition race0 : world DB :=
  mkWorld empty_db (Queue.New 1)
    [SubmitFull (pending_build "b1"); SubmitFull (pending_build "b2"); AssignPeek "w1"].

(** The poll finds b1 in the database before its submitter has pushed it. *)
Definition schedule : list nat := [0; 0; 2; 2; 2; 2; 2; 2; 1; 1; 1; 0; 0].

Lemma race_exclusive_witness : NoDup (handed (threads (foldl move race0 schedule))).
Proof.
  apply (race_exclusive empty_db (Queue.New 1) (threads race0) (foldl move race0 schedule)).
  - split; apply map_Forall_empty.
  - repeat constructor.
  - apply move_steps.
Defined.

(** The submitter is told that the queue is full and its row is cancelled, although the
    worker has been given the build and is running it. *)
Lemma rejected_build_is_running :
  let x := foldl move race0 schedule in
  handed (threads x) = ["b1"] ∧
  threads x !! 0 = Some (Submitted (Err EQueueFull)) ∧
  r_status <$> builds (store x) !! "b1" = Some StatusCancelled.
Proof. cbv zeta. split_and!; vm_compute; reflexivity. Qed.

(** With room in the queue the late push leaves a build in the queue that is already
    running, and the next poll gets an error instead of the pending build. *)
Definition race1 : world DB :=
  mkWorld empty_db (Queue.New 10)
    [SubmitFull (pending_build "b1"); SubmitFull (pending_build "b2"); AssignPeek "w1"; AssignPeek "w2"].

Lemma stale_queue_entry :
  let x := foldl move race1 [0; 0; 2; 2; 2; 2; 2; 2; 0; 1; 1; 1; 3; 3] in
  handed (threads x) = ["b1"] ∧
  threads x !! 3 = Some (Assigned "w2" (Err (EErrorf "build already claimed or not pending"))) ∧
  r_status <$> builds (store x) !! "b2" = Some StatusPending.
Proof. cbv zeta. split_and!; vm_compute; reflexivity. Qed.
End examples.
