(* ===== verification/Paths.v ===== *)
(** * Paths and files

    What the engine uses of [path/filepath] and [os] on Unix: [Clean], [Join] and
    [Dir] on path strings, and a file system of directories and regular files that
    paths resolve in.  There are no symbolic links in it: the engine creates none,
    and an archive's links are not extracted. *)

From S2P Require Import Prelude GoStrings Domain.
From Stdlib Require Import Ascii.


Definition slash : ascii := "/"%char.
Abbreviation sep := (String slash "").

(** ** filepath *)

Definition rooted (p : string) : bool := HasPrefix p sep.

(** What a path element does to the elements kept so far, last one first: empty and
    [.] elements vanish, [..] takes back an element other than [..], is kept at the
    front of a relative path and vanishes at the root. *)
Definition clean_step (r : bool) (kept : list string) (e : string) : list string :=
  if String.eqb e "" || String.eqb e "." then kept
  else if String.eqb e ".." then
    match kept with
    | top :: rest => if String.eqb top ".." then e :: kept else rest
    | [] => if r then [] else [e]
    end
  else e :: kept.

Definition elems (p : string) : list string :=
  reverse (foldl (clean_step (rooted p)) [] (SplitByte p slash)).

Definition render (r : bool) (es : list string) : string :=
  if r then sep +:+ Join es sep
  else match es with [] => "." | _ => Join es sep end.

Definition Clean (p : string) : string := render (rooted p) (elems p).

(** [filepath.Join] ignores leading empty elements. *)
Fixpoint PathJoin (ps : list string) : string :=
  match ps with
  | [] => ""
  | p :: ps' => if String.eqb p "" then PathJoin ps' else Clean (Join ps sep)
  end.

Definition Dir (p : string) : string :=
  Clean (str_take (match LastIndex p sep with Some i => S i | None => 0 end) p).

(** The absolute elements a path names in the directory [cwd]. *)
Definition abs (cwd : list string) (p : string) : list string :=
  reverse (foldl (clean_step true) (if rooted p then [] else reverse cwd) (SplitByte p slash)).

Section examples.
Example clean_ex1 : Clean "/a//b/./../c/" = "/a/c". Proof. reflexivity. Qed.
Example clean_ex2 : Clean "a/../../b" = "../b". Proof. reflexivity. Qed.
Example clean_ex3 : Clean "/../.." = "/". Proof. reflexivity. Qed.
Example clean_ex4 : Clean "a/.." = ".". Proof. reflexivity. Qed.
Example join_ex : PathJoin [""; "builds"; "../x"] = "x". Proof. reflexivity. Qed.
Example dir_ex : (Dir "/a/b", Dir "a", Dir "/a") = ("/a", ".", "/"). Proof. reflexivity. Qed.
Example abs_ex : abs ["home"; "u"] "../x/y" = ["home"; "x"; "y"]. Proof. reflexivity. Qed.
End examples.

(** *** Clean paths *)

(** An element that names something below its directory. *)
Definition plain (e : string) : Prop :=
  e ≠ "" ∧ e ≠ "." ∧ e ≠ ".." ∧ str_all (λ c, negb (Ascii.eqb c slash)) e = true.

(** What [Clean] leaves: plain elements after some [..], none of these if rooted. *)
Inductive normal (r : bool) : list string → Prop :=
  | normal_names es : Forall plain es → normal r es
  | normal_up es : r = false → normal r es → normal r (".." :: es).

Lemma plain_step r kept e : plain e → clean_step r kept e = e :: kept.
Proof.
  intros (H1 & H2 & H3 & _). unfold clean_step.
  by rewrite (proj2 (String.eqb_neq _ _) H1), (proj2 (String.eqb_neq _ _) H2),
    (proj2 (String.eqb_neq _ _) H3).
Qed.

Lemma foldl_plain r kept es : Forall plain es → foldl (clean_step r) kept es = reverse es ++ kept.
Proof.
  intros Hes. revert kept; induction Hes as [|e es He _ IH]; intros kept; [done|]. simpl.
  rewrite plain_step, IH by done. by rewrite reverse_cons, <- app_assoc.
Qed.

Lemma normal_snoc r es e : normal r es → plain e → normal r (es ++ [e]).
Proof.
  induction 1 as [es Hes|es Hr _ IH]; intros He.
  - apply normal_names, Forall_app; auto.
  - by apply normal_up; auto.
Qed.

Lemma normal_prefix r es es' : normal r (es ++ es') → normal r es.
Proof.
  induction es as [|x es IH]; intros Hn; [by apply normal_names|]. inv Hn as [? Hf|? Hr Hn'].
  - apply normal_names. by apply (Forall_app _ (x :: es)) in Hf as [? _].
  - by apply normal_up; auto.
Qed.

Lemma normal_ups es : normal false es → (∀ es' e, es = es' ++ [e] → e = "..") → normal false (es ++ [".."]).
Proof.
  induction 1 as [es Hes|es Hr Hn IH]; intros Hl.
  - destruct es as [|e es _] using rev_ind; [by apply normal_up, normal_names|].
    apply Forall_app in Hes as [_ Hes]. inv Hes as [|? ? He _].
    specialize (Hl es e eq_refl). subst e. by destruct He as (_ & _ & ? & _).
  - apply normal_up; [done|]. apply IH. intros es' e ->. by apply (Hl (".." :: es')).
Qed.

(** One step keeps the elements normal. *)
Lemma clean_step_normal r kept e :
  str_all (λ c, negb (Ascii.eqb c slash)) e = true →
  normal r (reverse kept) → normal r (reverse (clean_step r kept e)).
Proof.
  intros Hfree Hn. unfold clean_step.
  destruct (String.eqb e "" || String.eqb e ".") eqn:E; [done|].
  apply orb_false_iff in E as [E1%String.eqb_neq E2%String.eqb_neq].
  destruct (String.eqb e "..") eqn:E3.
  - apply String.eqb_eq in E3 as ->. destruct kept as [|top rest].
    + destruct r; [done|]. by apply normal_up, normal_names.
    + rewrite reverse_cons in Hn. destruct (String.eqb top "..") eqn:Et.
      * apply String.eqb_eq in Et as ->. rewrite !reverse_cons. destruct r.
        { inv Hn as [? Hf|]. apply Forall_app in Hf as [_ Hf].
          apply Forall_singleton in Hf as (_ & _ & ? & _). done. }
        apply normal_ups; [done|]. by intros es' e [_ ->]%app_inj_tail.
      * by eapply normal_prefix.
  - apply String.eqb_neq in E3. rewrite reverse_cons. by apply normal_snoc.
Qed.

Lemma foldl_normal r kept es :
  Forall (λ e, str_all (λ c, negb (Ascii.eqb c slash)) e = true) es →
  normal r (reverse kept) → normal r (reverse (foldl (clean_step r) kept es)).
Proof.
  intros Hes. revert kept; induction Hes as [|e es He _ IH]; intros kept Hn; [done|]. simpl.
  by apply IH, clean_step_normal.
Qed.

Lemma elems_normal p : normal (rooted p) (elems p).
Proof. apply foldl_normal; [apply SplitByte_parts_free|]. by apply normal_names. Qed.

(** *** Rendering and reading back *)

Lemma normal_parts r es :
  normal r es →
  Forall (λ e, e ≠ "" ∧ e ≠ "." ∧ str_all (λ c, negb (Ascii.eqb c slash)) e = true) es.
Proof.
  induction 1 as [es Hes|es _ _ IH]; [|by constructor].
  eapply Forall_impl; [exact Hes|]. by intros e (? & ? & ? & ?).
Qed.

Lemma normal_free r es :
  normal r es → Forall (λ e, str_all (λ c, negb (Ascii.eqb c slash)) e = true) es.
Proof. intros Hn%normal_parts. eapply Forall_impl; [exact Hn|]. by intros e (? & ? & ?). Qed.

Lemma foldl_normal_id r es : normal r es → foldl (clean_step r) [] es = reverse es.
Proof.
  intros Hn. destruct Hn as [es Hes|es Hr Hn]; [rewrite foldl_plain, app_nil_r; done|]. subst r.
  assert (∀ k, foldl (clean_step false) (replicate k "..") (".." :: es)
               = reverse (".." :: es) ++ replicate k "..") as Hg; [|specialize (Hg 0); rewrite app_nil_r in Hg; exact Hg].
  induction Hn as [es Hes|es _ _ IH]; intros k.
  - change (foldl (clean_step false) (replicate k "..") (".." :: es)) with
      (foldl (clean_step false) (clean_step false (replicate k "..") "..") es).
    replace (clean_step false (replicate k "..") "..") with (replicate (S k) "..") by (by destruct k).
    rewrite foldl_plain by done. rewrite reverse_cons, <- app_assoc. done.
  - change (foldl (clean_step false) (replicate k "..") (".." :: ".." :: es)) with
      (foldl (clean_step false) (clean_step false (replicate k "..") "..") (".." :: es)).
    replace (clean_step false (replicate k "..") "..") with (replicate (S k) "..") by (by destruct k).
    rewrite IH, (reverse_cons (".." :: es)), <- app_assoc. done.
Qed.

Lemma SplitByte_render r es :
  normal r es →
  SplitByte (render r es) slash =
    match es with [] => if r then [""; ""] else ["."] | _ => (if r then [""] else []) ++ es end.
Proof.
  intros Hn%normal_free. destruct es as [|e es]; [by destruct r|]. destruct r; cbn [render].
  - change (sep +:+ Join (e :: es) sep) with ("" +:+ String slash (Join (e :: es) sep)).
    rewrite SplitByte_app_sep, SplitByte_Join by done. done.
  - by rewrite SplitByte_Join.
Qed.

Lemma rooted_cons c s : rooted (String c s) = Ascii.eqb c slash.
Proof.
  unfold rooted, HasPrefix. cbn [String.prefix].
  destruct (ascii_dec slash c) as [<-|Hc]; [by destruct s|]. symmetry. apply Ascii.eqb_neq. congruence.
Qed.

Lemma rooted_app s t : s ≠ "" → rooted (s +:+ t) = rooted s.
Proof. destruct s as [|c s]; [done|]. intros _. by rewrite str_app_cons, !rooted_cons. Qed.

Lemma rooted_part e : str_all (λ c, negb (Ascii.eqb c slash)) e = true → rooted e = false.
Proof.
  destruct e as [|c e]; [done|]. rewrite rooted_cons. cbn [str_all]. by destruct (Ascii.eqb c slash).
Qed.

Lemma rooted_render r es : normal r es → rooted (render r es) = r.
Proof.
  intros Hn. destruct r; cbn [render]; [apply HasPrefix_app|].
  apply normal_parts in Hn as Hp. destruct es as [|e es]; [done|].
  apply Forall_cons in Hp as [(He & _ & Hf) _]. destruct es as [|e' es]; [by apply rooted_part|].
  change (Join (e :: e' :: es) sep) with (e +:+ sep +:+ Join (e' :: es) sep).
  rewrite rooted_app by done. by apply rooted_part.
Qed.

Lemma elems_render r es : normal r es → elems (render r es) = es.
Proof.
  intros Hn. unfold elems. rewrite rooted_render, SplitByte_render by done.
  assert (foldl (clean_step r) [] es = reverse es) as Hf by (by apply foldl_normal_id).
  destruct es as [|e es]; [by destruct r|]. rewrite foldl_app.
  replace (foldl (clean_step r) [] (if r then [""] else [])) with (@nil string) by (by destruct r).
  by rewrite Hf, reverse_involutive.
Qed.

Lemma rooted_Clean p : rooted (Clean p) = rooted p.
Proof. apply rooted_render, elems_normal. Qed.

Lemma elems_Clean p : elems (Clean p) = elems p.
Proof. apply elems_render, elems_normal. Qed.

Lemma Clean_idemp p : Clean (Clean p) = Clean p.
Proof. unfold Clean at 1. by rewrite rooted_Clean, elems_Clean. Qed.

Lemma render_nonempty r es : normal r es → render r es ≠ "".
Proof.
  intros Hn. destruct r; cbn [render]; [done|].
  apply normal_parts in Hn. destruct es as [|e es]; [done|].
  apply Forall_cons in Hn as [(He & _) _]. by destruct es, e.
Qed.

(** *** Resolving *)

Lemma clean_step_resolve base kept e :
  normal false (reverse kept) → str_all (λ c, negb (Ascii.eqb c slash)) e = true →
  foldl (clean_step true) base (reverse (clean_step false kept e)) =
  clean_step true (foldl (clean_step true) base (reverse kept)) e.
Proof.
  intros Hn Hf. unfold clean_step at 2.
  destruct (String.eqb e "" || String.eqb e ".") eqn:E; [unfold clean_step; by rewrite E|].
  apply orb_false_iff in E as [E1%String.eqb_neq E2%String.eqb_neq].
  destruct (String.eqb e "..") eqn:E3; [|by rewrite reverse_cons, foldl_app].
  apply String.eqb_eq in E3 as ->. destruct kept as [|top rest]; [done|].
  destruct (String.eqb top "..") eqn:Et; [by rewrite (reverse_cons (top :: rest)), foldl_app|].
  apply String.eqb_neq in Et. rewrite reverse_cons, foldl_app. simpl.
  rewrite reverse_cons in Hn. apply normal_parts, Forall_app in Hn as [_ Ht].
  apply Forall_singleton in Ht as (? & ? & ?). rewrite (plain_step _ _ top) by done.
  unfold clean_step at 2. simpl. by rewrite (proj2 (String.eqb_neq _ _) Et).
Qed.

Lemma foldl_resolve base kept es :
  normal false (reverse kept) →
  Forall (λ e, str_all (λ c, negb (Ascii.eqb c slash)) e = true) es →
  foldl (clean_step true) (foldl (clean_step true) base (reverse kept)) es =
  foldl (clean_step true) base (reverse (foldl (clean_step false) kept es)).
Proof.
  intros Hn Hes. revert kept Hn; induction Hes as [|e es He _ IH]; intros kept Hn; [done|]. simpl.
  rewrite <- clean_step_resolve by done. apply IH. by apply clean_step_normal.
Qed.

(** A path and its elements name the same file. *)
Lemma abs_elems cwd p :
  abs cwd p = reverse (foldl (clean_step true) (if rooted p then [] else reverse cwd) (elems p)).
Proof.
  unfold abs. pose proof (elems_normal p) as Hn. unfold elems in *. f_equal.
  destruct (rooted p).
  { pose proof (foldl_normal_id _ _ Hn) as Hid. by rewrite Hid, reverse_involutive. }
  apply (foldl_resolve (reverse cwd) []); [by apply normal_names|apply SplitByte_parts_free].
Qed.

Lemma abs_Clean cwd p : abs cwd (Clean p) = abs cwd p.
Proof. by rewrite !abs_elems, rooted_Clean, elems_Clean. Qed.

(** Plain elements below a path. *)
Lemma abs_app cwd p q rest :
  rooted q = rooted p → elems q = elems p ++ rest → Forall plain rest →
  abs cwd q = abs cwd p ++ rest.
Proof.
  intros Hr He Hp. rewrite !abs_elems, Hr, He, foldl_app, foldl_plain by done.
  by rewrite reverse_app, reverse_involutive.
Qed.

Lemma elems_sep p : p ≠ "" → elems (p +:+ sep) = elems p.
Proof.
  intros Hp. unfold elems. rewrite rooted_app by done.
  change sep with (String slash ""). by rewrite SplitByte_app_sep, foldl_app.
Qed.

Lemma Dir_Clean p es e : elems p = es ++ [e] → Dir (Clean p) = render (rooted p) es.
Proof.
  intros He. pose proof (elems_normal p) as Hn. rewrite He in Hn.
  assert (str_all (λ c, negb (Ascii.eqb c slash)) e = true) as Hf.
  { apply normal_free in Hn. apply Forall_app in Hn as [_ Hf]. by rewrite Forall_singleton in Hf. }
  assert (normal (rooted p) es) as Hes.
  { by eapply normal_prefix. }
  assert (∀ a, a ≠ "" → elems a = es → rooted a = rooted p →
               Dir (a +:+ String slash e) = render (rooted p) es) as Hgen.
  { intros a Ha Hae Har. unfold Dir. rewrite LastIndex_last by done.
    replace (S (strlen a)) with (strlen (a +:+ sep)) by (rewrite strlen_app; simpl; lia).
    replace (a +:+ String slash e) with ((a +:+ sep) +:+ e) by (by rewrite <- str_app_assoc).
    rewrite str_take_app. unfold Clean. by rewrite elems_sep, rooted_app, Hae, Har. }
  unfold Clean. rewrite He. destruct es as [|x es].
  - destruct (rooted p); cbn [render app Join].
    + unfold Dir. change (sep +:+ e) with ("" +:+ String slash e).
      rewrite LastIndex_last by done. by destruct e.
    + unfold Dir. by rewrite LastIndex_free.
  - rewrite <- (Hgen (render (rooted p) (x :: es))); [|by apply render_nonempty|by apply elems_render|by apply rooted_render].
    f_equal. destruct (rooted p); cbn [render].
    + rewrite Join_app, <- str_app_assoc by done. done.
    + change ((x :: es) ++ [e]) with (x :: (es ++ [e])). cbn [render].
      change (x :: (es ++ [e])) with ((x :: es) ++ [e]). by rewrite Join_app.
Qed.

(** *** Paths below a directory *)

Lemma normal_app_plain r es es' :
  normal r (es ++ es') → Exists (λ e, e ≠ "..") es → Forall plain es'.
Proof.
  induction es as [|x es IH]; intros Hn He; [by inv He|]. inv Hn as [? Hf|? Hr Hn'].
  - by apply (Forall_app _ (x :: es)) in Hf as [_ ?].
  - apply IH; [done|]. by inv He.
Qed.

(** A directory given by its own name: an absolute path, or a relative one that does
    not end in [..]. *)
Definition anchored (d : string) : Prop := rooted d = true ∨ Exists (λ e, e ≠ "..") (elems d).

Lemma prefix_elems d q :
  HasPrefix (Clean q) (Clean d +:+ sep) = true →
  rooted q = rooted d ∧ elems d ≠ [] ∧ ∃ rest, rest ≠ [] ∧ elems q = elems d ++ rest.
Proof.
  intros [t Ht]%HasPrefix_inv. rewrite <- str_app_assoc in Ht.
  change (sep +:+ t) with (String slash t) in Ht.
  pose proof (elems_normal d) as Hd. pose proof (elems_normal q) as Hq.
  assert (rooted q = rooted d) as Hr.
  { rewrite <- (rooted_Clean q), <- (rooted_Clean d), Ht. apply rooted_app. by apply render_nonempty. }
  apply (f_equal (λ s, SplitByte s slash)) in Ht. rewrite SplitByte_app_sep in Ht.
  unfold Clean in Ht. rewrite !SplitByte_render, Hr in Ht by done.
  apply normal_parts in Hd, Hq. pose proof (SplitByte_nonempty slash t) as Hne.
  destruct (elems d) as [|x xs], (elems q) as [|y ys]; destruct (rooted d); simpl in Ht; simplify_eq;
    rewrite ?Forall_cons in Hd; rewrite ?Forall_cons in Hq; destruct_and?; try done.
  all: try (by destruct (SplitByte t slash)).
  all: split_and!; [done..|by exists (SplitByte t slash)].
Qed.

(** The prefix test of the code accepts exactly the paths strictly below [d]. *)
Lemma prefix_below cwd d q :
  anchored d → HasPrefix (Clean q) (Clean d +:+ sep) = true →
  ∃ rest, rest ≠ [] ∧ Forall plain rest ∧ abs cwd q = abs cwd d ++ rest ∧
          rooted q = rooted d ∧ elems q = elems d ++ rest.
Proof.
  intros Ha (Hr & Hd & rest & Hne & He)%prefix_elems. exists rest.
  pose proof (elems_normal q) as Hn. rewrite He, Hr in Hn.
  assert (Forall plain rest) as Hp.
  { eapply normal_app_plain; [exact Hn|]. destruct Ha as [Ha|Ha]; [|done].
    rewrite Ha in Hn. inv Hn as [? Hf|]. destruct (elems d) as [|x xs]; [done|].
    left. apply (Forall_cons _ x) in Hf as [Hx _]. apply Hx. }
  split_and!; [done..|by apply abs_app|done|done].
Qed.

Lemma prefix_test_complete d q rest :
  rooted q = rooted d → elems d ≠ [] → rest ≠ [] → elems q = elems d ++ rest →
  HasPrefix (Clean q) (Clean d +:+ sep) = true.
Proof.
  intros Hr Hd Hne He. unfold Clean. rewrite Hr, He.
  assert (render (rooted d) (elems d ++ rest) =
          (render (rooted d) (elems d) +:+ sep) +:+ Join rest sep) as ->; [|apply HasPrefix_app].
  destruct (elems d) as [|x xs]; [done|]. rewrite <- str_app_assoc.
  destruct (rooted d).
  - change (render true ((x :: xs) ++ rest)) with (sep +:+ Join ((x :: xs) ++ rest) sep).
    rewrite Join_app by done. cbn [render]. by rewrite <- str_app_assoc.
  - change (render false ((x :: xs) ++ rest)) with (Join ((x :: xs) ++ rest) sep).
    by rewrite Join_app.
Qed.

(** [filepath.Join(d, p)] of plain elements is below [d]. *)
Lemma abs_PathJoin cwd d p :
  Forall plain (SplitByte p slash) → abs cwd (PathJoin [d; p]) = abs cwd d ++ SplitByte p slash.
Proof.
  intros Hp. assert (p ≠ "") as Hne by (intros ->; by apply Forall_cons in Hp as [(? & _) _]).
  assert (rooted p = false) as Hr.
  { destruct p as [|c p]; [done|]. rewrite rooted_cons. destruct (Ascii.eqb c slash) eqn:E; [|done].
    cbn [SplitByte] in Hp. rewrite E in Hp. cbn in Hp. by apply Forall_cons in Hp as [(? & _) _]. }
  unfold PathJoin. rewrite (proj2 (String.eqb_neq _ _) Hne). destruct (String.eqb d "") eqn:Ed.
  - apply String.eqb_eq in Ed as ->. rewrite abs_Clean. cbn [Join].
    change (abs cwd "") with (reverse (reverse cwd)). unfold abs.
    rewrite Hr, foldl_plain, reverse_app, !reverse_involutive by done. done.
  - apply String.eqb_neq in Ed. rewrite abs_Clean. cbn [Join]. unfold abs.
    rewrite rooted_app by done. change (sep +:+ p) with (String slash p).
    rewrite SplitByte_app_sep, foldl_app, foldl_plain by done.
    by rewrite reverse_app, reverse_involutive.
Qed.

Lemma elems_PathJoin d p :
  Forall plain (SplitByte p slash) → elems (PathJoin [d; p]) = elems d ++ SplitByte p slash.
Proof.
  intros Hp. assert (p ≠ "") as Hne by (intros ->; by apply Forall_cons in Hp as [(? & _) _]).
  unfold PathJoin. rewrite (proj2 (String.eqb_neq _ _) Hne). destruct (String.eqb d "") eqn:Ed.
  - apply String.eqb_eq in Ed as ->. rewrite elems_Clean. cbn [Join].
    change (elems "" ++ SplitByte p slash) with (SplitByte p slash). unfold elems.
    by rewrite foldl_plain, app_nil_r, reverse_involutive.
  - apply String.eqb_neq in Ed. rewrite elems_Clean. cbn [Join]. unfold elems.
    rewrite rooted_app by done. change (sep +:+ p) with (String slash p).
    rewrite SplitByte_app_sep, foldl_app, foldl_plain by done.
    by rewrite reverse_app, reverse_involutive.
Qed.

Lemma PathJoin_clean ps : PathJoin ps = "" ∨ Clean (PathJoin ps) = PathJoin ps.
Proof.
  induction ps as [|p ps IH]; [by left|]. cbn [PathJoin]. destruct (String.eqb p ""); [done|].
  right. apply Clean_idemp.
Qed.

(** The directory of a path below [d]. *)
Lemma abs_Dir_below cwd d ps rest :
  rooted (PathJoin ps) = rooted d → elems (PathJoin ps) = elems d ++ rest → rest ≠ [] →
  Forall plain rest → abs cwd d `prefix_of` abs cwd (Dir (PathJoin ps)).
Proof.
  intros Hr He Hne Hp. destruct rest as [|e rest _] using rev_ind; [done|].
  apply Forall_app in Hp as [Hp Hpe]. rewrite Forall_singleton in Hpe.
  destruct (PathJoin_clean ps) as [Hps|Hps].
  { rewrite Hps in He. change (elems "") with (@nil string) in He.
    apply (f_equal length) in He. rewrite !length_app in He. simpl in He. lia. }
  rewrite <- Hps. rewrite (Dir_Clean _ (elems d ++ rest) e) by (by rewrite He, app_assoc).
  pose proof (elems_normal (PathJoin ps)) as Hn. rewrite He, app_assoc in Hn. apply normal_prefix in Hn.
  exists rest. apply abs_app; [by rewrite rooted_render|by rewrite elems_render|done].
Qed.

(** ** Files *)

Inductive node :=
  | DirNode
  | FileNode (data : string).

#[global] Instance node_eq_dec : EqDecision node.
Proof. solve_decision. Defined.

(** The file system: the nodes at absolute paths; the root directory always exists. *)
Abbreviation files := (gmap (list string) node).

Definition is_dir (fs : files) (p : list string) : bool :=
  match p, fs !! p with
  | [], _ => true
  | _, Some DirNode => true
  | _, _ => false
  end.

(** What the disk refuses an operation with, if it does. *)
Abbreviation disk_fault := (option string).

(** [os.MkdirAll]: the directories on the way, from the top. *)
Fixpoint mkdir_from (fs : files) (at_ todo : list string) : result () * files :=
  match todo with
  | [] => (Ok (), fs)
  | e :: todo =>
      let p := at_ ++ [e] in
      match fs !! p with
      | Some DirNode => mkdir_from fs p todo
      | Some (FileNode _) => (Err (EErrorf "not a directory"), fs)
      | None => mkdir_from (<[p := DirNode]> fs) p todo
      end
  end.

Definition MkdirAll (f : disk_fault) (cwd : list string) (fs : files) (path : string) :
    result () * files :=
  match f with
  | Some msg => (Err (EErrorf msg), fs)
  | None => mkdir_from fs [] (abs cwd path)
  end.

(** [os.Create], then what [io.Copy] writes to the new file. *)
Definition CreateWrite (f : disk_fault) (cwd : list string) (fs : files) (path data : string) :
    result () * files :=
  let p := abs cwd path in
  match f with
  | Some msg => (Err (EErrorf msg), fs)
  | None =>
      match p, fs !! p with
      | [], _ => (Err (EErrorf "is a directory"), fs)
      | _, Some DirNode => (Err (EErrorf "is a directory"), fs)
      | _, _ =>
          if is_dir fs (removelast p) then (Ok (), <[p := FileNode data]> fs)
          else (Err (EErrorf "no such file or directory"), fs)
      end
  end.

(** [os.Open] and [io.Copy] from the file: reading a directory fails. *)
Definition ReadFile (f : disk_fault) (cwd : list string) (fs : files) (path : string) : result string :=
  match f, fs !! abs cwd path with
  | None, Some (FileNode d) => Ok d
  | Some msg, _ => Err (EErrorf msg)
  | _, _ => Err (EErrorf "no such file or directory")
  end.

(** [os.RemoveAll], for callers that drop its error: a node that the disk refuses to
    remove ([kept]) stays, with the directories it lies in; the path [.] is refused. *)
Definition RemoveAll (kept : list (list string)) (cwd : list string) (fs : files) (path : string) : files :=
  if String.eqb path "." then fs
  else filter (λ kn, ¬ abs cwd path `prefix_of` kn.1 ∨ Exists (λ k, kn.1 `prefix_of` k) kept) fs.

Lemma RemoveAll_outside kept cwd fs path p :
  ¬ abs cwd path `prefix_of` p → RemoveAll kept cwd fs path !! p = fs !! p.
Proof.
  intros Hp. unfold RemoveAll. destruct (String.eqb path "."); [done|]. rewrite map_lookup_filter.
  destruct (fs !! p); [|done]. simpl. rewrite option_guard_True; [done|by left].
Qed.

Lemma RemoveAll_below kept cwd fs path p :
  path ≠ "." → abs cwd path `prefix_of` p →
  RemoveAll kept cwd fs path !! p = if decide (Exists (λ k, p `prefix_of` k) kept) then fs !! p else None.
Proof.
  intros Hd Hp. unfold RemoveAll. rewrite (proj2 (String.eqb_neq _ _) Hd), map_lookup_filter.
  destruct (fs !! p) as [n|]; simpl; [|by case_decide]. case_decide as Hk.
  - rewrite option_guard_True; [done|by right].
  - rewrite option_guard_False; [done|]. by intros [?|?].
Qed.

(** Every directory on the way to [p], [p] included, exists. *)
Definition dirs_to (fs : files) (p : list string) : Prop :=
  ∀ q, q `prefix_of` p → is_dir fs q = true.

Lemma is_dir_insert_dir fs p q : is_dir fs q = true → is_dir (<[p := DirNode]> fs) q = true.
Proof.
  intros Hq. destruct q as [|e q]; [done|]. cbn [is_dir] in *.
  destruct (decide (p = e :: q)) as [->|Hne]; [by rewrite lookup_insert_eq|].
  by rewrite lookup_insert_ne by done.
Qed.

Lemma is_dir_lookup fs p : p ≠ [] → is_dir fs p = true → fs !! p = Some DirNode.
Proof. destruct p as [|e p]; [done|]. intros _. cbn [is_dir]. by destruct (fs !! (e :: p)) as [[]|]. Qed.

Lemma is_dir_intro fs p : fs !! p = Some DirNode → is_dir fs p = true.
Proof. destruct p as [|e p]; [done|]. intros Hp. cbn [is_dir]. by rewrite Hp. Qed.

Lemma prefix_snoc_inv (p q : list string) e :
  q `prefix_of` p ++ [e] → q `prefix_of` p ∨ q = p ++ [e].
Proof.
  intros [k Hk]. destruct k as [|x k _] using rev_ind; [rewrite app_nil_r in Hk; by right|].
  rewrite app_assoc in Hk. apply app_inj_tail in Hk as [-> _]. left. by exists k.
Qed.

Lemma prefix_snoc_ne (p q : list string) e : p ++ [e] `prefix_of` q → p `prefix_of` q ∧ q ≠ p.
Proof.
  intros [k ->]. split; [rewrite <- app_assoc; by eexists|].
  intros Hk%(f_equal length). rewrite !length_app in Hk. simpl in Hk. lia.
Qed.

(** Where [mkdir_from] makes directories: on the way, and only where there was
    nothing. *)
Lemma mkdir_from_frame fs at_ todo p :
  let fs' := (mkdir_from fs at_ todo).2 in
  fs' !! p = fs !! p ∨
  (fs !! p = None ∧ fs' !! p = Some DirNode ∧
   at_ `prefix_of` p ∧ p ≠ at_ ∧ p `prefix_of` at_ ++ todo).
Proof.
  revert fs at_; induction todo as [|e todo IH]; intros fs at_; cbn [mkdir_from]; [by left|].
  replace (at_ ++ e :: todo) with ((at_ ++ [e]) ++ todo) by (by rewrite <- app_assoc).
  destruct (fs !! (at_ ++ [e])) as [[|d]|] eqn:E; [|by left|].
  - destruct (IH fs (at_ ++ [e])) as [?|(? & ? & Hp & ? & ?)]; [by left|right].
    apply prefix_snoc_ne in Hp as [? ?]. done.
  - specialize (IH (<[at_ ++ [e] := DirNode]> fs) (at_ ++ [e])).
    destruct (decide (p = at_ ++ [e])) as [->|Hne].
    + rewrite lookup_insert_eq in IH. right. destruct IH as [IH|(? & ? & _)]; [|done].
      destruct (prefix_snoc_ne at_ (at_ ++ [e]) e) as [? ?]; [done|].
      split_and!; [done..|by eexists].
    + rewrite lookup_insert_ne in IH by done.
      destruct IH as [IH|(? & ? & Hp & ? & ?)]; [by left|right].
      apply prefix_snoc_ne in Hp as [? ?]. done.
Qed.

(** A successful one makes them all. *)
Lemma mkdir_from_dirs fs at_ todo :
  (mkdir_from fs at_ todo).1 = Ok () → dirs_to fs at_ →
  dirs_to (mkdir_from fs at_ todo).2 (at_ ++ todo).
Proof.
  revert fs at_; induction todo as [|e todo IH]; intros fs at_; cbn [mkdir_from].
  { intros _ H. by rewrite app_nil_r. }
  replace (at_ ++ e :: todo) with ((at_ ++ [e]) ++ todo) by (by rewrite <- app_assoc).
  destruct (fs !! (at_ ++ [e])) as [[|d]|] eqn:E; [|done|]; intros Hok Hd; apply IH; try done;
    intros q [Hq| ->]%prefix_snoc_inv.
  - by apply Hd.
  - by apply is_dir_intro.
  - by apply is_dir_insert_dir, Hd.
  - by apply is_dir_intro, lookup_insert_eq.
Qed.

Lemma MkdirAll_ok_dirs f cwd fs path :
  (MkdirAll f cwd fs path).1 = Ok () → dirs_to (MkdirAll f cwd fs path).2 (abs cwd path).
Proof.
  destruct f; [done|]. unfold MkdirAll. intros Hok. apply (mkdir_from_dirs fs []); [done|].
  intros q Hq. by apply prefix_nil_inv in Hq as ->.
Qed.

(** A failing one does not make the last of them. *)
Lemma mkdir_from_err fs at_ todo e p :
  (mkdir_from fs at_ todo).1 = Err e → at_ ++ todo `prefix_of` p → (mkdir_from fs at_ todo).2 !! p = fs !! p.
Proof.
  revert fs at_; induction todo as [|x todo IH]; intros fs at_; cbn [mkdir_from]; [done|].
  replace (at_ ++ x :: todo) with ((at_ ++ [x]) ++ todo) by (by rewrite <- app_assoc).
  destruct (fs !! (at_ ++ [x])) as [[|d]|] eqn:E; [by apply IH|done|]. intros Herr Hp.
  rewrite IH by done. apply lookup_insert_ne. intros <-.
  assert (todo = []) as ->; [|done]. destruct Hp as [k Hk%(f_equal length)].
  rewrite !length_app in Hk. destruct todo; [done|]. simpl in Hk. lia.
Qed.

(** A fresh directory is made with those on the way to it; nothing else is touched. *)
Lemma MkdirAll_fresh f cwd fs path :
  let '(res, fs') := MkdirAll f cwd fs path in
  (∀ p, fs' !! p = fs !! p ∨ p `prefix_of` abs cwd path ∧ fs !! p = None ∧ fs' !! p = Some DirNode) ∧
  match res with
  | Ok _ => dirs_to fs' (abs cwd path)
  | Err _ => ∀ p, abs cwd path `prefix_of` p → fs' !! p = fs !! p
  end.
Proof.
  pose proof (MkdirAll_ok_dirs f cwd fs path) as Hok. unfold MkdirAll in *.
  destruct f as [msg|]; [split; [by left|done]|].
  pose proof (mkdir_from_frame fs [] (abs cwd path)) as Hf. cbn [app] in Hf.
  pose proof (λ e p, mkdir_from_err fs [] (abs cwd path) e p) as He. cbn [app] in He.
  destruct (mkdir_from fs [] (abs cwd path)) as [[[]|e] fs']; cbn [fst snd] in *; (split; [|by eauto]);
    intros p; (destruct (Hf p) as [Hp|(? & ? & _ & _ & ?)]; [left; exact Hp|right; auto]).
Qed.

(** Making one more directory. *)
Lemma mkdir_from_child fs at_ todo e :
  dirs_to fs (at_ ++ todo) →
  mkdir_from fs at_ (todo ++ [e]) =
    match fs !! ((at_ ++ todo) ++ [e]) with
    | Some DirNode => (Ok (), fs)
    | Some (FileNode _) => (Err (EErrorf "not a directory"), fs)
    | None => (Ok (), <[(at_ ++ todo) ++ [e] := DirNode]> fs)
    end.
Proof.
  revert at_; induction todo as [|x todo IH]; intros at_ Hd.
  { rewrite app_nil_r. cbn [app mkdir_from]. by destruct (fs !! _) as [[]|]. }
  cbn [app mkdir_from].
  assert (fs !! (at_ ++ [x]) = Some DirNode) as ->.
  { apply is_dir_lookup; [by destruct at_|]. apply Hd. exists todo. by rewrite <- app_assoc. }
  replace (at_ ++ x :: todo) with ((at_ ++ [x]) ++ todo) in * by (by rewrite <- app_assoc).
  by apply IH.
Qed.

Lemma MkdirAll_child f cwd fs path d e :
  dirs_to fs d → abs cwd path = d ++ [e] →
  let '(res, fs') := MkdirAll f cwd fs path in
  (∀ p, p ≠ d ++ [e] → fs' !! p = fs !! p) ∧
  match res with Ok _ => dirs_to fs' (d ++ [e]) | Err _ => fs' = fs end.
Proof.
  intros Hd Habs. pose proof (MkdirAll_ok_dirs f cwd fs path) as Hok. rewrite Habs in Hok.
  unfold MkdirAll in *. destruct f; [done|]. rewrite Habs in *.
  pose proof (mkdir_from_child fs [] d e Hd) as Hm. cbn [app] in Hm. rewrite Hm in *.
  destruct (fs !! (d ++ [e])) as [[]|]; cbn [fst snd] in *; [by split; auto|done|].
  split; [|by apply Hok]. intros p Hp. by rewrite lookup_insert_ne.
Qed.

(** A path below a directory that exists is made without touching anything else. *)
Lemma MkdirAll_below f cwd fs path d p :
  dirs_to fs d → d `prefix_of` abs cwd path → ¬ (d `prefix_of` p ∧ p ≠ d) →
  (MkdirAll f cwd fs path).2 !! p = fs !! p.
Proof.
  intros Hd Hpre Hp. destruct f as [msg|]; [done|]. unfold MkdirAll.
  destruct (mkdir_from_frame fs [] (abs cwd path) p) as [?|(Hn & _ & _ & Hne & Hpp)]; [done|].
  simpl in Hpp. exfalso. destruct (prefix_weak_total p d (abs cwd path) Hpp Hpre) as [Hpd|Hdp].
  - apply Hd in Hpd. apply is_dir_lookup in Hpd; [|done]. congruence.
  - apply Hp. split; [done|]. intros ->. specialize (Hd d (reflexivity d)).
    apply is_dir_lookup in Hd; [|done]. congruence.
Qed.

(** Existing directories stay. *)
Lemma MkdirAll_keeps f cwd fs path p n : fs !! p = Some n → (MkdirAll f cwd fs path).2 !! p = Some n.
Proof.
  intros Hp. destruct f; [done|]. unfold MkdirAll.
  destruct (mkdir_from_frame fs [] (abs cwd path) p) as [->|(? & _)]; [done|congruence].
Qed.

Lemma dirs_to_keeps fs fs' d :
  dirs_to fs d → (∀ p, fs !! p = Some DirNode → fs' !! p = Some DirNode) → dirs_to fs' d.
Proof.
  intros Hd Hk q Hq. specialize (Hd q Hq). destruct q as [|e q]; [done|].
  apply is_dir_intro, Hk, is_dir_lookup; [done..].
Qed.

Lemma CreateWrite_frame f cwd fs path data p :
  p ≠ abs cwd path → (CreateWrite f cwd fs path data).2 !! p = fs !! p.
Proof.
  intros Hp. unfold CreateWrite. destruct f; [done|].
  destruct (abs cwd path) as [|e q]; [done|]. destruct (fs !! (e :: q)) as [[]|]; [done|..];
    (destruct (is_dir _ _); [|done]); simpl; by rewrite lookup_insert_ne.
Qed.

Lemma CreateWrite_ok f cwd fs path data :
  (CreateWrite f cwd fs path data).1 = Ok () →
  (CreateWrite f cwd fs path data).2 !! abs cwd path = Some (FileNode data).
Proof.
  unfold CreateWrite. destruct f; [done|]. destruct (abs cwd path) as [|e q]; [done|].
  destruct (fs !! (e :: q)) as [[]|]; [done|..]; (destruct (is_dir _ _); [|done]);
    intros _; apply lookup_insert_eq.
Qed.

Lemma CreateWrite_keeps_dirs f cwd fs path data p :
  fs !! p = Some DirNode → (CreateWrite f cwd fs path data).2 !! p = Some DirNode.
Proof.
  intros Hp. destruct (decide (p = abs cwd path)) as [->|Hne]; [|by rewrite CreateWrite_frame].
  unfold CreateWrite. destruct f; [done|]. destruct (abs cwd path) as [|e q]; [done|].
  by rewrite Hp.
Qed.
