(* ===== verification/Http.v ===== *)
(** * HTTP answers

    What a handler sends back ([net/http]): the status code, the [Retry-After]
    header where one is set, and the payload.  A JSON body is kept as the value that
    is encoded; what a client that decodes into interfaces sees of it is a [value],
    whose leaves are the values of the source and not their texts. *)

From S2P Require Import Prelude Float64 GoSort Domain.

Definition StatusOK : Z := 200.
Definition StatusCreated : Z := 201.
Definition StatusNoContent : Z := 204.
Definition StatusBadRequest : Z := 400.
Definition StatusNotFound : Z := 404.
Definition StatusConflict : Z := 409.
Definition StatusInternalServerError : Z := 500.
Definition StatusServiceUnavailable : Z := 503.

Inductive payload :=
  | PEmpty
  | PText (s : string)
  | PError (msg : string)
  | PBuild (b : Build)
  | PPage (page : list Build) (total limit offset : Z)
  | PHealth (pending active depth : Z)
  | PDeleted (n : Z).

Record response := mkResponse {
  code : Z;
  retry_after : option string;
  body : payload;
}.

Definition reply (c : Z) (p : payload) : response := mkResponse c None p.

(** [http.Error]. *)
Definition http_Error (msg : string) (c : Z) : response := reply c (PError msg).

#[global] Instance payload_eq_dec : EqDecision payload.
Proof. solve_decision. Defined.
#[global] Instance response_eq_dec : EqDecision response.
Proof. solve_decision. Defined.

(** ** JSON values *)

Inductive value :=
  | VNull
  | VBool (b : bool)
  | VStr (s : string)
  | VNum (n : Z)
  | VFloat (x : float64)
  | VTime (t : time)
  | VList (l : list value)
  | VObj (fields : list (string * value)).

(** A field tagged [omitempty]. *)
Definition omit_str (k s : string) : list (string * value) :=
  if String.eqb s "" then [] else [(k, VStr s)].

Definition string_map (m : gmap string string) : value :=
  VObj (map (λ k, (k, VStr (default "" (m !! k)))) (Strings (map_to_list m).*1)).

(** A build with the tags of its struct. *)
Definition build_value (b : Build) : value :=
  VObj (
    [("id", VStr (ID b)); ("status", VStr (BStatus b)); ("fingerprint", VStr (BFingerprint b))] ++
    omit_str "worker_id" (WorkerID b) ++
    [("context_key", VStr (ContextKey b)); ("dockerfile", VStr (Dockerfile b))] ++
    omit_str "image_tag" (ImageTag b) ++
    match Args b with
    | Some m => if decide (m = ∅) then [] else [("args", string_map m)]
    | None => []
    end ++
    match Instructions b with [] => [] | l => [("instructions", VList (map VStr l))] end ++
    omit_str "logs" (Logs b) ++ omit_str "error" (BError b) ++
    [("retry_count", VNum (RetryCount b)); ("max_retries", VNum (MaxRetries b));
     ("timeout_seconds", VNum (TimeoutSeconds b))] ++
    omit_str "user_id" (UserID b) ++
    [("priority", VNum (Priority b)); ("cache_hit_rate", VFloat (CacheHitRate b));
     ("created_at", VTime (CreatedAt b)); ("updated_at", VTime (UpdatedAt b))] ++
    match CompletedAt b with Some t => [("completed_at", VTime t)] | None => [] end).

(** What a JSON answer encodes; a nil slice is null. *)
Definition payload_value (p : payload) : option value :=
  match p with
  | PBuild b => Some (build_value b)
  | PPage page total limit offset =>
      Some (VObj [("builds", match page with [] => VNull | _ => VList (map build_value page) end);
                  ("limit", VNum limit); ("offset", VNum offset); ("total", VNum total)])
  | PHealth pending active depth =>
      Some (VObj [("active_workers", VNum active); ("db_ok", VBool true);
                  ("pending_builds", VNum pending); ("queue_depth", VNum depth)])
  | PDeleted n => Some (VObj [("deleted", VNum n)])
  | PEmpty | PText _ | PError _ => None
  end.
