(* ===== verification/BlobStore.v ===== *)
(** * internal/oss and the blob endpoint

    The blob stores ([oss.go]): the [BlobStore] interface, the local store over the
    file system of [Paths], the S3 store over a client that is a parameter, and the
    choice between them; and the handler that serves blobs ([server.go],
    [serveBlob]) against the interface. *)

From S2P Require Import Prelude GoStrings Domain Paths Http.
From Stdlib Require Import Ascii.

(** ** The interface *)

(** An [io.Reader]: the bytes it delivers and the error it ends with, if any. *)
Record reader := mkReader { r_data : string; r_err : option error }.

(** A store of the type [St]; what a call meets is the argument of type [F]. *)
Class BlobStore (St F : Type) := {
  Put : F → St → string → reader → result Z * St;
  Get : F → St → string → result string;
  Delete : F → St → string → result () * St;
}.

(** ** The local store *)

Record LocalStore := mkLocal { basePath : string; cwd : list string; disk : files }.

Definition resolveKey (s : LocalStore) (key : string) : string :=
  PathJoin [basePath s; Clean key].

Definition set_disk (s : LocalStore) (fs : files) : LocalStore := mkLocal (basePath s) (cwd s) fs.

(** [os.Remove]: a file, or an empty directory. *)
Definition os_Remove (f : disk_fault) (cwd : list string) (fs : files) (path : string) :
    result () * files :=
  let p := abs cwd path in
  match f, fs !! p with
  | Some msg, _ => (Err (EErrorf msg), fs)
  | None, None => (Err (EErrorf "no such file or directory"), fs)
  | None, Some (FileNode _) => (Ok (), delete p fs)
  | None, Some DirNode =>
      if decide (map_Forall (λ q _, p `prefix_of` q → q = p) fs) then (Ok (), delete p fs)
      else (Err (EErrorf "directory not empty"), fs)
  end.

(** The faults of Put are those of MkdirAll and of Create. *)
Definition local_Put (f : disk_fault * disk_fault) (s : LocalStore) (key : string) (r : reader) :
    result Z * LocalStore :=
  let p := resolveKey s key in
  match MkdirAll f.1 (cwd s) (disk s) (Dir p) with
  | (Err e, fs) => (Err e, set_disk s fs)
  | (Ok _, fs) =>
      match CreateWrite f.2 (cwd s) fs p (r_data r), r_err r with
      | (Err e, fs), _ => (Err e, set_disk s fs)
      | (Ok _, fs), Some e => (Err e, set_disk s fs)
      | (Ok _, fs), None => (Ok (Z.of_nat (strlen (r_data r))), set_disk s fs)
      end
  end.

Definition local_Get (f : disk_fault * disk_fault) (s : LocalStore) (key : string) : result string :=
  ReadFile f.1 (cwd s) (disk s) (resolveKey s key).

Definition local_Delete (f : disk_fault * disk_fault) (s : LocalStore) (key : string) :
    result () * LocalStore :=
  let '(res, fs) := os_Remove f.1 (cwd s) (disk s) (resolveKey s key) in (res, set_disk s fs).

#[global] Instance local_blobs : BlobStore LocalStore (disk_fault * disk_fault) := {|
  Put := local_Put; Get := local_Get; Delete := local_Delete;
|}.

Definition NewLocalStore (f : disk_fault) (cwd : list string) (fs : files) (base : string) :
    result LocalStore * files :=
  match MkdirAll f cwd fs base with
  | (Err e, fs) => (Err (EWrap "create blob store dir" e), fs)
  | (Ok _, fs) => (Ok (mkLocal base cwd fs), fs)
  end.

(** ** The S3 store

    The MinIO client is a parameter: what a bucket is and what its calls do. *)

Record S3Config := mkS3 {
  Endpoint : string;
  AccessKey : string;
  SecretKey : string;
  Bucket : string;
  UseSSL : bool;
}.

Section s3.
Context {client fault : Type}.
Context (BucketExists : fault → client → string → result bool).
Context (MakeBucket : fault → client → string → result () * client).
Context (PutObject : fault → client → string → string → string → result Z * client).
Context (GetObject : fault → client → string → string → result string).
Context (RemoveObject : fault → client → string → string → result () * client).

Record S3Store := mkS3Store { s3_client : client; bucket : string }.

(** The bucket is created if it is not there; [new] is the result of [minio.New]. *)
Definition NewS3Store (f : fault) (new : result client) (cfg : S3Config) : result S3Store :=
  match new with
  | Err e => Err (EWrap "create s3 client" e)
  | Ok c =>
      match BucketExists f c (Bucket cfg) with
      | Err e => Err (EWrap "check bucket" e)
      | Ok true => Ok (mkS3Store c (Bucket cfg))
      | Ok false =>
          match MakeBucket f c (Bucket cfg) with
          | (Err e, _) => Err (EWrap ("create bucket " +:+ Bucket cfg) e)
          | (Ok _, c) => Ok (mkS3Store c (Bucket cfg))
          end
      end
  end.

Definition s3_Put (f : fault) (s : S3Store) (key : string) (r : reader) : result Z * S3Store :=
  match r_err r with
  | Some e => (Err e, s)
  | None =>
      let '(res, c) := PutObject f (s3_client s) (bucket s) key (r_data r) in
      (res, mkS3Store c (bucket s))
  end.

Definition s3_Get (f : fault) (s : S3Store) (key : string) : result string :=
  GetObject f (s3_client s) (bucket s) key.

Definition s3_Delete (f : fault) (s : S3Store) (key : string) : result () * S3Store :=
  let '(res, c) := RemoveObject f (s3_client s) (bucket s) key in (res, mkS3Store c (bucket s)).

Definition s3_blobs : BlobStore S3Store fault := {|
  Put := s3_Put; Get := s3_Get; Delete := s3_Delete;
|}.
End s3.

(** ** The choice of the store *)

Definition getenv_default (getenv : string → string) (name default : string) : string :=
  if String.eqb (getenv name) "" then default else getenv name.

(** [None] is the local store, [Some] the configuration of the S3 store. *)
Definition NewStoreFromEnv `{UnicodeLowerTables} (getenv : string → string) : option S3Config :=
  if String.eqb (getenv "S3_ENDPOINT") "" then None
  else Some (mkS3 (getenv "S3_ENDPOINT") (getenv_default getenv "S3_ACCESS_KEY" "admin")
               (getenv_default getenv "S3_SECRET_KEY" "password")
               (getenv_default getenv "S3_BUCKET" "dtbuildkit")
               (String.eqb (ToLower (getenv "S3_USE_SSL")) "true")).

(** ** The blob endpoint *)

Definition NUL : string := String "000"%char "".
Definition blob_route : string := "/api/v1/blobs/".

Definition serveBlob {St F : Type} `{!BlobStore St F} (f : F) (s : St) (path : string) : response :=
  let key := TrimPrefix path blob_route in
  if String.eqb key "" || Contains key ".." || HasPrefix key sep || Contains key NUL then
    http_Error "invalid key" StatusBadRequest
  else
    let cleaned := Clean key in
    if negb (String.eqb cleaned key) || HasPrefix cleaned sep || HasPrefix cleaned ".." then
      http_Error "invalid key" StatusBadRequest
    else
      match Get f s cleaned with
      | Err _ => http_Error "not found" StatusNotFound
      | Ok data => reply StatusOK (PText data)
      end.

(** ** Facts *)

Lemma Contains_prefix s sub : HasPrefix s sub = true → Contains s sub = true.
Proof. intros Hp. destruct s; cbn [Contains]; by rewrite Hp. Qed.

Lemma Clean_Join es : es ≠ [] → Forall plain es → Clean (Join es sep) = Join es sep.
Proof.
  intros Hne Hp. assert (Join es sep = render false es) as -> by (by destruct es).
  unfold Clean. by rewrite rooted_render, elems_render by (by apply normal_names).
Qed.

Lemma Join_plain_facts es :
  es ≠ [] → Forall plain es → Join es sep ≠ "" ∧ rooted (Join es sep) = false.
Proof.
  intros Hne Hp. assert (Join es sep = render false es) as -> by (by destruct es).
  split; [by apply render_nonempty, normal_names|by apply rooted_render, normal_names].
Qed.

(** The keys the endpoint accepts: [.] and joined plain elements. *)
Definition acceptable (key : string) : bool :=
  negb (String.eqb key "" || Contains key ".." || HasPrefix key sep || Contains key NUL) &&
  negb (negb (String.eqb (Clean key) key) || HasPrefix (Clean key) sep || HasPrefix (Clean key) "..").

Lemma acceptable_spec key :
  acceptable key = true ↔
  Contains key ".." = false ∧ Contains key NUL = false ∧
  (key = "." ∨ ∃ es, es ≠ [] ∧ Forall plain es ∧ key = Join es sep).
Proof.
  unfold acceptable. rewrite !andb_true_iff, !negb_true_iff, !orb_false_iff, negb_false_iff.
  change (HasPrefix key sep) with (rooted key). change (HasPrefix (Clean key) sep) with (rooted (Clean key)).
  rewrite rooted_Clean. split.
  - intros ((((He & H1) & Hr) & H2) & (Hc%String.eqb_eq & _) & Hd). split_and!; [done..|].
    rewrite Hc in Hd. pose proof (elems_normal key) as Hn.
    unfold Clean in Hc. rewrite Hr in Hc, Hn.
    destruct Hn as [es Hes|es _ Hn].
    + destruct es as [|e es]; [by left|right]. exists (e :: es). by split_and!.
    + exfalso. rewrite <- Hc in Hd. cbn [render] in Hd. destruct es as [|e es]; [done|].
      change (Join (".." :: e :: es) sep) with (".." +:+ sep +:+ Join (e :: es) sep) in Hd.
      by rewrite HasPrefix_app in Hd.
  - intros (H1 & H2 & [->|(es & Hne & Hp & ->)]); [done|].
    destruct (Join_plain_facts es Hne Hp) as [Hj Hr]. rewrite Clean_Join by done.
    split_and!; [by apply String.eqb_neq|done..|by apply String.eqb_refl|done|].
    destruct (HasPrefix _ "..") eqn:Ep; [|done]. apply Contains_prefix in Ep. congruence.
Qed.

Lemma serveBlob_eq {St F} `{!BlobStore St F} f (s : St) path :
  let key := TrimPrefix path blob_route in
  serveBlob f s path =
    if acceptable key then
      match Get f s key with
      | Err _ => http_Error "not found" StatusNotFound
      | Ok data => reply StatusOK (PText data)
      end
    else http_Error "invalid key" StatusBadRequest.
Proof.
  intros key. unfold serveBlob, acceptable. fold key.
  destruct (String.eqb key "" || _ || _ || _); [done|]. cbn [negb andb].
  destruct (String.eqb (Clean key) key) eqn:Ec; [|done]. apply String.eqb_eq in Ec.
  rewrite Ec. cbn [negb orb]. by destruct (HasPrefix key sep || HasPrefix key "..").
Qed.

Lemma abs_resolveKey s es :
  es ≠ [] → Forall plain es →
  abs (cwd s) (resolveKey s (Join es sep)) = abs (cwd s) (basePath s) ++ es.
Proof.
  intros Hne Hp. unfold resolveKey. rewrite Clean_Join by done.
  assert (SplitByte (Join es sep) slash = es) as Hs.
  { apply SplitByte_Join; [done|]. eapply Forall_impl; [exact Hp|]. by intros e (_ & _ & _ & ?). }
  rewrite abs_PathJoin; by rewrite Hs.
Qed.

Lemma abs_resolveKey_dot s : abs (cwd s) (resolveKey s ".") = abs (cwd s) (basePath s).
Proof.
  unfold resolveKey. change (Clean ".") with ".". cbn [PathJoin].
  destruct (String.eqb (basePath s) "") eqn:Eb.
  - apply String.eqb_eq in Eb as ->. done.
  - apply String.eqb_neq in Eb. cbn [String.eqb]. rewrite abs_Clean. cbn [Join]. unfold abs.
    rewrite rooted_app by done. change (sep +:+ ".") with (String slash ".").
    by rewrite SplitByte_app_sep, foldl_app.
Qed.

(** Directories do not show in what files hold. *)
Lemma ReadFile_MkdirAll f g cwd fs path q :
  ReadFile g cwd (MkdirAll f cwd fs path).2 q = ReadFile g cwd fs q.
Proof.
  unfold ReadFile. destruct g; [by repeat case_match|]. destruct f as [|]; [done|].
  unfold MkdirAll.
  destruct (mkdir_from_frame fs [] (abs cwd path) (abs cwd q)) as [->|(-> & -> & _)]; done.
Qed.

(** ** Properties *)

(** C26. The blob endpoint over the local store answers 200 exactly with the content of a
    regular file strictly below the base directory: the path that was asked for is a
    non-empty sequence of plain elements (none empty, [.] or [..]) and names the file
    by them.  No request reads a file outside the base directory, whatever it
    contains, and every file stored under an ordinary key is served. *)
Theorem serveBlob_confined (f : disk_fault * disk_fault) (s : LocalStore) (path data : string)
    (Hb : ∀ d, disk s !! abs (cwd s) (basePath s) ≠ Some (FileNode d)) :
  serveBlob f s path = reply StatusOK (PText data) ↔
  f.1 = None ∧ ∃ es, es ≠ [] ∧ Forall plain es ∧ TrimPrefix path blob_route = Join es sep ∧
    Contains (Join es sep) ".." = false ∧ Contains (Join es sep) NUL = false ∧
    disk s !! (abs (cwd s) (basePath s) ++ es) = Some (FileNode data).
Proof.
  rewrite serveBlob_eq. cbn zeta. split.
  - destruct (acceptable _) eqn:Ha; [|done]. apply acceptable_spec in Ha as (H1 & H2 & Hk).
    cbn [Get local_blobs]. unfold local_Get, ReadFile. destruct f as [[m|] f2]; [by destruct (_ !! _)|].
    cbn [fst]. destruct Hk as [Hk|(es & Hne & Hp & Hk)]; rewrite Hk in *.
    + rewrite abs_resolveKey_dot. destruct (disk s !! _) as [[|d]|] eqn:E; [done| |done]. by destruct (Hb d).
    + rewrite abs_resolveKey by done. destruct (disk s !! (_ ++ es)) as [[|d]|] eqn:E; [done| |done].
      intros [= <-]. split; [done|]. by exists es.
  - intros (Hf & es & Hne & Hp & Hk & H1 & H2 & Hd). rewrite Hk.
    assert (acceptable (Join es sep) = true) as -> by (apply acceptable_spec; eauto 10).
    cbn [Get local_blobs]. unfold local_Get, ReadFile. by rewrite abs_resolveKey, Hd, Hf by done.
Qed.

(** What was put is what is read: after a [Put] that succeeds, any key of the same
    file reads the data, and any other key reads what it read before.  A [Put] that
    fails changes what no key reads, unless the upload itself broke off: then the keys
    of the file read what had arrived. *)
Lemma local_put_get (f g : disk_fault * disk_fault) (s : LocalStore) (key key' : string) (r : reader) :
  let same := abs (cwd s) (resolveKey s key') = abs (cwd s) (resolveKey s key) in
  let arrived := match g.1 with None => Ok (r_data r) | Some msg => Err (EErrorf msg) end in
  let '(res, s') := Put f s key r in
  match res with
  | Ok n =>
      n = Z.of_nat (strlen (r_data r)) ∧
      Get g s' key' = if decide same then arrived else Get g s key'
  | Err _ =>
      Get g s' key' = Get g s key' ∨ (r_err r ≠ None ∧ same ∧ Get g s' key' = arrived)
  end.
Proof.
  intros same arrived. cbn [Put Get local_blobs]. unfold local_Put, local_Get.
  pose proof (ReadFile_MkdirAll f.1 g.1 (cwd s) (disk s) (Dir (resolveKey s key)) (resolveKey s key')) as Hm.
  destruct (MkdirAll _ _ _ _) as [[u|e] fs1]; [|left; exact Hm]. cbn [snd] in Hm.
  pose proof (CreateWrite_ok f.2 (cwd s) fs1 (resolveKey s key) (r_data r)) as Hok.
  pose proof (CreateWrite_frame f.2 (cwd s) fs1 (resolveKey s key) (r_data r)) as Hfr.
  destruct (CreateWrite f.2 (cwd s) fs1 (resolveKey s key) (r_data r)) as [[[]|e] fs2] eqn:E.
  - specialize (Hok eq_refl). cbn [snd] in *.
    assert (ReadFile g.1 (cwd s) fs2 (resolveKey s key') =
            if decide same then arrived else ReadFile g.1 (cwd s) (disk s) (resolveKey s key')) as Hr.
    { rewrite <- Hm. unfold ReadFile, same, arrived. case_decide as Hd.
      - rewrite Hd, Hok. by destruct g.1.
      - by rewrite Hfr. }
    destruct (r_err r) as [e|]; [|done]. unfold same in *. case_decide; [right|left]; done.
  - left. rewrite <- Hm. assert (fs2 = fs1) as ->; [|done]. unfold CreateWrite in E. clear -E.
    repeat case_match; simplify_eq; done.
Qed.

(** ** Concrete runs *)

Definition store1 : LocalStore :=
  mkLocal "/var/blobs" [] {[ ["var"] := DirNode; ["var"; "blobs"] := DirNode;
    ["var"; "blobs"; "contexts"] := DirNode;
    ["var"; "blobs"; "contexts"; "b1.tar.gz"] := FileNode "data"; ["etc"] := FileNode "secret" ]}.

Lemma serveBlob_confined_witness :
  serveBlob (None, None) store1 "/api/v1/blobs/contexts/b1.tar.gz" = reply StatusOK (PText "data") ∧
  serveBlob (None, None) store1 "/api/v1/blobs/../../etc" ≠ reply StatusOK (PText "secret").
Proof.
  split.
  - apply serveBlob_confined; [intros d; vm_compute; congruence|]. split; [reflexivity|].
    exists ["contexts"; "b1.tar.gz"]. split; [discriminate|].
    split; [repeat constructor; try discriminate|]. repeat split; reflexivity.
  - vm_compute. congruence.
Defined.

(** A submission's [build_id] goes into the key of its context unchecked
    ([submitBuild] stores ["contexts/" + id + ".tar.gz"] before it validates anything):
    an id with [..] in it stores outside the base directory. *)
Lemma context_key_escapes :
  let '(res, s') := Put (None, None) store1 "contexts/../../../tmp/x.tar.gz" (mkReader "evil" None) in
  res = Ok 4%Z ∧ disk s' !! ["tmp"; "x.tar.gz"] = Some (FileNode "evil").
Proof. vm_compute. done. Qed.
