(* ===== verification/BuildkitClient.v ===== *)
(** * internal/buildkit

    The BuildKit client ([client.go]): which vertices count as build steps, the
    command line of buildctl, and the interpretation of its progress stream, from
    which the log lines and the cache hit rate come.  The process itself is the
    environment of [Build]: what it writes and how it ends.  [json.Unmarshal] of a
    progress line is the parameter [decode]; every result holds for any decoder. *)

From S2P Require Import Prelude Float64 GoStrings Hashing Domain GoTime.
From Stdlib Require Import Ascii SpecFloat.

(** ** Which steps count *)

Definition is_digit_rune (c : Z) : bool := negb ((c <? 48)%Z || (57 <? c)%Z).

(** [None] would be the panic of a slice. *)
Definition isUserStep (name : string) : option bool :=
  match Index name "[", Index name "]" with
  | Some bracketStart, Some bracketEnd =>
      if bracketEnd <=? bracketStart then Some false
      else
        content ← slice name (bracketStart + 1) bracketEnd;
        match last (Fields content) with
        | None => Some false
        | Some mn =>
            let parts := SplitByte mn "/" in
            if negb (length parts =? 2) then Some false
            else if negb (forallb (λ p, negb (String.eqb p "") && forallb is_digit_rune (runes p)) parts)
            then Some false
            else
              rest ← slice_from name (bracketEnd + 1);
              Some (negb (HasPrefix (TrimSpace rest) "FROM "))
        end
  | _, _ => Some false
  end.

Definition isValidBuildArgKey (key : string) : bool :=
  negb (String.eqb key "") &&
  forallb (λ c, ((97 <=? c)%Z && (c <=? 122)%Z) || ((65 <=? c)%Z && (c <=? 90)%Z) ||
                ((48 <=? c)%Z && (c <=? 57)%Z) || (c =? 95)%Z || (c =? 45)%Z || (c =? 46)%Z) (runes key).

Section examples.
Example step_ex1 : isUserStep "[2/5] RUN make" = Some true. Proof. vm_compute. reflexivity. Qed.
Example step_ex2 : isUserStep "[builder 2/5] COPY . ." = Some true. Proof. vm_compute. reflexivity. Qed.
Example step_ex3 : isUserStep "[1/5] FROM alpine" = Some false. Proof. vm_compute. reflexivity. Qed.
Example step_ex4 : isUserStep "[internal] load metadata" = Some false. Proof. vm_compute. reflexivity. Qed.
End examples.

(** ** The command line *)

(** [strconv.Quote], the verb [%q]: which runes above ASCII print as they are is a
    table of Unicode data. *)
Class UnicodePrint := print_special : Z → bool.

Definition IsPrint `{UnicodePrint} (r : Z) : bool :=
  if (r <? 0x80)%Z then (0x20 <=? r)%Z && (r <=? 0x7e)%Z else print_special r.

Definition backslash : ascii := "092"%char.
Definition dquote : ascii := "034"%char.

Definition hex_char (z : Z) : ascii := byte_of (if (z <? 10)%Z then 48 + z else 87 + z)%Z.

(** [n] hexadecimal digits of [z]. *)
Fixpoint hex_digits (n : nat) (z : Z) : string :=
  match n with
  | O => ""
  | S n => hex_digits n (z / 16)%Z +:+ String (hex_char (z mod 16)) ""
  end.

Definition escaped (c : ascii) (digits : string) : string := String backslash (String c digits).

Definition quote_rune `{UnicodePrint} (r : Z) (raw : string) : string :=
  if (r =? 34)%Z || (r =? 92)%Z then String backslash raw
  else if (r =? RuneError)%Z && (strlen raw =? 1) then escaped "x" (hex_digits 2 (byte_at raw 0))
  else if IsPrint r then raw
  else if (r =? 7)%Z then escaped "a" "" else if (r =? 8)%Z then escaped "b" ""
  else if (r =? 12)%Z then escaped "f" "" else if (r =? 10)%Z then escaped "n" ""
  else if (r =? 13)%Z then escaped "r" "" else if (r =? 9)%Z then escaped "t" ""
  else if (r =? 11)%Z then escaped "v" ""
  else if (r <? 0x20)%Z || (r =? 0x7f)%Z then escaped "x" (hex_digits 2 r)
  else if (r <? 0x10000)%Z then escaped "u" (hex_digits 4 r)
  else escaped "U" (hex_digits 8 r).

Fixpoint quote_loop `{UnicodePrint} (fuel : nat) (s : string) : string :=
  match fuel, s with
  | S fuel, String _ _ =>
      let '(r, w) := DecodeRune s in
      let w := Nat.max 1 w in
      quote_rune r (str_take w s) +:+ quote_loop fuel (str_drop w s)
  | _, _ => ""
  end.

Definition Quote `{UnicodePrint} (s : string) : string :=
  String dquote (quote_loop (strlen s) s +:+ String dquote "").

Record BuildOptions := mkOptions {
  ContextDir : string;
  ODockerfile : string;
  OutputTag : string;
  CacheFrom : string;
  CacheTo : string;
  BuildArgs : list (string * string);  (** in the order in which the map is ranged over *)
}.

Definition opt_arg (value before after : string) : list string :=
  if String.eqb value "" then [] else [before +:+ value +:+ after].

(** The loop over the build arguments. *)
Fixpoint arg_opts `{UnicodePrint} (kvs : list (string * string)) : result (list string) :=
  match kvs with
  | [] => Ok []
  | (k, v) :: kvs =>
      if negb (isValidBuildArgKey k) then Err (EErrorf ("invalid build arg key: " +:+ Quote k))
      else match arg_opts kvs with
           | Err e => Err e
           | Ok rest => Ok (("--opt=build-arg:" +:+ k +:+ "=" +:+ v) :: rest)
           end
  end.

Definition buildctl_args `{UnicodePrint} (buildkitAddr : string) (opts : BuildOptions) : result (list string) :=
  match arg_opts (BuildArgs opts) with
  | Err e => Err e
  | Ok extra =>
      Ok (["--addr=" +:+ buildkitAddr; "build"; "--frontend=dockerfile.v0";
           "--local=context=" +:+ ContextDir opts; "--local=dockerfile=" +:+ ContextDir opts;
           "--opt=filename=" +:+ ODockerfile opts; "--progress=rawjson"] ++
          opt_arg (OutputTag opts) "--output=type=image,name=" ",push=true" ++
          opt_arg (CacheFrom opts) "--import-cache=type=registry,ref=" "" ++
          opt_arg (CacheTo opts) "--export-cache=type=registry,ref=" ",mode=max" ++ extra)
  end.

(** ** Progress messages *)

Record rawVertex := mkVertex {
  Digest : string;
  VName : string;
  Started : string;
  Completed : string;
  Cached : bool;
  VError : string;
}.

Record rawVtxStatus := mkStatus {
  SID : string;
  SVertex : string;
  SName : string;
  Current : Z;
  Total : Z;
  STimestamp : string;
  SStarted : string;
  SCompleted : string;
}.

Record rawVtxLog := mkLog {
  LVertex : string;
  Stream : Z;
  Data : string;
  LTimestamp : string;
}.

Record rawMessage := mkMessage {
  Vertexes : list rawVertex;
  Statuses : list rawVtxStatus;
  MLogs : list rawVtxLog;
}.

Record vertexInfo := mkInfo {
  num : Z;
  name : string;
  started : bool;
  completed : bool;
  cached : bool;
  startTime : time;
}.

(** The variables the reader goroutine keeps; [sent] are the calls of onLog. *)
Record progress := mkProgress {
  vertices : gmap string vertexInfo;
  nextNum : Z;
  logBuf : string;
  sent : list string;
}.

Definition no_progress : progress := mkProgress ∅ 1 "" [].

Definition maxLogBytes : Z := 10 * 1024 * 1024.

Definition emit (p : progress) (line : string) : progress :=
  mkProgress (vertices p) (nextNum p)
    (if (Z.of_nat (strlen (logBuf p)) <? maxLogBytes)%Z then logBuf p +:+ line else logBuf p)
    (sent p ++ [line]).

Definition getVertex (p : progress) (digest nm : string) : vertexInfo * progress :=
  match vertices p !! digest with
  | Some vi => (vi, p)
  | None =>
      let vi := mkInfo (nextNum p) nm false false false zero_time in
      (vi, mkProgress (<[digest := vi]> (vertices p)) (nextNum p + 1) (logBuf p) (sent p))
  end.

(** An assignment to fields of the vertex behind [digest]. *)
Definition set_vertex (p : progress) (digest : string) (vi : vertexInfo) : progress :=
  mkProgress (<[digest := vi]> (vertices p)) (nextNum p) (logBuf p) (sent p).

(** *** Durations *)

(** [time.Parse(time.RFC3339Nano, s)] for a fraction introduced by a point, of which
    nine digits count. *)
Fixpoint digits_prefix (s : string) : string :=
  match s with
  | "" => ""
  | String c s' => match digit_val c with Some _ => String c (digits_prefix s') | None => "" end
  end.

Definition pad_nanos (ds : string) : string := str_take 9 (ds +:+ "000000000").

Definition ParseNano (s : string) : option time :=
  if char_is s 19 "." then
    let ds := digits_prefix (str_drop 20 s) in
    if String.eqb ds "" then None
    else
      t ← Parse (str_take 19 s +:+ str_drop (20 + strlen ds) s);
      ns ← parse_digits (pad_nanos ds) 0;
      Some (t + ns)%Z
  else Parse s.

(** [Time.Sub] saturates. *)
Definition time_Sub (t u : time) : duration := Z.max (-(2 ^ 63)) (Z.min (2 ^ 63 - 1) (t - u)).

Definition Seconds (d : duration) : float64 :=
  f64_add (f64_of_Z (Z.quot d second)) (f64_div (f64_of_Z (Z.rem d second)) (f64_of_Z second)).

(** The tenths nearest to a finite float, ties to even. *)
Definition tenths (m : positive) (e : Z) : Z :=
  if (0 <=? e)%Z then (Zpos m * 10 * 2 ^ e)%Z
  else
    let n := (Zpos m * 10)%Z in
    let d := (2 ^ (- e))%Z in
    let q := (n / d)%Z in
    let r := (2 * (n mod d))%Z in
    if (r <? d)%Z || ((r =? d)%Z && Z.even q) then q else (q + 1)%Z.

(** [fmt.Sprintf("%.1f", x)]. *)
Definition format_1f (x : float64) : string :=
  match x with
  | S754_nan => "NaN"
  | S754_infinity false => "+Inf"
  | S754_infinity true => "-Inf"
  | S754_zero s => (if s then "-" else "") +:+ "0.0"
  | S754_finite s m e =>
      let t := tenths m e in
      (if s then "-" else "") +:+ Sprint (t / 10) +:+ "." +:+ Sprint (t mod 10)
  end.

(** [t.IsZero()] of an instant. *)
Definition IsZero (t : time) : bool := (t =? zero_time)%Z.

Definition duration_text (vi : vertexInfo) (completedAt : string) : string :=
  match ParseNano completedAt with
  | Some t =>
      if negb (IsZero (startTime vi)) then " " +:+ format_1f (Seconds (time_Sub t (startTime vi))) +:+ "s"
      else ""
  | None => ""
  end.

Section examples2.
Example nano_ex : ParseNano "2024-06-10T06:13:20.25Z" = Some (1718000000 * second + 250000000)%Z.
Proof. vm_compute. reflexivity. Qed.
Example format_1f_ex : format_1f (Seconds 1250000000) = "1.2". Proof. vm_compute. reflexivity. Qed.
Example format_1f_ex2 : format_1f (Seconds 12360000000) = "12.4". Proof. vm_compute. reflexivity. Qed.
End examples2.

(** *** Base64 *)

Definition b64_val (c : ascii) : option Z :=
  let b := byte_val c in
  if ((65 <=? b) && (b <=? 90))%Z then Some (b - 65)%Z
  else if ((97 <=? b) && (b <=? 122))%Z then Some (b - 71)%Z
  else if ((48 <=? b) && (b <=? 57))%Z then Some (b + 4)%Z
  else if (b =? 43)%Z then Some 62%Z
  else if (b =? 47)%Z then Some 63%Z
  else None.

Definition b64_pad : ascii := "=".

(** The bytes of 24 bits, the first [n] of them. *)
Definition b64_bytes (n : nat) (v : Z) : string :=
  str_take n (String (byte_of (Z.shiftr v 16)) (String (byte_of (Z.land (Z.shiftr v 8) 255))
                (String (byte_of (Z.land v 255)) ""))).

Fixpoint b64_quanta (s : string) : option string :=
  match s with
  | "" => Some ""
  | String a (String b (String c (String d rest))) =>
      x ← b64_val a; y ← b64_val b;
      let hi := (Z.shiftl x 18 + Z.shiftl y 12)%Z in
      if Ascii.eqb c b64_pad then
        if Ascii.eqb d b64_pad && String.eqb rest "" then Some (b64_bytes 1 hi) else None
      else
        z ← b64_val c;
        let hi := (hi + Z.shiftl z 6)%Z in
        if Ascii.eqb d b64_pad then if String.eqb rest "" then Some (b64_bytes 2 hi) else None
        else
          w ← b64_val d;
          tail ← b64_quanta rest;
          Some (b64_bytes 3 (hi + w) +:+ tail)
  | _ => None
  end.

Fixpoint drop_newlines (s : string) : string :=
  match s with
  | "" => ""
  | String c s =>
      if Ascii.eqb c "010"%char || Ascii.eqb c "013"%char then drop_newlines s else String c (drop_newlines s)
  end.

(** [base64.StdEncoding.DecodeString]; [None] is its error. *)
Definition DecodeString (s : string) : option string := b64_quanta (drop_newlines s).

Example b64_ex : DecodeString "aGVsbG8K" = Some ("hello" +:+ String nl ""). Proof. reflexivity. Qed.
Example b64_ex2 : DecodeString "aGk=" = Some "hi". Proof. reflexivity. Qed.
Example b64_ex3 : DecodeString "aGk" = None. Proof. reflexivity. Qed.

(** ** The reader loop *)

Definition newline : string := String nl "".

Definition line_of (n : Z) (text : string) : string := "#" +:+ Sprint n +:+ " " +:+ text +:+ newline.

(** The body of [for _, v := range msg.Vertexes]. *)
Definition on_start (p : progress) (v : rawVertex) (vi : vertexInfo) : vertexInfo * progress :=
  if negb (String.eqb (Started v) "") && negb (started vi) then
    let t := match ParseNano (Started v) with Some t => t | None => startTime vi end in
    let vi := mkInfo (num vi) (name vi) true (completed vi) (cached vi) t in
    (vi, emit (set_vertex p (Digest v) vi) (line_of (num vi) (name vi)))
  else (vi, p).

Definition on_complete (p : progress) (v : rawVertex) (vi : vertexInfo) : progress :=
  if negb (String.eqb (Completed v) "") && negb (completed vi) then
    let vi := mkInfo (num vi) (name vi) (started vi) true (Cached v) (startTime vi) in
    let p := set_vertex p (Digest v) vi in
    let p := if Cached v then emit p (line_of (num vi) "CACHED")
             else emit p (line_of (num vi) ("DONE" +:+ duration_text vi (Completed v))) in
    emit p newline
  else p.

Definition process_vertex (p : progress) (v : rawVertex) : progress :=
  let '(vi, p) := getVertex p (Digest v) (VName v) in
  let '(vi, p) := on_start p v vi in
  on_complete p v vi.

(** The body of [for _, l := range msg.Logs]. *)
Definition process_log (p : progress) (l : rawVtxLog) : progress :=
  let '(vi, p) := getVertex p (LVertex l) "" in
  match DecodeString (Data l) with
  | None => p
  | Some text =>
      foldl (λ p logLine, emit p (line_of (num vi) logLine)) p (SplitByte (TrimRightByte text nl) nl)
  end.

(** The body of [for _, s := range msg.Statuses]. *)
Definition process_status (p : progress) (s : rawVtxStatus) : progress :=
  if String.eqb (SCompleted s) "" then p
  else
    let '(vi, p) := getVertex p (SVertex s) "" in
    emit p (line_of (num vi) (SName s +:+ " done")).

Definition process_message (p : progress) (msg : rawMessage) : progress :=
  foldl process_status
    (foldl process_log (foldl process_vertex p (Vertexes msg)) (MLogs msg)) (Statuses msg).

Section reader.
Context (decode : string → option rawMessage).

(** One round of the scan loop. *)
Definition process_line (p : progress) (line : string) : progress :=
  if String.eqb line "" then p
  else match decode line with
       | None => emit p (line +:+ newline)
       | Some msg => process_message p msg
       end.

(** [bufio.ScanLines]: the lines, without a carriage return at the end; the scanner
    stops at a line that does not fit its buffer. *)
Definition maxToken : Z := 1024 * 1024.

Definition dropCR (s : string) : string :=
  match strlen s with
  | O => s
  | S n => if char_is s n "013" then str_take n s else s
  end.

Fixpoint scanned (lines : list string) : list string :=
  match lines with
  | [] => []
  | [l] => if String.eqb l "" || (maxToken <=? Z.of_nat (strlen l))%Z then [] else [dropCR l]
  | l :: ls => if (maxToken <=? Z.of_nat (strlen l))%Z then [] else dropCR l :: scanned ls
  end.

(** What the scanner leaves in the pipe when it gives up: all that follows the bytes of the
    overlong line that filled its buffer. *)
Fixpoint unread (lines : list string) : Z :=
  match lines with
  | [] => 0
  | l :: ls =>
      if (maxToken <=? Z.of_nat (strlen l))%Z
      then (Z.of_nat (strlen l) - maxToken +
            foldr (λ x n, 1 + Z.of_nat (strlen x) + n) 0 ls)%Z
      else unread ls
  end.

Definition read_progress (stderr : string) : progress :=
  foldl process_line no_progress (scanned (SplitByte stderr nl)).
End reader.

(** ** Build *)

Record BuildResult := mkResult { ImageDigest : string; RCacheHitRate : float64 }.

(** The loop over the vertices: the cached and the counted steps. *)
Fixpoint count_steps (vis : list vertexInfo) : option (Z * Z) :=
  match vis with
  | [] => Some (0%Z, 0%Z)
  | vi :: vis =>
      '(hits, total) ← count_steps vis;
      if negb (completed vi) then Some (hits, total)
      else
        u ← isUserStep (name vi);
        if negb u then Some (hits, total)
        else Some (if cached vi then (hits + 1)%Z else hits, (total + 1)%Z)
  end.

Definition hit_rate (hits total : Z) : float64 :=
  if (0 <? total)%Z then f64_mul (f64_div (f64_of_Z hits) (f64_of_Z total)) (f64_of_Z 100)
  else f64_of_Z (-1).

(** What the process meets and does: whether the Dockerfile is there, the errors of
    the pipe and of the start, what buildctl writes, how it ends, and the context's
    error at that time.  Nobody reads the pipe once the scanner has given up, so a process
    that writes more than the pipe takes ([pipe_room] bytes) does not end by itself: it
    waits until the context, whose deadline the worker sets, ends with [ctx_end] and
    kills it. *)
Record run := mkRun {
  dockerfile_exists : bool;
  pipe_err : option error;
  start_err : option error;
  stderr : string;
  wait_err : option error;
  ctx_err : option error;
  pipe_room : Z;
  ctx_end : error;
}.

Definition stuck (r : run) : bool := (pipe_room r <? unread (SplitByte (stderr r) nl))%Z.

Definition maxErrLen : nat := Z.to_nat 4096.

(** [s[len(s)-n:]] if the text is longer. *)
Definition last_bytes (n : nat) (s : string) : string :=
  if n <? strlen s then str_drop (strlen s - n) s else s.

(** The result of Build and the lines it gave to onLog. *)
Definition Build `{UnicodePrint} (decode : string → option rawMessage) (buildkitAddr : string)
    (opts : BuildOptions) (r : run) : option (result BuildResult * list string) :=
  let dockerfilePath := ContextDir opts +:+ "/" +:+ ODockerfile opts in
  if negb (dockerfile_exists r) then Some (Err (EErrorf ("Dockerfile not found at " +:+ dockerfilePath)), [])
  else
    match buildctl_args buildkitAddr opts, pipe_err r, start_err r with
    | Err e, _, _ => Some (Err e, [])
    | Ok _, Some e, _ => Some (Err (EWrap "create stderr pipe" e), [])
    | Ok _, None, Some e => Some (Err (EWrap "start buildctl" e), [])
    | Ok _, None, None =>
        let p := read_progress decode (stderr r) in
        if stuck r then Some (Err (ctx_end r), sent p)
        else
          match wait_err r, ctx_err r with
          | Some _, Some e => Some (Err e, sent p)
          | Some _, None =>
              Some (Err (EErrorf ("buildctl failed: " +:+ last_bytes maxErrLen (logBuf p))), sent p)
          | None, _ =>
              '(hits, total) ← count_steps (map_to_list (vertices p)).*2;
              Some (Ok (mkResult "" (hit_rate hits total)), sent p)
          end
    end.

(** ** What the progress stream says

    The stream as a sequence of events, and what it says of a vertex: its name is the
    one it was first mentioned with, its outcome that of its first completion, its
    number its rank among the first mentions. *)

Inductive event :=
  | EvVertex (v : rawVertex)
  | EvLog (l : rawVtxLog)
  | EvStatus (s : rawVtxStatus)
  | EvText (line : string).

Definition message_events (msg : rawMessage) : list event :=
  (EvVertex <$> Vertexes msg) ++ (EvLog <$> MLogs msg) ++ (EvStatus <$> Statuses msg).

Definition line_events (decode : string → option rawMessage) (line : string) : list event :=
  if String.eqb line "" then []
  else match decode line with None => [EvText line] | Some msg => message_events msg end.

Definition stream_events (decode : string → option rawMessage) (text : string) : list event :=
  scanned (SplitByte text nl) ≫= line_events decode.

Definition mention (ev : event) : option (string * string) :=
  match ev with
  | EvVertex v => Some (Digest v, VName v)
  | EvLog l => Some (LVertex l, "")
  | EvStatus s => if String.eqb (SCompleted s) "" then None else Some (SVertex s, "")
  | EvText _ => None
  end.

Definition completion (ev : event) : option (string * bool) :=
  match ev with
  | EvVertex v => if String.eqb (Completed v) "" then None else Some (Digest v, Cached v)
  | _ => None
  end.

(** The first value given to [d]. *)
Definition first_of {A} (d : string) (l : list (string * A)) : option A :=
  snd <$> head (filter (λ x, x.1 = d) l).

(** Digests in the order of their first mention. *)
Definition order (evs : list event) : list string := firsts (fst <$> omap mention evs).

Definition user_step (nm : string) : bool := default false (isUserStep nm).

(** The steps that count, and those of them that were cached. *)
Definition counts (evs : list event) (d : string) : bool :=
  match first_of d (omap mention evs), first_of d (omap completion evs) with
  | Some nm, Some _ => user_step nm
  | _, _ => false
  end.
Definition cached_in (evs : list event) (d : string) : bool :=
  match first_of d (omap completion evs) with Some c => c | None => false end.

Definition counted (evs : list event) : list string := filter (λ d, counts evs d = true) (order evs).
Definition hit (evs : list event) : list string :=
  filter (λ d, counts evs d && cached_in evs d = true) (order evs).

(** ** The reader computes it *)

Definition process_event (p : progress) (ev : event) : progress :=
  match ev with
  | EvVertex v => process_vertex p v
  | EvLog l => process_log p l
  | EvStatus s => process_status p s
  | EvText line => emit p (line +:+ newline)
  end.

Lemma foldl_events {A} (f : progress → A → progress) (g : A → event) p l :
  (∀ p x, process_event p (g x) = f p x) → foldl process_event p (g <$> l) = foldl f p l.
Proof. intros Hf. revert p; induction l as [|x l IH]; intros p; [done|]. simpl. by rewrite Hf, IH. Qed.

Lemma process_message_events p msg : foldl process_event p (message_events msg) = process_message p msg.
Proof.
  unfold message_events, process_message. rewrite !foldl_app.
  by rewrite (foldl_events process_vertex), (foldl_events process_log), (foldl_events process_status).
Qed.

Lemma read_progress_events decode text :
  read_progress decode text = foldl process_event no_progress (stream_events decode text).
Proof.
  unfold read_progress, stream_events. generalize (scanned (SplitByte text nl)) as lines.
  intros lines. generalize no_progress. induction lines as [|l ls IH]; intros p; [done|].
  cbn. rewrite foldl_app, IH. f_equal. unfold process_line, line_events.
  destruct (String.eqb l ""); [done|]. destruct (decode l); [|done].
  by rewrite process_message_events.
Qed.

Lemma first_of_snoc {A} d (l : list (string * A)) x :
  first_of d (l ++ [x]) =
    match first_of d l with Some a => Some a | None => if decide (x.1 = d) then Some x.2 else None end.
Proof.
  unfold first_of. rewrite filter_app. destruct (filter _ l); simpl; [|done].
  rewrite filter_cons. by case_decide.
Qed.

Lemma first_of_Some {A} d (l : list (string * A)) : is_Some (first_of d l) ↔ d ∈ fst <$> l.
Proof.
  induction l as [|[x a] l IH] using rev_ind.
  { split; [by intros []|by intros ?%elem_of_nil]. }
  rewrite first_of_snoc, fmap_app, elem_of_app, <- IH. simpl. rewrite list_elem_of_singleton.
  destruct (first_of d l) as [b|]; [by split; eauto|]. case_decide as Hd.
  - split; eauto.
  - split; [by intros []|]. intros [[]|]; congruence.
Qed.

(** The reader's variables are in step with the mentions [ms] and completions [cs] of
    the stream so far. *)
Definition vertex_tracks (ms : list (string * string)) (cs : list (string * bool))
    (d : string) (o : option vertexInfo) : Prop :=
  match o with
  | None => first_of d ms = None ∧ first_of d cs = None
  | Some vi =>
      first_of d ms = Some (name vi) ∧
      first_of d cs = (if completed vi then Some (cached vi) else None) ∧
      (1 ≤ num vi)%Z ∧ firsts (fst <$> ms) !! Z.to_nat (num vi - 1) = Some d
  end.

Record tracks (ms : list (string * string)) (cs : list (string * bool)) (p : progress) : Prop := {
  t_next : nextNum p = (1 + Z.of_nat (length (firsts (fst <$> ms))))%Z;
  t_vertices : ∀ d, vertex_tracks ms cs d (vertices p !! d);
}.

Lemma emit_tracks ms cs p line : tracks ms cs p → tracks ms cs (emit p line).
Proof. by intros [? ?]. Qed.

Lemma foldl_emit_tracks {A} (f : A → string) ms cs p l :
  tracks ms cs p → tracks ms cs (foldl (λ p x, emit p (f x)) p l).
Proof. revert p; induction l as [|x l IH]; intros p Hp; [done|]. apply IH, emit_tracks, Hp. Qed.

Lemma getVertex_tracks ms cs p d nm :
  tracks ms cs p →
  let '(vi, p') := getVertex p d nm in
  vertices p' !! d = Some vi ∧ tracks (ms ++ [(d, nm)]) cs p'.
Proof.
  intros [Hn Hv]. unfold getVertex. pose proof (Hv d) as Hd. unfold vertex_tracks in *.
  destruct (vertices p !! d) as [vi|] eqn:E.
  - split; [done|]. assert (d ∈ firsts (fst <$> ms)) as Hin.
    { apply elem_of_firsts, first_of_Some. destruct Hd as [-> _]. eauto. }
    assert (firsts (fst <$> ms ++ [(d, nm)]) = firsts (fst <$> ms)) as Hf.
    { rewrite fmap_app. simpl. rewrite firsts_snoc. by rewrite decide_True. }
    split; [by rewrite Hf|]. intros d'. specialize (Hv d'). unfold vertex_tracks. rewrite Hf, first_of_snoc.
    destruct (vertices p !! d') as [vi'|] eqn:E'; [by destruct Hv as [-> ?]|].
    destruct Hv as [-> ?]. simpl. rewrite decide_False; [done|]. congruence.
  - simpl. split; [by rewrite lookup_insert_eq|]. destruct Hd as [Hd1 Hd2].
    assert (d ∉ firsts (fst <$> ms)) as Hin.
    { rewrite elem_of_firsts, <- first_of_Some, Hd1. by intros []. }
    assert (firsts (fst <$> ms ++ [(d, nm)]) = firsts (fst <$> ms) ++ [d]) as Hf.
    { rewrite fmap_app. simpl. rewrite firsts_snoc. by rewrite decide_False. }
    split; [simpl; rewrite Hf, Hn, length_app; simpl; lia|].
    intros d'. unfold vertex_tracks. rewrite Hf, first_of_snoc. simpl.
    destruct (decide (d = d')) as [->|Hne].
    + rewrite lookup_insert_eq, Hd1. cbn [name completed cached num].
      split_and!; [done|done|lia|]. rewrite lookup_app_r by lia.
      replace (_ - _) with 0 by lia. done.
    + rewrite lookup_insert_ne by done. specialize (Hv d').
      destruct (vertices p !! d') as [vi'|]; [|by destruct Hv as [-> ?]].
      destruct Hv as (-> & ? & ? & Hl). split_and!; [done..|]. by apply lookup_app_l_Some.
Qed.

(** Assigning the start of a vertex. *)
Lemma set_start_tracks ms cs p d vi vi' :
  tracks ms cs p → vertices p !! d = Some vi →
  num vi' = num vi → name vi' = name vi → completed vi' = completed vi → cached vi' = cached vi →
  tracks ms cs (set_vertex p d vi').
Proof.
  intros [Hn Hv] Hd E1 E2 E3 E4. split; [done|]. intros d'. simpl. pose proof (Hv d) as Hvd.
  destruct (decide (d = d')) as [<-|Hne]; [|by rewrite lookup_insert_ne by done].
  rewrite Hd in Hvd. rewrite lookup_insert_eq. unfold vertex_tracks in *. by rewrite E1, E2, E3, E4.
Qed.

(** Recording the first completion, and ignoring a later one. *)
Lemma set_complete_tracks ms cs p d vi vi' c :
  tracks ms cs p → vertices p !! d = Some vi → completed vi = false →
  num vi' = num vi → name vi' = name vi → completed vi' = true → cached vi' = c →
  tracks ms (cs ++ [(d, c)]) (set_vertex p d vi').
Proof.
  intros [Hn Hv] Hd Ec E1 E2 E3 E4. split; [done|]. intros d'. simpl. pose proof (Hv d) as Hvd.
  rewrite Hd in Hvd. destruct Hvd as (H1 & H2 & H3 & H4). rewrite Ec in H2.
  destruct (decide (d = d')) as [<-|Hne].
  - rewrite lookup_insert_eq. unfold vertex_tracks. rewrite first_of_snoc, H2, E1, E2, E3, E4. simpl.
    by rewrite decide_True.
  - rewrite lookup_insert_ne by done. specialize (Hv d'). unfold vertex_tracks in *.
    rewrite first_of_snoc. simpl. rewrite decide_False by done.
    destruct (vertices p !! d') as [vi0|]; destruct Hv as (? & -> & ?) || destruct Hv as [? ->];
      [|done]. by destruct (completed vi0).
Qed.

Lemma later_complete_tracks ms cs p d vi c :
  tracks ms cs p → vertices p !! d = Some vi → completed vi = true → tracks ms (cs ++ [(d, c)]) p.
Proof.
  intros [Hn Hv] Hd Ec. split; [done|]. intros d'. pose proof (Hv d') as Hv'. unfold vertex_tracks in *.
  rewrite first_of_snoc. simpl. destruct (decide (d = d')) as [<-|Hne].
  - rewrite Hd in *. destruct Hv' as (? & -> & ?). by rewrite Ec.
  - destruct (vertices p !! d') as [vi0|]; destruct Hv' as (? & -> & ?) || destruct Hv' as [? ->];
      [|done]. by destruct (completed vi0).
Qed.

Lemma process_vertex_tracks ms cs p v :
  tracks ms cs p →
  tracks (ms ++ [(Digest v, VName v)])
    (cs ++ (if String.eqb (Completed v) "" then [] else [(Digest v, Cached v)])) (process_vertex p v).
Proof.
  intros Hp. unfold process_vertex. pose proof (getVertex_tracks ms cs p (Digest v) (VName v) Hp) as Hg.
  destruct (getVertex p (Digest v) (VName v)) as [vi p1]. destruct Hg as [Hd Hp1].
  assert (let '(vi', p') := on_start p1 v vi in
          vertices p' !! Digest v = Some vi' ∧ tracks (ms ++ [(Digest v, VName v)]) cs p') as Hs.
  { unfold on_start. destruct (_ && _); [|done]. split; [apply lookup_insert_eq|].
    apply emit_tracks. by eapply set_start_tracks. }
  destruct (on_start p1 v vi) as [vi2 p2]. destruct Hs as [Hd2 Hp2].
  unfold on_complete. destruct (String.eqb (Completed v) ""); simpl; [by rewrite app_nil_r|].
  destruct (completed vi2) eqn:Ec; simpl; [by eapply later_complete_tracks|].
  destruct (Cached v) eqn:Ev; repeat apply emit_tracks; by eapply set_complete_tracks.
Qed.

Lemma process_event_tracks ms cs p ev :
  tracks ms cs p →
  tracks (ms ++ option_list (mention ev)) (cs ++ option_list (completion ev)) (process_event p ev).
Proof.
  intros Hp. destruct ev as [v|l|s|line]; simpl.
  - pose proof (process_vertex_tracks ms cs p v Hp) as Hv. by destruct (String.eqb (Completed v) "").
  - unfold process_log. pose proof (getVertex_tracks ms cs p (LVertex l) "" Hp) as Hg.
    destruct (getVertex p (LVertex l) "") as [vi p1]. destruct Hg as [_ Hp1]. rewrite app_nil_r.
    destruct (DecodeString (Data l)); [|done]. by apply (foldl_emit_tracks (line_of (num vi))).
  - unfold process_status. rewrite app_nil_r. destruct (String.eqb (SCompleted s) ""); simpl.
    { by rewrite app_nil_r. }
    pose proof (getVertex_tracks ms cs p (SVertex s) "" Hp) as Hg.
    destruct (getVertex p (SVertex s) "") as [vi p1]. destruct Hg as [_ Hp1]. by apply emit_tracks.
  - rewrite !app_nil_r. by apply emit_tracks.
Qed.

Lemma events_track evs :
  tracks (omap mention evs) (omap completion evs) (foldl process_event no_progress evs).
Proof.
  induction evs as [|ev evs IH] using rev_ind.
  - split; [done|]. intros d. simpl. by rewrite lookup_empty.
  - rewrite foldl_app, !omap_app. apply (process_event_tracks _ _ _ ev) in IH.
    cbn [omap list_omap foldl]. by destruct (mention ev), (completion ev).
Qed.

(** *** Counting *)

Lemma isUserStep_total nm : isUserStep nm = Some (user_step nm).
Proof.
  unfold user_step. destruct (isUserStep nm) as [u|] eqn:E; [done|]. exfalso.
  unfold isUserStep in E. destruct (Index nm "[") as [i|]; [|done].
  destruct (Index nm "]") as [j|] eqn:Ej; [|done]. apply Index_bound in Ej. simpl in Ej.
  destruct (j <=? i) eqn:Eij; [done|]. apply Nat.leb_gt in Eij.
  assert (slice nm (i + 1) j = Some (str_take (j - (i + 1)) (str_drop (i + 1) nm))) as Hs.
  { unfold slice. rewrite (proj2 (Nat.leb_le _ _)), (proj2 (Nat.leb_le _ _)) by lia. done. }
  rewrite Hs in E. simpl in E. destruct (last _); [|done]. destruct (negb _); [done|].
  destruct (negb _); [done|]. rewrite slice_from_ok in E by lia. done.
Qed.

Definition counts_vi (vi : vertexInfo) : bool := completed vi && user_step (name vi).
Definition hits_vi (vi : vertexInfo) : bool := counts_vi vi && cached vi.

Lemma count_steps_eq vis :
  count_steps vis = Some (Z.of_nat (length (filter (λ vi, hits_vi vi = true) vis)),
                          Z.of_nat (length (filter (λ vi, counts_vi vi = true) vis))).
Proof.
  induction vis as [|vi vis IH]; [done|]. cbn [count_steps]. rewrite IH. simpl.
  rewrite !filter_cons. change (hits_vi vi) with (completed vi && user_step (name vi) && cached vi).
  change (counts_vi vi) with (completed vi && user_step (name vi)). destruct (completed vi); simpl; [|done].
  rewrite isUserStep_total. simpl. destruct (user_step (name vi)); simpl; [|done].
  destruct (cached vi); simpl; f_equal; f_equal; lia.
Qed.

Lemma length_filter_pairs {A B} (P : B → bool) (Q : A → bool) (l : list (A * B)) :
  (∀ x y, (x, y) ∈ l → P y = Q x) →
  length (filter (λ y, P y = true) l.*2) = length (filter (λ x, Q x = true) l.*1).
Proof.
  induction l as [|[x y] l IH]; intros HPQ; [done|]. cbn [fmap list_fmap fst snd].
  rewrite !filter_cons, (HPQ x y) by (by left).
  assert (∀ x y, (x, y) ∈ l → P y = Q x) as Hl by (intros; apply HPQ; by right).
  destruct (Q x); simpl; by rewrite IH.
Qed.

Lemma tracks_dom evs p :
  tracks (omap mention evs) (omap completion evs) p → (map_to_list (vertices p)).*1 ≡ₚ order evs.
Proof.
  intros [_ Hv]. apply NoDup_Permutation; [apply NoDup_fst_map_to_list|apply NoDup_firsts|].
  intros d. unfold order. rewrite elem_of_firsts, <- (first_of_Some d (omap mention evs)). specialize (Hv d).
  unfold vertex_tracks in Hv. rewrite list_elem_of_fmap. split.
  - intros ([d' vi] & -> & Hin%elem_of_map_to_list). simpl in *. rewrite Hin in Hv.
    destruct Hv as [-> _]. eauto.
  - intros [nm Hnm]. destruct (vertices p !! d) as [vi|] eqn:E; [|destruct Hv; congruence].
    exists (d, vi). by rewrite elem_of_map_to_list.
Qed.

Lemma count_steps_events evs :
  count_steps (map_to_list (vertices (foldl process_event no_progress evs))).*2 =
  Some (Z.of_nat (length (hit evs)), Z.of_nat (length (counted evs))).
Proof.
  pose proof (events_track evs) as Ht. set (p := foldl _ _ _) in *.
  rewrite count_steps_eq. unfold hit, counted. rewrite <- (tracks_dom evs p Ht).
  assert (∀ d vi, (d, vi) ∈ map_to_list (vertices p) →
            counts_vi vi = counts evs d ∧ hits_vi vi = counts evs d && cached_in evs d) as Hc.
  { intros d vi Hin%elem_of_map_to_list. pose proof (t_vertices _ _ _ Ht d) as Hv.
    rewrite Hin in Hv. destruct Hv as (Hm & Hc & _).
    unfold hits_vi, counts_vi, counts, cached_in. rewrite Hm, Hc. by destruct (completed vi), (user_step _). }
  rewrite (length_filter_pairs hits_vi (λ d, counts evs d && cached_in evs d)) by (intros; by apply Hc).
  by rewrite (length_filter_pairs counts_vi (counts evs)) by (intros; by apply Hc).
Qed.

Lemma hit_counted evs : length (hit evs) ≤ length (counted evs).
Proof.
  unfold hit, counted. induction (order evs) as [|d ds IH]; [done|]. rewrite !filter_cons.
  destruct (counts evs d), (cached_in evs d); simpl; lia.
Qed.

(** Build never panics. *)
Lemma Build_total `{UnicodePrint} decode addr opts r : is_Some (Build decode addr opts r).
Proof.
  unfold Build. destruct (negb _); [by eauto|]. destruct (buildctl_args _ _); [|by eauto].
  destruct (pipe_err r); [by eauto|]. destruct (start_err r); [by eauto|].
  destruct (stuck r); [by eauto|]. destruct (wait_err r); [destruct (ctx_err r); by eauto|].
  rewrite read_progress_events, count_steps_events. simpl. eauto.
Qed.

(** A line of a megabyte stops the reader for good: the process, whatever it still does,
    waits on a full pipe until it is killed, and the build fails. *)
Lemma split_bytes s : foldr (λ x n, 1 + Z.of_nat (strlen x) + n)%Z 0%Z (SplitByte s nl) = (Z.of_nat (strlen s) + 1)%Z.
Proof.
  induction s as [|c s IH]; [done|]. cbn [SplitByte]. pose proof (SplitByte_nonempty nl s).
  destruct (Ascii.eqb c nl); [|destruct (SplitByte s nl) as [|w ws]; [done|]]; cbn [foldr] in *;
    unfold strlen in *; cbn [String.length] in *; lia.
Qed.

Lemma overlong_line_stuck `{UnicodePrint} decode addr opts r line rest args :
  dockerfile_exists r = true → buildctl_args addr opts = Ok args → pipe_err r = None → start_err r = None →
  stderr r = line +:+ String nl rest → SplitByte line nl = [line] →
  (maxToken ≤ Z.of_nat (strlen line))%Z → (pipe_room r ≤ Z.of_nat (strlen rest))%Z →
  Build decode addr opts r = Some (Err (ctx_end r), []).
Proof.
  intros Hd Ha Hp Hs Htext Hl Hlen Hroom. unfold Build. rewrite Hd, Ha, Hp, Hs. cbn [negb].
  assert (SplitByte (stderr r) nl = line :: SplitByte rest nl) as Hsplit.
  { by rewrite Htext, SplitByte_app_sep, Hl. }
  assert (stuck r = true) as ->.
  { unfold stuck. rewrite Hsplit. cbn [unread]. rewrite (proj2 (Z.leb_le _ _) Hlen), split_bytes.
    apply Z.ltb_lt. lia. }
  unfold read_progress. rewrite Hsplit. pose proof (SplitByte_nonempty nl rest).
  destruct (SplitByte rest nl) as [|w ws]; [done|]. cbn [scanned].
  by rewrite (proj2 (Z.leb_le _ _) Hlen).
Qed.

(** ** Properties *)

(** C28. Build always answers, and when it succeeds the cache hit rate is the share, in
    percent, of the cached ones among the steps that count, or -1 if none counts.  A
    step counts if its vertex completed and is named like a user's build step, by the
    name it was first mentioned with; it is cached if its first completion says so.
    An error has a cause: no Dockerfile, an invalid build argument, the process, or its
    being stuck on a pipe that the scanner, which gives up at a line of a megabyte, no
    longer reads; a stuck process never makes a success. *)
Theorem Build_cache_rate `{UnicodePrint} decode addr opts r :
  let evs := stream_events decode (stderr r) in
  let hits := Z.of_nat (length (hit evs)) in
  let total := Z.of_nat (length (counted evs)) in
  ∃ res lines, Build decode addr opts r = Some (res, lines) ∧
  match res with
  | Ok br =>
      wait_err r = None ∧ stuck r = false ∧ (0 ≤ hits ≤ total)%Z ∧
      RCacheHitRate br =
        if decide (total = 0)%Z then f64_of_Z (-1)
        else f64_mul (f64_div (f64_of_Z hits) (f64_of_Z total)) (f64_of_Z 100)
  | Err _ =>
      dockerfile_exists r = false ∨ Exists (λ kv, isValidBuildArgKey kv.1 = false) (BuildArgs opts) ∨
      pipe_err r ≠ None ∨ start_err r ≠ None ∨ wait_err r ≠ None ∨ stuck r = true
  end.
Proof.
  intros evs hits total. unfold Build. destruct (dockerfile_exists r); cbn [negb]; [|eexists _, _; split; [done|]; by left].
  assert (∀ e, arg_opts (BuildArgs opts) = Err e →
               Exists (λ kv, isValidBuildArgKey kv.1 = false) (BuildArgs opts)) as Harg.
  { generalize (BuildArgs opts) as kvs. induction kvs as [|[k v] kvs IH]; [done|]. cbn [arg_opts].
    intros e. destruct (isValidBuildArgKey k) eqn:Ek; cbn [negb]; [|by left].
    destruct (arg_opts kvs) as [|e']; [done|]. intros _. right. by eapply IH. }
  unfold buildctl_args. destruct (arg_opts _) as [extra|e]; [|eexists _, _; split; [done|]; right; left; by eapply Harg].
  destruct (pipe_err r); [eexists _, _; split; [done|]; by do 2 right; left|].
  destruct (start_err r); [eexists _, _; split; [done|]; by do 3 right; left|].
  destruct (wait_err r) as [w|] eqn:Ew.
  { destruct (stuck r); [|destruct (ctx_err r)]; (eexists _, _; split; [done|]; by do 4 right; left). }
  destruct (stuck r) eqn:Estuck; [eexists _, _; split; [done|]; by do 5 right|].
  rewrite read_progress_events, count_steps_events. simpl. eexists _, _. split; [done|]. simpl.
  fold evs hits total. split_and!; [done..|lia| |].
  - unfold hits, total. apply inj_le, hit_counted.
  - unfold hit_rate. case_decide as Ht; [rewrite Ht; done|]. rewrite (proj2 (Z.ltb_lt _ _)); [done|lia].
Qed.
