(* ===== verification/Worker.v ===== *)
(** * internal/worker

    The worker ([worker.go]): its cache keys, the retried reports to the server, the
    extraction of a build context and one attempt to execute a build.  What the
    network, S3, the disk and buildctl answer is the environment of an attempt; what
    the worker does is its result: the reports it makes, its new cache keys and the
    new state of its disk. *)

From S2P Require Import BlobStore Paths BuildkitClient.
From S2P Require Import Prelude Float64 GoStrings Hashing Domain GoTime GoNumbers.
From Stdlib Require Import Ascii.

(** ** The worker's state *)

Record Worker := mkW {
  W_ID : string;
  W_Hostname : string;
  W_IP : string;
  ServerURL : string;
  BuildkitAddr : string;
  WorkDir : string;
  CacheRegistry : string;
  cacheKeys : list string;
  s3Client : option S3Config;
}.

Definition set_keys (w : Worker) (ks : list string) : Worker :=
  mkW (W_ID w) (W_Hostname w) (W_IP w) (ServerURL w) (BuildkitAddr w) (WorkDir w) (CacheRegistry w)
    ks (s3Client w).

Definition NewWorker (uuid hostname serverURL buildkitAddr workDir cacheRegistry : string) : Worker :=
  mkW uuid hostname "" (TrimRightByte serverURL slash) buildkitAddr workDir cacheRegistry [] None.

(** [initS3]: [client_ok] says whether [minio.New] succeeded. *)
Definition initS3 `{UnicodeLowerTables} (getenv : string → string) (client_ok : bool) (w : Worker) : Worker :=
  if String.eqb (getenv "S3_ENDPOINT") "" then w
  else
    let accessKey := getenv_default getenv "S3_ACCESS_KEY" "admin" in
    let secretKey := getenv_default getenv "S3_SECRET_KEY" "password" in
    let s3Bucket := getenv_default getenv "S3_BUCKET" "dtbuildkit" in
    let useSSL := String.eqb (ToLower (getenv "S3_USE_SSL")) "true" in
    if client_ok then
      mkW (W_ID w) (W_Hostname w) (W_IP w) (ServerURL w) (BuildkitAddr w) (WorkDir w) (CacheRegistry w)
        (cacheKeys w) (Some (mkS3 (getenv "S3_ENDPOINT") accessKey secretKey s3Bucket useSSL))
    else w.

(** ** Cache keys *)

Definition getCacheKeys (w : Worker) : list string := cacheKeys w.

Definition maxCacheKeys : nat := 512.

Definition add_key (keys : list string) (instr : string) : list string :=
  if existsb (String.eqb instr) keys then keys else keys ++ [instr].

Definition addCacheKeys (w : Worker) (instructions : list string) : Worker :=
  let keys := foldl add_key (cacheKeys w) instructions in
  set_keys w (if maxCacheKeys <? length keys then drop (length keys - maxCacheKeys) keys else keys).

(** The body of a heartbeat. *)
Definition sendHeartbeat (w : Worker) (status : string) : Domain.Worker :=
  Domain.mkWorker (W_ID w) (W_Hostname w) (W_IP w) status zero_time (getCacheKeys w).

(** ** Reports *)

(** A POST is answered by a status code or fails ([None]). *)
Definition accepted (answer : option Z) : bool :=
  match answer with Some c => (c =? 200)%Z | None => false end.

(** The retry loop of completeBuild: how many posts are made, and whether one was
    accepted. *)
Fixpoint complete_loop (rounds i : nat) (post : nat → option Z) : nat * bool :=
  match rounds with
  | O => (0, false)
  | S rounds =>
      if accepted (post i) then (1, true)
      else let '(n, ok) := complete_loop rounds (S i) post in (S n, ok)
  end.

Definition completeBuild (post : nat → option Z) : nat * bool := complete_loop 3 0 post.

(** sendLog gives up when the build's context is done. *)
Fixpoint log_loop (rounds i : nat) (ctx_done : nat → bool) (post : nat → option Z) : nat * bool :=
  match rounds with
  | O => (0, false)
  | S rounds =>
      if ctx_done i then (0, false)
      else if accepted (post i) then (1, true)
      else let '(n, ok) := log_loop rounds (S i) ctx_done post in (S n, ok)
  end.

Definition sendLog (ctx_done : nat → bool) (post : nat → option Z) : nat * bool :=
  log_loop 3 0 ctx_done post.

(** [isBuildCancelled]: [None] is any failure of the request or of its decoding. *)
Definition isBuildCancelled (answer : option Status) : bool :=
  match answer with Some st => String.eqb st StatusCancelled | None => false end.

(** ** Extracting a context *)

Definition TypeReg : ascii := "0".
Definition TypeDir : ascii := "5".

(** An entry of the archive, with what [io.Copy] delivers of it. *)
Record header := mkHeader { HName : string; Typeflag : ascii; content : string }.

(** An archive as [gzip] and [archive/tar] present it: the gzip header's error, the
    entries, each with what the disk refuses of its MkdirAll and Create, and the error
    [Next] ends with other than EOF. *)
Record archive := mkArchive {
  gz_err : option error;
  entries : list (header * (disk_fault * disk_fault));
  tar_err : option error;
}.

Definition extract_entry (cwd : list string) (dest : string) (fs : files)
    (e : header * (disk_fault * disk_fault)) : result () * files :=
  let '(hdr, (fm, fc)) := e in
  let path := PathJoin [dest; HName hdr] in
  if negb (HasPrefix (Clean path) (Clean dest +:+ sep)) then (Ok (), fs)
  else if Ascii.eqb (Typeflag hdr) TypeDir then (Ok (), (MkdirAll fm cwd fs path).2)
  else if Ascii.eqb (Typeflag hdr) TypeReg then
    CreateWrite fc cwd (MkdirAll fm cwd fs (Dir path)).2 path (content hdr)
  else (Ok (), fs).

Fixpoint extract_entries (cwd : list string) (dest : string) (fs : files)
    (es : list (header * (disk_fault * disk_fault))) (tail : option error) : result () * files :=
  match es with
  | [] => (match tail with None => Ok () | Some e => Err e end, fs)
  | e :: es =>
      match extract_entry cwd dest fs e with
      | (Err err, fs) => (Err err, fs)
      | (Ok _, fs) => extract_entries cwd dest fs es tail
      end
  end.

Definition extractTarGz (cwd : list string) (fs : files) (a : archive) (dest : string) : result () * files :=
  match gz_err a with
  | Some e => (Err e, fs)
  | None => extract_entries cwd dest fs (entries a) (tar_err a)
  end.

(** What the object store and the server answer to a download: an error, or a status
    and an archive. *)
Record download_env := mkDownload {
  s3_object : option archive;  (** [None]: GetObject or Stat failed *)
  http_req_err : option error;
  http_do_err : option error;
  http_code : Z;
  http_body : archive;
}.

Definition downloadContextHTTP (d : download_env) (cwd : list string) (fs : files) (dest : string) :
    result () * files :=
  match http_req_err d, http_do_err d with
  | Some e, _ => (Err (EWrap "create request" e), fs)
  | None, Some e => (Err (EWrap "fetch context" e), fs)
  | None, None =>
      if negb (http_code d =? 200)%Z then
        (Err (EErrorf ("context download: status " +:+ Sprint (http_code d))), fs)
      else extractTarGz cwd fs (http_body d) dest
  end.

Definition downloadContext (w : Worker) (d : download_env) (cwd : list string) (fs : files) (dest : string) :
    result () * files :=
  match s3Client w, s3_object d with
  | Some _, Some a => extractTarGz cwd fs a dest
  | _, _ => downloadContextHTTP d cwd fs dest
  end.

(** ** Executing a build *)

(** [time.Duration(n) * time.Second] on int64. *)
Definition wrap64 (z : Z) : Z := ((z + 2 ^ 63) mod 2 ^ 64 - 2 ^ 63)%Z.

Definition build_timeout (timeoutSeconds : Z) : duration :=
  let timeout := wrap64 (timeoutSeconds * second) in
  if (timeout <=? 0)%Z then (10 * minute)%Z else timeout.

(** What an attempt meets after the server's answer: the disk's refusals, the
    download, the answers to the two questions whether the build was cancelled, the
    client, the order in which the map of the build arguments is ranged over, the
    process, whether the deadline passed, and what the disk does not let go at the end. *)
Record attempt_env := mkAttempt {
  mkdir_fault : disk_fault;
  download : download_env;
  write_fault : disk_fault;
  cancelled_before : option Status;
  client_err : option error;
  args_order : list string;
  build_run : run;
  deadline_exceeded : bool;
  cancelled_after : option Status;
  remove_kept : list (list string);
}.

(** The process sees the Dockerfile that is on the disk. *)
Definition run_on (r : run) (exists_ : bool) : run :=
  mkRun exists_ (pipe_err r) (start_err r) (stderr r) (wait_err r) (ctx_err r) (pipe_room r) (ctx_end r).

(** A range over a map: its entries, each once, in the order of [order] and, for keys that
    it does not name, in the order of [map_to_list]. *)
Definition ranged (order : list string) (m : gmap string string) : list (string * string) :=
  omap (λ k, pair k <$> m !! k) (firsts order) ++ map_to_list (filter (λ kv, kv.1 ∉ order) m).

Definition range_args (order : list string) (args : option (gmap string string)) : list (string * string) :=
  match args with Some m => ranged order m | None => [] end.

Section attempt.
Context `{UnicodePrint} (decode : string → option rawMessage) (cwd : list string).

(** The result and the lines logged; [None] is the panic of a slice. *)
Definition executeBuild (w : Worker) (en : attempt_env) (fs : files) (build : Domain.Build)
    (contextDir dockerfile : string) : option (result BuildResult * list string) :=
  if isBuildCancelled (cancelled_before en) then Some (Err (EErrorf "build cancelled"), [])
  else
    match client_err en with
    | Some e => Some (Err e, [])
    | None =>
        let timeout := build_timeout (TimeoutSeconds build) in
        cacheRef ← (if String.eqb (CacheRegistry w) "" then Some ""
                    else short ← slice_to (BFingerprint build) 16;
                         Some (CacheRegistry w +:+ "/" +:+ short));
        let opts := mkOptions contextDir dockerfile (ImageTag build) cacheRef cacheRef
                      (range_args (args_order en) (Args build)) in
        let exists_ := bool_decide (is_Some (fs !! abs cwd (contextDir +:+ "/" +:+ dockerfile))) in
        '(res, lines) ← BuildkitClient.Build decode (BuildkitAddr w) opts (run_on (build_run en) exists_);
        match res with
        | Ok r => Some (Ok r, lines)
        | Err e =>
            if deadline_exceeded en then
              Some (Err (EErrorf ("build timed out after " +:+ Duration_String timeout)), lines)
            else if isBuildCancelled (cancelled_after en) then Some (Err (EErrorf "build cancelled"), lines)
            else Some (Err e, lines)
        end
    end.

(** A call of completeBuild. *)
Record report := mkReport {
  rep_id : string;
  rep_status : Status;
  rep_error : string;
  rep_rate : float64;
}.

Definition failed (id : string) (e : error) : report :=
  mkReport id StatusFailed (error_text e) (f64_of_Z (-1)).

Definition inline_dockerfile (df : string) : bool :=
  String.eqb df "" || Contains df newline || Contains df " ".

(** The Dockerfile is written if the build carries its content and the context has
    none. *)
Definition place_dockerfile (f : disk_fault) (fs : files) (contextDir content : string) :
    result () * files :=
  let dfPath := PathJoin [contextDir; "Dockerfile"] in
  match fs !! abs cwd dfPath with
  | Some _ => (Ok (), fs)
  | None => CreateWrite f cwd fs dfPath content
  end.

(** From the download to the report, in the context directory. *)
Definition attempt_in (w : Worker) (en : attempt_env) (fs : files) (build : Domain.Build)
    (contextDir : string) : option (list report * list string * Worker * files) :=
  match downloadContext w (download en) cwd fs contextDir with
  | (Err e, fs) => Some ([failed (ID build) e], [], w, fs)
  | (Ok _, fs) =>
      let inline := inline_dockerfile (Dockerfile build) in
      let '(placed, fs) :=
        if inline then place_dockerfile (write_fault en) fs contextDir (Dockerfile build) else (Ok (), fs) in
      let dockerfile := if inline then "Dockerfile" else Dockerfile build in
      match placed with
      | Err e => Some ([failed (ID build) e], [], w, fs)
      | Ok _ =>
          '(res, lines) ← executeBuild w en fs build contextDir dockerfile;
          match res with
          | Err e => Some ([failed (ID build) e], lines, w, fs)
          | Ok r =>
              Some ([mkReport (ID build) StatusSucceeded "" (RCacheHitRate r)], lines,
                    addCacheKeys w (Instructions build), fs)
          end
      end
  end.

(** The server's answer to the poll: an error, or a status code and the decoded body. *)
Definition tryExecuteBuild (w : Worker) (en : attempt_env) (fs : files)
    (next : result (Z * option Domain.Build)) :
    option (result () * list report * list string * Worker * files) :=
  match next with
  | Err e => Some (Err (EWrap "fetch next build" e), [], [], w, fs)
  | Ok (code, decoded) =>
      if (code =? 204)%Z || negb (code =? 200)%Z then Some (Ok (), [], [], w, fs)
      else
        match decoded with
        | None => Some (Ok (), [], [], w, fs)
        | Some build =>
            if String.eqb (ID build) "" then Some (Ok (), [], [], w, fs)
            else
              _ ← slice_to (BFingerprint build) 12;
              let contextDir := PathJoin [WorkDir w; "builds"; ID build] in
              match MkdirAll (mkdir_fault en) cwd fs contextDir with
              | (Err e, fs) => Some (Ok (), [failed (ID build) e], [], w, fs)
              | (Ok _, fs) =>
                  '(reports, lines, w, fs) ← attempt_in w en fs build contextDir;
                  Some (Ok (), reports, lines, w, RemoveAll (remove_kept en) cwd fs contextDir)
              end
        end
  end.
End attempt.

(** ** Facts *)

(** Whatever the order, the arguments are those of the build, each once; and every order
    is that of some range. *)
Lemma ranged_elem order m k v : (k, v) ∈ ranged order m ↔ m !! k = Some v.
Proof.
  unfold ranged. rewrite elem_of_app, list_elem_of_omap, elem_of_map_to_list, map_lookup_filter_Some. split.
  - intros [(k' & _ & Hk)|[? _]]; [|done]. apply fmap_Some in Hk as (v' & ? & ?). by simplify_eq.
  - intros Hm. destruct (decide (k ∈ order)) as [Hk|Hk]; [left|by right]. exists k.
    rewrite elem_of_firsts, Hm. done.
Qed.

Lemma omap_entries_dom (m : gmap string string) ks :
  (omap (λ k, pair k <$> m !! k) ks).*1 = filter (λ k, is_Some (m !! k)) ks.
Proof.
  induction ks as [|k ks IH]; [done|]. cbn [omap list_omap]. rewrite filter_cons.
  destruct (m !! k) as [v|]; cbn; [by rewrite IH, decide_True by eauto|]. rewrite IH, decide_False; [done|].
  by intros [].
Qed.

Lemma ranged_NoDup order m : NoDup (ranged order m).*1.
Proof.
  unfold ranged. rewrite fmap_app, omap_entries_dom. apply NoDup_app. split_and!.
  - apply NoDup_filter, NoDup_firsts.
  - intros k [_ Hk]%list_elem_of_filter (kv & -> & Hin)%list_elem_of_fmap. destruct kv as [k v].
    apply elem_of_map_to_list, map_lookup_filter_Some in Hin as [_ Hno]. by apply Hno, elem_of_firsts.
  - apply NoDup_fst_map_to_list.
Qed.

Lemma ranged_permutation order m : ranged order m ≡ₚ map_to_list m.
Proof.
  apply NoDup_Permutation; [eapply NoDup_fmap_1, ranged_NoDup|apply NoDup_map_to_list|].
  intros [k v]. by rewrite ranged_elem, elem_of_map_to_list.
Qed.

Lemma firsts_id (l : list string) : NoDup l → firsts l = l.
Proof.
  induction l as [|x l IH] using rev_ind; [done|]. intros (Hn & Hx & _)%NoDup_app.
  rewrite firsts_snoc, IH by done. apply decide_False. intros Hin. apply (Hx x Hin). by left.
Qed.

Lemma ranged_any l m : l ≡ₚ map_to_list m → ranged l.*1 m = l.
Proof.
  intros Hl. assert (∀ k v, (k, v) ∈ l ↔ m !! k = Some v) as Hin by (intros; by rewrite Hl, elem_of_map_to_list).
  assert (NoDup l.*1) as Hn by (rewrite Hl; apply NoDup_fst_map_to_list).
  unfold ranged. rewrite firsts_id by done.
  assert (filter (λ kv : string * string, kv.1 ∉ l.*1) m = ∅) as ->.
  { apply map_empty. intros k. apply map_lookup_filter_None. right. intros v Hm Hk. apply Hk.
    apply list_elem_of_fmap. exists (k, v). split; [done|]. by apply Hin. }
  rewrite map_to_list_empty, app_nil_r. clear Hl Hn. revert Hin. generalize m as m'. intros m'.
  intros Hin. assert (Forall (λ kv, m' !! kv.1 = Some kv.2) l) as Hf.
  { apply Forall_forall. intros [k v] Hk. by apply Hin. }
  clear Hin. induction Hf as [|[k v] l Hk _ IH]; [done|]. cbn in *. by rewrite Hk, IH.
Qed.

(** [p] is at or above [d], or beside it. *)
Definition not_below (d p : list string) : Prop := ¬ (d `prefix_of` p ∧ p ≠ d).

Lemma keeps_dirs_to f cwd fs path d : dirs_to fs d → dirs_to (MkdirAll f cwd fs path).2 d.
Proof. intros Hd. eapply dirs_to_keeps; [exact Hd|]. intros p. apply MkdirAll_keeps. Qed.

Lemma CreateWrite_dirs_to f cwd fs path data d : dirs_to fs d → dirs_to (CreateWrite f cwd fs path data).2 d.
Proof. intros Hd. eapply dirs_to_keeps; [exact Hd|]. intros p. apply CreateWrite_keeps_dirs. Qed.

(** One entry changes nothing but what is strictly below the destination. *)
Lemma extract_entry_confined cwd dest fs e :
  anchored dest → dirs_to fs (abs cwd dest) →
  let fs' := (extract_entry cwd dest fs e).2 in
  dirs_to fs' (abs cwd dest) ∧ ∀ p, not_below (abs cwd dest) p → fs' !! p = fs !! p.
Proof.
  intros Ha Hd. destruct e as [hdr [fm fc]]. unfold extract_entry.
  destruct (HasPrefix _ _) eqn:Hpre; cbn [negb]; [|done].
  destruct (prefix_below cwd dest (PathJoin [dest; HName hdr]) Ha Hpre)
    as (rest & Hne & Hp & Habs & Hr & He).
  destruct (Ascii.eqb (Typeflag hdr) TypeDir).
  { split; [by apply keeps_dirs_to|]. intros p Hnb. cbn [snd]. eapply MkdirAll_below; [exact Hd| |exact Hnb].
    rewrite Habs. by eexists. }
  destruct (Ascii.eqb (Typeflag hdr) TypeReg); [|done].
  split; [by apply CreateWrite_dirs_to, keeps_dirs_to|]. intros p Hnb.
  rewrite CreateWrite_frame.
  - eapply MkdirAll_below; [exact Hd| |exact Hnb]. by apply (abs_Dir_below _ _ _ rest).
  - rewrite Habs. intros ->. apply Hnb. split; [by eexists|].
    intros Heq%(f_equal length). rewrite length_app in Heq. destruct rest; simpl in *; [done|lia].
Qed.

Lemma extract_entries_confined cwd dest fs es tail :
  anchored dest → dirs_to fs (abs cwd dest) →
  let fs' := (extract_entries cwd dest fs es tail).2 in
  dirs_to fs' (abs cwd dest) ∧ ∀ p, not_below (abs cwd dest) p → fs' !! p = fs !! p.
Proof.
  intros Ha. revert fs; induction es as [|e es IH]; intros fs Hd; cbn [extract_entries]; [done|].
  destruct (extract_entry_confined cwd dest fs e Ha Hd) as [Hd1 Hf1].
  destruct (extract_entry cwd dest fs e) as [[u|err] fs1]; cbn [snd] in *; [|done].
  destruct (IH fs1 Hd1) as [Hd2 Hf2]. split; [done|]. intros p Hp. by rewrite Hf2, Hf1.
Qed.

Lemma extract_frame cwd fs a dest :
  anchored dest → dirs_to fs (abs cwd dest) →
  let fs' := (extractTarGz cwd fs a dest).2 in
  dirs_to fs' (abs cwd dest) ∧ ∀ p, not_below (abs cwd dest) p → fs' !! p = fs !! p.
Proof. intros Ha Hd. unfold extractTarGz. destruct (gz_err a); [done|]. by apply extract_entries_confined. Qed.

Lemma download_frame w d cwd fs dest :
  anchored dest → dirs_to fs (abs cwd dest) →
  let fs' := (downloadContext w d cwd fs dest).2 in
  dirs_to fs' (abs cwd dest) ∧ ∀ p, not_below (abs cwd dest) p → fs' !! p = fs !! p.
Proof.
  intros Ha Hd. assert (let fs' := (downloadContextHTTP d cwd fs dest).2 in
    dirs_to fs' (abs cwd dest) ∧ ∀ p, not_below (abs cwd dest) p → fs' !! p = fs !! p) as Hh.
  { unfold downloadContextHTTP. destruct (http_req_err d); [done|]. destruct (http_do_err d); [done|].
    destruct (negb _); [done|]. by apply extract_frame. }
  unfold downloadContext. destruct (s3Client w); [|done]. destruct (s3_object d); [|done].
  by apply extract_frame.
Qed.

(** The context directory of a build whose id is an ordinary name. *)
Lemma context_dir_split id : plain id → SplitByte ("builds" +:+ sep +:+ id) slash = ["builds"; id].
Proof.
  intros (_ & _ & _ & Hf). change (sep +:+ id) with (String slash id).
  rewrite SplitByte_app_sep, (SplitByte_free slash id) by done. done.
Qed.

Lemma context_dir_eq wd id : PathJoin [wd; "builds"; id] = PathJoin [wd; "builds" +:+ sep +:+ id].
Proof. cbn [PathJoin Join]. destruct (String.eqb wd ""); reflexivity. Qed.

Lemma builds_plain id : plain id → Forall plain ["builds"; id].
Proof. intros Hid. repeat constructor; try done; apply Hid. Qed.

Lemma context_dir_abs cwd wd id :
  plain id → abs cwd (PathJoin [wd; "builds"; id]) = (abs cwd wd ++ ["builds"]) ++ [id].
Proof.
  intros Hid. rewrite context_dir_eq, abs_PathJoin, context_dir_split by
    (try done; rewrite context_dir_split by done; by apply builds_plain).
  by rewrite <- app_assoc.
Qed.

Lemma context_dir_anchored wd id : plain id → anchored (PathJoin [wd; "builds"; id]).
Proof.
  intros Hid. right. rewrite context_dir_eq, elems_PathJoin, context_dir_split by
    (try done; rewrite context_dir_split by done; by apply builds_plain).
  apply Exists_app. right. by left.
Qed.

Lemma context_dir_no_dot wd id : plain id → PathJoin [wd; "builds"; id] ≠ ".".
Proof.
  intros Hid Heq. pose proof (context_dir_anchored wd id Hid) as Ha. rewrite Heq in Ha.
  destruct Ha as [Hr|He]; [discriminate Hr|]. by apply Exists_nil in He.
Qed.

Section attempt_facts.
Context `{UnicodePrint} (decode : string → option rawMessage) (cwd : list string).

Lemma executeBuild_total w en fs b dir df :
  16 ≤ strlen (BFingerprint b) → is_Some (executeBuild decode cwd w en fs b dir df).
Proof.
  intros Hfp. unfold executeBuild. destruct (isBuildCancelled _); [by eauto|].
  destruct (client_err en); [by eauto|].
  assert (is_Some (if String.eqb (CacheRegistry w) "" then Some ""
                   else short ← slice_to (BFingerprint b) 16;
                        Some (CacheRegistry w +:+ "/" +:+ short))) as [ref ->].
  { destruct (String.eqb _ ""); [by eauto|]. rewrite slice_to_ok by done. simpl. eauto. }
  cbn [mbind option_bind].
  destruct (Build_total decode (BuildkitAddr w) (mkOptions dir df (ImageTag b) ref ref (range_args (args_order en) (Args b)))
    (run_on (build_run en) (bool_decide (is_Some (fs !! abs cwd (dir +:+ "/" +:+ df)))))) as [[res lines] ->].
  cbn. destruct res; [by eauto|]. destruct (deadline_exceeded en); [by eauto|].
  destruct (isBuildCancelled _); by eauto.
Qed.

(** A build is reported as succeeded only if buildctl ended well. *)
Lemma executeBuild_ok w en fs b dir df r lines :
  executeBuild decode cwd w en fs b dir df = Some (Ok r, lines) → wait_err (build_run en) = None.
Proof.
  unfold executeBuild. destruct (isBuildCancelled _); [done|]. destruct (client_err en); [done|].
  destruct (if String.eqb _ _ then _ else _) as [ref|]; [|done]. cbn [mbind option_bind].
  destruct (BuildkitClient.Build _ _ _ _) as [[res ls]|] eqn:E; [|done]. cbn.
  destruct res as [r0|e]; cycle 1.
  { destruct (deadline_exceeded en); [done|]. by destruct (isBuildCancelled _). }
  intros [= -> ->]. unfold BuildkitClient.Build in E.
  destruct (negb _); [done|]. destruct (buildctl_args _ _); [|done]. cbn [run_on pipe_err start_err] in E.
  destruct (pipe_err _); [done|]. destruct (start_err _); [done|]. cbn [run_on wait_err ctx_err] in E.
  destruct (BuildkitClient.stuck _); [done|]. destruct (wait_err (build_run en)); [|done]. by destruct (ctx_err _).
Qed.

(** What an attempt in its context directory reports and touches. *)
Definition attempt_outcome (w : Worker) (en : attempt_env) (b : Domain.Build) (rep : report) (w' : Worker) :
    Prop :=
  rep_id rep = ID b ∧
  ((rep_status rep = StatusSucceeded ∧ wait_err (build_run en) = None ∧
    w' = addCacheKeys w (Instructions b)) ∨
   (rep_status rep = StatusFailed ∧ w' = w)).

Lemma place_frame f fs dir text :
  let fs' := (place_dockerfile cwd f fs dir text).2 in
  ∀ p, not_below (abs cwd dir) p → fs' !! p = fs !! p.
Proof.
  intros fs' p Hp. unfold fs', place_dockerfile. destruct (fs !! _); [done|].
  apply CreateWrite_frame. rewrite abs_PathJoin by (by repeat constructor).
  intros ->. apply Hp. split; [by eexists|]. intros Heq%(f_equal length).
  rewrite length_app in Heq. simpl in Heq. lia.
Qed.

Lemma attempt_in_spec w en fs b dir :
  16 ≤ strlen (BFingerprint b) → anchored dir → dirs_to fs (abs cwd dir) →
  ∃ rep lines w' fs', attempt_in decode cwd w en fs b dir = Some ([rep], lines, w', fs') ∧
    attempt_outcome w en b rep w' ∧ ∀ p, not_below (abs cwd dir) p → fs' !! p = fs !! p.
Proof.
  intros Hfp Ha Hd. unfold attempt_in.
  destruct (download_frame w (download en) cwd fs dir Ha Hd) as [Hd1 Hf1].
  destruct (downloadContext _ _ _ _ _) as [[u|e] fs1]; cbn [snd] in *.
  2: { eexists _, _, _, _. split; [done|]. split; [split; [done|by right]|done]. }
  pose proof (place_frame (write_fault en) fs1 dir (Dockerfile b)) as Hpl.
  destruct (if inline_dockerfile _ then _ else _) as [placed fs2] eqn:E.
  assert (∀ p, not_below (abs cwd dir) p → fs2 !! p = fs !! p) as Hf2.
  { intros p Hp. rewrite <- (Hf1 p Hp). destruct (inline_dockerfile _); [|by injection E as <- <-].
    rewrite <- (Hpl p Hp). by rewrite E. }
  destruct placed as [u2|e].
  2: { eexists _, _, _, _. split; [done|]. split; [split; [done|by right]|done]. }
  destruct (executeBuild_total w en fs2 b dir (if inline_dockerfile (Dockerfile b) then "Dockerfile"
              else Dockerfile b) Hfp) as [[res lines] Hex]. rewrite Hex. cbn.
  destruct res as [r|e]; eexists _, _, _, _; (split; [done|]; split; [split; [done|]|done]).
  - left. split_and!; [done| |done]. by eapply executeBuild_ok.
  - by right.
Qed.

(** ** Properties *)

(** C14. Extraction stays in its directory: whatever the names, types and contents of the
    archive's entries, wherever the archive breaks off and whatever the disk refuses,
    nothing outside the destination directory is created, changed or removed.  The
    destination exists and is given by an absolute path or one that does not end in
    [..]. *)
Theorem extractTarGz_confined fs a dest p (Ha : anchored dest) (Hd : dirs_to fs (abs cwd dest))
    (Hp : not_below (abs cwd dest) p) :
  (extractTarGz cwd fs a dest).2 !! p = fs !! p.
Proof. by apply extract_frame. Qed.

(** C13. One attempt at an assigned build whose id is an ordinary file name and whose
    fingerprint has at least 16 bytes, on any disk: it always comes to an end without a
    panic, reports the build exactly once, as succeeded only if buildctl ended without
    error, and extends the cache keys exactly on success.  Outside the build's own
    directory it leaves the disk as it was, but for the directories on the way there,
    which it makes if they are missing; of the build's directory there is nothing left
    but what the disk refuses to remove, unless the directory could not be made, and
    then the build has failed and nothing in it was touched. *)
Theorem attempt_reports_once w en fs b (Hid : plain (ID b)) (Hfp : 16 ≤ strlen (BFingerprint b)) :
  let dir := abs cwd (PathJoin [WorkDir w; "builds"; ID b]) in
  ∃ rep lines w' fs',
    tryExecuteBuild decode cwd w en fs (Ok (200%Z, Some b)) = Some (Ok (), [rep], lines, w', fs') ∧
    attempt_outcome w en b rep w' ∧
    (∀ p, ¬ dir `prefix_of` p →
       fs' !! p = fs !! p ∨ p `prefix_of` dir ∧ fs !! p = None ∧ fs' !! p = Some DirNode) ∧
    ((∀ p, dir `prefix_of` p → ¬ Exists (λ k, p `prefix_of` k) (remove_kept en) → fs' !! p = None) ∨
     (rep_status rep = StatusFailed ∧ ∀ p, dir `prefix_of` p → fs' !! p = fs !! p)).
Proof.
  intros dir. set (path := PathJoin [WorkDir w; "builds"; ID b]) in *.
  unfold tryExecuteBuild. cbn [orb negb Z.eqb Pos.eqb].
  rewrite (proj2 (String.eqb_neq _ _) (proj1 Hid)), slice_to_ok by lia. cbn [mbind option_bind].
  fold path. pose proof (MkdirAll_fresh (mkdir_fault en) cwd fs path) as Hmk. fold dir in Hmk.
  destruct (MkdirAll (mkdir_fault en) cwd fs path) as [[u|e] fs1]; destruct Hmk as [Hmk Hok].
  - destruct (attempt_in_spec w en fs1 b path Hfp (context_dir_anchored _ _ Hid) Hok)
      as (rep & lines & w' & fs2 & -> & Hout & Hfr). cbn.
    eexists _, _, _, _. split; [done|]. split; [done|]. split.
    + intros p Hp. rewrite RemoveAll_outside, Hfr by (done || by intros [? _]). apply Hmk.
    + left. intros p Hp Hk. rewrite RemoveAll_below by (done || by apply context_dir_no_dot).
      by rewrite decide_False.
  - eexists _, _, _, _. split; [done|]. split; [split; [done|by right]|]. split; [auto|]. by right.
Qed.
End attempt_facts.

(** *** Cache keys *)

Lemma add_key_eq keys k : add_key keys k = if decide (k ∈ keys) then keys else keys ++ [k].
Proof.
  unfold add_key. destruct (existsb (String.eqb k) keys) eqn:E.
  - rewrite decide_True; [done|]. apply existsb_exists in E as (k' & Hk & He%String.eqb_eq).
    subst k'. by apply list_elem_of_In.
  - rewrite decide_False; [done|]. intros Hk%list_elem_of_In. apply not_true_iff_false in E. apply E.
    apply existsb_exists. exists k. by rewrite String.eqb_refl.
Qed.

Lemma foldl_add_key_firsts l ks : foldl add_key (firsts l) ks = firsts (l ++ ks).
Proof.
  revert l; induction ks as [|k ks IH]; intros l; [by rewrite app_nil_r|]. cbn [foldl].
  rewrite add_key_eq, <- firsts_snoc, IH, <- app_assoc. done.
Qed.

Lemma foldl_add_key_NoDup keys ks :
  NoDup keys → NoDup (foldl add_key keys ks) ∧ ∀ k, k ∈ foldl add_key keys ks → k ∈ keys ∨ k ∈ ks.
Proof.
  revert keys; induction ks as [|k ks IH]; intros keys Hn; [by auto|]. cbn [foldl].
  rewrite add_key_eq. case_decide as Hk.
  - destruct (IH keys Hn) as [? Hin]. split; [done|]. intros x Hx%Hin. rewrite elem_of_cons. tauto.
  - destruct (IH (keys ++ [k])) as [? Hin].
    { rewrite Permutation_app_comm. by constructor. }
    split; [done|]. intros x Hx%Hin. rewrite elem_of_app, list_elem_of_singleton in Hx.
    rewrite elem_of_cons. tauto.
Qed.

(** C29. A worker's cache keys: after any sequence of successful builds they are distinct
    instructions of these builds, at most 512, and as long as no more than 512
    different instructions were built they are all of them, in the order in which they
    were first built. *)
Theorem cache_keys_invariant uuid host url addr dir reg (builds : list (list string)) :
  let keys := cacheKeys (foldl addCacheKeys (NewWorker uuid host url addr dir reg) builds) in
  NoDup keys ∧ length keys ≤ 512 ∧ (∀ k, k ∈ keys → k ∈ concat builds) ∧
  (length (firsts (concat builds)) ≤ 512 → keys = firsts (concat builds)).
Proof.
  induction builds as [|ks builds IH] using rev_ind.
  { split_and!; [constructor|simpl; lia|by intros k ?%elem_of_nil|done]. }
  rewrite foldl_app, concat_app. cbn [foldl concat]. rewrite app_nil_r.
  set (w := foldl addCacheKeys _ builds) in *. destruct IH as (Hn & Hl & Hin & Hall).
  destruct (foldl_add_key_NoDup (cacheKeys w) ks Hn) as [Hn' Hin'].
  unfold addCacheKeys. cbn [cacheKeys set_keys]. set (keys := foldl add_key (cacheKeys w) ks) in *.
  assert (∀ k, k ∈ keys → k ∈ concat builds ++ ks) as Hsub.
  { intros k Hk%Hin'. rewrite elem_of_app. destruct Hk; auto. }
  assert (length (firsts (concat builds ++ ks)) ≤ 512 → keys = firsts (concat builds ++ ks)) as Heq.
  { intros Hle. unfold keys. rewrite Hall; [apply foldl_add_key_firsts|].
    rewrite <- foldl_add_key_firsts in Hle. etrans; [|exact Hle]. clear.
    generalize (firsts (concat builds)). induction ks as [|k ks IH]; intros l; [done|]. cbn [foldl].
    etrans; [|apply IH]. rewrite add_key_eq. case_decide; [done|]. rewrite length_app. simpl. lia. }
  destruct (maxCacheKeys <? length keys) eqn:Ec; unfold maxCacheKeys in *; bool_split.
  - split_and!.
    + eapply sublist_NoDup; [exact Hn'|apply sublist_drop].
    + rewrite length_drop. lia.
    + intros k Hk. apply Hsub. eapply elem_of_sublist; [exact Hk|apply sublist_drop].
    + intros Hle. rewrite (Heq Hle) in Ec. lia.
  - by split_and!.
Qed.

(** A key that is already there is not moved to the end: with a full list, a build
    that uses the oldest key and one new instruction makes the worker forget the key
    it has just used. *)
Lemma used_key_forgotten w a b ks :
  cacheKeys w = a :: ks → NoDup (a :: ks) → length (a :: ks) = 512 → b ∉ a :: ks →
  a ∉ cacheKeys (addCacheKeys w [a; b]).
Proof.
  intros Hk Hn Hl Hb. unfold addCacheKeys. rewrite Hk. cbn [foldl]. rewrite !add_key_eq.
  rewrite (decide_True (P := a ∈ a :: ks)) by (by left). rewrite decide_False by done.
  assert (length ((a :: ks) ++ [b]) = 513) as Hl' by (rewrite length_app; simpl in *; lia).
  rewrite Hl'. cbn [Nat.ltb]. apply NoDup_cons in Hn as [Ha _]. apply not_elem_of_cons in Hb as [Hba _].
  change (maxCacheKeys <? 513) with true. cbn [cacheKeys set_keys].
  change (513 - maxCacheKeys) with 1. cbn [app drop].
  rewrite drop_0, elem_of_app, list_elem_of_singleton. intros [?|?]; congruence.
Qed.

(** ** Concrete runs *)

Definition no_download (a : archive) : download_env := mkDownload None None None 200 a.
Definition good_run : run := mkRun true None None "" None None 65536 (EErrorf "context deadline exceeded").

Definition evil : archive :=
  mkArchive None [(mkHeader "../../../etc" TypeReg "evil", (None, None));
                  (mkHeader "src/main.go" TypeReg "package main", (None, None))] None.

Definition disk0 : files :=
  {[ ["work"] := DirNode; ["work"; "builds"] := DirNode; ["etc"] := FileNode "secret" ]}.

Definition disk1 : files := <[["work"; "builds"; "b1"] := DirNode]> disk0.

Lemma disk1_dirs : dirs_to disk1 (abs [] "/work/builds/b1").
Proof.
  change (abs [] "/work/builds/b1") with ((([] ++ ["work"]) ++ ["builds"]) ++ ["b1"]).
  intros q [[[Hq| ->]%prefix_snoc_inv| ->]%prefix_snoc_inv| ->]%prefix_snoc_inv; [|reflexivity..].
  by apply prefix_nil_inv in Hq as ->.
Qed.

Lemma extractTarGz_confined_witness :
  (extractTarGz [] disk1 evil "/work/builds/b1").2 !! ["etc"] = Some (FileNode "secret") ∧
  (extractTarGz [] disk1 evil "/work/builds/b1").2 !! ["work"; "builds"; "b1"; "src"; "main.go"] =
    Some (FileNode "package main").
Proof.
  split; [|reflexivity].
  rewrite (extractTarGz_confined [] disk1 evil "/work/builds/b1" ["etc"]); [reflexivity|left; reflexivity| |].
  - exact disk1_dirs.
  - intros [Hp _]. apply prefix_cons_inv_1 in Hp. discriminate Hp.
Defined.

Section runs.
#[local] Instance all_print : UnicodePrint := λ _, true.

Definition w0 : Worker := NewWorker "w1" "host" "http://server/" "tcp://buildkit" "/work" "".

Definition b0 (id df : string) : Domain.Build :=
  mkBuild id StatusBuilding "0123456789abcdef" "w1" "contexts/b1.tar.gz" df "app:1" None ["RUN make"]
    "" "" 0 0 600 "u" 0 f64_zero zero_time zero_time None.

Definition env_of (a : archive) (code : Z) : attempt_env :=
  mkAttempt None (mkDownload None None None code a) None None None [] good_run false None [].

Definition nothing : string → option rawMessage := λ _, None.

(** A worker's first attempt, on a disk without its work directory. *)
Definition bare : files := {[ ["etc"] := FileNode "secret" ]}.

Lemma attempt_reports_once_witness :
  ∃ rep lines w' fs',
    tryExecuteBuild nothing [] w0 (env_of evil 200) bare (Ok (200%Z, Some (b0 "b1" "FROM alpine"))) =
      Some (Ok (), [rep], lines, w', fs') ∧
    rep_id rep = "b1" ∧ fs' !! ["etc"] = Some (FileNode "secret").
Proof.
  destruct (attempt_reports_once nothing [] w0 (env_of evil 200) bare (b0 "b1" "FROM alpine"))
    as (rep & lines & w' & fs' & He & Hout & Hfr & _).
  - split_and!; [discriminate..|reflexivity].
  - vm_compute. lia.
  - exists rep, lines, w', fs'. split; [exact He|]. split; [exact (proj1 Hout)|].
    destruct (Hfr ["etc"]) as [Heq|[[k Hk] _]]; [intros [k Hk]; discriminate Hk|exact Heq|discriminate Hk].
Defined.

(** A build id is not checked before it becomes a path: [..] makes the work directory
    the build's directory, and the attempt removes it, even though the download was
    refused. *)
Lemma climbing_id_removes :
  match tryExecuteBuild nothing [] w0 (env_of evil 400) disk0 (Ok (200%Z, Some (b0 ".." "FROM alpine"))) with
  | Some (_, _, _, _, fs') => fs' !! ["work"; "builds"] = None ∧ fs' !! ["work"] = None
  | None => False
  end.
Proof. vm_compute. done. Qed.

(** The build's Dockerfile is not used if the context has a file of that name: what is
    built is not what was validated and fingerprinted. *)
Definition with_dockerfile : archive :=
  mkArchive None [(mkHeader "Dockerfile" TypeReg "FROM other", (None, None))] None.

Lemma context_dockerfile_wins :
  let fs := (extractTarGz [] disk1 with_dockerfile "/work/builds/b1").2 in
  let '(res, fs') := place_dockerfile [] None fs "/work/builds/b1" "FROM alpine" in
  res = Ok () ∧ fs' !! ["work"; "builds"; "b1"; "Dockerfile"] = Some (FileNode "FROM other").
Proof. vm_compute. done. Qed.

(** A relative destination that ends in [..] defeats the prefix test. *)
Lemma unanchored_destination_escapes :
  (extractTarGz ["a"; "b"; "c"] ∅
     (mkArchive None [(mkHeader "../x" TypeReg "evil", (None, None))] None) "..").2 !! ["a"; "x"] =
  Some (FileNode "evil").
Proof. vm_compute. reflexivity. Qed.
End runs.
