(* ===== verification/WorkerLoop.v ===== *)
(** * internal/worker: the poll loop

    [Run] of [worker.go] as a step relation: the loop's goroutine between its channel
    receives and its loads and stores of the busy flag, the goroutines of the build
    attempts, which run beside it, and the shared flag.  The watcher that cancels a
    running build is a function of what it receives.  Ticks and the context's end may
    come at any time, in any order. *)

From S2P Require Import BlobStore Worker.
From S2P Require Import Prelude GoStrings Domain.

(** ** Starting *)

(** [ensureBuildkitd]: what [exec.LookPath] answers. *)
Definition ensureBuildkitd (lookPath : option error) : result () :=
  match lookPath with
  | Some e => Err (EWrap "buildctl not found in PATH" e)
  | None => Ok ()
  end.

(** ** The loop *)

(** Where the loop is: waiting in the select; after a heartbeat tick, before and after
    the flag is loaded; after a poll tick, before the load, before the store and before
    the go statement; returned, with the context's error or that of the start. *)
Inductive loop_pc :=
  | Starting
  | Selecting
  | HeartbeatLoad
  | HeartbeatSend (status : string)
  | PollLoad
  | PollStore
  | PollGo
  | Returned (e : error).

(** [attempts] counts the goroutines in tryExecuteBuild, [heartbeats] are the statuses
    sent, the last one first. *)
Record loop := mkLoop {
  at_pc : loop_pc;
  busy : bool;
  attempts : nat;
  heartbeats : list string;
}.

Definition start : loop := mkLoop Starting false 0 [].

Definition moved (l : loop) (pc : loop_pc) : loop := mkLoop pc (busy l) (attempts l) (heartbeats l).

(** The loop's own steps; [lookPath] and [ctx_err] are what the start and a receive
    from [ctx.Done()] meet. *)
Inductive loop_step : loop → loop → Prop :=
  | step_start l lookPath :
      at_pc l = Starting →
      loop_step l (moved l match ensureBuildkitd lookPath with
                           | Err e => Returned (EWrap "buildkitd check" e)
                           | Ok _ => Selecting
                           end)
  | step_done l ctx_err : at_pc l = Selecting → loop_step l (moved l (Returned ctx_err))
  | step_heartbeat_tick l : at_pc l = Selecting → loop_step l (moved l HeartbeatLoad)
  | step_heartbeat_load l :
      at_pc l = HeartbeatLoad → loop_step l (moved l (HeartbeatSend (if busy l then "busy" else "idle")))
  | step_heartbeat_send l status :
      at_pc l = HeartbeatSend status →
      loop_step l (mkLoop Selecting (busy l) (attempts l) (status :: heartbeats l))
  | step_poll_tick l : at_pc l = Selecting → loop_step l (moved l PollLoad)
  | step_poll_load l :
      at_pc l = PollLoad → loop_step l (moved l (if busy l then Selecting else PollStore))
  | step_poll_store l :
      at_pc l = PollStore → loop_step l (mkLoop PollGo true (attempts l) (heartbeats l))
  | step_poll_go l :
      at_pc l = PollGo → loop_step l (mkLoop Selecting (busy l) (S (attempts l)) (heartbeats l))
  | step_attempt_ends l n :
      attempts l = S n → loop_step l (mkLoop (at_pc l) false n (heartbeats l)).

Record loop_inv (l : loop) : Prop := {
  li_one : attempts l ≤ 1;
  li_busy : attempts l = 1 → busy l = true ∧ at_pc l ≠ PollStore ∧ at_pc l ≠ PollGo;
  li_idle : attempts l = 0 → busy l = true ↔ at_pc l = PollGo;
  li_heartbeat : at_pc l = HeartbeatSend "idle" → attempts l = 0;
}.

Lemma loop_step_inv l l' : loop_inv l → loop_step l l' → loop_inv l'.
Proof.
  intros [H1 H2 H3 H4] Hs. assert (attempts l = 0 ∨ attempts l = 1) as Ha by lia.
  destruct Hs as [l lp Hpc|l e Hpc|l Hpc|l Hpc|l st Hpc|l Hpc|l Hpc|l Hpc|l Hpc|l n Hn];
    destruct l as [pc b n' hs]; simpl in *; subst; destruct Ha; subst;
    split; simpl in *; intros; simplify_eq;
    repeat match goal with H : ?x = ?x → _ |- _ => specialize (H eq_refl) end; destruct_and?;
    repeat (case_match; simplify_eq); try lia; try naive_solver.
Qed.

Lemma start_inv : loop_inv start.
Proof. by split; simpl; try lia; try done. Qed.

Lemma loop_reachable_inv l : rtc loop_step start l → loop_inv l.
Proof.
  assert (∀ l0, rtc loop_step l0 l → loop_inv l0 → loop_inv l) as Hr.
  { induction 1; eauto using loop_step_inv. }
  intros H. exact (Hr start H start_inv).
Qed.

(** ** The cancellation watcher *)

(** What the watcher's select receives: the end of the build's context, or a tick, with
    the answer to isBuildCancelled. *)
Inductive watch_event :=
  | WDone
  | WTick (answer : option Status).

(** Whether it has returned, and if so whether it has cancelled the build. *)
Fixpoint watch (es : list watch_event) : option bool :=
  match es with
  | [] => None
  | WDone :: _ => Some false
  | WTick a :: es => if isBuildCancelled a then Some true else watch es
  end.

(** The build is cancelled by the first tick that finds it cancelled, if that comes before
    the context's end. *)
Lemma watch_cancels es :
  watch es = Some true ↔
  ∃ before after, es = before ++ WTick (Some StatusCancelled) :: after ∧
    Forall (λ e, ∃ a, e = WTick a ∧ a ≠ Some StatusCancelled) before.
Proof.
  assert (∀ a, isBuildCancelled a = true ↔ a = Some StatusCancelled) as Hc.
  { intros [st|]; simpl; [|done]. rewrite String.eqb_eq. naive_solver. }
  induction es as [|[|a] es IH]; simpl.
  - split; [done|]. by intros ([]&?&?&_).
  - split; [done|]. intros ([|x before]&after&Heq&Hf); simplify_eq/=.
    apply Forall_cons in Hf as [(a&?&_) _]. done.
  - destruct (isBuildCancelled a) eqn:E.
    + apply Hc in E as ->. split; [intros _|done]. exists [], es. by split.
    + assert (a ≠ Some StatusCancelled) as Hne by (intros ?%Hc; congruence). rewrite IH. split.
      * intros (before&after&->&Hf). exists (WTick a :: before), after. split; [done|].
        constructor; [by exists a|done].
      * intros ([|x before]&after&Heq&Hf); simplify_eq/=.
        apply Forall_cons in Hf as [_ Hf]. by exists before, after.
Qed.

(** ** Properties *)

(** C17. A worker builds one thing at a time: whenever ticks, the ends of attempts and the
    context's end come, at most one attempt runs, the busy flag is set while it runs, a
    heartbeat that says idle is sent only while none runs; the loop never blocks itself,
    and after it has returned no attempt is started. *)
Theorem one_attempt_at_a_time l (Hl : rtc loop_step start l) :
  attempts l ≤ 1 ∧ (attempts l = 1 → busy l = true) ∧
  (at_pc l = HeartbeatSend "idle" → attempts l = 0) ∧
  ((∃ e, at_pc l = Returned e) ∨ ∃ l', loop_step l l' ∧ attempts l ≤ attempts l') ∧
  (∀ e l', at_pc l = Returned e → loop_step l l' → at_pc l' = Returned e ∧ attempts l' < attempts l).
Proof.
  apply loop_reachable_inv in Hl as [H1 H2 H3 H4]. split_and!; [done|naive_solver|done| |].
  - destruct (at_pc l) eqn:E; [right..|left]; [| | | | | | |by eauto]; eexists.
    + split; [exact (step_start l None E)|done].
    + split; [exact (step_poll_tick l E)|done].
    + split; [exact (step_heartbeat_load l E)|done].
    + split; [exact (step_heartbeat_send l status E)|done].
    + split; [exact (step_poll_load l E)|done].
    + split; [exact (step_poll_store l E)|done].
    + split; [exact (step_poll_go l E)|simpl; lia].
  - intros e l' He Hs. inv Hs; try congruence. split; [done|]. simpl. lia.
Qed.

Definition run_once : loop := mkLoop Selecting true 1 ["idle"].

Lemma one_attempt_at_a_time_witness : rtc loop_step start run_once ∧ attempts run_once ≤ 1.
Proof.
  assert (rtc loop_step start run_once) as Hr.
  { eapply rtc_l; [exact (step_start start None eq_refl)|].
    eapply rtc_l; [apply step_heartbeat_tick; reflexivity|].
    eapply rtc_l; [apply step_heartbeat_load; reflexivity|].
    eapply rtc_l; [eapply step_heartbeat_send; reflexivity|].
    eapply rtc_l; [apply step_poll_tick; reflexivity|].
    eapply rtc_l; [apply step_poll_load; reflexivity|].
    eapply rtc_l; [apply step_poll_store; reflexivity|].
    eapply rtc_l; [apply step_poll_go; reflexivity|]. apply rtc_refl. }
  split; [exact Hr|]. exact (proj1 (one_attempt_at_a_time run_once Hr)).
Defined.
