(* ===== verification/Tar.v ===== *)
(** * The client's archive

    [tarGz] of cmd/dtbuild: the walk over the submitted folder, the names and types of
    the archive's entries, and the round trip with the worker's extraction.  A folder
    is a tree as [os.Lstat] and [readdir] show it, with what the disk refuses of it and,
    for a regular file, the size that Lstat gave and what reading it then delivers;
    symbolic links are leaves, as the walk does not follow them.  What [archive/tar] and
    [gzip] write, into a buffer in memory that takes everything, is the list of entries
    that a reader gets back (names, type flags and contents) and the bytes that the last
    of them is short of its size; modes and times, which the worker does not read, are
    left out. *)

From S2P Require Import BlobStore Paths BuildkitClient Worker.
From S2P Require Import Prelude GoStrings GoSort Hashing Domain.
From Stdlib Require Import Ascii.

(** ** filepath.Rel *)

(** What remains of two element lists after their common prefix. *)
Fixpoint strip_common (b t : list string) : list string * list string :=
  match b, t with
  | x :: b', y :: t' => if String.eqb x y then strip_common b' t' else (b, t)
  | _, _ => (b, t)
  end.

(** The elements of a target; the directory [.] stands for itself. *)
Definition targ_elems (t : string) : list string :=
  match elems t with [] => if rooted t then [] else ["."] | es => es end.

Definition Rel (basepath targpath : string) : result string :=
  if String.eqb (Clean targpath) (Clean basepath) then Ok "."
  else
    let fail := Err (EErrorf ("Rel: can't make " +:+ targpath +:+ " relative to " +:+ basepath)) in
    if negb (Bool.eqb (rooted basepath) (rooted targpath)) then fail
    else
      let '(b, t) := strip_common (elems basepath) (targ_elems targpath) in
      match b with
      | ".." :: _ => fail
      | _ => Ok (Join (map (λ _, "..") b ++ t) sep)
      end.

Example rel_ex : (Rel "/a" "/a/b/c", Rel "/a" "/b/c", Rel "." "a/b", Rel "../x" "../x/y", Rel ".." "a")
  = (Ok "b/c", Ok "../b/c", Ok "a/b", Ok "y", Err (EErrorf "Rel: can't make a relative to ..")).
Proof. reflexivity. Qed.

(** ** The folder *)

Inductive special := Symlink | CharDevice | BlockDevice | Fifo | Socket | Irregular.

(** A regular file: the error of [os.Open], the size that [os.Lstat] gave, what reading it
    delivers, and the error that the reading ends with other than EOF. *)
Record file := mkFile {
  f_open : option error;
  f_size : Z;
  f_data : string;
  f_read : option error;
}.

Inductive tree :=
  | TFile (f : file)
  | TDir (read_err : option error) (children : list (string * tree))
  | TSpecial (k : special)
  | TGone (lstat_err : error).

(** A file that can be read and keeps its size. *)
Definition steady (d : string) : tree := TFile (mkFile None (Z.of_nat (strlen d)) d None).

(** [tar.FileInfoHeader]: the type flag, or the error for what a header cannot describe. *)
Definition FileInfoHeader (t : tree) : result ascii :=
  match t with
  | TFile _ => Ok TypeReg
  | TDir _ _ => Ok TypeDir
  | TSpecial Symlink => Ok "2"%char
  | TSpecial CharDevice => Ok "3"%char
  | TSpecial BlockDevice => Ok "4"%char
  | TSpecial Fifo => Ok "6"%char
  | TSpecial Socket => Err (EErrorf "archive/tar: sockets not supported")
  | TSpecial Irregular => Err (EErrorf "archive/tar: unknown file mode")
  | TGone e => Err e
  end.

(** The size in the header: only regular files have contents. *)
Definition header_size (t : tree) : Z := match t with TFile f => f_size f | _ => 0 end.

(** ** The writer *)

(** What a [tar.Writer] has been given: the entries, and how many bytes of the last one
    are still to come. *)
Record tape := mkTape { t_entries : list header; t_left : Z }.

Definition WriteHeader (name : string) (flag : ascii) (size : Z) (out : tape) : result () * tape :=
  if (0 <? t_left out)%Z then
    (Err (EErrorf ("archive/tar: missed writing " +:+ Sprint (t_left out) +:+ " bytes")), out)
  else (Ok (), mkTape (t_entries out ++ [mkHeader name flag ""]) size).

(** Contents are added to the last entry. *)
Fixpoint write_data (d : string) (hs : list header) : list header :=
  match hs with
  | [] => []
  | [h] => [mkHeader (HName h) (Typeflag h) (content h +:+ d)]
  | h :: hs => h :: write_data d hs
  end.

(** [io.Copy(tw, f)]: the writer takes no more than the header's size. *)
Definition Copy (out : tape) (f : file) : result () * tape :=
  if (t_left out <? Z.of_nat (strlen (f_data f)))%Z then
    (Err (EErrorf "archive/tar: write too long"),
     mkTape (write_data (str_take (Z.to_nat (t_left out)) (f_data f)) (t_entries out)) 0)
  else
    (match f_read f with Some e => Err e | None => Ok () end,
     mkTape (write_data (f_data f) (t_entries out)) (t_left out - Z.of_nat (strlen (f_data f)))).

(** ** The walk *)

(** The function that [tarGz] passes to [filepath.Walk]; [out] is what the writer has
    been given. *)
Definition visit (dir path : string) (info : tree) (err : option error) (out : tape) : result () * tape :=
  match err with
  | Some e => (Err e, out)
  | None =>
      match Rel dir path with
      | Err e => (Err e, out)
      | Ok rel =>
          if String.eqb rel "." then (Ok (), out)
          else
            match FileInfoHeader info with
            | Err e => (Err e, out)
            | Ok flag =>
                match WriteHeader rel flag (header_size info) out with
                | (Err e, out) => (Err e, out)
                | (Ok _, out) =>
                    match info with
                    | TFile f => match f_open f with Some e => (Err e, out) | None => Copy out f end
                    | _ => (Ok (), out)
                    end
                end
            end
      end
  end.

Abbreviation walker := (string → tape → result () * tape).

(** The names of a directory are visited in order. *)
Definition name_le (x y : string * walker) : Prop := String.le x.1 y.1.
#[global] Instance name_le_dec : RelDecision name_le.
Proof. intros x y. unfold name_le. apply _. Defined.

Fixpoint walk_all (subs : list (string * walker)) (path : string) (out : tape) : result () * tape :=
  match subs with
  | [] => (Ok (), out)
  | (name, w) :: subs =>
      match w (PathJoin [path; name]) out with
      | (Err e, out) => (Err e, out)
      | (Ok _, out) => walk_all subs path out
      end
  end.

Fixpoint walk (dir : string) (t : tree) (path : string) (out : tape) : result () * tape :=
  match t with
  | TDir rerr ch =>
      match visit dir path t rerr out with
      | (Err e, out) => (Err e, out)
      | (Ok _, out) =>
          walk_all (merge_sort name_le (map (λ nc, (nc.1, walk dir nc.2)) ch)) path out
      end
  | TGone e => visit dir path t (Some e) out
  | _ => visit dir path t None out
  end.

(** The deferred Close of the writer pads and ends the archive, unless the last entry is
    short of its size: then it fails, and nobody looks at its error. *)
Definition tarGz (dir : string) (t : tree) : result () * tape := walk dir t dir (mkTape [] 0).

(** The archive that a reader of these entries sees, on a disk that refuses nothing: it
    breaks off in an entry that is short. *)
Definition packed (tp : tape) : archive :=
  mkArchive None (map (λ h, (h, (None, None))) (t_entries tp))
    (if (0 <? t_left tp)%Z then Some (EErrorf "unexpected EOF") else None).

Example tar_ex :
  tarGz "ctx" (TDir None [("src", TDir None [("b", steady "2"); ("a", steady "1")]);
                          ("Dockerfile", steady "FROM x"); ("l", TSpecial Symlink)])
  = (Ok (), mkTape [mkHeader "Dockerfile" TypeReg "FROM x"; mkHeader "l" "2" ""; mkHeader "src" TypeDir "";
             mkHeader "src/a" TypeReg "1"; mkHeader "src/b" TypeReg "2"] 0).
Proof. vm_compute. reflexivity. Qed.

(** A file that shrank while it was read stops the walk at the next entry. *)
Example tar_short_ex :
  (tarGz "ctx" (TDir None [("a", TFile (mkFile None 3 "1" None)); ("b", steady "2")])).1 =
  Err (EErrorf "archive/tar: missed writing 2 bytes").
Proof. vm_compute. reflexivity. Qed.

(** ** Names *)

Lemma SplitByte_plain n : plain n → SplitByte n slash = [n].
Proof. intros (_ & _ & _ & Hf). by apply SplitByte_free. Qed.

Lemma SplitByte_rel r : r ≠ [] → Forall plain r → SplitByte (Join r sep) slash = r.
Proof.
  intros Hne Hr. apply SplitByte_Join; [done|]. eapply Forall_impl; [exact Hr|]. by intros e (_ & _ & _ & ?).
Qed.

Lemma elems_child path n : plain n → elems (PathJoin [path; n]) = elems path ++ [n].
Proof.
  intros Hn. pose proof (SplitByte_plain n Hn) as Hs.
  rewrite elems_PathJoin, Hs by (rewrite Hs; by constructor). done.
Qed.

Lemma rooted_child path p :
  p ≠ "" → rooted p = false → rooted (PathJoin [path; p]) = rooted path.
Proof.
  intros Hp Hr. unfold PathJoin. rewrite (proj2 (String.eqb_neq _ _) Hp).
  destruct (String.eqb_spec path "") as [->|Hne]; rewrite rooted_Clean; cbn [Join]; [done|].
  by rewrite rooted_app.
Qed.

Lemma rooted_member path n : plain n → rooted (PathJoin [path; n]) = rooted path.
Proof. intros (Hne & _ & _ & Hf). apply rooted_child; [done|by apply rooted_part]. Qed.

Lemma strip_common_app b t : strip_common b (b ++ t) = ([], t).
Proof. induction b as [|x b IH]; [by destruct t|]. cbn. by rewrite String.eqb_refl. Qed.

Lemma rel_not_dot r : r ≠ [] → Forall plain r → Join r sep ≠ ".".
Proof.
  intros Hne Hr Hd. pose proof (SplitByte_rel r Hne Hr) as Hs. rewrite Hd in Hs.
  change (SplitByte "." slash) with ["."] in Hs. subst r. apply Forall_singleton in Hr as (_ & ? & _). done.
Qed.

Lemma Rel_self dir : Rel dir dir = Ok ".".
Proof. unfold Rel. by rewrite String.eqb_refl. Qed.

(** The relative name of what is below a folder. *)
Lemma Rel_below dir path r :
  rooted path = rooted dir → elems path = elems dir ++ r → r ≠ [] → Forall plain r →
  Rel dir path = Ok (Join r sep).
Proof.
  intros Hr He Hne Hp. unfold Rel. destruct (String.eqb_spec (Clean path) (Clean dir)) as [Hc|_].
  { apply (f_equal elems) in Hc. rewrite !elems_Clean, He in Hc.
    apply (f_equal length) in Hc. rewrite length_app in Hc. destruct r; simpl in *; [done|lia]. }
  rewrite Hr, Bool.eqb_reflx. cbn [negb].
  assert (targ_elems path = elems dir ++ r) as ->.
  { unfold targ_elems. rewrite He. by destruct (elems dir), r. }
  by rewrite strip_common_app.
Qed.

(** ** Extracting what was packed *)

(** What a tree holds at a path below it; links and devices hold nothing. *)
Fixpoint member {A} (n : string) (l : list (string * A)) : option A :=
  match l with [] => None | (m, x) :: l => if String.eqb n m then Some x else member n l end.

Fixpoint node_at (t : tree) (p : list string) : option node :=
  match p, t with
  | [], TFile f => Some (FileNode (f_data f))
  | [], TDir _ _ => Some DirNode
  | n :: p, TDir _ ch => c ← member n ch; node_at c p
  | _, _ => None
  end.

(** The last name of a directory in the order of the walk. *)
Definition last_name {A} (n : string) (ch : list (string * A)) : bool :=
  forallb (λ m, bool_decide (String.le m n)) ch.*1.

(** A folder that can be archived: it can be read, its names are those of a Unix
    directory, it has no socket, and its files deliver the size they had; with [short], the
    file that is visited last may deliver less. *)
Inductive archivable : bool → tree → Prop :=
  | archivable_file short f :
      f_open f = None → f_read f = None → (Z.of_nat (strlen (f_data f)) ≤ f_size f)%Z →
      (short = false → Z.of_nat (strlen (f_data f)) = f_size f) → archivable short (TFile f)
  | archivable_dir short ch :
      NoDup ch.*1 → (∀ n c, (n, c) ∈ ch → plain n ∧ archivable (short && last_name n ch) c) →
      archivable short (TDir None ch)
  | archivable_special short k flag : FileInfoHeader (TSpecial k) = Ok flag → archivable short (TSpecial k).

Definition readable (t : tree) : Prop := archivable false t.

Lemma member_elem {A} n (c : A) l : NoDup l.*1 → (n, c) ∈ l → member n l = Some c.
Proof.
  induction l as [|[m x] l IH]; [by intros _ ?%elem_of_nil|]. cbn. intros Hn Hin.
  apply NoDup_cons in Hn as [Hm Hn]. apply elem_of_cons in Hin as [[= <- <-]|Hin]; [by rewrite String.eqb_refl|].
  destruct (String.eqb_spec n m) as [->|_]; [|by apply IH].
  exfalso. apply Hm. apply list_elem_of_fmap. by exists (m, c).
Qed.

Lemma member_Some {A} n (c : A) l : member n l = Some c → (n, c) ∈ l.
Proof.
  induction l as [|[m x] l IH]; [done|]. cbn. destruct (String.eqb_spec n m) as [->|_].
  - intros [= ->]. by left.
  - intros ?. right. auto.
Qed.

Lemma tree_nested_ind (P : tree → Prop) :
  (∀ f, P (TFile f)) → (∀ e ch, Forall (λ nc, P nc.2) ch → P (TDir e ch)) →
  (∀ k, P (TSpecial k)) → (∀ e, P (TGone e)) → ∀ t, P t.
Proof.
  intros Hf Hd Hs Hg. fix IH 1. intros [f|e ch|k|e]; [apply Hf| |apply Hs|apply Hg].
  apply Hd. induction ch as [|[n c] ch IHch]; constructor; [apply IH|exact IHch].
Qed.

Lemma archivable_weaken b t : archivable false t → archivable b t.
Proof.
  induction t as [f|e ch IH|k|e] using tree_nested_ind; intros Ht; inv Ht.
  - constructor; auto.
  - constructor; [done|]. rename select (∀ n c, (n, c) ∈ ch → _) into Hch. intros n c Hin.
    destruct (Hch n c Hin) as [Hn Hc]. split; [done|]. destruct (b && last_name n ch) eqn:Eb; [|done].
    rewrite Forall_forall in IH. apply andb_true_iff in Eb as [-> _]. by apply (IH (n, c) Hin).
  - by econstructor.
Qed.

(** The members of a directory in the order of the walk. *)
Definition by_name (x y : string * tree) : Prop := String.le x.1 y.1.

Lemma sorted_members dir ch :
  ∃ l, merge_sort name_le (map (λ nc, (nc.1, walk dir nc.2)) ch) = map (λ nc, (nc.1, walk dir nc.2)) l ∧
       ch ≡ₚ l ∧ StronglySorted by_name l.
Proof.
  set (f := λ nc : string * tree, (nc.1, walk dir nc.2)).
  assert (∃ l, merge_sort name_le (map f ch) = map f l ∧ ch ≡ₚ l) as (l & Hl & Hp)
    by apply Permutation_map_inv, merge_sort_Permutation.
  exists l. split_and!; [done..|].
  assert (StronglySorted name_le (map f l)) as Hs.
  { rewrite <- Hl. apply StronglySorted_merge_sort.
    - intros x y z. unfold name_le. apply transitivity.
    - intros x y. unfold name_le. apply total, _. }
  clear Hl Hp. induction l as [|x l IH]; [constructor|]. cbn [map] in Hs.
  apply StronglySorted_inv in Hs as [Hs Hx]. constructor; [by apply IH|].
  apply Forall_forall. intros y Hy. rewrite Forall_forall in Hx. apply (Hx (f y)). by apply list_elem_of_fmap_2.
Qed.

(** The last name of a sorted directory is that of its last member. *)
Lemma last_name_perm {A} n (l l' : list (string * A)) : l ≡ₚ l' → last_name n l = last_name n l'.
Proof.
  intros Hp. unfold last_name. apply Bool.eq_true_iff_eq. rewrite !forallb_forall.
  split; intros Hf x Hx; apply Hf; revert Hx; rewrite <- !list_elem_of_In, Hp; done.
Qed.

Lemma last_name_later x (l : list (string * tree)) m c :
  StronglySorted by_name (x :: l) → (m, c) ∈ l → last_name m (x :: l) = last_name m l.
Proof.
  intros [_ Hx]%StronglySorted_inv Hin. unfold last_name. cbn [fmap list_fmap forallb].
  rewrite Forall_forall in Hx. by rewrite bool_decide_true by apply (Hx (m, c) Hin).
Qed.

Lemma last_name_first n c (l : list (string * tree)) :
  StronglySorted by_name ((n, c) :: l) → NoDup ((n, c) :: l).*1 → last_name n ((n, c) :: l) = bool_decide (l = []).
Proof.
  intros [_ Hx]%StronglySorted_inv Hnd. unfold last_name. cbn [fmap list_fmap forallb fst].
  rewrite bool_decide_true by reflexivity. destruct l as [|[m c'] l]; [done|]. cbn.
  rewrite bool_decide_false; [done|]. intros Hle. apply Forall_cons in Hx as [Hx _].
  apply NoDup_cons in Hnd as [Hn _]. apply Hn. cbn. apply elem_of_cons. left. by apply (anti_symm String.le).
Qed.

Section unpack.
Context (cwd : list string) (dest : string) (Hdest : elems dest ≠ []).
Let D := abs cwd dest.

Definition extracting (fs : files) (hs : list header) : result () * files :=
  extract_entries cwd dest fs (entries (packed (mkTape hs 0))) None.

Lemma extracting_app fs hs1 hs2 fs1 :
  extracting fs hs1 = (Ok (), fs1) → extracting fs (hs1 ++ hs2) = extracting fs1 hs2.
Proof.
  unfold extracting, packed. cbn [entries t_entries]. rewrite map_app. revert fs.
  induction hs1 as [|h hs1 IH]; intros fs; cbn [map app extract_entries]; [by intros [= ->]|].
  destruct (extract_entry _ _ _ _) as [[[]|e] fs'] eqn:E; [|done]. apply IH.
Qed.

Lemma entry_path r :
  r ≠ [] → Forall plain r →
  let path := PathJoin [dest; Join r sep] in
  HasPrefix (Clean path) (Clean dest +:+ sep) = true ∧ abs cwd path = D ++ r.
Proof.
  intros Hne Hr path. pose proof (SplitByte_rel r Hne Hr) as Hs.
  assert (Forall plain (SplitByte (Join r sep) slash)) as Hp by (by rewrite Hs).
  split; [|unfold path; rewrite abs_PathJoin, Hs by done; done].
  apply (prefix_test_complete _ _ r); [|done..|unfold path; rewrite elems_PathJoin, Hs by done; done].
  destruct r as [|e r]; [done|]. apply Forall_cons in Hr as [(He & _ & _ & Hf) _].
  apply rooted_child.
  - by destruct r, e.
  - destruct r; cbn [Join]; [by apply rooted_part|]. rewrite rooted_app by done. by apply rooted_part.
Qed.

(** The directory of an entry whose parent exists: making it changes nothing. *)
Lemma mkdir_from_existing fs at_ todo : dirs_to fs (at_ ++ todo) → mkdir_from fs at_ todo = (Ok (), fs).
Proof.
  revert at_; induction todo as [|e todo IH]; intros at_ Hd; [done|]. cbn [mkdir_from].
  assert (fs !! (at_ ++ [e]) = Some DirNode) as ->.
  { apply is_dir_lookup; [by destruct at_|]. apply Hd. exists todo. by rewrite <- app_assoc. }
  apply IH. by rewrite <- app_assoc.
Qed.

Lemma dirs_to_agree fs fs' d :
  dirs_to fs d → (∀ q, q `prefix_of` d → fs' !! q = fs !! q) → dirs_to fs' d.
Proof.
  intros Hd Ha q Hq. specialize (Hd q Hq). destruct q as [|e q]; [done|]. cbn [is_dir] in *.
  by rewrite (Ha _ Hq).
Qed.

Lemma abs_entry_dir r n :
  Forall plain (r ++ [n]) → abs cwd (Dir (PathJoin [dest; Join (r ++ [n]) sep])) = D ++ r.
Proof.
  intros Hp. assert (r ++ [n] ≠ []) as Hne by (by destruct r).
  pose proof (SplitByte_rel _ Hne Hp) as Hs. set (path := PathJoin [dest; Join (r ++ [n]) sep]).
  assert (elems path = (elems dest ++ r) ++ [n]) as He.
  { unfold path. rewrite elems_PathJoin, Hs by (by rewrite Hs). by rewrite app_assoc. }
  assert (rooted path = rooted dest) as Hr.
  { destruct (entry_path (r ++ [n]) Hne Hp) as [Hpre _]. by apply prefix_elems in Hpre as [? _]. }
  destruct (PathJoin_clean [dest; Join (r ++ [n]) sep]) as [Hps|Hps].
  { fold path in Hps. rewrite Hps in He. by destruct (elems dest ++ r). }
  fold path in Hps. rewrite <- Hps, (Dir_Clean _ (elems dest ++ r) n) by done.
  pose proof (elems_normal path) as Hn. rewrite He in Hn. apply normal_prefix in Hn.
  rewrite Forall_app in Hp. apply abs_app; [by rewrite rooted_render|by rewrite elems_render|tauto].
Qed.

Lemma extract_dir_entry fs r n :
  Forall plain (r ++ [n]) → dirs_to fs (D ++ r) → fs !! (D ++ r ++ [n]) = None →
  extract_entry cwd dest fs (mkHeader (Join (r ++ [n]) sep) TypeDir "", (None, None)) =
    (Ok (), <[D ++ r ++ [n] := DirNode]> fs).
Proof.
  intros Hp Hd Hn. destruct (entry_path (r ++ [n])) as [Hpre Habs]; [by destruct r|done|].
  unfold extract_entry. cbn [HName Typeflag content]. rewrite Hpre, Ascii.eqb_refl. cbn [negb].
  unfold MkdirAll. rewrite Habs, app_assoc, (mkdir_from_child fs [] (D ++ r) n Hd). cbn [app].
  rewrite <- app_assoc, Hn. done.
Qed.

Lemma extract_file_entry fs r n d :
  Forall plain (r ++ [n]) → dirs_to fs (D ++ r) → fs !! (D ++ r ++ [n]) = None →
  extract_entry cwd dest fs (mkHeader (Join (r ++ [n]) sep) TypeReg d, (None, None)) =
    (Ok (), <[D ++ r ++ [n] := FileNode d]> fs).
Proof.
  intros Hp Hd Hn. destruct (entry_path (r ++ [n])) as [Hpre Habs]; [by destruct r|done|].
  unfold extract_entry. cbn [HName Typeflag content]. rewrite Hpre.
  change (Ascii.eqb TypeReg TypeDir) with false. rewrite Ascii.eqb_refl. cbn [negb].
  unfold MkdirAll. rewrite abs_entry_dir, (mkdir_from_existing fs [] (D ++ r) Hd) by done. cbn [snd].
  assert (is_dir fs (removelast (D ++ r ++ [n])) = true) as Hdir.
  { rewrite app_assoc, removelast_last. by apply Hd. }
  assert (D ++ r ++ [n] ≠ []) as Hne by (by destruct D, r). unfold CreateWrite. rewrite Habs.
  destruct (D ++ r ++ [n]) as [|x q]; [done|]. by rewrite Hn, Hdir.
Qed.

Lemma extract_other_entry fs r n flag :
  Forall plain (r ++ [n]) → flag ≠ TypeDir → flag ≠ TypeReg →
  extract_entry cwd dest fs (mkHeader (Join (r ++ [n]) sep) flag "", (None, None)) = (Ok (), fs).
Proof.
  intros Hp H1%Ascii.eqb_neq H2%Ascii.eqb_neq.
  destruct (entry_path (r ++ [n])) as [Hpre Habs]; [by destruct r|done|].
  unfold extract_entry. cbn [HName Typeflag content]. by rewrite Hpre, H1, H2.
Qed.

(** What unpacking the entries of a tree at [r ++ [n]] does to a disk that has the
    directory [r] and nothing at the tree's place. *)
Definition unpacks (r : list string) (n : string) (t : tree) (hs : list header) : Prop :=
  ∀ fs, dirs_to fs (D ++ r) → (∀ p, fs !! (D ++ r ++ n :: p) = None) →
  ∃ fs', extracting fs hs = (Ok (), fs') ∧
    (∀ p, fs' !! (D ++ r ++ n :: p) = node_at t p) ∧
    (∀ q, ¬ D ++ r ++ [n] `prefix_of` q → fs' !! q = fs !! q).

Definition archives (short : bool) (dir : string) (t : tree) : Prop :=
  ∀ path r n,
    rooted path = rooted dir → elems path = elems dir ++ r ++ [n] → Forall plain (r ++ [n]) →
    ∃ hs left, (∀ out, walk dir t path (mkTape out 0) = (Ok (), mkTape (out ++ hs) left)) ∧
      (short = false → left = 0%Z) ∧ unpacks r n t hs.

(** The entries of a directory's members, in any order. *)
Definition unpacks_all (r : list string) (l : list (string * tree)) (hs : list header) : Prop :=
  ∀ fs, dirs_to fs (D ++ r) → (∀ n p, n ∈ l.*1 → fs !! (D ++ r ++ n :: p) = None) →
  ∃ fs', extracting fs hs = (Ok (), fs') ∧
    (∀ n c p, (n, c) ∈ l → fs' !! (D ++ r ++ n :: p) = node_at c p) ∧
    (∀ q, (∀ n, n ∈ l.*1 → ¬ D ++ r ++ [n] `prefix_of` q) → fs' !! q = fs !! q).

Lemma member_beside r n m p : n ≠ m → ¬ D ++ r ++ [n] `prefix_of` D ++ r ++ m :: p.
Proof.
  intros Hne Hp. apply prefix_app_inv, prefix_app_inv in Hp. by apply prefix_cons_inv_1 in Hp.
Qed.

Lemma member_longer r n q : q `prefix_of` D ++ r → ¬ D ++ r ++ [n] `prefix_of` q.
Proof.
  intros Hq%prefix_length Hp%prefix_length. rewrite !length_app in *. simpl in *. lia.
Qed.

(** One more member. *)
Lemma unpack_members r n c l hs1 hs2 :
  n ∉ l.*1 → unpacks r n c hs1 → unpacks_all r l hs2 → unpacks_all r ((n, c) :: l) (hs1 ++ hs2).
Proof.
  intros Hn Hu1 Hu2 fs Hd Hnone. destruct (Hu1 fs Hd) as (fs1 & He1 & Hin1 & Hout1).
  { intros p. apply Hnone. by left. }
  destruct (Hu2 fs1) as (fs2 & He2 & Hin2 & Hout2).
  { eapply dirs_to_agree; [exact Hd|]. intros q Hq. by apply Hout1, member_longer. }
  { intros m p Hm. rewrite Hout1; [apply Hnone; by right|]. apply member_beside. by intros ->. }
  exists fs2. split_and!.
  - by rewrite (extracting_app _ _ _ fs1).
  - intros m c' p Hin. apply elem_of_cons in Hin as [[= -> ->]|Hin]; [|by apply Hin2].
    rewrite Hout2, Hin1; [done|]. intros m Hm. apply member_beside. by intros ->.
  - intros q Hq. rewrite Hout2, Hout1; [done|apply Hq; by left|]. intros m Hm. apply Hq. by right.
Qed.

Lemma walk_all_archives short dir path r l :
  rooted path = rooted dir → elems path = elems dir ++ r → Forall plain r →
  NoDup l.*1 → StronglySorted by_name l →
  (∀ n c, (n, c) ∈ l → plain n ∧ archives (short && last_name n l) dir c) →
  ∃ hs left, (∀ out, walk_all (map (λ nc, (nc.1, walk dir nc.2)) l) path (mkTape out 0) =
                     (Ok (), mkTape (out ++ hs) left)) ∧
             (short = false → left = 0%Z) ∧ unpacks_all r l hs.
Proof.
  intros Hr He Hp. induction l as [|[n c] l IH]; intros Hnd Hso Hall.
  { exists [], 0%Z. split; [intros out; by rewrite app_nil_r|]. split; [done|]. intros fs _ _. exists fs.
    split_and!; [done|by intros ??? ?%elem_of_nil|done]. }
  destruct (Hall n c) as [Hpn Hc]; [by left|]. rewrite last_name_first in Hc by done.
  destruct IH as (hs2 & left2 & Hw2 & Hl2 & Hu2).
  { by apply NoDup_cons in Hnd as [_ ?]. }
  { by apply StronglySorted_inv in Hso as [? _]. }
  { intros m c' Hin. rewrite <- (last_name_later (n, c) l m c') by done. apply Hall. by right. }
  assert (Forall plain (r ++ [n])) as Hpr by (apply Forall_app; split; [done|by constructor]).
  destruct (Hc (PathJoin [path; n]) r n) as (hs1 & left1 & Hw1 & Hl1 & Hu1);
    [by rewrite rooted_member|rewrite elems_child, He, app_assoc; done|done|].
  exists (hs1 ++ hs2), (if decide (l = []) then left1 else left2). split_and!.
  { intros out. cbn [map walk_all fst snd]. rewrite Hw1. destruct (decide (l = [])) as [->|Hne].
    - cbn [map walk_all] in *. specialize (Hw2 []). injection Hw2 as <- _. by rewrite app_nil_r.
    - rewrite Hl1, Hw2 by (rewrite bool_decide_false by done; apply andb_false_r). by rewrite app_assoc. }
  { intros ->. case_decide; auto. }
  apply (unpack_members r n c l hs1 hs2); [by apply NoDup_cons in Hnd as [? _]|done..].
Qed.

Lemma write_data_snoc d hs h :
  write_data d (hs ++ [h]) = hs ++ [mkHeader (HName h) (Typeflag h) (content h +:+ d)].
Proof.
  induction hs as [|x hs IH]; [done|]. change ((x :: hs) ++ [h]) with (x :: (hs ++ [h])).
  destruct (hs ++ [h]) as [|y l] eqn:E; [by destruct hs|].
  change (write_data d (x :: y :: l)) with (x :: write_data d (y :: l)). by rewrite IH.
Qed.

(** Visiting one object below the folder. *)
Lemma visit_below dir path r n t out flag :
  rooted path = rooted dir → elems path = elems dir ++ r ++ [n] → Forall plain (r ++ [n]) →
  FileInfoHeader t = Ok flag →
  (∀ f, t = TFile f → f_open f = None ∧ f_read f = None ∧ (Z.of_nat (strlen (f_data f)) ≤ f_size f)%Z) →
  visit dir path t None (mkTape out 0) =
    (Ok (), mkTape (out ++ [mkHeader (Join (r ++ [n]) sep) flag match t with TFile f => f_data f | _ => "" end])
              match t with TFile f => f_size f - Z.of_nat (strlen (f_data f)) | _ => 0 end).
Proof.
  intros Hr He Hp Hf Ho. assert (r ++ [n] ≠ []) as Hne by (by destruct r). unfold visit.
  rewrite (Rel_below _ _ (r ++ [n])), (proj2 (String.eqb_neq _ _) (rel_not_dot _ Hne Hp)), Hf by done.
  unfold WriteHeader. cbn [t_left Z.ltb Z.compare t_entries].
  destruct t as [f|e ch|k|e]; [|done..]. destruct (Ho f eq_refl) as (-> & Hre & Hsz). unfold Copy.
  cbn [header_size t_left t_entries]. rewrite (proj2 (Z.ltb_ge _ _) Hsz), Hre, write_data_snoc. done.
Qed.

Lemma extracting_one fs h fs' :
  extract_entry cwd dest fs (h, (None, None)) = (Ok (), fs') → extracting fs [h] = (Ok (), fs').
Proof. intros He. unfold extracting, packed. cbn [entries t_entries map extract_entries]. by rewrite He. Qed.

Lemma insert_at (fs : files) r n x :
  let fs' := <[D ++ r ++ [n] := x]> fs in
  (∀ p, fs !! (D ++ r ++ n :: p) = None) →
  (∀ p, fs' !! (D ++ r ++ n :: p) = if decide (p = []) then Some x else None) ∧
  (∀ q, ¬ D ++ r ++ [n] `prefix_of` q → fs' !! q = fs !! q).
Proof.
  intros fs' Hn. split.
  - intros p. unfold fs'. case_decide as Hp; [subst p; apply lookup_insert_eq|].
    rewrite lookup_insert_ne; [apply Hn|]. intros Heq. apply app_inv_head, app_inv_head in Heq. congruence.
  - intros q Hq. unfold fs'. apply lookup_insert_ne. intros <-. by apply Hq.
Qed.

(** The entries of a directory: its own, and those of its members. *)
Lemma unpack_dir r n ch l hs :
  NoDup ch.*1 → ch ≡ₚ l → Forall plain (r ++ [n]) → unpacks_all (r ++ [n]) l hs →
  unpacks r n (TDir None ch) (mkHeader (Join (r ++ [n]) sep) TypeDir "" :: hs).
Proof.
  intros Hnd Hperm Hp Hu fs Hd Hn. destruct (insert_at fs r n DirNode Hn) as [Hin1 Hout1].
  set (fs1 := <[D ++ r ++ [n] := DirNode]> fs) in *.
  destruct (Hu fs1) as (fs2 & He2 & Hin2 & Hout2).
  { intros q Hq. rewrite app_assoc in Hq. apply prefix_snoc_inv in Hq as [Hq| ->].
    - apply (dirs_to_agree fs fs1 (D ++ r) Hd); [|done]. intros q' Hq'. by apply Hout1, member_longer.
    - apply is_dir_intro. unfold fs1. rewrite <- app_assoc. apply lookup_insert_eq. }
  { intros m p _. rewrite <- app_assoc. change ([n] ++ m :: p) with (n :: m :: p). by rewrite Hin1. }
  exists fs2. split_and!.
  - change (?h :: hs) with ([h] ++ hs). erewrite extracting_app; [exact He2|].
    apply extracting_one, extract_dir_entry; first [done|apply Hn].
  - intros [|m p].
    + rewrite Hout2, Hin1; [done|]. intros m _ Hpre%prefix_length. rewrite !length_app in Hpre.
      simpl in Hpre. lia.
    + specialize (Hin2 m). cbn [node_at]. destruct (member m ch) as [c|] eqn:Ea; cbn [mbind option_bind].
      { apply member_Some in Ea. rewrite Hperm in Ea. specialize (Hin2 c p Ea).
        rewrite <- app_assoc in Hin2. exact Hin2. }
      rewrite Hout2, Hin1; [done|]. intros m' Hm' Hpre. rewrite <- app_assoc in Hpre.
      change ([n] ++ [m']) with (n :: [m']) in Hpre.
      apply prefix_app_inv, prefix_app_inv, prefix_cons_inv_2, prefix_cons_inv_1 in Hpre as ->.
      rewrite <- Hperm in Hm'. apply list_elem_of_fmap in Hm' as ([m'' c] & Hm'' & Hin).
      simpl in Hm''. subst m''. rewrite (member_elem _ c ch Hnd Hin) in Ea. done.
  - intros q Hq. rewrite Hout2, Hout1; [done..|]. intros m _ Hpre. apply Hq. etrans; [|exact Hpre].
    rewrite <- !app_assoc. apply prefix_app, prefix_app. by eexists.
Qed.

(** Any tree that can be archived is, and its entries unpack to it. *)
Lemma archivable_archives short dir t : archivable short t → archives short dir t.
Proof.
  revert short. induction t as [f|e ch IH|k|e] using tree_nested_ind; intros short Ht path r n Hr He Hp; inv Ht.
  - eexists _, _. split_and!; [intros out; cbn [walk]; apply (visit_below dir path r n (TFile f) out TypeReg); [done..|]|intros Hs; rewrite H4 by done; lia|].
    { intros f' Hf'. by injection Hf' as <-. }
    intros fs Hd Hn. eexists. split; [apply extracting_one, extract_file_entry; first [done|apply Hn]|].
    destruct (insert_at fs r n (FileNode (f_data f)) Hn) as [Hin Hout]. split; [|done].
    intros p. rewrite Hin. by destruct p.
  - rename select (∀ n c, (n, c) ∈ ch → _) into Hch. rename select (NoDup _) into Hnd.
    destruct (sorted_members dir ch) as (l & Hl & Hperm & Hso).
    destruct (walk_all_archives short dir path (r ++ [n]) l) as (hs & left & Hw & Hleft & Hu);
      [done|by rewrite He|done|by rewrite <- Hperm|done| |].
    { intros m c Hin. rewrite <- (last_name_perm m ch l Hperm). rewrite <- Hperm in Hin.
      destruct (Hch m c Hin) as [Hm Hc]. split; [done|].
      rewrite Forall_forall in IH. by apply (IH (m, c) Hin). }
    exists (mkHeader (Join (r ++ [n]) sep) TypeDir "" :: hs), left. split_and!; [|done|by eapply unpack_dir].
    intros out. cbn [walk]. rewrite (visit_below dir path r n _ out TypeDir), Hl, Hw by done.
    by rewrite <- app_assoc.
  - rename select (FileInfoHeader _ = _) into Hf.
    assert (flag ≠ TypeDir ∧ flag ≠ TypeReg) as [Hf1 Hf2] by (destruct k; cbn in Hf; simplify_eq; done).
    eexists _, _. split_and!; [intros out; cbn [walk]; by eapply visit_below|done|]. intros fs Hd Hn.
    exists fs. split; [by apply extracting_one, extract_other_entry|]. split; [|done].
    intros p. rewrite Hn. by destruct p.
Qed.

(** The whole folder. *)
Lemma tarGz_archivable short dir ch :
  archivable short (TDir None ch) →
  ∃ hs left l, tarGz dir (TDir None ch) = (Ok (), mkTape hs left) ∧ (short = false → left = 0%Z) ∧
    ch ≡ₚ l ∧ NoDup ch.*1 ∧ unpacks_all [] l hs.
Proof.
  intros Hch. inv Hch as [|? ? Hnd Hall|]. destruct (sorted_members dir ch) as (l & Hl & Hperm & Hso).
  destruct (walk_all_archives short dir dir [] l) as (hs & left & Hw & Hleft & Hu);
    [done|by rewrite app_nil_r|constructor|by rewrite <- Hperm|done| |].
  { intros m c Hin. rewrite <- (last_name_perm m ch l Hperm). rewrite <- Hperm in Hin.
    destruct (Hall m c Hin). split; [done|]. by apply archivable_archives. }
  exists hs, left, l. split_and!; [|done..]. unfold tarGz. cbn [walk]. unfold visit. rewrite Rel_self.
  cbn [String.eqb]. rewrite Hl. apply Hw.
Qed.

Lemma tarGz_unpacks dir ch :
  readable (TDir None ch) →
  ∃ hs l, tarGz dir (TDir None ch) = (Ok (), mkTape hs 0) ∧ ch ≡ₚ l ∧ NoDup ch.*1 ∧ unpacks_all [] l hs.
Proof.
  intros (hs & left & l & Ht & Hl & ?)%(tarGz_archivable false dir). rewrite Hl in Ht by done. by exists hs, l.
Qed.
End unpack.

(** ** Properties *)

(** A submitted folder arrives as it is: for a folder that can be read (its names those
    of a Unix directory, no socket in it), however deep and in whatever order the disk
    lists it, [tarGz] succeeds, and the worker's extraction of the entries into an
    existing directory with nothing below it succeeds and makes exactly the folder's
    directories and regular files, with their contents, below that directory; links
    and devices are left out. *)
Lemma folder_roundtrip cwd fs dir dest ch (Hch : readable (TDir None ch)) (Hdest : elems dest ≠ [])
    (Hd : dirs_to fs (abs cwd dest)) (Hempty : ∀ n p, fs !! (abs cwd dest ++ n :: p) = None) :
  ∃ hs fs',
    tarGz dir (TDir None ch) = (Ok (), hs) ∧
    extractTarGz cwd fs (packed hs) dest = (Ok (), fs') ∧
    (∀ n p, fs' !! (abs cwd dest ++ n :: p) = node_at (TDir None ch) (n :: p)) ∧
    (∀ q, (∀ n p, q ≠ abs cwd dest ++ n :: p) → fs' !! q = fs !! q).
Proof.
  destruct (tarGz_unpacks cwd dest Hdest dir ch Hch) as (hs0 & l & Ht & Hperm & Hnd & Hu).
  destruct (Hu fs) as (fs' & He & Hin & Hout); [by rewrite app_nil_r|by intros; apply Hempty|].
  exists (mkTape hs0 0), fs'. split_and!.
  - exact Ht.
  - exact He.
  - intros n p. cbn [node_at]. destruct (member n ch) as [c|] eqn:Ea; cbn [mbind option_bind].
    + apply member_Some in Ea. rewrite Hperm in Ea. exact (Hin n c p Ea).
    + rewrite Hout, Hempty; [done|]. intros m Hm Hpre.
      apply prefix_app_inv, prefix_cons_inv_1 in Hpre as ->. rewrite <- Hperm in Hm.
      apply list_elem_of_fmap in Hm as ([m' c] & Hm' & Hm). simpl in Hm'. subst m'.
      by rewrite (member_elem _ c ch Hnd Hm) in Ea.
  - intros q Hq. apply Hout. intros n _ [p Hp]. apply (Hq n p). by rewrite Hp, <- app_assoc.
Qed.

Definition src_folder : list (string * tree) :=
  [("src", TDir None [("b.c", steady "int b;"); ("a.c", steady "int a;")]);
   ("Dockerfile", steady "FROM alpine"); ("link", TSpecial Symlink)].

Lemma steady_readable d : readable (steady d).
Proof. by constructor. Qed.

Lemma src_readable : readable (TDir None src_folder).
Proof.
  assert (∀ n, plain n ↔ n ≠ "" ∧ n ≠ "." ∧ n ≠ ".." ∧ str_all (λ c, negb (Ascii.eqb c slash)) n = true)
    as Hpl by done.
  constructor; [by apply (bool_decide_unpack _)|]. intros n c Hin. cbn [andb]. unfold src_folder in Hin.
  rewrite !elem_of_cons, elem_of_nil in Hin. destruct Hin as [[= -> ->]|[[= -> ->]|[[= -> ->]|[]]]];
    (split; [by apply Hpl|]); [|apply steady_readable|by econstructor].
  constructor; [by apply (bool_decide_unpack _)|]. intros n c Hin. cbn [andb].
  rewrite !elem_of_cons, elem_of_nil in Hin. destruct Hin as [[= -> ->]|[[= -> ->]|[]]];
    (split; [by apply Hpl|apply steady_readable]).
Qed.

Lemma disk1_empty n p : disk1 !! (abs [] "/work/builds/b1" ++ n :: p) = None.
Proof.
  change (abs [] "/work/builds/b1" ++ n :: p) with ("work" :: "builds" :: "b1" :: n :: p).
  unfold disk1, disk0. by rewrite !lookup_insert_ne, lookup_singleton_ne by done.
Qed.

Example folder_roundtrip_run :
  ∃ hs fs', tarGz "ctx" (TDir None src_folder) = (Ok (), hs) ∧
    extractTarGz [] disk1 (packed hs) "/work/builds/b1" = (Ok (), fs') ∧
    fs' !! ["work"; "builds"; "b1"; "src"; "a.c"] = Some (FileNode "int a;") ∧
    fs' !! ["work"; "builds"; "b1"; "link"] = None.
Proof.
  destruct (folder_roundtrip [] disk1 "ctx" "/work/builds/b1" src_folder) as (hs & fs' & Ht & He & Hin & _).
  - exact src_readable.
  - discriminate.
  - exact disk1_dirs.
  - exact disk1_empty.
  - exists hs, fs'. split_and!; [exact Ht|exact He|exact (Hin "src" ["a.c"])|exact (Hin "link" [])].
Defined.

(** *** What cannot be read *)

(** Names as a Unix directory has them, whatever can be read of it. *)
Inductive named_tree : tree → Prop :=
  | named_file f : named_tree (TFile f)
  | named_dir e ch :
      NoDup ch.*1 → (∀ n c, (n, c) ∈ ch → plain n ∧ named_tree c) → named_tree (TDir e ch)
  | named_special k : named_tree (TSpecial k)
  | named_gone e : named_tree (TGone e).

(** A walk that goes through an object started with no entry short, and found it as it
    must be; it ends with no entry short only if no file in it is. *)
Definition sound (dir : string) (t : tree) (path : string) : Prop :=
  ∀ out out', walk dir t path out = (Ok (), out') →
    (t_left out ≤ 0)%Z ∧ archivable true t ∧ ((t_left out' ≤ 0)%Z → archivable false t).

Lemma walk_all_sound dir path l out out' :
  (∀ n c, (n, c) ∈ l → sound dir c (PathJoin [path; n])) → NoDup l.*1 → StronglySorted by_name l →
  walk_all (map (λ nc, (nc.1, walk dir nc.2)) l) path out = (Ok (), out') →
  (l = [] ∨ (t_left out ≤ 0)%Z) ∧ (∀ n c, (n, c) ∈ l → archivable (last_name n l) c) ∧
  ((t_left out' ≤ 0)%Z → ∀ n c, (n, c) ∈ l → archivable false c).
Proof.
  revert out. induction l as [|[n c] l IH]; intros out Hc Hnd Hso Hw.
  { split_and!; [by left|by intros ?? ?%elem_of_nil|by intros _ ?? ?%elem_of_nil]. }
  cbn [map walk_all fst snd] in Hw.
  destruct (walk dir c (PathJoin [path; n]) out) as [[[]|e] o] eqn:E; [|done].
  destruct (Hc n c ltac:(by left) out o E) as (Hout & Ht & Hf).
  destruct (IH o) as (Hne & Ha & Hl); [intros; apply Hc; by right|by apply NoDup_cons in Hnd as [_ ?]
    |by apply StronglySorted_inv in Hso as [? _]|done|].
  split_and!; [by right| |].
  - intros m c' Hin. apply elem_of_cons in Hin as [[= -> ->]|Hin].
    + rewrite last_name_first by done. destruct Hne as [->|Ho]; [done|]. by apply archivable_weaken, Hf.
    + rewrite (last_name_later (n, c) l m c') by done. by apply Ha.
  - intros Hl' m c' Hin. apply elem_of_cons in Hin as [[= -> ->]|Hin]; [|by apply (Hl Hl' m)].
    apply Hf. destruct Hne as [->|Ho]; [|done]. cbn [map walk_all] in Hw. by injection Hw as <-.
Qed.

Lemma dir_sound dir path ch r out out' :
  Forall (λ nc, ∀ path r, named_tree nc.2 → rooted path = rooted dir → elems path = elems dir ++ r →
    Forall plain r → r ≠ [] → sound dir nc.2 path) ch →
  named_tree (TDir None ch) → rooted path = rooted dir → elems path = elems dir ++ r → Forall plain r →
  walk_all (merge_sort name_le (map (λ nc, (nc.1, walk dir nc.2)) ch)) path out = (Ok (), out') →
  archivable true (TDir None ch) ∧ ((t_left out' ≤ 0)%Z → archivable false (TDir None ch)).
Proof.
  intros IH Ht Hr He Hp Hw. inv Ht as [|? ? Hnd Hall| |].
  destruct (sorted_members dir ch) as (l & Hl & Hperm & Hso). rewrite Hl in Hw.
  destruct (walk_all_sound dir path l out out') as (_ & Ha & Hf); [|by rewrite <- Hperm|done|done|].
  { intros n c Hin. rewrite <- Hperm in Hin. destruct (Hall n c Hin) as [Hn Hc].
    rewrite Forall_forall in IH. apply (IH (n, c) Hin _ (r ++ [n])); [done|by rewrite rooted_member| | |].
    + by rewrite elems_child, He, <- app_assoc.
    + apply Forall_app. split; [done|by constructor].
    + by destruct r. }
  split; [|intros Hl']; (apply archivable_dir; [done|]); intros n c Hin; (split; [exact (proj1 (Hall n c Hin))|]); cbn [andb].
  - rewrite (last_name_perm n ch l Hperm). rewrite Hperm in Hin. by apply Ha.
  - rewrite Hperm in Hin. by apply (Hf Hl' n).
Qed.

Lemma walk_sound dir t path r :
  named_tree t → rooted path = rooted dir → elems path = elems dir ++ r → Forall plain r → r ≠ [] →
  sound dir t path.
Proof.
  revert path r. induction t as [f|e ch IH|k|e] using tree_nested_ind; intros path r Ht Hr He Hp Hne out out' Hw;
    cbn [walk] in Hw; unfold visit in Hw; rewrite ?(Rel_below dir path r Hr He Hne Hp) in Hw;
    rewrite ?(proj2 (String.eqb_neq _ _) (rel_not_dot r Hne Hp)) in Hw; cbn [FileInfoHeader] in Hw;
    unfold WriteHeader in Hw.
  - destruct (Z.ltb_spec 0 (t_left out)) as [|Hout]; [done|]. destruct (f_open f) eqn:Ho; [done|].
    unfold Copy in Hw. cbn [header_size t_left] in Hw.
    destruct (Z.ltb_spec (f_size f) (Z.of_nat (strlen (f_data f)))) as [|Hsz]; [done|].
    destruct (f_read f) eqn:Hre; [done|]. injection Hw as <-. cbn [t_left].
    split_and!; [done|by constructor|]. intros Hl. constructor; [done..|]. intros _. lia.
  - destruct e; [done|]. destruct (Z.ltb_spec 0 (t_left out)) as [|Hout]; [done|]. split; [done|].
    by apply (dir_sound dir path ch r _ _ IH) in Hw.
  - destruct k; try done; (destruct (Z.ltb_spec 0 (t_left out)) as [|Hout]; [done|]);
      (split_and!; [done|by econstructor|by econstructor]).
  - done.
Qed.

(** C35. [tarGz] leaves out nothing that it cannot read: on a folder with a Unix directory's
    names it succeeds exactly if every directory below can be listed, every entry
    examined and described by a header (no socket), every regular file opened and read
    without an error, and each delivers as many bytes as Lstat said, only the file that is
    visited last may deliver fewer; in every other case it returns an error.  When it
    succeeds, nothing is missing in the archive exactly if that last file delivers them
    all too. *)
Theorem tarGz_succeeds_iff dir e ch (Hn : named_tree (TDir e ch)) :
  ((∃ tp, tarGz dir (TDir e ch) = (Ok (), tp)) ↔ archivable true (TDir e ch)) ∧
  ∀ tp, tarGz dir (TDir e ch) = (Ok (), tp) → ((t_left tp ≤ 0)%Z ↔ readable (TDir e ch)).
Proof.
  assert (∀ tp, tarGz dir (TDir e ch) = (Ok (), tp) →
    archivable true (TDir e ch) ∧ ((t_left tp ≤ 0)%Z → archivable false (TDir e ch))) as Hs.
  { intros tp Hw. unfold tarGz in Hw. cbn [walk] in Hw. unfold visit in Hw.
    destruct e; [done|]. rewrite Rel_self in Hw. cbn [String.eqb] in Hw.
    apply (dir_sound dir dir ch [] _ _) in Hw; [done| |done|done|by rewrite app_nil_r|constructor].
    apply Forall_forall. intros nc _ path r. apply walk_sound. }
  split; [split|].
  - intros [tp Hw]. by apply (Hs tp).
  - intros Hr. assert (e = None) as -> by (by inv Hr).
    destruct (tarGz_archivable [] "/x" ltac:(done) true dir ch Hr) as (hs & left & l & Ht & _). by eexists.
  - intros tp Hw. split; [by apply Hs|]. intros Hr. assert (e = None) as -> by (by inv Hr).
    destruct (tarGz_unpacks [] "/x" ltac:(done) dir ch Hr) as (hs & l & Ht & _). rewrite Hw in Ht.
    by injection Ht as ->.
Qed.

(** A folder whose last file shrank while it was read, with a file that cannot be opened,
    and with one that grew. *)
Definition folder_with (name : string) (f : file) : list (string * tree) :=
  [("Dockerfile", steady "FROM alpine"); (name, TFile f)].

Definition shrunk : file := mkFile None 9 "int" None.

Lemma folder_with_named name f :
  plain name → name ≠ "Dockerfile" → named_tree (TDir None (folder_with name f)).
Proof.
  intros Hp Hn. constructor.
  - cbn. repeat constructor; [|by intros ?%elem_of_nil]. intros Hin%list_elem_of_singleton. congruence.
  - intros n c Hin. unfold folder_with in Hin. rewrite !elem_of_cons, elem_of_nil in Hin.
    destruct Hin as [[= -> ->]|[[= -> ->]|[]]]; (split; [|constructor]); [by split_and!|done].
Qed.

Lemma tarGz_succeeds_iff_witness :
  (¬ ∃ tp, tarGz "ctx" (TDir None (folder_with "key" (mkFile (Some (EErrorf "permission denied")) 3 "" None))) =
             (Ok (), tp)) ∧
  ¬ readable (TDir None (folder_with "last.c" shrunk)).
Proof.
  split.
  - rewrite (proj1 (tarGz_succeeds_iff "ctx" None _ (folder_with_named "key" _ ltac:(by split_and!) ltac:(done)))).
    intros Hr. inversion Hr as [|? ? _ Hall|].
    destruct (Hall "key" (TFile (mkFile (Some (EErrorf "permission denied")) 3 "" None))) as [_ Hk]; [by right; left|].
    inversion Hk. done.
  - intros Hr.
    assert ((tarGz "ctx" (TDir None (folder_with "last.c" shrunk))).1 = Ok () ∧
            t_left (tarGz "ctx" (TDir None (folder_with "last.c" shrunk))).2 = 6%Z) as [H1 H2]
      by (vm_compute; split; reflexivity).
    pose proof (proj2 (tarGz_succeeds_iff "ctx" None _ (folder_with_named "last.c" shrunk ltac:(by split_and!) ltac:(done)))) as Hc.
    destruct (tarGz "ctx" (TDir None (folder_with "last.c" shrunk))) as [res tp]. cbn [fst snd] in H1, H2. subst res.
    apply (Hc tp eq_refl) in Hr. rewrite H2 in Hr. by apply Hr.
Defined.

(** Then the client reports success, and every worker fails to extract the archive. *)
Lemma truncated_archive :
  let '(res, tp) := tarGz "ctx" (TDir None (folder_with "last.c" shrunk)) in
  res = Ok () ∧ (extractTarGz [] disk1 (packed tp) "/work/builds/b1").1 = Err (EErrorf "unexpected EOF").
Proof. vm_compute. split; reflexivity. Qed.

(** A folder named by a symbolic link is not walked: its archive is empty, and no error
    is returned, though the Dockerfile is read through the link. *)
Lemma linked_folder_empty dir : tarGz dir (TSpecial Symlink) = (Ok (), mkTape [] 0).
Proof. unfold tarGz. cbn [walk]. unfold visit. by rewrite Rel_self. Qed.
