(* ===== verification/LogBroker.v ===== *)
(** * internal/api: the log broker

    Live log streaming ([logbroker.go]).  A subscriber is a channel of 64 slots with a
    closed flag; the broker maps a build to its subscribers under a read-write lock.
    The methods are functions of the broker; [None] is the panic of a send on, or a
    second close of, a closed channel.  Goroutines are then interleaved as in the code:
    a publisher holds the read lock from its first to its last send, the sections under
    the write lock are single steps that need it free, and storing the flag, closing
    the channel and receiving from it take no lock.  The handlers around it are part of
    the model: appendLog stores a line before it publishes it, and getBuildLogs reads the
    stored text before it subscribes and replays it after that. *)

From S2P Require Import Prelude GoStrings.
From Stdlib Require Import Ascii.

(** ** The broker *)

Record subscriber := mkSub { ch : list string; ch_closed : bool; closed : bool }.

Definition capacity : nat := 64.

(** Subscribers are pointers: keys of [heap]. *)
Record logBroker := mkBroker {
  subs : gmap string (gset nat);
  heap : gmap nat subscriber;
  fresh : nat;
}.

Definition newLogBroker : logBroker := mkBroker ∅ ∅ 0.

(** [b.subs[buildID]]: a missing entry is an empty map. *)
Definition subs_of (b : logBroker) (id : string) : gset nat := default ∅ (subs b !! id).

Definition set_sub (b : logBroker) (s : nat) (sub : subscriber) : logBroker :=
  mkBroker (subs b) (<[s := sub]> (heap b)) (fresh b).

Definition subscribe (b : logBroker) (id : string) : nat * logBroker :=
  (fresh b, mkBroker (<[id := {[fresh b]} ∪ subs_of b id]> (subs b))
              (<[fresh b := mkSub [] false false]> (heap b)) (S (fresh b))).

(** The three parts of unsubscribe: the flag, the section under the lock, the close. *)
Definition store_closed (b : logBroker) (s : nat) : logBroker :=
  match heap b !! s with
  | Some sub => set_sub b s (mkSub (ch sub) (ch_closed sub) true)
  | None => b
  end.

Definition remove_sub (b : logBroker) (id : string) (s : nat) : logBroker :=
  match subs b !! id with
  | None => b
  | Some m =>
      let m := m ∖ {[s]} in
      mkBroker (if decide (m = ∅) then delete id (subs b) else <[id := m]> (subs b)) (heap b) (fresh b)
  end.

Definition close_ch (b : logBroker) (s : nat) : option logBroker :=
  match heap b !! s with
  | Some sub => if ch_closed sub then None else Some (set_sub b s (mkSub (ch sub) true (closed sub)))
  | None => None
  end.

Definition unsubscribe (b : logBroker) (id : string) (s : nat) : option logBroker :=
  close_ch (remove_sub (store_closed b s) id s) s.

(** One round of the publish loop. *)
Definition send (b : logBroker) (s : nat) (line : string) : option logBroker :=
  match heap b !! s with
  | None => None
  | Some sub =>
      if closed sub then Some b
      else if ch_closed sub then None
      else if length (ch sub) <? capacity then
        Some (set_sub b s (mkSub (ch sub ++ [line]) (ch_closed sub) (closed sub)))
      else Some b
  end.

Fixpoint send_all (b : logBroker) (ss : list nat) (line : string) : option logBroker :=
  match ss with
  | [] => Some b
  | s :: ss => b ← send b s line; send_all b ss line
  end.

Definition publish (b : logBroker) (id line : string) : option logBroker :=
  send_all b (elements (subs_of b id)) line.

(** [<-sub.ch] when a line is there. *)
Definition recv (b : logBroker) (s : nat) : option (string * logBroker) :=
  match heap b !! s with
  | Some (mkSub (line :: rest) c f) => Some (line, set_sub b s (mkSub rest c f))
  | _ => None
  end.

(** ** Server-sent events *)

Definition blank_line : string := String nl (String nl "").
Definition sse_event (data : string) : string := "data: " +:+ data +:+ blank_line.

(** What streamSSE writes before the loop, and for a line it receives. *)
Definition sse_existing (logs : string) : list string :=
  if String.eqb logs "" then [] else sse_event <$> SplitByte logs nl.
Definition sse_live (line : string) : string := sse_event (TrimRightByte line nl).

(** ** Interleavings *)

(** Where a stream is: subscribed and not yet in its loop, in its loop, after the store of
    the flag, after the section under the lock, returned. *)
Inductive stream_pc := Replaying | Streaming | Leaving | Removed | Returned.

(** A stream: its build, the stored text it was opened with, the lines it has received
    from its channel, and the events written to the client. *)
Record stream := mkStream {
  s_build : string;
  s_pc : stream_pc;
  s_logs : string;
  s_out : list string;
  s_sent : list string;
}.

Definition set_pc (sm : stream) (pc : stream_pc) : stream :=
  mkStream (s_build sm) pc (s_logs sm) (s_out sm) (s_sent sm).

(** The loop over the stored lines, and one round of the loop over the channel. *)
Definition replayed (sm : stream) : stream :=
  mkStream (s_build sm) Streaming (s_logs sm) (s_out sm) (s_sent sm ++ sse_existing (s_logs sm)).
Definition received (sm : stream) (line : string) : stream :=
  mkStream (s_build sm) (s_pc sm) (s_logs sm) (s_out sm ++ [line]) (s_sent sm ++ [sse_live line]).

(** A publisher that holds the read lock: the build, the line, the subscribers still to
    be served. *)
Record publisher := mkPub { p_build : string; p_line : string; p_todo : list nat }.

(** The stored log texts of the builds, the streams that have read theirs and are about to
    subscribe, and the lines that are stored and about to be published. *)
Record log_rows := mkRows {
  logs : gmap string string;
  opening : list (string * string);
  stored : list (string * string);
}.

Record state := mkState {
  broker : logBroker;
  streams : gmap nat stream;
  publishers : list publisher;
  published : list (string * string);
  panicked : bool;
  store : log_rows;
}.

Definition init (texts : gmap string string) : state := mkState newLogBroker ∅ [] [] false (mkRows texts [] []).

Definition set_store (st : state) (r : log_rows) : state :=
  mkState (broker st) (streams st) (publishers st) (published st) (panicked st) r.
Definition set_stream (st : state) (b : logBroker) (s : nat) (sm : stream) : state :=
  mkState b (<[s := sm]> (streams st)) (publishers st) (published st) (panicked st) (store st).

(** A step whose panic ends the process. *)
Definition or_panic (st : state) (o : option logBroker) (k : logBroker → state) : state :=
  match o with
  | Some b => k b
  | None => mkState (broker st) (streams st) (publishers st) (published st) true (store st)
  end.

Inductive step : state → state → Prop :=
  (** Builds are created and collected. *)
  | step_row st id text :
      step st (set_store st (mkRows (partial_alter (λ _, text) id (logs (store st)))
                               (opening (store st)) (stored (store st))))
  (** getBuildLogs: Get, subscribe, replay. *)
  | step_read st id text :
      logs (store st) !! id = Some text →
      step st (set_store st (mkRows (logs (store st)) ((id, text) :: opening (store st)) (stored (store st))))
  | step_subscribe st pre id text post :
      publishers st = [] → opening (store st) = pre ++ (id, text) :: post →
      let '(s, b) := subscribe (broker st) id in
      step st (mkState b (<[s := mkStream id Replaying text [] []]> (streams st)) [] (published st) (panicked st)
                 (mkRows (logs (store st)) (pre ++ post) (stored (store st))))
  | step_replay st s sm :
      streams st !! s = Some sm → s_pc sm = Replaying → step st (set_stream st (broker st) s (replayed sm))
  | step_recv st s sm line b :
      streams st !! s = Some sm → s_pc sm = Streaming → recv (broker st) s = Some (line, b) →
      step st (set_stream st b s (received sm line))
  | step_leave st s sm :
      streams st !! s = Some sm → s_pc sm = Streaming →
      step st (set_stream st (store_closed (broker st) s) s (set_pc sm Leaving))
  | step_remove st s sm :
      streams st !! s = Some sm → s_pc sm = Leaving → publishers st = [] →
      step st (set_stream st (remove_sub (broker st) (s_build sm) s) s (set_pc sm Removed))
  | step_close st s sm :
      streams st !! s = Some sm → s_pc sm = Removed →
      step st (or_panic st (close_ch (broker st) s) (λ b, set_stream st b s (set_pc sm Returned)))
  (** appendLog: AppendLog, publish. *)
  | step_store st id line :
      step st (set_store st (mkRows (alter (λ text, text +:+ line) id (logs (store st)))
                               (opening (store st)) ((id, line) :: stored (store st))))
  | step_publish st pre id line post todo :
      stored (store st) = pre ++ (id, line) :: post → todo ≡ₚ elements (subs_of (broker st) id) →
      step st (mkState (broker st) (streams st) (mkPub id line todo :: publishers st)
                 (published st ++ [(id, line)]) (panicked st)
                 (mkRows (logs (store st)) (opening (store st)) (pre ++ post)))
  | step_send st pre id line s todo post :
      publishers st = pre ++ mkPub id line (s :: todo) :: post →
      step st (or_panic st (send (broker st) s line) (λ b,
                 mkState b (streams st) (pre ++ mkPub id line todo :: post) (published st) (panicked st) (store st)))
  | step_unlock st pre id line post :
      publishers st = pre ++ mkPub id line [] :: post →
      step st (mkState (broker st) (streams st) (pre ++ post) (published st) (panicked st) (store st)).

Inductive reachable : state → Prop :=
  | reachable_init texts : reachable (init texts)
  | reachable_step st st' : reachable st → step st st' → reachable st'.

(** ** The invariant *)

(** The lines published for a build, and those on their way to a subscriber. *)
Definition lines_of (id : string) (log : list (string * string)) : list string :=
  omap (λ il, if decide (il.1 = id) then Some il.2 else None) log.
Definition pending (ps : list publisher) (s : nat) : list string :=
  omap (λ p, if decide (s ∈ p_todo p) then Some (p_line p) else None) ps.

(** Still in the broker's map. *)
Definition mapped (pc : stream_pc) : bool :=
  match pc with Replaying | Streaming | Leaving => true | _ => false end.

(** What the client has been sent. *)
Definition sent_so_far (sm : stream) : list string :=
  match s_pc sm with
  | Replaying => []
  | _ => sse_existing (s_logs sm) ++ (sse_live <$> s_out sm)
  end.

Record stream_ok (st : state) (s : nat) (sm : stream) (sub : subscriber) : Prop := {
  ok_room : length (ch sub) ≤ capacity;
  ok_closed : ch_closed sub = true → s_pc sm = Returned;
  ok_lines : s_out sm ++ ch sub ++ pending (publishers st) s ⊆+ lines_of (s_build sm) (published st);
  ok_sent : s_sent sm = sent_so_far sm ∧ (s_pc sm = Replaying → s_out sm = []);
}.

Record inv (st : state) : Prop := {
  i_panic : panicked st = false;
  i_fresh : ∀ s, fresh (broker st) ≤ s → streams st !! s = None;
  i_stream : ∀ s sm, streams st !! s = Some sm →
    ∃ sub, heap (broker st) !! s = Some sub ∧ stream_ok st s sm sub;
  i_subs : ∀ id s, s ∈ subs_of (broker st) id →
    ∃ sm, streams st !! s = Some sm ∧ s_build sm = id ∧ mapped (s_pc sm) = true;
  i_todo : Forall (λ p, NoDup (p_todo p) ∧ ∀ s, s ∈ p_todo p → s ∈ subs_of (broker st) (p_build p))
    (publishers st);
}.

Lemma elem_of_remove b id s id' s' :
  s' ∈ subs_of (remove_sub b id s) id' ↔ s' ∈ subs_of b id' ∧ ¬ (id' = id ∧ s' = s).
Proof.
  unfold subs_of, remove_sub. destruct (decide (id' = id)) as [->|Hne].
  - destruct (subs b !! id) as [m|] eqn:E; simpl; [|rewrite E; set_solver].
    case_decide as Hm; simpl; rewrite ?lookup_delete_eq, ?lookup_insert_eq; set_solver.
  - destruct (subs b !! id) as [m|] eqn:E; simpl; [|naive_solver].
    case_decide as Hm; simpl; rewrite ?lookup_delete_ne, ?lookup_insert_ne by done; naive_solver.
Qed.

Lemma elem_of_subscribe b id id' s' :
  s' ∈ subs_of (subscribe b id).2 id' ↔ s' ∈ subs_of b id' ∨ (id' = id ∧ s' = fresh b).
Proof.
  unfold subs_of, subscribe. simpl. destruct (decide (id' = id)) as [->|Hne].
  - rewrite lookup_insert_eq. simpl. set_solver.
  - rewrite lookup_insert_ne by done. naive_solver.
Qed.

Lemma pending_app ps1 ps2 s : pending (ps1 ++ ps2) s = pending ps1 s ++ pending ps2 s.
Proof. apply omap_app. Qed.

(** The store of the log texts is not part of the invariant. *)
Lemma store_inv st r : inv st → inv (set_store st r).
Proof.
  intros [Hp Hf Hs Hsub Htodo]. split; [done..| |done|done].
  intros s sm Hsm. destruct (Hs s sm Hsm) as (sub & Hh & [H1 H2 H3 H4]). exists sub. by split.
Qed.

Lemma subscribe_inv st id text r :
  inv st → publishers st = [] →
  let '(s, b) := subscribe (broker st) id in
  inv (mkState b (<[s := mkStream id Replaying text [] []]> (streams st)) [] (published st) (panicked st) r).
Proof.
  intros [Hp Hf Hs Hsub _] Hps. unfold subscribe. cbn [fst snd]. set (n := fresh (broker st)).
  split; cbn [broker streams publishers published panicked].
  - done.
  - intros s Hle. cbn [fresh] in Hle. rewrite lookup_insert_ne by (unfold n; lia). apply Hf. lia.
  - intros s sm. cbn [heap]. destruct (decide (s = n)) as [->|Hne].
    + rewrite !lookup_insert_eq. intros [= <-]. eexists. split; [done|]. split; simpl; [lia|done| |done].
      apply submseteq_nil_l.
    + rewrite !lookup_insert_ne by done. intros Hsm. destruct (Hs s sm Hsm) as (sub & Hsub' & [H1 H2 H3 H4]).
      exists sub. split; [done|]. rewrite Hps in H3. by split.
  - intros id' s Hin. apply (elem_of_subscribe (broker st) id) in Hin as [Hin|[-> ->]].
    + destruct (Hsub id' s Hin) as (sm & Hsm & ?). exists sm. split; [|done].
      rewrite lookup_insert_ne; [done|]. intros <-. rewrite Hf in Hsm by done. done.
    + eexists. by rewrite lookup_insert_eq.
  - constructor.
Qed.

(** A step of a stream that keeps its build, its place in the map and its lines. *)
Lemma stream_step_inv st s sm sub sm' sub' :
  inv st → streams st !! s = Some sm → heap (broker st) !! s = Some sub → s_build sm' = s_build sm →
  s_out sm' ++ ch sub' = s_out sm ++ ch sub → length (ch sub') ≤ length (ch sub) →
  (ch_closed sub' = true → s_pc sm' = Returned) →
  (mapped (s_pc sm) = true → mapped (s_pc sm') = true) →
  s_sent sm' = sent_so_far sm' → s_pc sm' ≠ Replaying →
  inv (set_stream st (set_sub (broker st) s sub') s sm').
Proof.
  intros [Hp Hf Hs Hsub Htodo] Hsm Hh Hb Hout Hlen Hcl Hpc Hsent Hpc'.
  split; cbn [broker streams publishers published panicked set_stream].
  - done.
  - intros s' Hle. cbn in Hle. destruct (decide (s' = s)) as [->|Hne].
    + rewrite Hf in Hsm by done. done.
    + rewrite lookup_insert_ne by done. by apply Hf.
  - intros s' sm0. cbn [heap set_sub]. destruct (decide (s' = s)) as [->|Hne].
    + rewrite !lookup_insert_eq. intros [= <-]. exists sub'. split; [done|].
      destruct (Hs s _ Hsm) as (sub0 & Hsub0 & [H1 H2 H3 H4]). rewrite Hh in Hsub0. injection Hsub0 as <-.
      split; cbn [publishers published set_stream]; [lia|done| |done].
      by rewrite Hb, app_assoc, Hout, <- app_assoc.
    + rewrite !lookup_insert_ne by done. intros Hsm'. destruct (Hs s' sm0 Hsm') as (sub0 & ? & [H1 H2 H3 H4]).
      exists sub0. split; [done|]. by split.
  - intros id' s' Hin. destruct (Hsub id' s' Hin) as (sm0 & Hsm' & Hb' & Hm).
    destruct (decide (s' = s)) as [->|Hne].
    + rewrite Hsm in Hsm'. injection Hsm' as <-. exists sm'. rewrite lookup_insert_eq, Hb. auto.
    + exists sm0. by rewrite lookup_insert_ne.
  - done.
Qed.

Lemma set_sub_id b s sub : heap b !! s = Some sub → set_sub b s sub = b.
Proof. destruct b as [ss h n]. cbn. intros Hs. unfold set_sub. cbn. by rewrite insert_id. Qed.

Lemma replay_inv st s sm :
  inv st → streams st !! s = Some sm → s_pc sm = Replaying → inv (set_stream st (broker st) s (replayed sm)).
Proof.
  intros Hi Hsm Hpc. destruct (i_stream st Hi s _ Hsm) as (sub & Hsub & [_ H2 _ [H4 H5]]).
  rewrite <- (set_sub_id (broker st) s sub Hsub). eapply stream_step_inv; try done; simpl.
  - intros Hc. rewrite (H2 Hc) in Hpc. done.
  - rewrite H4. unfold sent_so_far. rewrite Hpc. cbn [s_pc replayed s_logs s_out]. by rewrite (H5 Hpc), app_nil_r.
Qed.

Lemma recv_inv st s sm line b :
  inv st → streams st !! s = Some sm → s_pc sm = Streaming → recv (broker st) s = Some (line, b) →
  inv (set_stream st b s (received sm line)).
Proof.
  intros Hi Hsm Hpc Hr. unfold recv in Hr.
  destruct (heap (broker st) !! s) as [[[|l rest] c f]|] eqn:E; [done| |done]. injection Hr as <- <-.
  destruct (i_stream st Hi s _ Hsm) as (sub & Hsub & [_ H2 _ [H4 _]]). simplify_eq/=.
  eapply stream_step_inv; try done; simpl; [by rewrite <- app_assoc|lia|..].
  - rewrite H4. unfold sent_so_far. cbn [s_pc received s_logs s_out]. rewrite Hpc, fmap_app. by rewrite app_assoc.
  - by rewrite Hpc.
Qed.

Lemma leave_inv st s sm :
  inv st → streams st !! s = Some sm → s_pc sm = Streaming →
  inv (set_stream st (store_closed (broker st) s) s (set_pc sm Leaving)).
Proof.
  intros Hi Hsm Hpc. destruct (i_stream st Hi s _ Hsm) as (sub & Hsub & [_ H2 _ [H4 _]]). unfold store_closed.
  rewrite Hsub. eapply stream_step_inv; try done; simpl.
  - intros Hc. specialize (H2 Hc). congruence.
  - rewrite H4. unfold sent_so_far. by rewrite Hpc.
Qed.

Lemma remove_inv st s sm :
  inv st → streams st !! s = Some sm → s_pc sm = Leaving → publishers st = [] →
  inv (set_stream st (remove_sub (broker st) (s_build sm) s) s (set_pc sm Removed)).
Proof.
  intros [Hp Hf Hs Hsub _] Hsm Hpc Hps. set (id := s_build sm).
  assert (heap (remove_sub (broker st) id s) = heap (broker st) ∧
          fresh (remove_sub (broker st) id s) = fresh (broker st)) as [Hh Hfr].
  { unfold remove_sub. by destruct (subs (broker st) !! id). }
  split; cbn [broker streams publishers published panicked set_stream]; rewrite ?Hh, ?Hfr.
  - done.
  - intros s' Hle. destruct (decide (s' = s)) as [->|Hne].
    + rewrite Hf in Hsm by done. done.
    + rewrite lookup_insert_ne by done. by apply Hf.
  - intros s' sm0. destruct (decide (s' = s)) as [->|Hne].
    + rewrite lookup_insert_eq. intros [= <-]. destruct (Hs s _ Hsm) as (sub & ? & [H1 H2 H3 [H4 H5]]).
      exists sub. split; [done|]. split; simpl in *; [done| |done|].
      * intros Hc. specialize (H2 Hc). congruence.
      * split; [|done]. rewrite H4. unfold sent_so_far. by rewrite Hpc.
    + rewrite lookup_insert_ne by done. intros Hsm'. destruct (Hs s' sm0 Hsm') as (sub & ? & [H1 H2 H3 H4]).
      exists sub. split; [done|]. by split.
  - intros id' s' [Hin Hne]%elem_of_remove. destruct (Hsub id' s' Hin) as (sm0 & Hsm' & Hb & Hm).
    exists sm0. rewrite lookup_insert_ne; [done|]. intros ->. rewrite Hsm in Hsm'.
    injection Hsm' as <-. by apply Hne.
  - rewrite Hps. constructor.
Qed.

Lemma close_inv st s sm :
  inv st → streams st !! s = Some sm → s_pc sm = Removed →
  inv (or_panic st (close_ch (broker st) s) (λ b, set_stream st b s (set_pc sm Returned))).
Proof.
  intros Hi Hsm Hpc. destruct (i_stream st Hi s _ Hsm) as (sub & Hsub & [_ H2 _ [H4 _]]). unfold close_ch.
  rewrite Hsub. destruct (ch_closed sub) eqn:Ec; [specialize (H2 eq_refl); congruence|]. cbn [or_panic].
  eapply stream_step_inv; try done; simpl; [by rewrite Hpc|]. rewrite H4. unfold sent_so_far. by rewrite Hpc.
Qed.

Lemma publish_inv st id line todo r :
  inv st → todo ≡ₚ elements (subs_of (broker st) id) →
  inv (mkState (broker st) (streams st) (mkPub id line todo :: publishers st)
         (published st ++ [(id, line)]) (panicked st) r).
Proof.
  intros [Hp Hf Hs Hsub Htodo] Ht.
  assert (∀ s, s ∈ todo ↔ s ∈ subs_of (broker st) id) as Hin by (intros s; by rewrite Ht, elem_of_elements).
  split; cbn [broker streams publishers published panicked]; [done..| |done|].
  - intros s sm Hsm. destruct (Hs s sm Hsm) as (sub & Hh & [H1 H2 H3 H4]). exists sub. split; [done|].
    split; [done..| |done]. cbn [publishers published]. unfold lines_of, pending in *. rewrite omap_app.
    cbn [omap list_omap p_todo p_line fst snd]. destruct (decide (s ∈ todo)) as [Hst|Hst].
    + apply Hin in Hst. destruct (Hsub id s Hst) as (sm' & Hsm' & Hb & _).
      rewrite Hsm in Hsm'. injection Hsm' as <-. rewrite decide_True by done.
      rewrite (Permutation_app_comm _ [line]). simpl.
      rewrite (app_assoc (s_out sm)), <- Permutation_middle, <- app_assoc. by apply submseteq_skip.
    + etrans; [exact H3|]. by apply submseteq_inserts_r.
  - constructor; [|done]. simpl. split; [rewrite Ht; apply NoDup_elements|]. intros s. apply Hin.
Qed.

(** Serving one subscriber. *)
Lemma pending_served pre id line s todo post s' :
  s ∉ todo →
  pending (pre ++ mkPub id line (s :: todo) :: post) s' ≡ₚ
    (if decide (s' = s) then [line] else []) ++ pending (pre ++ mkPub id line todo :: post) s'.
Proof.
  intros Hs. rewrite !pending_app. unfold pending. cbn [omap list_omap p_todo p_line].
  destruct (decide (s' = s)) as [->|Hne].
  - rewrite decide_True by (by left). rewrite decide_False by done. simpl. by rewrite <- Permutation_middle.
  - destruct (decide (s' ∈ todo)) as [Hin|Hin].
    + rewrite decide_True by (by right). done.
    + rewrite decide_False by (by rewrite not_elem_of_cons). done.
Qed.

Lemma send_inv st pre id line s todo post :
  inv st → publishers st = pre ++ mkPub id line (s :: todo) :: post →
  inv (or_panic st (send (broker st) s line) (λ b,
         mkState b (streams st) (pre ++ mkPub id line todo :: post) (published st) (panicked st) (store st))).
Proof.
  intros [Hp Hf Hs Hsub Htodo] Hps. rewrite Hps in Htodo.
  pose proof Htodo as [Hpre [[Hnd Hin] Hpost]%Forall_cons]%Forall_app. simpl in Hnd, Hin.
  apply NoDup_cons in Hnd as [Hnin Hnd].
  destruct (Hsub id s (Hin s ltac:(left))) as (sm & Hsm & Hb & Hpc).
  destruct (Hs s sm Hsm) as (sub & Hh & Hok).
  assert (ch_closed sub = false) as Hcl.
  { destruct (ch_closed sub) eqn:E; [|done]. rewrite (ok_closed _ _ _ _ Hok E) in Hpc.
    done. }
  assert (∀ s' sm' sub', streams st !! s' = Some sm' → stream_ok st s' sm' sub' →
    s_out sm' ++ ch sub' ++ (if decide (s' = s) then [line] else []) ++
      pending (pre ++ mkPub id line todo :: post) s' ⊆+ lines_of (s_build sm') (published st)) as Hlines.
  { intros s' sm' sub' _ [_ _ H3 _]. rewrite Hps, pending_served in H3 by done. done. }
  assert (Forall (λ p, NoDup (p_todo p) ∧ ∀ s, s ∈ p_todo p → s ∈ subs_of (broker st) (p_build p))
            (pre ++ mkPub id line todo :: post)) as Htodo'.
  { apply Forall_app. split; [done|]. constructor; [|done]. simpl. split; [done|].
    intros s' Hs'. apply Hin. by right. }
  assert (inv (mkState (broker st) (streams st) (pre ++ mkPub id line todo :: post) (published st)
                 (panicked st) (store st))) as Hskip.
  { split; cbn [broker streams publishers published panicked]; [done..| |done|done].
    intros s' sm' Hsm'. destruct (Hs s' sm' Hsm') as (sub' & Hh' & Hok'). exists sub'. split; [done|].
    split; [apply Hok'..| |apply Hok']. etrans; [|by apply (Hlines s' sm' sub')]. cbn [publishers].
    apply submseteq_app; [done|]. apply submseteq_app; [done|]. by apply submseteq_inserts_l. }
  unfold send. rewrite Hh, Hcl. destruct (closed sub); [exact Hskip|].
  destruct (length (ch sub) <? capacity) eqn:Eroom; [|exact Hskip]. apply Nat.ltb_lt in Eroom.
  cbn [or_panic]. split; cbn [broker streams publishers published panicked]; [done..| |done|done].
  intros s' sm' Hsm'. cbn [heap set_sub]. destruct (decide (s' = s)) as [->|Hne].
  - rewrite lookup_insert_eq. rewrite Hsm in Hsm'. injection Hsm' as <-. eexists. split; [done|].
    split; simpl; [rewrite length_app; simpl; lia|done| |apply Hok].
    pose proof (Hlines s sm sub Hsm Hok) as Hl. rewrite decide_True in Hl by done.
    by rewrite <- (app_assoc (ch sub)).
  - rewrite lookup_insert_ne by done. destruct (Hs s' sm' Hsm') as (sub' & Hh' & Hok'). exists sub'.
    split; [done|]. pose proof (Hlines s' sm' sub' Hsm' Hok') as Hl. rewrite decide_False in Hl by done.
    split; [apply Hok'..|exact Hl|apply Hok'].
Qed.

Lemma unlock_inv st pre id line post :
  inv st → publishers st = pre ++ mkPub id line [] :: post →
  inv (mkState (broker st) (streams st) (pre ++ post) (published st) (panicked st) (store st)).
Proof.
  intros [Hp Hf Hs Hsub Htodo] Hps. rewrite Hps in Htodo.
  split; cbn [broker streams publishers published panicked]; [done..| |done|].
  - intros s sm Hsm. destruct (Hs s sm Hsm) as (sub & Hh & [H1 H2 H3 H4]). exists sub. split; [done|].
    split; [done..| |done]. cbn [publishers published]. rewrite Hps in H3. rewrite !pending_app in *.
    unfold pending in H3 at 2. cbn [omap list_omap p_todo] in H3.
    rewrite decide_False in H3 by apply not_elem_of_nil. exact H3.
  - apply Forall_app in Htodo as [? [_ ?]%Forall_cons]. by apply Forall_app.
Qed.

Lemma reachable_inv st : reachable st → inv st.
Proof.
  induction 1 as [texts|st st' _ IH Hstep].
  - split; cbn; [done|done|by intros s sm ?|by intros id s ?%not_elem_of_empty|constructor].
  - destruct Hstep; [by apply store_inv|by apply store_inv|by apply subscribe_inv|by apply replay_inv
      |by eapply recv_inv|by apply leave_inv|by apply remove_inv|by apply close_inv|by apply store_inv
      |by apply publish_inv|by apply send_inv|by eapply unlock_inv].
Qed.

(** What a publish does to a subscriber it serves. *)
Definition served (line : string) (sub : subscriber) : subscriber :=
  if closed sub then sub
  else if length (ch sub) <? capacity then mkSub (ch sub ++ [line]) (ch_closed sub) (closed sub)
  else sub.

Lemma send_served b s line sub :
  heap b !! s = Some sub → ch_closed sub = false →
  ∃ b', send b s line = Some b' ∧ heap b' !! s = Some (served line sub) ∧
        ∀ s', s' ≠ s → heap b' !! s' = heap b !! s'.
Proof.
  intros Hs Hc. unfold send, served. rewrite Hs, Hc. destruct (closed sub) eqn:Ef; [by eauto|].
  destruct (length (ch sub) <? capacity); [|by eauto]. eexists. split; [done|]. simpl.
  split; [by rewrite lookup_insert_eq|]. intros s' Hne. by rewrite lookup_insert_ne.
Qed.

Lemma send_all_served b ss line :
  NoDup ss → (∀ s, s ∈ ss → ∃ sub, heap b !! s = Some sub ∧ ch_closed sub = false) →
  ∃ b', send_all b ss line = Some b' ∧
    ∀ s, heap b' !! s = (if decide (s ∈ ss) then served line <$> heap b !! s else heap b !! s).
Proof.
  intros Hnd. revert b; induction Hnd as [|s ss Hs _ IH]; intros b Hopen; cbn [send_all].
  { exists b. split; [done|]. intros s. by rewrite decide_False by apply not_elem_of_nil. }
  destruct (Hopen s ltac:(left)) as (sub & Hsub & Hc).
  destruct (send_served b s line sub Hsub Hc) as (b1 & -> & Hs1 & Hother). cbn [mbind option_bind].
  destruct (IH b1) as (b2 & -> & Hb2).
  { intros s' Hs'. rewrite Hother by (by intros ->). apply Hopen. by right. }
  exists b2. split; [done|]. intros s'. rewrite Hb2. destruct (decide (s' = s)) as [->|Hne].
  - rewrite decide_False, decide_True by (done || by left). by rewrite Hs1, Hsub.
  - rewrite Hother by done. repeat case_decide; try done; exfalso; set_solver.
Qed.

(** ** Properties *)

(** C15. Log streaming under every interleaving of subscribers, publishers and
    disconnecting clients: no send hits a closed channel and no channel is closed
    twice; a channel never holds more than 64 lines; the lines that a stream receives
    live are lines of its own build, each as often as it was published at most, and what
    the client has been sent is, event by event, the stored text that its handler read,
    line by line, and then these live lines (so that a line may be in both parts).  And
    a publish always returns, appending the line for exactly the connected subscribers
    of the build whose channel has room. *)
Theorem broker_streams st (Hr : reachable st) :
  panicked st = false ∧
  (∀ s sm, streams st !! s = Some sm →
     ∃ sub, heap (broker st) !! s = Some sub ∧ length (ch sub) ≤ 64 ∧
            s_out sm ++ ch sub ⊆+ lines_of (s_build sm) (published st) ∧
            s_sent sm = sent_so_far sm) ∧
  (∀ id line, ∃ b', publish (broker st) id line = Some b' ∧
     ∀ s, heap b' !! s = (if decide (s ∈ subs_of (broker st) id)
                          then served line <$> heap (broker st) !! s else heap (broker st) !! s)).
Proof.
  apply reachable_inv in Hr as Hi. destruct Hi as [Hp Hf Hs Hsub _]. split_and!; [done| |].
  - intros s sm Hsm. destruct (Hs s sm Hsm) as (sub & Hh & [H1 _ H3 [H4 _]]). exists sub. split_and!; [done..| |done].
    etrans; [|exact H3]. rewrite app_assoc. by apply submseteq_inserts_r.
  - intros id line. unfold publish.
    destruct (send_all_served (broker st) (elements (subs_of (broker st) id)) line) as (b' & -> & Hb').
    + apply NoDup_elements.
    + intros s Hin%elem_of_elements. destruct (Hsub id s Hin) as (sm & Hsm & _ & Hpc).
      destruct (Hs s sm Hsm) as (sub & Hh & Hok). exists sub. split; [done|].
      destruct (ch_closed sub) eqn:E; [|done]. by rewrite (ok_closed _ _ _ _ Hok E) in Hpc.
    + exists b'. split; [done|]. intros s. rewrite Hb'. repeat case_decide; try done; exfalso;
        rewrite elem_of_elements in *; done.
Qed.

(** ** Concrete runs *)

(** A line is stored, a client opens the stream, and only then the line is published. *)
Definition text0 : string := "hello" +:+ String nl "".
Definition rows1 : log_rows := mkRows {["b1" := text0]} [] [("b1", text0)].
Definition st0 : state := init {["b1" := ""]}.
Definition st1 : state := set_store st0 rows1.
Definition st2 : state := set_store st1 (mkRows (logs rows1) [("b1", text0)] [("b1", text0)]).
Definition st3 : state :=
  let '(s, b) := subscribe newLogBroker "b1" in
  mkState b {[s := mkStream "b1" Replaying text0 [] []]} [] [] false (mkRows (logs rows1) [] [("b1", text0)]).
Definition st4 : state :=
  mkState (broker st3) (streams st3) [mkPub "b1" text0 [0]] [("b1", text0)] false (mkRows (logs rows1) [] []).
Definition st5 : state :=
  or_panic st4 (send (broker st4) 0 text0) (λ b,
    mkState b (streams st4) [mkPub "b1" text0 []] [("b1", text0)] false (store st4)).
Definition sm5 : stream := mkStream "b1" Replaying text0 [] [].
Definition st6 : state := set_stream st5 (broker st5) 0 (replayed sm5).
Definition st7 : state :=
  set_stream st6 (set_sub (broker st6) 0 (mkSub [] false false)) 0 (received (replayed sm5) text0).

Lemma st5_reachable : reachable st5.
Proof.
  apply (reachable_step st4); [|exact (step_send st4 [] "b1" text0 0 [] [] eq_refl)].
  apply (reachable_step st3); [|apply (step_publish st3 [] "b1" text0 [] [0]); vm_compute; reflexivity].
  apply (reachable_step st2); [|exact (step_subscribe st2 [] "b1" text0 [] eq_refl eq_refl)].
  apply (reachable_step st1); [|apply (step_read st1 "b1" text0); vm_compute; reflexivity].
  apply (reachable_step st0); [apply reachable_init|].
  assert (st1 = set_store st0 (mkRows (alter (λ text, text +:+ text0) "b1" (logs (store st0))) (opening (store st0))
    (("b1", text0) :: stored (store st0)))) as -> by (vm_compute; reflexivity).
  apply step_store.
Qed.

Lemma st7_reachable : reachable st7.
Proof.
  apply (reachable_step st6); [|apply (step_recv st6 0 (replayed sm5) text0); vm_compute; reflexivity].
  apply (reachable_step st5); [apply st5_reachable|]. apply (step_replay st5 0 sm5); vm_compute; reflexivity.
Qed.

Lemma broker_streams_witness :
  panicked st5 = false ∧ heap (broker st5) !! 0 = Some (mkSub [text0] false false).
Proof. split; [exact (proj1 (broker_streams st5 st5_reachable))|vm_compute; reflexivity]. Defined.

(** The client of this run is sent the line twice: from the stored text (whose last event is
    empty), and live. *)
Lemma line_sent_twice :
  reachable st7 ∧ published st7 = [("b1", text0)] ∧
  s_sent <$> streams st7 !! 0 = Some [sse_event "hello"; sse_event ""; sse_event "hello"].
Proof. split; [apply st7_reachable|]. vm_compute. split; reflexivity. Qed.

(** The handler reads the stored log before it subscribes: a line published in between
    reaches no one. *)
Lemma line_between_lost :
  match publish newLogBroker "b1" "lost" with
  | Some b => let '(s, b) := subscribe b "b1" in heap b !! s = Some (mkSub [] false false)
  | None => False
  end.
Proof. reflexivity. Qed.

(** A published text of two lines becomes one event whose second line has no field
    name, while the same text in the stored log becomes two events. *)
Lemma live_lines_not_split :
  let text := "a" +:+ String nl "b" in
  sse_live text = "data: a" +:+ String nl ("b" +:+ blank_line) ∧
  sse_existing text = ["data: a" +:+ blank_line; "data: b" +:+ blank_line].
Proof. split; reflexivity. Qed.
