(* ===== verification/Api.v ===== *)
(** * internal/api: the HTTP handlers

    The handlers of [server.go], [internal.go] and [metrics.go] as functions of the
    server's state, which is the engine, the log broker, the blob store and the
    counter of completed builds.  A request is what the framework has made of it: path
    parameters, query values and headers as strings, a body as the result of its
    decoding.  What a handler meets (database faults, clocks, new uuids) are arguments
    in the order of the calls.  A panic is recovered by the router's middleware, which
    answers 500. *)

From S2P Require Import Repo Queue Scheduler Service Engine LogBroker Paths BlobStore Http.
From S2P Require Import Prelude Float64 GoStrings GoSort GoTime Hashing Domain Persister RepoPersister.
From Stdlib Require Import Ascii.

Section api.
Context `{!Sorter node_le} `{!Sorter pending_order} `{!Sorter newest_first} `{UnicodeTables}.
Context {St F : Type} `{!BlobStore St F}.

Record Server := mkServer {
  engine : BuildService DB;
  broker : logBroker;
  blobs : St;
  BuildsTotal : Z;
}.

Definition set_engine (s : Server) (e : BuildService DB) : Server :=
  mkServer e (broker s) (blobs s) (BuildsTotal s).

(** The queue of a new server holds 10000 builds; it is warmed from the database. *)
Definition NewServer (enL : env) (db : DB) (b : St) : Server :=
  let e := mkService db Scheduler.New (Queue.New 10000) in
  mkServer (WarmQueue enL e).2 newLogBroker b 0.

(** *** Submission *)

Record submit_json := mkSubmitJSON {
  j_build_id : string;
  j_context_key : string;
  j_dockerfile : string;
  j_image_tag : string;
  j_user_id : string;
  j_timeout_seconds : Z;
  j_args : option (gmap string string);
}.

(** A multipart form: the context file and the other fields, empty if absent. *)
Record submit_form := mkForm { f_context : option reader; f_value : string → string }.

Record submit_request := mkSubmit {
  content_type : string;
  api_key : string;
  json_body : result submit_json;
  form_body : result submit_form;
}.

Definition clamp_timeout (timeout : Z) : Z :=
  let timeout := if (timeout <=? 0)%Z then 600%Z else timeout in
  if (3600 <? timeout)%Z then 3600%Z else timeout.

Definition or_default (v default : string) : string := if String.eqb v "" then default else v.

(** The answer to what SubmitBuild returned. *)
Definition submitted_reply (s : Server) (r : option (result Build * BuildService DB)) : response * Server :=
  match r with
  | None => (reply StatusInternalServerError PEmpty, s)
  | Some (Err e, eng) =>
      (if is_queue_full e then
         mkResponse StatusServiceUnavailable (Some "5") (PError "build queue full, retry later")
       else http_Error (error_text e) StatusConflict, set_engine s eng)
  | Some (Ok b, eng) => (reply StatusCreated (PBuild b), set_engine s eng)
  end.

Definition submitBuild (enC enU : env) (f : F) (uuid : string) (s : Server) (r : submit_request) :
    response * Server :=
  if HasPrefix (content_type r) "application/json" then
    match json_body r with
    | Err e => (http_Error ("invalid json: " +:+ error_text e) StatusBadRequest, s)
    | Ok req =>
        if String.eqb (j_context_key req) "" then (http_Error "missing context_key" StatusBadRequest, s)
        else
          let dockerfile := or_default (j_dockerfile req) "Dockerfile" in
          let buildID := or_default (j_build_id req) uuid in
          let timeout := clamp_timeout (j_timeout_seconds req) in
          let userID := or_default (j_user_id req) (api_key r) in
          submitted_reply s
            (SubmitBuild enC enU uuid (engine s) buildID (j_context_key req) dockerfile
               (j_image_tag req) userID timeout (j_args req))
    end
  else
    match form_body r with
    | Err e => (http_Error (error_text e) StatusBadRequest, s)
    | Ok form =>
        match f_context form with
        | None => (http_Error "missing context" StatusBadRequest, s)
        | Some contextFile =>
            let dockerfile := or_default (f_value form "dockerfile") "Dockerfile" in
            let tag := f_value form "image_tag" in
            let userID := or_default (f_value form "user_id") (api_key r) in
            let buildID := or_default (f_value form "build_id") uuid in
            let ctxKey := "contexts/" +:+ buildID +:+ ".tar.gz" in
            match BlobStore.Put f (blobs s) ctxKey contextFile with
            | (Err e, bs) =>
                (http_Error ("store context: " +:+ error_text e) StatusInternalServerError,
                 mkServer (engine s) (broker s) bs (BuildsTotal s))
            | (Ok _, bs) =>
                let s := mkServer (engine s) (broker s) bs (BuildsTotal s) in
                submitted_reply s
                  (SubmitBuild enC enU uuid (engine s) buildID ctxKey dockerfile tag userID 600 None)
            end
        end
    end.

(** *** Listing *)

(** [fmt.Sscanf(s, "%d", &x)]: spaces, a sign, digits; [x] keeps its value when the
    text does not start like that or the number is no int64. *)
Fixpoint skip_space (fuel : nat) (s : string) : option string :=
  match fuel with
  | O => Some s
  | S fuel =>
      let '(r, w) := DecodeRune s in
      if (w =? 0)%nat then Some s
      else if (r =? 10)%Z || HasPrefix s (String "013" (String "010" "")) then None
      else if IsSpace r then skip_space fuel (str_drop w s)
      else Some s
  end.

Fixpoint scan_digits (s : string) (acc : Z) (seen : bool) : option Z :=
  match s with
  | String c s' =>
      match digit_val c with
      | Some v => scan_digits s' (acc * 10 + v)%Z true
      | None => if seen then Some acc else None
      end
  | "" => if seen then Some acc else None
  end.

Definition int64_ok (z : Z) : bool := ((- 2 ^ 63 <=? z) && (z <? 2 ^ 63))%Z.

Definition Sscanf_d (s : string) (x : Z) : Z :=
  default x (
    s ← skip_space (strlen s) s;
    n ← (if HasPrefix s "-" then Z.opp <$> scan_digits (str_drop 1 s) 0 false
         else if HasPrefix s "+" then scan_digits (str_drop 1 s) 0 false
         else scan_digits s 0 false);
    if int64_ok n then Some n else None).

(** Addition on int64. *)
Definition add64 (x y : Z) : Z := ((x + y + 2 ^ 63) mod 2 ^ 64 - 2 ^ 63)%Z.

Definition query_int (q : string) (default : Z) : Z :=
  if String.eqb q "" then default else Sscanf_d q default.

Definition page_limit (q : string) : Z :=
  let limit := query_int q 20 in
  let limit := if (limit <=? 0)%Z then 20%Z else limit in
  if (200 <? limit)%Z then 200%Z else limit.

Definition page_offset (q : string) : Z :=
  let offset := query_int q 0 in if (offset <? 0)%Z then 0%Z else offset.

(** [builds[offset:end]] after the bound checks of the code. *)
Definition page_slice (builds : list Build) (offset limit : Z) : list Build :=
  if (offset <? Z.of_nat (length builds))%Z then
    let end_ := add64 offset limit in
    let end_ := if (Z.of_nat (length builds) <? end_)%Z then Z.of_nat (length builds) else end_ in
    take (Z.to_nat (end_ - offset)) (drop (Z.to_nat offset) builds)
  else [].

Definition listBuilds (eL eC : fault) (s : Server) (qlimit qoffset : string) : response :=
  let limit := page_limit qlimit in
  let offset := page_offset qoffset in
  match Repo.List eL (repo (engine s)) (add64 offset limit) with
  | Err _ => http_Error "internal error" StatusInternalServerError
  | Ok builds =>
      match CountAll eC (repo (engine s)) with
      | Err _ => http_Error "internal error" StatusInternalServerError
      | Ok total => reply StatusOK (PPage (page_slice builds offset limit) total limit offset)
      end
  end.

(** *** Builds *)

Definition getNextBuild (enL enU : env) (s : Server) (workerID : string) : response * Server :=
  if String.eqb workerID "" then (http_Error "missing worker_id" StatusBadRequest, s)
  else
    match AssignBuild enL enU (engine s) workerID with
    | (Err e, eng) => (http_Error (error_text e) StatusInternalServerError, set_engine s eng)
    | (Ok None, eng) => (reply StatusNoContent PEmpty, set_engine s eng)
    | (Ok (Some b), eng) => (reply StatusOK (PBuild b), set_engine s eng)
    end.

Definition getBuild (e : fault) (s : Server) (id : string) : response :=
  match Repo.Get e (repo (engine s)) id with
  | Err _ => http_Error "not found" StatusNotFound
  | Ok b => reply StatusOK (PBuild b)
  end.

(** Without [stream=true]; a stream is the subject of [LogBroker]. *)
Definition getBuildLogs (e : fault) (s : Server) (id : string) : response :=
  match Repo.Get e (repo (engine s)) id with
  | Err _ => http_Error "not found" StatusNotFound
  | Ok b => reply StatusOK (PText (Logs b))
  end.

Definition appendLog (enU : env) (s : Server) (id body : string) : response * Server :=
  match AppendLog enU (engine s) id body with
  | (Err e, eng) => (http_Error (error_text e) StatusNotFound, set_engine s eng)
  | (Ok _, eng) =>
      match publish (broker s) id body with
      | Some b => (reply StatusOK PEmpty, mkServer eng b (blobs s) (BuildsTotal s))
      | None => (reply StatusInternalServerError PEmpty, set_engine s eng)
      end
  end.

Record complete_json := mkComplete { c_status : Status; c_error : string; c_rate : float64 }.

Definition completeBuild (enU enG : env) (eR : fault) (s : Server) (id : string)
    (body : result complete_json) : response * Server :=
  match body with
  | Err _ => (http_Error "invalid body" StatusBadRequest, s)
  | Ok c =>
      match CompleteBuild enU enG (engine s) id (c_status c) (c_error c) with
      | (Err e, eng) => (http_Error (error_text e) StatusInternalServerError, set_engine s eng)
      | (Ok _, eng) =>
          let eng := if f64_leb f64_zero (c_rate c) then (set_rate eR eng id (c_rate c)).2 else eng in
          (reply StatusOK PEmpty, mkServer eng (broker s) (blobs s) (add64 (BuildsTotal s) 1))
      end
  end.

Definition cancelBuild (enG enU : env) (s : Server) (id : string) : response * Server :=
  match CancelBuild enG enU (engine s) id with
  | (Err e, eng) => (http_Error (error_text e) StatusConflict, set_engine s eng)
  | (Ok _, eng) => (reply StatusOK PEmpty, set_engine s eng)
  end.

Definition workerHeartbeat (e : fault) (now : time) (s : Server) (body : result Worker) : response * Server :=
  match body with
  | Err _ => (http_Error "invalid body" StatusBadRequest, s)
  | Ok w =>
      match Heartbeat e now (engine s) w with
      | (Err err, eng) => (http_Error (error_text err) StatusInternalServerError, set_engine s eng)
      | (Ok _, eng) => (reply StatusOK PEmpty, set_engine s eng)
      end
  end.

(** *** Maintenance and administration *)

Definition worker_tick (eP e1 e2 : fault) (nowP nowR : time) (s : Server) : Server :=
  let eng := (PruneStale eP nowP (engine s) (30 * second)).2 in
  let eng := (ReassignStaleBuilds e1 e2 nowR eng (60 * second) (10 * minute)).2 in
  set_engine s eng.

(** [off] is the zone of the server's clock. *)
Definition gc_tick (e : fault) (off : Z) (now : time) (s : Server) : Server :=
  set_engine s (GCCompleted e (engine s) off (now - 24 * hour)).2.

Definition ok_or_zero (r : result Z) : Z := match r with Ok n => n | Err _ => 0%Z end.

Definition adminHealth (eP eA : fault) (now : time) (s : Server) : response :=
  reply StatusOK (PHealth (ok_or_zero (CountPending eP (repo (engine s))))
                    (ok_or_zero (CountActive eA now (repo (engine s)) (30 * second)))
                    (QueueLen (engine s))).

Definition manualGC (e : fault) (off : Z) (now : time) (s : Server) : response * Server :=
  match GCCompleted e (engine s) off (now - 1 * hour) with
  | (Err err, eng) => (http_Error (error_text err) StatusInternalServerError, set_engine s eng)
  | (Ok n, eng) => (reply StatusOK (PDeleted n), set_engine s eng)
  end.

Definition metric (name help kind : string) (n : Z) : string :=
  "# HELP " +:+ name +:+ " " +:+ help +:+ String nl "" +:+
  "# TYPE " +:+ name +:+ " " +:+ kind +:+ String nl "" +:+
  name +:+ " " +:+ Sprint n +:+ String nl "".

Definition metricsHandler (eP eA : fault) (now : time) (s : Server) : response :=
  reply StatusOK (PText
    (metric "dtbuild_builds_total" "Total builds completed." "counter" (BuildsTotal s) +:+
     metric "dtbuild_builds_pending" "Current pending builds." "gauge"
       (ok_or_zero (CountPending eP (repo (engine s)))) +:+
     metric "dtbuild_workers_active" "Active worker count." "gauge"
       (ok_or_zero (CountActive eA now (repo (engine s)) (30 * second))))).
End api.

Arguments Server St : clear implicits.

(** ** Routes

    The table of setupRoutes.  The router (chi) is not modelled: [Mux] has what its
    documentation promises of a table and a path. *)

Inductive handler :=
  | HSubmitBuild | HListBuilds | HGetNextBuild | HGetBuild | HGetBuildLogs | HAppendLog
  | HCompleteBuild | HCancelBuild | HServeBlob | HWorkerHeartbeat | HAdminHealth | HManualGC
  | HMetrics | HHealthz.

#[global] Instance handler_eq_dec : EqDecision handler.
Proof. solve_decision. Defined.

Inductive seg := Lit (s : string) | Param | Rest.

Definition api_v1 (segs : list seg) : list seg := Lit "api" :: Lit "v1" :: segs.

Definition setupRoutes : list (string * list seg * handler) :=
  [("POST", api_v1 [Lit "builds"], HSubmitBuild);
   ("GET", api_v1 [Lit "builds"], HListBuilds);
   ("GET", api_v1 [Lit "builds"; Lit "next"], HGetNextBuild);
   ("GET", api_v1 [Lit "builds"; Param], HGetBuild);
   ("GET", api_v1 [Lit "builds"; Param; Lit "logs"], HGetBuildLogs);
   ("POST", api_v1 [Lit "builds"; Param; Lit "log"], HAppendLog);
   ("POST", api_v1 [Lit "builds"; Param; Lit "complete"], HCompleteBuild);
   ("DELETE", api_v1 [Lit "builds"; Param], HCancelBuild);
   ("GET", api_v1 [Lit "blobs"; Rest], HServeBlob);
   ("POST", api_v1 [Lit "workers"; Lit "heartbeat"], HWorkerHeartbeat);
   ("GET", api_v1 [Lit "admin"; Lit "health"], HAdminHealth);
   ("POST", api_v1 [Lit "admin"; Lit "builds"; Lit "cleanup"], HManualGC);
   ("GET", [Lit "metrics"], HMetrics);
   ("GET", [Lit "healthz"], HHealthz)].

(** The parameters of a pattern: [{name}] stands for one element of the path, [*] for the
    rest of it. *)
Fixpoint match_segs (pat : list seg) (path : list string) : option (list string) :=
  match pat, path with
  | [], [] => Some []
  | Lit s :: pat, e :: path => if String.eqb s e then match_segs pat path else None
  | Param :: pat, e :: path => cons e <$> match_segs pat path
  | [Rest], _ :: _ => Some [Join path sep]
  | _, _ => None
  end.

Inductive routed := Routed (h : handler) (params : list string) | MethodNotAllowed | NotFound.

#[global] Instance routed_eq_dec : EqDecision routed.
Proof. solve_decision. Defined.

Abbreviation route_table := (list (string * list seg * handler)) (only parsing).

(** The entries for the method whose pattern the path matches. *)
Fixpoint candidates (table : route_table) (method : string) (path : list string) :
    list (list seg * handler * list string) :=
  match table with
  | [] => []
  | (m, pat, h) :: table =>
      if String.eqb m method then
        match match_segs pat path with
        | Some ps => (pat, h, ps) :: candidates table method path
        | None => candidates table method path
        end
      else candidates table method path
  end.

Definition is_lit (s : seg) : bool := match s with Lit _ => true | _ => false end.

(** What a router does: the only entry that matches answers; an entry without parameters
    comes before one with them; a path that is only there for other methods is answered
    with 405.  Nothing is said of empty parameters. *)
Class Mux (mux : route_table → string → list string → routed) : Prop := {
  mux_only : ∀ table method path pat h ps,
    candidates table method path = [(pat, h, ps)] → Forall (λ p, p ≠ "") ps →
    mux table method path = Routed h ps;
  mux_static : ∀ table method path pat h rest,
    candidates table method path = (pat, h, []) :: rest → forallb is_lit pat = true →
    Forall (λ c, forallb is_lit c.1.1 = false) rest →
    mux table method path = Routed h [];
  mux_method : ∀ table method path m pat h ps,
    candidates table method path = [] → (m, pat, h) ∈ table → match_segs pat path = Some ps →
    Forall (λ p, p ≠ "") ps →
    mux table method path = MethodNotAllowed;
}.

(** The handler of a request. *)
Definition route (mux : route_table → string → list string → routed) (method path : string) : routed :=
  match SplitByte path slash with
  | "" :: segs => mux setupRoutes method segs
  | _ => NotFound
  end.

(** ** The server's states *)

Section states.
Context `{!Sorter node_le} `{!Sorter pending_order} `{!Sorter newest_first} `{UnicodeTables}.
Context {St F : Type} `{!BlobStore St F}.
Implicit Types s : Server St.

Inductive api_op :=
  | OSubmit (enC enU : env) (f : F) (uuid : string) (r : submit_request)
  | ONext (enL enU : env) (workerID : string)
  | OLog (enU : env) (id body : string)
  | OComplete (enU enG : env) (eR : fault) (id : string) (body : result complete_json)
  | OCancel (enG enU : env) (id : string)
  | OHeartbeat (e : fault) (now : time) (body : result Worker)
  | OWorkerTick (eP e1 e2 : fault) (nowP nowR : time)
  | OGCTick (e : fault) (off : Z) (now : time)
  | OManualGC (e : fault) (off : Z) (now : time).

Definition api_step s (op : api_op) : Server St :=
  match op with
  | OSubmit enC enU f uuid r => (submitBuild enC enU f uuid s r).2
  | ONext enL enU w => (getNextBuild enL enU s w).2
  | OLog enU id body => (appendLog enU s id body).2
  | OComplete enU enG eR id body => (completeBuild enU enG eR s id body).2
  | OCancel enG enU id => (cancelBuild enG enU s id).2
  | OHeartbeat e now body => (workerHeartbeat e now s body).2
  | OWorkerTick eP e1 e2 nowP nowR => worker_tick eP e1 e2 nowP nowR s
  | OGCTick e off now => gc_tick e off now s
  | OManualGC e off now => (manualGC e off now s).2
  end.

(** Clocks between 1970 and 9999; a completion names a terminal status and a build that
    is not pending, as workers' completions do. *)
Definition api_op_ok s (op : api_op) : Prop :=
  match op with
  | OSubmit enC _ _ _ _ => modern (env_now enC)
  | ONext _ enU _ | OLog enU _ _ | OCancel _ enU _ => modern (env_now enU)
  | OComplete enU _ _ id (Ok c) =>
      modern (env_now enU) ∧ IsTerminal (c_status c) = true ∧ ¬ pending_in (view (repo (engine s))) id
  | OHeartbeat _ now _ => modern now
  | OWorkerTick _ _ _ _ nowR => modern nowR
  | _ => True
  end.

(** A server starts on the database that earlier servers have left. *)
Inductive api_reachable : Server St → Prop :=
  | api_init enL db b : db_wf db → api_reachable (NewServer enL db b)
  | api_next s op : api_reachable s → api_op_ok s op → api_reachable (api_step s op).

Lemma submitted_reply_engine s (enC enU : env) uuid id ctx df tag user tmo args :
  engine (submitted_reply s (SubmitBuild enC enU uuid (engine s) id ctx df tag user tmo args)).2 =
  engine_step (engine s) (EBuild (SubmitOp enC enU uuid id ctx df tag user tmo args)).
Proof. unfold submitted_reply. simpl. by destruct (SubmitBuild _ _ _ _ _ _ _ _ _ _ _) as [[[] ?]|]. Qed.

(** Every handler is a sequence of steps of the engine. *)
Lemma api_step_engine s op :
  api_op_ok s op → engine_wf (engine s) → engine_wf (engine (api_step s op)).
Proof.
  intros Hok Hwf. destruct op as [enC enU f uuid r|enL enU w|enU id body|enU enG eR id body|enG enU id
    |e now body|eP e1 e2 nowP nowR|e off now|e off now]; simpl in *.
  - unfold submitBuild. destruct (HasPrefix _ _).
    + destruct (json_body r) as [req|]; [|done]. destruct (String.eqb _ ""); [done|].
      rewrite submitted_reply_engine. by apply engine_step_wf.
    + destruct (form_body r) as [form|]; [|done]. destruct (f_context form); [|done].
      destruct (BlobStore.Put _ _ _ _) as [[] bs]; [|done].
      match goal with |- context [submitted_reply ?s' _] => rewrite (submitted_reply_engine s') end.
      by apply engine_step_wf.
  - unfold getNextBuild. destruct (String.eqb w ""); [done|].
    pose proof (engine_step_wf _ (EBuild (AssignOp enL enU w)) Hwf (conj Hok I)) as He. simpl in He.
    by destruct (AssignBuild enL enU (engine s) w) as [[[]|] eng].
  - unfold appendLog. pose proof (engine_step_wf _ (EBuild (LogOp enU id body)) Hwf (conj Hok I)) as He.
    simpl in He. destruct (AppendLog enU (engine s) id body) as [[] eng]; [|done].
    by destruct (publish _ _ _).
  - unfold completeBuild. destruct body as [c|]; [|done].
    pose proof (engine_step_wf _ (EBuild (CompleteOp enU enG id (c_status c) (c_error c))) Hwf (conj Hok I)) as He.
    simpl in He. destruct (CompleteBuild _ _ _ _ _ _) as [[] eng]; [|done]. simpl in *.
    destruct (f64_leb _ _); [|done]. exact (engine_step_wf eng (ERate eR id (c_rate c)) He I).
  - unfold cancelBuild. pose proof (engine_step_wf _ (EBuild (CancelOp enG enU id)) Hwf (conj Hok I)) as He.
    simpl in He. by destruct (CancelBuild enG enU (engine s) id) as [[] eng].
  - unfold workerHeartbeat. destruct body as [w|]; [|done].
    pose proof (engine_step_wf _ (EHeartbeat e now w) Hwf Hok) as He. simpl in He.
    by destruct (Heartbeat e now (engine s) w) as [[] eng].
  - pose proof (engine_step_wf _ (EPrune eP nowP (30 * second)) Hwf I) as He. simpl in He.
    exact (engine_step_wf _ (EReassign e1 e2 nowR (60 * second) (10 * minute)) He Hok).
  - exact (engine_step_wf _ (EGC e off (now - 24 * hour)) Hwf I).
  - unfold manualGC. pose proof (engine_step_wf _ (EGC e off (now - 1 * hour)) Hwf I) as He.
    simpl in He. by destruct (GCCompleted e (engine s) off (now - 1 * hour)) as [[] eng].
Qed.

Lemma api_reachable_wf s : api_reachable s → engine_wf (engine s).
Proof.
  induction 1 as [enL db b Hdb|s op _ IH Hok]; [|by apply api_step_engine].
  assert (svc_wf (mkService db Scheduler.New (Queue.New 10000))) as Hw.
  { split; [done|apply queue_tracks_New]. }
  split.
  - exact (svc_step_wf _ (WarmOp enL) Hw eq_refl).
  - apply (svc_step_sched_wf _ (WarmOp enL)). apply New_sched_wf.
Qed.

(** *** What a submission answers *)

Lemma create_not_full en db b e b' db' : p_Create en db b = (Err e, b', db') → is_queue_full e = false.
Proof.
  cbn [p_Create repo_persister]. unfold Create, insertBuild. intros Hc.
  repeat case_match; simplify_eq; done.
Qed.

Lemma SubmitBuild_facts enC enU uuid (e : BuildService DB) id ctx df tag user tmo args res e' :
  svc_wf e → modern (env_now enC) →
  SubmitBuild enC enU uuid e id ctx df tag user tmo args = Some (res, e') →
  match res with
  | Ok b => TimeoutSeconds b = tmo
  | Err er => is_queue_full er = true → Queue.Full (queue e) = true
  end.
Proof.
  intros Hs Hn. unfold SubmitBuild. destruct (Validate.Single _) as [v|]; [|done]. cbn [mbind option_bind].
  destruct (negb _); [by intros [= <- <-]|].
  destruct (Fingerprint.FromDockerfile df) as [fp|]; [|done]. cbn [mbind option_bind].
  set (b := new_build _ _ _ _ _ _ _ _). destruct (Queue.Full (queue e)) eqn:Hf; [by intros [= <- <-]|].
  pose proof (create_law enC (repo e) b (swf_valid _ Hs) Hn eq_refl) as Hc.
  destruct (p_Create enC (repo e) b) as [[[u|er] b'] d] eqn:Ec.
  - destruct Hc as (_ & -> & _ & _).
    assert (∃ q, Queue.Push (queue e) (stamped (env_now enC) b) = (true, q)) as [q ->].
    { destruct (Queue.Push_room (queue e) (stamped (env_now enC) b)) as (Hok & _ & _);
        [apply (swf_queue _ Hs)|done|by vm_compute|].
      destruct (Queue.Push (queue e) (stamped (env_now enC) b)) as [ok q]. simpl in Hok. subst ok. eauto. }
    by intros [= <- <-].
  - intros [= <- <-]. cbn [is_queue_full]. by rewrite (create_not_full _ _ _ _ _ _ Ec).
Qed.

Lemma clamp_timeout_bounds t : (1 ≤ clamp_timeout t ≤ 3600)%Z.
Proof.
  unfold clamp_timeout. destruct (Z.leb_spec t 0); [by vm_compute|].
  destruct (Z.ltb_spec 3600 t); lia.
Qed.

(** A created build, or an error that changed nothing but the blob store. *)
Definition submit_contract (s s' : Server St) (resp : response) : Prop :=
  (code resp = StatusCreated ∧ ∃ b, body resp = PBuild b ∧ (1 ≤ TimeoutSeconds b ≤ 3600)%Z ∧
     submit_answer (engine s) (Ok b) (engine s')) ∨
  (code resp ∈ [StatusBadRequest; StatusConflict; StatusInternalServerError; StatusServiceUnavailable] ∧
   view (repo (engine s')) = view (repo (engine s)) ∧ queue (engine s') = queue (engine s) ∧
   (code resp = StatusServiceUnavailable →
      retry_after resp = Some "5" ∧ Queue.Full (queue (engine s)) = true)).

Lemma submitted_reply_contract s enC enU uuid id ctx df tag user tmo args :
  svc_wf (engine s) → modern (env_now enC) → (1 ≤ tmo ≤ 3600)%Z →
  let '(resp, s') := submitted_reply s (SubmitBuild enC enU uuid (engine s) id ctx df tag user tmo args) in
  submit_contract s s' resp.
Proof.
  intros Hs Hn Ht. unfold submitted_reply.
  destruct (SubmitBuild enC enU uuid (engine s) id ctx df tag user tmo args) as [[res e']|] eqn:E; cycle 1.
  { right. split_and!; [set_solver|done..]. }
  pose proof (SubmitBuild_facts _ _ _ _ _ _ _ _ _ _ _ _ _ Hs Hn E) as Hf.
  apply SubmitBuild_spec in E as (_ & _ & Ha); [|done..]. destruct res as [b|er].
  - left. split; [done|]. exists b. rewrite Hf. done.
  - right. destruct Ha as [Hv Hq]. destruct (is_queue_full er).
    + split_and!; [set_solver|done..|]. auto.
    + split_and!; [set_solver|done..].
Qed.

Lemma submitBuild_contract enC enU f uuid s r :
  svc_wf (engine s) → modern (env_now enC) →
  let '(resp, s') := submitBuild enC enU f uuid s r in submit_contract s s' resp.
Proof.
  intros Hs Hn.
  assert (∀ msg c, c ∈ [StatusBadRequest; StatusInternalServerError] → ∀ s', engine s' = engine s →
            submit_contract s s' (http_Error msg c)) as Herr.
  { intros msg c Hc s' He. right. rewrite He. split_and!; [set_solver|done..|].
    intros Hcode. exfalso. simpl in Hcode. subst c. set_solver. }
  unfold submitBuild. destruct (HasPrefix _ _).
  - destruct (json_body r) as [req|e]; [|apply Herr; [set_solver|done]].
    destruct (String.eqb _ ""); [apply Herr; [set_solver|done]|].
    apply submitted_reply_contract; [done..|apply clamp_timeout_bounds].
  - destruct (form_body r) as [form|e]; [|apply Herr; [set_solver|done]].
    destruct (f_context form) as [ctx|]; [|apply Herr; [set_solver|done]].
    destruct (BlobStore.Put _ _ _ _) as [[n|e] bs]; [|apply Herr; [set_solver|done]].
    set (s1 := mkServer (engine s) (broker s) bs (BuildsTotal s)).
    exact (submitted_reply_contract s1 enC enU uuid _ _ _ _ _ 600 None Hs Hn ltac:(lia)).
Qed.

(** C27. Submission over HTTP, by JSON or by form, on any server state that requests reach
    as [api_op_ok] has them: 201 carries a build
    with a fresh id that is now pending in the database and queued, with a timeout
    between one second and an hour; 400, 409, 500 and 503 leave database and queue as
    they were; 503 is sent only when the queue is full, with a Retry-After. *)
Theorem submitBuild_answers enC enU f uuid s r (Hs : api_reachable s) (Hn : modern (env_now enC)) :
  let '(resp, s') := submitBuild enC enU f uuid s r in submit_contract s s' resp.
Proof. apply api_reachable_wf in Hs as [Hs _]. by apply submitBuild_contract. Qed.

(** *** Pages *)

Lemma page_limit_bounds q : (1 ≤ page_limit q ≤ 200)%Z.
Proof.
  unfold page_limit. generalize (query_int q 20). intros n.
  destruct (Z.leb_spec n 0); [by vm_compute|]. destruct (Z.ltb_spec 200 n); lia.
Qed.

Lemma query_int_range q d : int64_ok d = true → int64_ok (query_int q d) = true.
Proof.
  intros Hd. unfold query_int, Sscanf_d. destruct (String.eqb q ""); [done|].
  destruct (skip_space _ _) as [s1|]; [|done]. cbn [mbind option_bind].
  destruct (if HasPrefix s1 "-" then _ else _) as [n|]; [|done]. cbn [mbind option_bind].
  destruct (int64_ok n) eqn:E; [exact E|done].
Qed.

Lemma page_offset_bounds q : (0 ≤ page_offset q < 2 ^ 63)%Z.
Proof.
  unfold page_offset. pose proof (query_int_range q 0 eq_refl) as Hr. unfold int64_ok in Hr.
  bool_split. destruct (Z.ltb_spec (query_int q 0) 0); lia.
Qed.

Lemma add64_exact x y : (0 ≤ x + y < 2 ^ 63)%Z → add64 x y = (x + y)%Z.
Proof. intros Hxy. unfold add64. rewrite Z.mod_small by lia. lia. Qed.

Lemma add64_overflow x y : (2 ^ 63 ≤ x + y < 2 ^ 64)%Z → (add64 x y < 0)%Z.
Proof.
  intros Hxy. unfold add64. rewrite <- (Z_mod_plus_full _ (-1)), Z.mod_small by lia. lia.
Qed.

(** Slicing the prefix that was fetched is slicing the whole list. *)
Lemma page_slice_take (all : list Build) offset limit :
  (0 ≤ offset)%Z → (1 ≤ limit)%Z → (offset + limit < 2 ^ 63)%Z →
  page_slice (take (Z.to_nat (offset + limit)) all) offset limit =
  take (Z.to_nat limit) (drop (Z.to_nat offset) all).
Proof.
  intros Ho Hl Hsum. unfold page_slice. rewrite add64_exact by lia.
  assert (Z.to_nat (offset + limit) = Z.to_nat offset + Z.to_nat limit) as Hs by lia.
  rewrite length_take.
  destruct (Z.ltb_spec offset (Z.of_nat (Z.to_nat (offset + limit) `min` length all))) as [Hin|Hout].
  - destruct (Z.ltb_spec (Z.of_nat (Z.to_nat (offset + limit) `min` length all)) (offset + limit)) as [Hlt|Hge].
    + rewrite (take_ge all) by lia. rewrite !take_ge by (rewrite length_drop; lia). done.
    + rewrite Hs, <- take_drop_commute, take_take. f_equal. lia.
  - rewrite (drop_ge all) by lia. by rewrite take_nil.
Qed.

Lemma count_all_rows (db : DB) : affected (λ _, true) db = length (scanBuild <$> Sort (le := newest_first) (rows db)).
Proof.
  rewrite length_fmap, Sort_Permutation. unfold affected, rows.
  rewrite length_fmap, length_map_to_list. f_equal. apply map_filter_id. done.
Qed.

(** C30. A page of the build list: with limit between 1 and 200 and offset not negative,
    whatever the query says, the answer holds the builds at positions offset to
    offset+limit of all builds ordered from the newest, and their total number; only
    when offset+limit is beyond the range of an int is it an error. *)
Theorem listBuilds_page s qlimit qoffset :
  let limit := page_limit qlimit in
  let offset := page_offset qoffset in
  let all := scanBuild <$> Sort (le := newest_first) (rows (repo (engine s))) in
  (1 ≤ limit ≤ 200)%Z ∧ (0 ≤ offset)%Z ∧ Sort (le := newest_first) (rows (repo (engine s))) ≡ₚ rows (repo (engine s)) ∧
  StronglySorted newest_first (Sort (le := newest_first) (rows (repo (engine s)))) ∧
  listBuilds None None s qlimit qoffset =
    if decide (offset + limit < 2 ^ 63)%Z then
      reply StatusOK (PPage (take (Z.to_nat limit) (drop (Z.to_nat offset) all))
                        (Z.of_nat (length all)) limit offset)
    else http_Error "internal error" StatusInternalServerError.
Proof.
  intros limit offset all. pose proof (page_limit_bounds qlimit) as Hl. pose proof (page_offset_bounds qoffset) as Ho.
  fold limit in Hl. fold offset in Ho. split_and!; [lia..|apply Sort_Permutation|apply Sort_sorted|].
  unfold listBuilds. fold limit offset. unfold Repo.List. case_decide as Hsum.
  - rewrite add64_exact by lia. rewrite (proj2 (Z.ltb_ge _ _)) by lia. cbn [Repo.listBuilds].
    rewrite fmap_take. fold all. rewrite page_slice_take by lia.
    unfold CountAll, count. by rewrite count_all_rows.
  - pose proof (add64_overflow offset limit ltac:(lia)) as Hneg.
    by rewrite (proj2 (Z.ltb_lt _ _)) by lia.
Qed.
End states.

(** ** Concrete runs *)

Section runs.
#[local] Existing Instances merge_sorter no_special.

Definition server0 : Server LocalStore := NewServer en0 empty_db (mkLocal "/blobs" [] ∅).

Definition json_submit (df : string) : submit_request :=
  mkSubmit "application/json" "key" (Ok (mkSubmitJSON "b1" "contexts/b1.tar.gz" df "app:1" "" 0 None))
    (Err (EErrorf "no form")).

Lemma server0_reachable : api_reachable server0.
Proof. apply api_init. split; apply map_Forall_empty. Qed.

Lemma submitBuild_answers_witness :
  let '(resp, s') := submitBuild en0 en0 (None, None) "uuid" server0 (json_submit "FROM alpine") in
  submit_contract server0 s' resp ∧ code resp = StatusCreated.
Proof.
  pose proof (submitBuild_answers en0 en0 (None, None) "uuid" server0 (json_submit "FROM alpine")
    server0_reachable modern_en0) as Hc.
  assert (code (submitBuild en0 en0 (None, None) "uuid" server0 (json_submit "FROM alpine")).1 =
          StatusCreated) as Hcode by (vm_compute; reflexivity).
  destruct (submitBuild en0 en0 (None, None) "uuid" server0 (json_submit "FROM alpine")) as [resp s'].
  exact (conj Hc Hcode).
Defined.

(** A completion that is repeated, as workers do when an answer is lost, is counted
    again. *)
Definition done_once : Server LocalStore :=
  (completeBuild en0 en0 None server0 "b1" (Ok (mkComplete StatusSucceeded "" f64_zero))).2.
Lemma completions_counted_twice :
  BuildsTotal done_once = 1%Z ∧
  BuildsTotal (completeBuild en0 en0 None done_once "b1" (Ok (mkComplete StatusSucceeded "" f64_zero))).2 = 2%Z.
Proof. split; vm_compute; reflexivity. Qed.

(** The largest offset is answered with an internal error. *)
Lemma huge_offset_fails :
  code (listBuilds None None server0 "20" "9223372036854775807") = StatusInternalServerError.
Proof. vm_compute. reflexivity. Qed.
End runs.
