(* ===== verification/Startup.v ===== *)
(** * cmd/dtbuild-server and cmd/dtbuild-worker

    The two mains: the command line as the flag package reads it, the construction of the
    server with its error paths ([NewServer] of [api/server.go]), and the exit codes.
    What PostgreSQL answers is [Schema.open_env], the blob stores' constructors are an
    argument, and so is what ends a running server. *)

From S2P Require Import Prelude GoStrings GoSort Domain GoTime Repo Schema Scheduler Persister RepoPersister Service Engine.
From S2P Require Import Http BlobStore Worker WorkerLoop Api.
From Stdlib Require Import Ascii.

(** ** Flags *)

Inductive parsed :=
  | Parsed (vals : gmap string string) (rest : list string)
  | FlagHelp
  | FlagBad (msg : string).

(** The name and, after an equals sign that is not the first character, the value. *)
Definition split_flag (name : string) : string * option string :=
  match name with
  | "" => ("", None)
  | String c t =>
      match Index t "=" with
      | Some i => (String c (str_take i t), Some (str_drop (S i) t))
      | None => (name, None)
      end
  end.

(** The text after one or two dashes; [None] is an argument that is not a flag, or the end
    of the flags, which the result says. *)
Inductive dashed := NotFlag | Terminator | Flag (name : string).
Definition dashes (a : string) : dashed :=
  match a with
  | String "-" (String "-" "") => Terminator
  | String "-" (String "-" name) => Flag name
  | String "-" (String c t) => Flag (String c t)
  | _ => NotFlag
  end.

Definition bad_name (name : string) : bool :=
  String.eqb name "" || HasPrefix name "-" || HasPrefix name "=".

(** [flag.Parse] for string flags: [names] are the defined ones, [vals] their values. *)
Fixpoint flag_Parse (names args : list string) (vals : gmap string string) : parsed :=
  match args with
  | [] => Parsed vals []
  | a :: rest =>
      match dashes a with
      | NotFlag => Parsed vals args
      | Terminator => Parsed vals rest
      | Flag name =>
          if bad_name name then FlagBad ("bad flag syntax: " +:+ a)
          else
            let '(n, v) := split_flag name in
            if negb (bool_decide (n ∈ names)) then
              if String.eqb n "help" || String.eqb n "h" then FlagHelp
              else FlagBad ("flag provided but not defined: -" +:+ n)
            else
              match v, rest with
              | Some v, _ => flag_Parse names rest (<[n := v]> vals)
              | None, v :: rest => flag_Parse names rest (<[n := v]> vals)
              | None, [] => FlagBad ("flag needs an argument: -" +:+ n)
              end
      end
  end.

(** ** The server *)

Definition server_flags : list string := ["addr"; "db"; "blobs"].
Definition server_defaults : gmap string string :=
  {["addr" := ":8640"; "db" := "./data/dtbuildkit.db"; "blobs" := "./data/blobs"]}.

Section server.
Context `{!Sorter node_le} `{!Sorter pending_order} `{!Sorter newest_first} `{UnicodeTables} `{UnicodeLowerTables}.
Context {St F : Type} `{!BlobStore St F}.
Context (connect : string → open_env) (getenv : string → string)
  (open_store : option S3Config → string → result St).

(** The result, whether the database handle is open, and the schema. *)
Definition NewServer (enL : env) (sch : gmap string relation) (rows : DB) (dbPath blobBasePath : string) :
    result (Server St) * bool * gmap string relation :=
  match Open (connect dbPath) sch with
  | (Err e, opened, sch) => (Err (EWrap "open db" e), opened, sch)
  | (Ok d, opened, sch) =>
      match open_store (NewStoreFromEnv getenv) blobBasePath with
      | Err e => (Err (EWrap "create blob store" e), false, sch)
      | Ok blobs => (Ok (Api.NewServer enL rows blobs), opened, sch)
      end
  end.

(** What ends the server: a signal, or the error of ListenAndServe. *)
Inductive stop := Signalled | Stopped (e : error).

(** The exit code, and the schema that the run leaves. *)
Definition server_main (enL : env) (sch : gmap string relation) (rows : DB) (args : list string) (st : stop) :
    Z * gmap string relation :=
  match flag_Parse server_flags args server_defaults with
  | FlagHelp => (0%Z, sch)
  | FlagBad _ => (2%Z, sch)
  | Parsed vals _ =>
      match NewServer enL sch rows (default "" (vals !! "db")) (default "" (vals !! "blobs")) with
      | (Err _, _, sch) => (1%Z, sch)
      | (Ok _, _, sch) => (match st with Signalled => 0%Z | Stopped _ => 1%Z end, sch)
      end
  end.
End server.

(** ** The worker *)

Definition worker_flags : list string := ["server"; "buildkit"; "workdir"; "cache-registry"].
Definition worker_defaults : gmap string string :=
  {["server" := "http://localhost:8640"; "buildkit" := "unix:///run/buildkit/buildkitd.sock";
    "workdir" := "./data/worker"; "cache-registry" := ""]}.

(** The worker of a command line. *)
Definition worker_of (uuid hostname : string) (vals : gmap string string) : Worker.Worker :=
  let v n := default "" (vals !! n) in
  NewWorker uuid hostname (v "server") (v "buildkit") (v "workdir") (v "cache-registry").

(** The exit code once [Run] is in the state [l]; [None] while it runs. *)
Definition worker_main (args : list string) (l : loop) : option Z :=
  match flag_Parse worker_flags args worker_defaults with
  | FlagHelp => Some 0%Z
  | FlagBad _ => Some 2%Z
  | Parsed _ _ => match at_pc l with Returned _ => Some 1%Z | _ => None end
  end.

(** ** Command lines *)

(** One setting, with one or two dashes, its value joined by an equals sign or as the next
    argument. *)
Record setting := mkSetting { s_two : bool; s_joined : bool; s_name : string; s_value : string }.

Definition render_setting (s : setting) : list string :=
  let flag := (if s_two s then "--" else "-") +:+ s_name s in
  if s_joined s then [flag +:+ "=" +:+ s_value s] else [flag; s_value s].

Definition assigned (vals : gmap string string) (settings : list setting) : gmap string string :=
  foldl (λ m s, <[s_name s := s_value s]> m) vals settings.

(** A name that can be a flag's. *)
Definition flag_name (n : string) : bool :=
  match n with
  | "" => false
  | String a t => negb (Ascii.eqb a "=") && negb (Ascii.eqb a "-") && str_all (λ c, negb (Ascii.eqb c "=")) t
  end.

Lemma dashes_one a t : Ascii.eqb a "-" = false → dashes (String "-" (String a t)) = Flag (String a t).
Proof. destruct a as [[] [] [] [] [] [] [] []]; intros H; try reflexivity; discriminate H. Qed.

Lemma dashes_flag two n t : flag_name n = true → dashes ((if two : bool then "--" else "-") +:+ n +:+ t) = Flag (n +:+ t).
Proof.
  destruct n as [|a n]; [done|]. cbn [flag_name]. intros Hn. bool_split. rewrite str_app_cons.
  destruct two; [reflexivity|]. by apply dashes_one.
Qed.

Lemma bad_name_app n t : flag_name n = true → bad_name (n +:+ t) = false.
Proof.
  destruct n as [|a n]; [done|]. cbn [flag_name]. intros Hn. bool_split. rewrite str_app_cons.
  unfold bad_name. rewrite !HasPrefix_char. cbn [String.eqb]. by rewrite H, H1.
Qed.

Lemma split_flag_joined n v : flag_name n = true → split_flag (n +:+ "=" +:+ v) = (n, Some v).
Proof.
  destruct n as [|a n]; [done|]. cbn [flag_name]. intros Hn. bool_split. rewrite str_app_cons. unfold split_flag.
  change ("=" +:+ v) with (String "=" v). rewrite Index_char by done. rewrite str_take_app.
  replace (S (strlen n)) with (strlen (n +:+ "=")) by (rewrite strlen_app; simpl; lia).
  replace (n +:+ String "=" v) with ((n +:+ "=") +:+ v) by (by rewrite <- str_app_assoc). by rewrite str_drop_app.
Qed.

Lemma split_flag_plain n : flag_name n = true → split_flag n = (n, None).
Proof.
  destruct n as [|a n]; [done|]. cbn [flag_name]. intros Hn. bool_split. unfold split_flag. by rewrite Index_free.
Qed.

(** Settings in any of the four forms are what they say; the last one of a name counts. *)
Lemma flag_Parse_settings names settings vals :
  Forall (λ s, s_name s ∈ names ∧ flag_name (s_name s) = true) settings →
  flag_Parse names (concat (map render_setting settings)) vals = Parsed (assigned vals settings) [].
Proof.
  intros Hs. revert vals. induction Hs as [|[two joined n v] settings [Hin Hn] _ IH]; intros vals; [done|].
  cbn [s_name] in *. cbn [map concat]. unfold render_setting at 1. cbn [s_two s_joined s_name s_value].
  destruct joined; cbn [app flag_Parse].
  - rewrite <- str_app_assoc, dashes_flag, bad_name_app, split_flag_joined, bool_decide_true by done. apply IH.
  - rewrite <- (str_app_nil_r n) at 1. rewrite dashes_flag by done. rewrite bad_name_app by done.
    rewrite str_app_nil_r, split_flag_plain, bool_decide_true by done. apply IH.
Qed.

(** ** Properties *)

Section server_properties.
Context `{!Sorter node_le} `{!Sorter pending_order} `{!Sorter newest_first} `{UnicodeTables} `{UnicodeLowerTables}.
Context {St F : Type} `{!BlobStore St F}.
Context (connect : string → open_env) (getenv : string → string)
  (open_store : option S3Config → string → result St).

(** What has to work for a server to start. *)
Definition startable (sch : gmap string relation) (dbPath blobBasePath : string) (b : St) : Prop :=
  o_open (connect dbPath) = None ∧ o_ping (connect dbPath) = None ∧ o_ddl (connect dbPath) = None ∧
  base_ok sch = true ∧ open_store (NewStoreFromEnv getenv) blobBasePath = Ok b.

Lemma migrate_ok f fs db : (migrate f fs db).1 = Ok () ↔ f = None ∧ base_ok db = true.
Proof.
  unfold migrate, Exec. destruct f as [msg|]; [split; [done|by intros [? _]]|].
  pose proof (base_execute db) as Hb. destruct (base_ok db).
  - destruct Hb as (db' & -> & _). done.
  - destruct Hb as [e ->]. split; [done|by intros [_ ?]].
Qed.

(** A server is made exactly if it is startable, with the store that the environment
    chooses; otherwise the database handle is closed again. *)
Lemma NewServer_or_closed enL sch rows dbPath blobBasePath :
  let '(res, opened, _) := NewServer connect getenv open_store enL sch rows dbPath blobBasePath in
  (∀ s, res = Ok s ↔ ∃ b, startable sch dbPath blobBasePath b ∧ s = Api.NewServer enL rows b) ∧
  (opened = true ↔ ∃ s, res = Ok s).
Proof.
  unfold NewServer, Open, startable. set (o := connect dbPath).
  destruct (o_open o) as [e|]; [split; [split; [done|by intros (?&[? _]&_)]|split; [done|by intros [??]]]|].
  destruct (o_ping o) as [e|]; [split; [split; [done|by intros (?&(_&?&_)&_)]|split; [done|by intros [??]]]|].
  pose proof (migrate_ok (o_ddl o) (o_migrations o) sch) as Hm.
  destruct (migrate (o_ddl o) (o_migrations o) sch) as [[[]|e] sch']; cbn [fst] in Hm.
  - destruct (open_store _ _) as [b|e] eqn:Eb.
    + split; [|split; [by eexists|done]]. intros s. destruct (proj1 Hm eq_refl) as [-> Hok]. split.
      * intros [= <-]. by exists b.
      * intros (b' & (_ & _ & _ & _ & [= <-]) & ->). done.
    + split; [|split; [done|by intros [??]]]. intros s. split; [done|]. by intros (?&(_&_&_&_&?)&_).
  - split; [|split; [done|by intros [??]]]. intros s. split; [done|]. intros (?&(_&_&Hf&Hok&_)&_).
    by discriminate (proj2 Hm (conj Hf Hok)).
Qed.

(** C39. The server's process, started with settings of its flags in any form and order (of
    which the last for a flag counts), ends with 0 or 1, and with 0 exactly if a signal
    ends it after the database at [-db] was opened, answered the ping and took the
    schema, and the blob store was opened that the environment chooses: S3 if S3_ENDPOINT
    is set and the one at [-blobs] otherwise. *)
Theorem server_main_exit enL sch rows settings st
    (Hs : Forall (λ s, s_name s ∈ server_flags ∧ flag_name (s_name s) = true) settings) :
  let vals := assigned server_defaults settings in
  let c := (server_main connect getenv open_store enL sch rows (concat (map render_setting settings)) st).1 in
  (c = 0%Z ∨ c = 1%Z) ∧
  (c = 0%Z ↔ st = Signalled ∧ ∃ b, startable sch (default "" (vals !! "db")) (default "" (vals !! "blobs")) b).
Proof.
  intros vals. unfold server_main. rewrite (flag_Parse_settings _ _ _ Hs). fold vals.
  set (db := default "" (vals !! "db")). set (bl := default "" (vals !! "blobs")).
  pose proof (NewServer_or_closed enL sch rows db bl) as Hn.
  destruct (NewServer _ _ _ enL sch rows db bl) as [[[s|e] opened] sch']; destruct Hn as [Hn _]; cbn [fst].
  - destruct (proj1 (Hn s) eq_refl) as (b & Hb & _). destruct st as [|e].
    + split; [by left|]. split; [|done]. intros _. split; [done|by exists b].
    + split; [by right|]. split; [done|by intros [? _]].
  - split; [by right|]. split; [done|]. intros (_ & b & Hb).
    assert (Err e = Ok (Api.NewServer enL rows b)) as Hx by (apply Hn; by exists b). done.
Qed.
End server_properties.

(** The worker's process never ends with 0 once it runs: Run returns an error, that of its
    context after a signal. *)
Lemma worker_main_exit settings l :
  Forall (λ s, s_name s ∈ worker_flags ∧ flag_name (s_name s) = true) settings →
  worker_main (concat (map render_setting settings)) l = match at_pc l with Returned _ => Some 1%Z | _ => None end.
Proof. intros Hs. unfold worker_main. by rewrite (flag_Parse_settings _ _ _ Hs). Qed.

(** ** A run *)

Section run.
#[local] Existing Instances merge_sorter no_special.
#[local] Instance no_lower : UnicodeLowerTables := id.

Definition settings0 : list setting :=
  [mkSetting true true "db" "postgres://u@h/d?x=1"; mkSetting false false "blobs" "-b"; mkSetting false true "db" "dsn"].

Definition connect0 (dsn : string) : open_env :=
  mkOpenEnv None (if String.eqb dsn "dsn" then None else Some (EDriver "refused")) None [].

Lemma server_main_exit_witness :
  concat (map render_setting settings0) = ["--db=postgres://u@h/d?x=1"; "-blobs"; "-b"; "-db=dsn"] ∧
  (server_main connect0 (λ _, "") (λ _ p, Ok (mkLocal p [] ∅)) en0 ∅ empty_db
    (concat (map render_setting settings0)) Signalled).1 = 0%Z.
Proof.
  split; [reflexivity|].
  apply (server_main_exit connect0 (λ _, "") (λ _ p, Ok (mkLocal p [] ∅)) en0 ∅ empty_db settings0 Signalled).
  - repeat constructor; (eapply bool_decide_unpack; vm_compute; exact I).
  - split; [reflexivity|]. eexists. split_and!; reflexivity.
Defined.

(** Without [-db] the path of a SQLite file is the PostgreSQL connection string. *)
Lemma default_database : server_defaults !! "db" = Some "./data/dtbuildkit.db".
Proof. reflexivity. Qed.
End run.

(** A signal ends the worker's process without waiting for the attempt that is running. *)
Lemma shutdown_abandons e : ∃ l, rtc loop_step start l ∧ at_pc l = Returned e ∧ attempts l = 1 ∧
  worker_main [] l = Some 1%Z.
Proof.
  exists (mkLoop (Returned e) true 1 []). split; [|done].
  eapply rtc_l; [exact (step_start start None eq_refl)|].
  eapply rtc_l; [exact (step_poll_tick (mkLoop Selecting false 0 []) eq_refl)|].
  eapply rtc_l; [exact (step_poll_load (mkLoop PollLoad false 0 []) eq_refl)|].
  eapply rtc_l; [exact (step_poll_store (mkLoop PollStore false 0 []) eq_refl)|].
  eapply rtc_l; [exact (step_poll_go (mkLoop PollGo true 0 []) eq_refl)|].
  eapply rtc_l; [exact (step_done (mkLoop Selecting true 1 []) e eq_refl)|]. apply rtc_refl.
Qed.
