(* ===== verification/Cli.v ===== *)
(** * cmd/dtbuild

    The command line client ([main.go]): its arguments, its requests and what it makes
    of the answers.  What the disk, the environment and the network answer is the
    environment of a run; the result is what the run prints, its exit code and the
    requests it has sent.  The bytes that gzip and archive/tar write for a list of
    entries are a parameter ([pack]), and so is the text of a JSON value that is not a
    string ([fmt_v], [fmt_s]: fmt's verbs on maps, slices and numbers).  Writes into
    a [bytes.Buffer], which do not fail, are left without their error branches. *)

From S2P Require Import BlobStore Paths BuildkitClient Worker Tar Http.
From S2P Require Import Prelude Float64 GoStrings GoSort Hashing Domain.
From Stdlib Require Import Ascii.

(** ** Arguments *)

(** [strings.SplitN(s, "=", 2)]. *)
Definition split_eq (s : string) : list string :=
  match Index s "=" with
  | Some i => [str_take i s; str_drop (S i) s]
  | None => [s]
  end.

Definition defaultServer : string := "http://localhost:8640".

(** The value after the first [--server] that has one. *)
Fixpoint server_flag (args : list string) : option string :=
  match args with
  | a :: (b :: _) as rest => if String.eqb a "--server" then Some b else server_flag rest
  | _ => None
  end.

Definition getServerURL (getenv : string → string) (args : list string) : string :=
  match server_flag args with
  | Some u => u
  | None => if String.eqb (getenv "DTBUILD_SERVER") "" then defaultServer else getenv "DTBUILD_SERVER"
  end.

Fixpoint parse_loop (args : list string) (kv : gmap string string) (positional : list string) :
    gmap string string * list string :=
  match args with
  | [] => (kv, positional)
  | a :: rest =>
      if HasPrefix a "--arg." then
        match split_eq (str_drop 6 a) with
        | [k; v] => parse_loop rest (<[k := v]> kv) positional
        | _ => parse_loop rest kv positional
        end
      else if negb (HasPrefix a "--") then parse_loop rest kv (positional ++ [a])
      else
        match rest with
        | b :: rest' => if negb (HasPrefix b "--") then parse_loop rest' kv positional
                        else parse_loop rest kv positional
        | [] => (kv, positional)
        end
  end.

Definition parseArgs (args : list string) : gmap string string * list string := parse_loop args ∅ [].

Fixpoint kvFlag (args : list string) (key : string) : string :=
  match args with
  | a :: (b :: _) as rest =>
      if String.eqb a key && negb (HasPrefix b "--") then b else kvFlag rest key
  | _ => ""
  end.

(** ** Requests and answers *)

Inductive part :=
  | FormFile (field filename content : string)
  | FormField (name v : string).

Record request := mkRequest {
  r_method : string;
  r_url : string;
  r_headers : list (string * string);
  r_form : list part;
}.

(** An answer: its code, its text and what [json.Decode] makes of the text. *)
Record answer := mkAnswer { a_code : Z; a_text : string; a_json : result value }.

Record cli_env := mkCliEnv {
  getenv : string → string;
  readFile : string → result string;
  lstat : string → tree;
  boundary : string;
  newRequest : string → option error;
  do : request → result answer;
}.

Record outcome := mkOutcome {
  stdout : string;
  stderr : string;
  exit_code : Z;
  sent : list request;
}.

Definition line (s : string) : string := s +:+ String nl "".

Definition fail (msg : string) (reqs : list request) : outcome := mkOutcome "" (line msg) 1 reqs.
Definition fail_err (msg : string) (e : error) (reqs : list request) : outcome :=
  fail (error_text (EWrap msg e)) reqs.

Definition apiKey (en : cli_env) : string := getenv en "DTBUILD_API_KEY".

Definition key_header (en : cli_env) : list (string * string) :=
  if String.eqb (apiKey en) "" then [] else [("X-Api-Key", apiKey en)].

(** The requests that were sent, with the answer to the last. *)
Definition send (en : cli_env) (r : request) : result answer * list request :=
  match newRequest en (r_url r) with
  | Some e => (Err (EWrap "create request" e), [])
  | None => (do en r, [r])
  end.

Definition doGet (en : cli_env) (url : string) : result answer * list request :=
  send en (mkRequest "GET" url (key_header en) []).

Definition doPost (en : cli_env) (url contentType : string) (form : list part) :
    result answer * list request :=
  send en (mkRequest "POST" url
    ((if String.eqb contentType "" then [] else [("Content-Type", contentType)]) ++ key_header en) form).

Definition FormDataContentType (en : cli_env) : string := "multipart/form-data; boundary=" +:+ boundary en.

(** *** Decoded answers *)

Definition kind_of (v : value) : string :=
  match v with
  | VNull => "null" | VBool _ => "bool" | VStr _ | VTime _ => "string" | VNum _ | VFloat _ => "number"
  | VList _ => "array" | VObj _ => "object"
  end.

Definition cannot_unmarshal {A} (v : value) (ty : string) : result A :=
  Err (EErrorf ("json: cannot unmarshal " +:+ kind_of v +:+ " into Go value of type " +:+ ty)).

(** Into a [map[string]interface{}]; null leaves the map nil. *)
Definition as_map (v : value) : result (list (string * value)) :=
  match v with
  | VObj fields => Ok fields
  | VNull => Ok []
  | _ => cannot_unmarshal v "map[string]interface {}"
  end.

Fixpoint all_ok {A} (l : list (result A)) : result (list A) :=
  match l with
  | [] => Ok []
  | Err e :: _ => Err e
  | Ok x :: l => match all_ok l with Ok xs => Ok (x :: xs) | Err e => Err e end
  end.

(** Into a slice of such maps. *)
Definition as_maps (v : value) : result (list (list (string * value))) :=
  match v with
  | VList l => all_ok (map as_map l)
  | VNull => Ok []
  | _ => cannot_unmarshal v "[]map[string]interface {}"
  end.

Definition decode {A} (a : answer) (into : value → result A) : result A :=
  match a_json a with Ok v => into v | Err e => Err e end.

(** [m[k]]: the last field of the name, nil if there is none. *)
Definition field (m : list (string * value)) (k : string) : value :=
  default VNull (member k (rev m)).

(** A field of a struct is found whatever the case of its name. *)
Definition struct_field (m : list (string * value)) (k : string) : value :=
  default VNull (member k (rev (map (λ kv, (map_bytes lower_ascii kv.1, kv.2)) m))).

Definition as_string (v : value) : result string :=
  match v with VStr s => Ok s | VNull => Ok "" | _ => cannot_unmarshal v "string" end.

Definition as_int (v : value) : result Z :=
  match v with VNum n => Ok n | VNull => Ok 0%Z | _ => cannot_unmarshal v "int" end.

Definition as_bulk_build (v : value) : result (string * string) :=
  match v with
  | VObj m =>
      match as_string (struct_field m "id"), as_string (struct_field m "image_tag") with
      | Ok id, Ok tag => Ok (id, tag)
      | Err e, _ | _, Err e => Err e
      end
  | VNull => Ok ("", "")
  | _ => cannot_unmarshal v "struct"
  end.

Definition as_bulk (v : value) : result (Z * list (string * string)) :=
  match v with
  | VObj m =>
      let builds := match struct_field m "builds" with
                    | VList l => all_ok (map as_bulk_build l)
                    | VNull => Ok []
                    | w => cannot_unmarshal w "[]struct"
                    end in
      match as_int (struct_field m "count"), builds with
      | Ok n, Ok bs => Ok (n, bs)
      | Err e, _ | _, Err e => Err e
      end
  | VNull => Ok (0%Z, [])
  | _ => cannot_unmarshal v "struct"
  end.

(** ** Commands *)

Section commands.
Context (pack : tape → string) (fmt_v fmt_s : value → string).

(** [%v] and [%s] of an interface value. *)
Definition Sprintf_v (v : value) : string :=
  match v with VStr s => s | VNull => "<nil>" | _ => fmt_v v end.
Definition Sprintf_s (v : value) : string :=
  match v with VStr s => s | VNull => "%!s(<nil>)" | _ => fmt_s v end.

(** [%-12v]: padded to twelve runes. *)
Definition pad12 (s : string) : string :=
  s +:+ Join (replicate (12 - length (runes s)) " ") "".

Definition base_url (en : cli_env) (args : list string) : string :=
  TrimRightByte (getServerURL (getenv en) args) slash.

(** The build arguments become form fields, one for each flag. *)
Definition arg_field (a : string) : list part :=
  if HasPrefix a "--arg." then
    match split_eq (str_drop 6 a) with [k; v] => [FormField ("arg." +:+ k) v] | _ => [] end
  else [].

Definition submit_usage : string :=
  "usage: dtbuild submit <folder> [--tag <image:tag>] [--dockerfile <path>] [--arg.<key>=<value>...]".

Definition cmdSubmit (en : cli_env) (args : list string) : outcome :=
  let serverURL := base_url en args in
  match (parseArgs args).2 with
  | [] => fail submit_usage []
  | folder :: _ =>
      let tag := kvFlag args "--tag" in
      let dockerfile := if String.eqb (kvFlag args "--dockerfile") "" then "Dockerfile"
                        else kvFlag args "--dockerfile" in
      match readFile en (PathJoin [folder; dockerfile]) with
      | Err e => fail_err "error reading Dockerfile" e []
      | Ok dfContent =>
          match tarGz folder (lstat en folder) with
          | (Err e, _) => fail_err "error creating archive" e []
          | (Ok _, hs) =>
              let form := [FormFile "context" "context.tar.gz" (pack hs);
                           FormField "dockerfile" dfContent; FormField "image_tag" tag]
                          ++ concat (map arg_field args) in
              match doPost en (serverURL +:+ "/api/v1/builds") (FormDataContentType en) form with
              | (Err e, reqs) => fail_err "error" e reqs
              | (Ok resp, reqs) =>
                  match decode resp as_map with
                  | Err e => fail_err "error decoding response" e reqs
                  | Ok result =>
                      if negb (a_code resp =? StatusCreated)%Z then
                        fail ("error: server returned " +:+ Sprint (a_code resp)) reqs
                      else mkOutcome (line ("Build submitted: " +:+ Sprintf_s (field result "id"))) "" 0 reqs
                  end
              end
          end
      end
  end.

Definition cmdSubmitBulk (en : cli_env) (args : list string) : outcome :=
  let serverURL := base_url en args in
  match (parseArgs args).2 with
  | [] => fail "usage: dtbuild submit-bulk <root-folder> [--tag-prefix <prefix>] [--dockerfile <name>]" []
  | folder :: _ =>
      let tagPrefix := if String.eqb (kvFlag args "--tag-prefix") "" then "registry:80/bulk"
                       else kvFlag args "--tag-prefix" in
      match tarGz folder (lstat en folder) with
      | (Err e, _) => fail_err "error creating archive" e []
      | (Ok _, hs) =>
          let form := [FormFile "context" "context.tar.gz" (pack hs); FormField "tag_prefix" tagPrefix] in
          match doPost en (serverURL +:+ "/api/v1/builds/bulk") (FormDataContentType en) form with
          | (Err e, reqs) => fail_err "error" e reqs
          | (Ok resp, reqs) =>
              if negb (a_code resp =? StatusCreated)%Z then fail ("error: " +:+ a_text resp) reqs
              else
                match decode resp as_bulk with
                | Err e => fail_err "error decoding response" e reqs
                | Ok (count, builds) =>
                    mkOutcome (line ("Created " +:+ Sprint count +:+ " builds:") +:+
                      Join (map (λ b, line ("  " +:+ b.1 +:+ "  " +:+ b.2)) builds) "") "" 0 reqs
                end
          end
      end
  end.

Definition cmdStatus (en : cli_env) (args : list string) : outcome :=
  let serverURL := base_url en args in
  match (parseArgs args).2 with
  | [] => fail "usage: dtbuild status <build-id>" []
  | id :: _ =>
      match doGet en (serverURL +:+ "/api/v1/builds/" +:+ id) with
      | (Err e, reqs) => fail_err "error" e reqs
      | (Ok resp, reqs) =>
          if (a_code resp =? StatusNotFound)%Z then mkOutcome (line "build not found") "" 0 reqs
          else
            match decode resp as_map with
            | Err e => fail_err "error decoding response" e reqs
            | Ok build =>
                mkOutcome
                  (line ("ID:      " +:+ Sprintf_v (field build "id")) +:+
                   line ("Status:  " +:+ Sprintf_v (field build "status")) +:+
                   line ("Image:   " +:+ Sprintf_v (field build "image_tag")) +:+
                   match field build "error" with
                   | VStr "" => ""
                   | e => line ("Error:   " +:+ Sprintf_v e)
                   end) "" 0 reqs
            end
      end
  end.

Definition cmdLogs (en : cli_env) (args : list string) : outcome :=
  let serverURL := base_url en args in
  match (parseArgs args).2 with
  | [] => fail "usage: dtbuild logs <build-id>" []
  | id :: _ =>
      match doGet en (serverURL +:+ "/api/v1/builds/" +:+ id +:+ "/logs") with
      | (Err e, reqs) => fail_err "error" e reqs
      | (Ok resp, reqs) => mkOutcome (a_text resp) "" 0 reqs
      end
  end.

Definition cmdList (en : cli_env) (args : list string) : outcome :=
  let serverURL := base_url en args in
  match doGet en (serverURL +:+ "/api/v1/builds") with
  | (Err e, reqs) => fail_err "error" e reqs
  | (Ok resp, reqs) =>
      match decode resp as_maps with
      | Err e => fail_err "error decoding response" e reqs
      | Ok builds =>
          mkOutcome (Join (map (λ b, line (Sprintf_v (field b "id") +:+ "  " +:+
            pad12 (Sprintf_v (field b "status")) +:+ "  " +:+ Sprintf_v (field b "image_tag"))) builds) "")
            "" 0 reqs
      end
  end.

Definition printUsage : string :=
  line "dtbuild — distributed BuildKit image builder" +:+
  line "" +:+
  line "Usage:" +:+
  line ("  dtbuild submit <folder> [--tag <image:tag>] [--dockerfile <path>] [--arg.<key>=<value>...]"
        +:+ String "034" ")") +:+
  line "  dtbuild status <build-id> [--server <url>]" +:+
  line "  dtbuild logs   <build-id> [--server <url>]" +:+
  line "  dtbuild list   [--server <url>]".

(** [argv] is [os.Args] without the program's name. *)
Definition main (en : cli_env) (argv : list string) : outcome :=
  match argv with
  | [] => mkOutcome printUsage "" 1 []
  | cmd :: args =>
      if String.eqb cmd "submit" then cmdSubmit en args
      else if String.eqb cmd "submit-bulk" then cmdSubmitBulk en args
      else if String.eqb cmd "status" then cmdStatus en args
      else if String.eqb cmd "logs" then cmdLogs en args
      else if String.eqb cmd "list" then cmdList en args
      else mkOutcome printUsage (line ("unknown command: " +:+ cmd)) 1 []
  end.
End commands.

Section examples.
Example parse_args_ex :
  parseArgs ["ctx"; "--tag"; "a:1"; "--arg.X=1=2"; "--arg.bad"; "--verbose"; "--server"; "http://s"] =
  ({["X" := "1=2"]}, ["ctx"]).
Proof. vm_compute. reflexivity. Qed.
(** A flag without a value takes the next argument for its value. *)
Example parse_args_ex2 : (parseArgs ["--verbose"; "ctx"]).2 = [].
Proof. reflexivity. Qed.
End examples.

(** ** Command lines *)

(** What a user writes: words, flags with a value, build arguments. *)
Inductive item :=
  | IWord (s : string)
  | IFlag (k v : string)
  | IArg (k v : string).

Definition render_item (i : item) : list string :=
  match i with
  | IWord s => [s]
  | IFlag k v => [k; v]
  | IArg k v => ["--arg." +:+ k +:+ "=" +:+ v]
  end.

Definition command_line (items : list item) : list string := concat (map render_item items).

Definition flag_key (k : string) : Prop := HasPrefix k "--" = true ∧ HasPrefix k "--arg." = false.

(** Words and values do not start with two dashes, an argument's key has no equals
    sign. *)
Definition item_ok (i : item) : Prop :=
  match i with
  | IWord s => HasPrefix s "--" = false
  | IFlag k v => flag_key k ∧ HasPrefix v "--" = false
  | IArg k v => str_all (λ c, negb (Ascii.eqb c "=")) k = true
  end.

(** What it means. *)
Definition words (items : list item) : list string :=
  omap (λ i, match i with IWord s => Some s | _ => None end) items.

Definition build_args (items : list item) : list (string * string) :=
  omap (λ i, match i with IArg k v => Some (k, v) | _ => None end) items.

Definition flag_value (items : list item) (key : string) : option string :=
  head (omap (λ i, match i with IFlag k v => if String.eqb k key then Some v else None | _ => None end) items).

Lemma split_eq_arg k v :
  str_all (λ c, negb (Ascii.eqb c "=")) k = true → split_eq (k +:+ "=" +:+ v) = [k; v].
Proof.
  intros Hk. unfold split_eq.
  change ("=" +:+ v) with (String "=" v). rewrite Index_char by done.
  rewrite str_take_app. f_equal.
  replace (S (strlen k)) with (strlen (k +:+ "=")) by (rewrite strlen_app; simpl; lia).
  replace (k +:+ String "=" v) with ((k +:+ "=") +:+ v) by (by rewrite <- str_app_assoc).
  by rewrite str_drop_app.
Qed.

Lemma arg_prefix k : HasPrefix ("--arg." +:+ k) "--arg." = true ∧ str_drop 6 ("--arg." +:+ k) = k.
Proof. split; [apply HasPrefix_app|done]. Qed.

Lemma word_not_arg s : HasPrefix s "--" = false → HasPrefix s "--arg." = false.
Proof.
  intros Hs. apply not_true_iff_false. intros [t ->]%HasPrefix_inv.
  pose proof (HasPrefix_app "--" ("arg." +:+ t)) as Hp. change ("--" +:+ "arg." +:+ t) with ("--arg." +:+ t) in Hp.
  congruence.
Qed.

Lemma parse_loop_items items kv pos :
  Forall item_ok items →
  parse_loop (command_line items) kv pos =
    (foldl (λ m kv, <[kv.1 := kv.2]> m) kv (build_args items), pos ++ words items).
Proof.
  intros Hok. revert kv pos; induction Hok as [|i items Hi _ IH]; intros kv pos.
  { cbn. by rewrite app_nil_r. }
  unfold command_line in *. cbn [map concat].
  destruct i as [s|k v|k v]; cbn [item_ok render_item app] in *; cbn [parse_loop].
  - rewrite (word_not_arg s Hi), Hi. cbn [negb]. rewrite IH, <- app_assoc. done.
  - destruct Hi as [[Hk1 Hk2] Hv]. rewrite Hk2, Hk1, Hv. cbn [negb]. by rewrite IH.
  - destruct (arg_prefix (k +:+ "=" +:+ v)) as [-> ->]. rewrite split_eq_arg by done. by rewrite IH.
Qed.

(** No other word of a command line is a flag. *)
Lemma not_flag s key : flag_key key → HasPrefix s "--" = false → String.eqb s key = false.
Proof. intros [Hk _] Hs. apply String.eqb_neq. intros ->. congruence. Qed.

Lemma arg_not_flag k key : flag_key key → String.eqb ("--arg." +:+ k) key = false.
Proof. intros [_ Hk]. apply String.eqb_neq. intros <-. by rewrite HasPrefix_app in Hk. Qed.

Lemma kvFlag_cons a rest key : String.eqb a key = false → kvFlag (a :: rest) key = kvFlag rest key.
Proof. intros Ha. destruct rest as [|b rest]; [done|]. cbn [kvFlag]. by rewrite Ha. Qed.

Lemma server_flag_cons a rest : String.eqb a "--server" = false → server_flag (a :: rest) = server_flag rest.
Proof. intros Ha. destruct rest as [|b rest]; [done|]. cbn [server_flag]. by rewrite Ha. Qed.

Lemma kvFlag_items items key :
  Forall item_ok items → flag_key key →
  kvFlag (command_line items) key = default "" (flag_value items key).
Proof.
  intros Hok Hkey. unfold command_line, flag_value. induction Hok as [|i items Hi _ IH]; [done|].
  cbn [map concat]. destruct i as [s|k v|k v]; cbn [item_ok render_item app] in *.
  - rewrite kvFlag_cons by (by apply not_flag). exact IH.
  - destruct Hi as [_ Hv]. cbn [kvFlag]. rewrite Hv, andb_true_r. cbn. destruct (String.eqb k key); [done|].
    exact (eq_trans (kvFlag_cons v _ key (not_flag v key Hkey Hv)) IH).
  - rewrite kvFlag_cons by (by apply arg_not_flag). exact IH.
Qed.

Lemma server_flag_items items :
  Forall item_ok items → server_flag (command_line items) = flag_value items "--server".
Proof.
  assert (flag_key "--server") as Hkey by done.
  intros Hok. unfold command_line, flag_value. induction Hok as [|i items Hi _ IH]; [done|].
  cbn [map concat]. destruct i as [s|k v|k v]; cbn [item_ok render_item app] in *.
  - rewrite server_flag_cons by (by apply not_flag). exact IH.
  - destruct Hi as [_ Hv]. cbn [server_flag]. cbn. destruct (String.eqb k "--server"); [done|].
    exact (eq_trans (server_flag_cons v _ (not_flag v "--server" Hkey Hv)) IH).
  - rewrite server_flag_cons by (by apply arg_not_flag). exact IH.
Qed.

Lemma arg_field_other s : HasPrefix s "--arg." = false → arg_field s = [].
Proof. intros Hs. unfold arg_field. by rewrite Hs. Qed.

Lemma arg_fields_items items :
  Forall item_ok items →
  concat (map arg_field (command_line items)) = map (λ kv, FormField ("arg." +:+ kv.1) kv.2) (build_args items).
Proof.
  assert (∀ s, HasPrefix s "--" = false → arg_field s = []) as Hno.
  { intros s Hs. by apply arg_field_other, word_not_arg. }
  unfold command_line. induction 1 as [|i items Hi _ IH]; [done|]. cbn [map concat].
  rewrite map_app, concat_app, IH. destruct i as [s|k v|k v]; cbn [item_ok render_item map concat] in *.
  - by rewrite Hno.
  - destruct Hi as [[_ Hk] Hv]. by rewrite (arg_field_other k Hk), Hno.
  - unfold arg_field. destruct (arg_prefix (k +:+ "=" +:+ v)) as [-> ->]. by rewrite split_eq_arg.
Qed.

(** ** Properties *)

(** C36. A command line means what it says, in whatever order it is written: words are the
    positional arguments, every flag yields the value written first for it, the server
    is the one of [--server], of the environment or the default, in this order, and the
    build arguments, each key with the value given last, are those written, one form
    field for each. *)
Theorem command_line_parsed items (Hok : Forall item_ok items) :
  let args := command_line items in
  parseArgs args = (foldl (λ m kv, <[kv.1 := kv.2]> m) ∅ (build_args items), words items) ∧
  (∀ key, flag_key key → kvFlag args key = default "" (flag_value items key)) ∧
  (∀ genv, getServerURL genv args =
     match flag_value items "--server" with
     | Some u => u
     | None => if String.eqb (genv "DTBUILD_SERVER") "" then defaultServer else genv "DTBUILD_SERVER"
     end) ∧
  concat (map arg_field args) = map (λ kv, FormField ("arg." +:+ kv.1) kv.2) (build_args items).
Proof.
  intros args. split_and!.
  - exact (parse_loop_items items ∅ [] Hok).
  - intros key Hkey. by apply kvFlag_items.
  - intros genv. unfold args, getServerURL. by rewrite server_flag_items.
  - by apply arg_fields_items.
Qed.

Definition items0 : list item :=
  [IFlag "--tag" "app:1"; IArg "V" "1=2"; IWord "ctx"; IFlag "--server" "http://b/"].

Lemma command_line_parsed_witness :
  command_line items0 = ["--tag"; "app:1"; "--arg.V=1=2"; "ctx"; "--server"; "http://b/"] ∧
  (parseArgs (command_line items0)).2 = ["ctx"] ∧ kvFlag (command_line items0) "--tag" = "app:1".
Proof.
  destruct (command_line_parsed items0) as (Hp & Hk & _ & _); [repeat constructor|].
  split; [reflexivity|]. split; [rewrite Hp; reflexivity|]. rewrite Hk; [reflexivity|split; reflexivity].
Defined.

(** *** What a submission sends *)

Section submission.
Context (pack : tape → string) (fmt_v fmt_s : value → string).

(** The form of a submission. *)
Definition submission (dfContent tag : string) (hs : tape) (bargs : list (string * string)) : list part :=
  [FormFile "context" "context.tar.gz" (pack hs); FormField "dockerfile" dfContent; FormField "image_tag" tag]
    ++ map (λ kv, FormField ("arg." +:+ kv.1) kv.2) bargs.

(** C37. dtbuild submit exits with 0 exactly if a folder is named, its Dockerfile can be read,
    the folder archived, the request made, and the server answers 201 with a JSON object
    (or null); it has then sent one POST to /api/v1/builds of the chosen server, with the
    archive, the Dockerfile's text, the tag and the build arguments, and the API key if
    there is one.  Every other run exits with 1. *)
Theorem cmdSubmit_exit en items (Hok : Forall item_ok items) :
  let args := command_line items in
  let o := cmdSubmit pack fmt_s en args in
  (exit_code o = 0%Z ∨ exit_code o = 1%Z) ∧
  (exit_code o = 0%Z ↔
    ∃ folder rest text hs resp fields,
      let tag := default "" (flag_value items "--tag") in
      let df := default "" (flag_value items "--dockerfile") in
      let req := mkRequest "POST" (base_url en args +:+ "/api/v1/builds")
                   (("Content-Type", FormDataContentType en) :: key_header en)
                   (submission text tag hs (build_args items)) in
      words items = folder :: rest ∧
      readFile en (PathJoin [folder; if String.eqb df "" then "Dockerfile" else df]) = Ok text ∧
      tarGz folder (lstat en folder) = (Ok (), hs) ∧
      newRequest en (r_url req) = None ∧ do en req = Ok resp ∧
      a_code resp = StatusCreated ∧ decode resp as_map = Ok fields ∧
      sent o = [req] ∧ stdout o = line ("Build submitted: " +:+ Sprintf_s fmt_s (field fields "id"))).
Proof.
  intros args o. subst o. unfold cmdSubmit.
  assert ((parseArgs args).2 = words items) as -> by exact (f_equal snd (parse_loop_items items ∅ [] Hok)).
  assert (∀ key, flag_key key → kvFlag args key = default "" (flag_value items key)) as Hkv.
  { intros key Hkey. by apply kvFlag_items. }
  rewrite (Hkv "--tag"), (Hkv "--dockerfile") by done. clear Hkv.
  destruct (words items) as [|folder rest].
  { split; [by right|]. split; [done|]. by intros (?&?&?&?&?&?&?&_). }
  set (df := default "" (flag_value items "--dockerfile")). set (tag := default "" (flag_value items "--tag")).
  destruct (readFile en _) as [text|e] eqn:Er.
  2: { split; [by right|]. split; [done|]. intros (?&?&?&?&?&?&Hw&Hr&_). simplify_eq/=. congruence. }
  destruct (tarGz folder (lstat en folder)) as [[[]|e] hs] eqn:Et.
  2: { split; [by right|]. split; [done|]. intros (?&?&?&?&?&?&Hw&_&Ht&_). simplify_eq/=. congruence. }
  unfold args. rewrite (arg_fields_items items Hok). fold args. fold (submission text tag hs (build_args items)).
  unfold doPost, send. rewrite (proj2 (String.eqb_neq (FormDataContentType en) "")) by done. cbn [app].
  set (req := mkRequest "POST" _ _ _).
  destruct (newRequest en (r_url req)) as [e|] eqn:En; cbn [req r_url] in En.
  { split; [by right|]. split; [done|]. intros (?&?&?&?&?&?&_&_&_&Hn&_). simpl in Hn. congruence. }
  destruct (do en req) as [resp|e] eqn:Ed.
  2: { split; [by right|]. split; [done|]. intros (?&?&?&?&?&?&Hw&Hr&Ht&_&Hd&_). simplify_eq/=.
       rewrite Hr in Er. rewrite Ht in Et. simplify_eq. unfold req in Ed. congruence. }
  destruct (decode resp as_map) as [fields|e] eqn:Ej.
  2: { split; [by right|]. split; [done|]. intros (?&?&?&?&?&?&Hw&Hr&Ht&_&Hd&_&Hj&_). simplify_eq/=.
       rewrite Hr in Er. rewrite Ht in Et. simplify_eq. unfold req in Ed. rewrite Hd in Ed. simplify_eq. congruence. }
  destruct (a_code resp =? StatusCreated)%Z eqn:Ec; cbn [negb]; bool_split.
  - split; [by left|]. split; [intros _|done]. exists folder, rest, text, hs, resp, fields. by split_and!.
  - split; [by right|]. split; [done|]. intros (?&?&?&?&?&?&Hw&Hr&Ht&_&Hd&Hc&_). simplify_eq/=.
    rewrite Hr in Er. rewrite Ht in Et. simplify_eq. unfold req in Ed. rewrite Hd in Ed. by simplify_eq.
Qed.
End submission.

(** ** A run *)

Definition cli_env0 : cli_env :=
  mkCliEnv (λ _, "") (λ _, Ok "FROM alpine") (λ _, TDir None []) "x" (λ _, None)
    (λ _, Ok (mkAnswer StatusCreated "" (Ok (VObj [("id", VStr "b1")])))).

Lemma cmdSubmit_exit_witness :
  let o := cmdSubmit (λ _, "archive") (λ _, "") cli_env0 (command_line items0) in
  exit_code o = 0%Z ∧
  ∃ folder rest text hs resp fields,
    words items0 = folder :: rest ∧ readFile cli_env0 (PathJoin [folder; "Dockerfile"]) = Ok text ∧
    tarGz folder (lstat cli_env0 folder) = (Ok (), hs) ∧ decode resp as_map = Ok fields ∧
    stdout o = line ("Build submitted: " +:+ Sprintf_s (λ _, "") (field fields "id")).
Proof.
  destruct (cmdSubmit_exit (λ _, "archive") (λ _, "") cli_env0 items0) as [_ He]; [repeat constructor|].
  assert (exit_code (cmdSubmit (λ _, "archive") (λ _, "") cli_env0 (command_line items0)) = 0%Z) as Hz
    by (vm_compute; reflexivity).
  split; [exact Hz|].
  destruct (proj1 He Hz) as (folder & rest & text & hs & resp & fields & Hw & Hr & Ht & _ & _ & _ & Hj & _ & Ho).
  exists folder, rest, text, hs, resp, fields. split_and!; [exact Hw|exact Hr|exact Ht|exact Hj|exact Ho].
Defined.
