(* ===== verification/Cluster.v ===== *)
(** * The system

    The parts together: which handler the requests of the workers and of the client
    reach, how a request changes a build's row, and the cluster, in which workers poll,
    build and report over a network that may lose requests and answers while other
    clients and the server's maintenance act in between. *)

From S2P Require Import Repo Queue Scheduler Service Engine LogBroker Paths BlobStore BuildkitClient Worker.
From S2P Require Import Tar Http Api Cli.
From S2P Require Import Prelude Float64 GoStrings GoSort GoTime Hashing Domain Persister RepoPersister.
From Stdlib Require Import Ascii.

(** ** What a request does to a row *)

Abbreviation sview s := (view (repo (engine s))).
Abbreviation row := (option (Status * string)).

Section rows.
Context `{!Sorter node_le} `{!Sorter pending_order} `{!Sorter newest_first} `{UnicodeTables}.
Context {St F : Type} `{!BlobStore St F}.
Implicit Types s : Server St.

Definition is_submit (op : api_op (F := F)) : bool := match op with OSubmit _ _ _ _ _ => true | _ => false end.
Definition is_gc (op : api_op (F := F)) : bool := match op with OGCTick _ _ _ | OManualGC _ _ _ => true | _ => false end.

(** One request's effect on the status and the worker of one build. *)
Inductive row_move s (op : api_op (F := F)) (id : string) : row → row → Prop :=
  | rm_same x : row_move s op id x x
  | rm_submitted enC enU f uuid r b :
      op = OSubmit enC enU f uuid r → body (submitBuild enC enU f uuid s r).1 = PBuild b → ID b = id →
      row_move s op id None (Some (StatusPending, ""))
  | rm_claimed enL enU w w0 :
      op = ONext enL enU w → row_move s op id (Some (StatusPending, w0)) (Some (StatusBuilding, w))
  | rm_finished st0 st w :
      IsTerminal st0 = false → IsTerminal st = true → is_submit op = false → is_gc op = false →
      row_move s op id (Some (st0, w)) (Some (st, w))
  | rm_requeued eP e1 e2 nowP nowR w :
      op = OWorkerTick eP e1 e2 nowP nowR →
      stale_worker (utc (nowR - 60 * second)) (repo (engine s)) w = true →
      row_move s op id (Some (StatusBuilding, w)) (Some (StatusPending, ""))
  | rm_collected st w :
      IsTerminal st = true → is_gc op = true → row_move s op id (Some (st, w)) None.

Lemma row_move_eq s op id x y : x = y → row_move s op id x y.
Proof. intros ->. apply rm_same. Qed.

Lemma reassign_rows e1 e2 now db wt bt id :
  modern now → db_wf db →
  let v := db_view db in let v' := db_view (ReassignStale e1 e2 now db wt bt).2 in
  v' !! id = v !! id ∨
  ∃ w, v !! id = Some (StatusBuilding, w) ∧
    (v' !! id = Some (StatusTimedOut, w) ∨
     v' !! id = Some (StatusPending, "") ∧ stale_worker (utc (now - wt)) db w = true).
Proof.
  intros Hn Hdb v v'. subst v v'. rewrite ReassignStale_eq by done. destruct e1; [by left|].
  assert (∀ r, timed_out (utc now) r = true → r_status r = StatusBuilding) as Ht.
  { intros r. unfold timed_out. intros [Hb _]%andb_true_iff. by apply is_building_status. }
  pose proof (lookup_update (timed_out (utc now)) (set_row (Some StatusTimedOut) None "" (Some "build timed out")
    (utc now) (Some (utc now))) db id) as H1. fold (reassign1 now db) in H1.
  pose proof (lookup_update (λ r, is_building r && stale_worker (utc (now - wt)) (reassign1 now db) (r_worker_id r))
    (set_row (Some StatusPending) (Some "") "" None (utc now) None) (reassign1 now db) id) as H2.
  fold (reassign2 now (utc (now - wt)) (reassign1 now db)) in H2.
  destruct e2; cbn [snd]; rewrite !lookup_db_view, ?H2, H1; destruct (builds db !! id) as [r|]; cbn;
    [|by left| |by left];
    (destruct (timed_out (utc now) r) eqn:E; [right; exists (r_worker_id r); unfold row_view at 1; rewrite (Ht r E)|]).
  - split; [done|by left].
  - by left.
  - split; [done|]. by left.
  - destruct (is_building r && _) eqn:E2; [right|by left].
    apply andb_true_iff in E2 as [Hb%is_building_status Hst]. exists (r_worker_id r).
    unfold row_view at 1. rewrite Hb. split; [done|]. right. split; [done|]. exact Hst.
Qed.

(** The maintenance of the worker table. *)
Lemma worker_tick_rows eP e1 e2 nowP nowR s id :
  engine_wf (engine s) → modern nowR →
  row_move s (OWorkerTick eP e1 e2 nowP nowR) id (sview s !! id) (sview (worker_tick eP e1 e2 nowP nowR s) !! id).
Proof.
  intros Hwf Hn. unfold worker_tick. cbn [engine set_engine].
  pose proof (engine_step_wf _ (EPrune eP nowP (30 * second)) Hwf I) as Hp. simpl in Hp.
  unfold PruneStale in *. pose proof (ewf_service _ Hp) as [Hdb _].
  assert (db_view (MarkOffline eP nowP (repo (engine s)) (30 * second)).2 = sview s ∧
    ∀ c w, stale_worker c (MarkOffline eP nowP (repo (engine s)) (30 * second)).2 w =
           stale_worker c (repo (engine s)) w) as [Hbs Hst].
  { unfold MarkOffline. destruct eP; [done|]. split; [done|]. intros c w. unfold stale_worker. cbn [snd db_workers].
    rewrite lookup_fmap. destruct (db_workers (repo (engine s)) !! w) as [wr|]; [|done]. cbn.
    by destruct (_ && _). }
  destruct (MarkOffline eP nowP (repo (engine s)) (30 * second)) as [res db]. cbn [fst snd repo set_repo] in *.
  unfold ReassignStaleBuilds. cbn [repo set_repo].
  pose proof (reassign_rows e1 e2 nowR db (60 * second) (10 * minute) id Hn Hdb) as Hr.
  cbn zeta in Hr. rewrite Hbs in Hr.
  destruct (ReassignStale e1 e2 nowR db (60 * second) (10 * minute)) as [res' db']. cbn [fst snd repo set_repo] in *.
  change (view db' !! id) with (db_view db' !! id).
  destruct Hr as [->|(w & -> & [->|[-> Hs]])]; [apply rm_same|by apply rm_finished|].
  eapply rm_requeued; [done|]. by rewrite <- Hst.
Qed.

Lemma rate_view e db id rate : db_view (SetCacheRate e db id rate).2 = db_view db.
Proof.
  destruct e; [done|]. apply map_eq. intros k. rewrite !lookup_db_view. cbn [SetCacheRate snd].
  rewrite lookup_update. destruct (builds db !! k) as [r|]; [|done]. cbn. by destruct (has_id id r).
Qed.

Lemma gc_rows s op e db off before id :
  is_gc op = true → row_move s op id (db_view db !! id) (db_view (GC e db off before).2 !! id).
Proof.
  intros Hop. destruct e; [apply rm_same|]. cbn [GC snd]. rewrite !lookup_db_view. cbn [builds].
  rewrite map_lookup_filter. destruct (builds db !! id) as [r|]; [|apply rm_same]. cbn.
  destruct (collectable (Format off before) r) eqn:E.
  - rewrite option_guard_False by congruence. cbn. unfold row_view. apply rm_collected; [|done].
    unfold collectable in E. by apply andb_true_iff in E as [? _].
  - rewrite option_guard_True by done. apply rm_same.
Qed.

(** What each request may do. *)
Lemma api_row_move s op id :
  engine_wf (engine s) → api_op_ok s op → row_move s op id (sview s !! id) (sview (api_step s op) !! id).
Proof.
  intros Hwf Hok. pose proof (ewf_service _ Hwf) as Hs.
  destruct op as [enC enU f uuid r|enL enU w|enU i txt|enU enG eR i rep|enG enU i|e now rep
    |eP e1 e2 nowP nowR|e off now|e off now]; cbn [api_step api_op_ok] in *.
  - pose proof (submitBuild_contract enC enU f uuid s r Hs Hok) as Hc.
    destruct (submitBuild enC enU f uuid s r) as [resp s'] eqn:E. cbn [snd].
    destruct Hc as [(_ & b & Hb & _ & Hnone & Hv & _)|(_ & Hv & _)]; rewrite Hv; [|apply rm_same].
    destruct (decide (ID b = id)) as [<-|Hne]; [|rewrite lookup_insert_ne by done; apply rm_same].
    rewrite Hnone, lookup_insert_eq. eapply (rm_submitted _ _ _ enC enU f uuid r b); [done| |done]. by rewrite E.
  - unfold getNextBuild. destruct (String.eqb w ""); [apply rm_same|].
    pose proof (AssignBuild_spec enL enU (engine s) w Hs Hok) as Ha.
    destruct (AssignBuild enL enU (engine s) w) as [[[b|]|e] eng]; destruct Ha as (_ & _ & Ha); cbn.
    + destruct Ha as ([w0 Hp] & _ & _ & Hv). cbn in Hv. rewrite Hv.
      destruct (decide (ID b = id)) as [<-|Hne]; [|rewrite lookup_insert_ne by done; apply rm_same].
      rewrite lookup_insert_eq. cbn in Hp. rewrite Hp. by eapply rm_claimed.
    + destruct Ha as [Hv _]. cbn in Hv. rewrite Hv. apply rm_same.
    + destruct Ha as [Hv _]. cbn in Hv. rewrite Hv. apply rm_same.
  - unfold appendLog. pose proof (AppendLog_spec enU (engine s) i txt Hs Hok) as Ha.
    destruct (AppendLog enU (engine s) i txt) as [[u|e] eng]; destruct Ha as (_ & _ & _ & Hv); cbn in Hv.
    + destruct (publish _ _ _); cbn; rewrite Hv; apply rm_same.
    + cbn. rewrite Hv. apply rm_same.
  - unfold completeBuild. destruct rep as [c|]; [|apply rm_same]. destruct Hok as (Hn & Ht & Hp).
    pose proof (CompleteBuild_spec enU enG (engine s) i (c_status c) (c_error c) Hs Hn Ht Hp) as Hc.
    destruct (CompleteBuild enU enG (engine s) i (c_status c) (c_error c)) as [[u|e] eng];
      destruct Hc as (Hwf' & _ & Hv); [|destruct Hv as [Hv _]]; cbn in Hv |- *; [|rewrite Hv; apply rm_same].
    assert (db_view (repo (if f64_leb f64_zero (c_rate c) then (set_rate eR eng i (c_rate c)).2 else eng)) =
            db_view (repo eng)) as ->.
    { destruct (f64_leb _ _); [|done]. unfold set_rate. rewrite <- (rate_view eR (repo eng) i (c_rate c)).
      by destruct (SetCacheRate eR (repo eng) i (c_rate c)). }
    rewrite Hv. unfold view_update. destruct (db_view (repo (engine s)) !! i) as [[st w]|] eqn:Ei; [|apply rm_same].
    rewrite Ht. destruct (IsTerminal st) eqn:Est; [apply rm_same|]. cbn.
    destruct (decide (i = id)) as [<-|Hne]; [|rewrite lookup_insert_ne by done; apply rm_same].
    rewrite lookup_insert_eq, Ei. by apply rm_finished.
  - unfold cancelBuild. pose proof (CancelBuild_spec enG enU (engine s) i Hs Hok) as Hc.
    destruct (CancelBuild enG enU (engine s) i) as [[u|e] eng]; destruct Hc as (_ & _ & Hc); cbn.
    + destruct Hc as (st & w & Hi & Hst & Hv & _). cbn in Hv, Hi. rewrite Hv.
      destruct (decide (i = id)) as [<-|Hne]; [|rewrite lookup_insert_ne by done; apply rm_same].
      rewrite lookup_insert_eq, Hi. apply rm_finished; try done. by destruct Hst as [->| ->].
    + destruct Hc as [Hv _]. cbn in Hv. rewrite Hv. apply rm_same.
  - unfold workerHeartbeat. destruct rep as [w|]; [|apply rm_same]. unfold Heartbeat, Upsert.
    destruct e; apply rm_same.
  - by apply worker_tick_rows.
  - pose proof (gc_rows s (OGCTick e off now) e (repo (engine s)) off (now - 24 * hour) id eq_refl) as Hg.
    unfold gc_tick, GCCompleted. by destruct (GC e (repo (engine s)) off (now - 24 * hour)).
  - pose proof (gc_rows s (OManualGC e off now) e (repo (engine s)) off (now - 1 * hour) id eq_refl) as Hg.
    unfold manualGC, GCCompleted. by destruct (GC e (repo (engine s)) off (now - 1 * hour)) as [[] ?].
Qed.
End rows.

(** ** Workers and the server *)

(** What a worker is doing: waiting for its next poll, asking for a build, building, or
    reporting with so many posts left. *)
Inductive phase :=
  | Idle
  | Fetching
  | Running (b : Domain.Build)
  | Reporting (r : report) (left : nat).

Record member := mkMember { wk : Worker.Worker; wdisk : files; ph : phase }.

Definition set_phase (m : member) (p : phase) : member := mkMember (wk m) (wdisk m) p.

(** The build a worker has in its hands. *)
Definition held (m : member) : option string :=
  match ph m with
  | Running b => Some (ID b)
  | Reporting r _ => Some (rep_id r)
  | _ => None
  end.

(** What the worker makes of the answer to its poll: it goes on only with a build. *)
Definition fetched (resp : response) : result (Z * option Domain.Build) :=
  Ok (code resp, match body resp with PBuild b => Some b | _ => None end).

Definition taken (next : result (Z * option Domain.Build)) : phase :=
  match next with
  | Ok (c, Some b) => if (c =? 200)%Z && negb (String.eqb (ID b) "") then Running b else Idle
  | _ => Idle
  end.

Definition completion (r : report) : complete_json := mkComplete (rep_status r) (rep_error r) (rep_rate r).

Definition retry (r : report) (left : nat) : phase := if (left =? 0)%nat then Idle else Reporting r left.

Section cluster.
Context `{!Sorter node_le} `{!Sorter pending_order} `{!Sorter newest_first} `{UnicodeTables}.
Context {St F : Type} `{!BlobStore St F}.
Context `{UnicodePrint} (decode : string → option rawMessage) (cwd : list string).

Record cluster := mkCluster { srv : Server St; workers : gmap string member }.
Implicit Types x y z : cluster.

Definition set_member x (k : string) (m : member) : cluster := mkCluster (srv x) (<[k := m]> (workers x)).

(** Requests that workers do not make when they fetch and report. *)
Definition other_op (op : api_op (F := F)) : bool :=
  match op with ONext _ _ _ | OComplete _ _ _ _ _ => false | _ => true end.

(** No id is submitted again while a worker still has its build, and the maintenance finds
    recent heartbeats of the workers that have a build. *)
Definition spared x (op : api_op (F := F)) : Prop :=
  ∀ k m id, workers x !! k = Some m → held m = Some id →
  match op with
  | OSubmit enC enU f uuid r => ∀ b, body (submitBuild enC enU f uuid (srv x) r).1 = PBuild b → ID b ≠ id
  | OWorkerTick _ _ _ _ nowR => stale_worker (utc (nowR - 60 * second)) (repo (engine (srv x))) k = false
  | _ => True
  end.

(** The steps of the cluster; [heard] says whether the worker gets the server's answer. *)
Inductive cstep : cluster → cluster → Prop :=
  | c_request x op :
      other_op op = true → api_op_ok (srv x) op → spared x op →
      cstep x (mkCluster (api_step (srv x) op) (workers x))
  | c_join x k w fs :
      workers x !! k = None → W_ID w = k → cstep x (set_member x k (mkMember w fs Idle))
  | c_crash x k : cstep x (mkCluster (srv x) (delete k (workers x)))
  | c_poll x k m :
      workers x !! k = Some m → ph m = Idle → cstep x (set_member x k (set_phase m Fetching))
  | c_fetch x k m enL enU (heard : bool) :
      workers x !! k = Some m → ph m = Fetching → modern (env_now enU) →
      let a := getNextBuild enL enU (srv x) k in
      cstep x (mkCluster a.2 (<[k := set_phase m (if heard then taken (fetched a.1) else Idle)]> (workers x)))
  | c_fetch_lost x k m :
      workers x !! k = Some m → ph m = Fetching → cstep x (set_member x k (set_phase m Idle))
  | c_attempt x k m b en res reports lines w' fs' :
      workers x !! k = Some m → ph m = Running b →
      tryExecuteBuild decode cwd (wk m) en (wdisk m) (Ok (200%Z, Some b)) = Some (res, reports, lines, w', fs') →
      cstep x (set_member x k (mkMember w' fs' match reports with r :: _ => Reporting r 3 | [] => Idle end))
  | c_post x k m r left enU enG eR (heard : bool) :
      workers x !! k = Some m → ph m = Reporting r (S left) → modern (env_now enU) →
      let a := completeBuild enU enG eR (srv x) (rep_id r) (Ok (completion r)) in
      cstep x (mkCluster a.2
        (<[k := set_phase m (if heard && accepted (Some (code a.1)) then Idle else retry r left)]> (workers x)))
  | c_post_lost x k m r left :
      workers x !! k = Some m → ph m = Reporting r (S left) →
      cstep x (set_member x k (set_phase m (retry r left))).

(** A worker that goes idle after its poll has done nothing: the split of tryExecuteBuild
    at the answer is the code's. *)
Lemma taken_idle w en fs next :
  taken next = Idle → ∃ res, tryExecuteBuild decode cwd w en fs next = Some (res, [], [], w, fs).
Proof.
  destruct next as [[c [b|]]|e]; cbn; [| |by eauto].
  - destruct (c =? 200)%Z eqn:Ec; cbn.
    + destruct (String.eqb (ID b) ""); [|done]. intros _. destruct (c =? 204)%Z; cbn; by eauto.
    + intros _. rewrite orb_true_r. by eauto.
  - intros _. destruct (_ || _); by eauto.
Qed.

(** What an attempt reports is about its build and final. *)
Lemma reports_final w en fs b res reports lines w' fs' :
  tryExecuteBuild decode cwd w en fs (Ok (200%Z, Some b)) = Some (res, reports, lines, w', fs') →
  Forall (λ r, rep_id r = ID b ∧ IsTerminal (rep_status r) = true) reports.
Proof.
  unfold tryExecuteBuild. cbn [Z.eqb Pos.eqb orb negb].
  destruct (String.eqb (ID b) ""); [by intros [= <- <- <- <- <-]|].
  destruct (slice_to _ 12); [|done]. cbn [mbind option_bind].
  destruct (MkdirAll _ _ _ _) as [[u|e] fs1]; [|intros [= <- <- <- <- <-]; by repeat constructor].
  unfold attempt_in. destruct (downloadContext _ _ _ _ _) as [[u1|e] fs2];
    [|cbn; intros [= <- <- <- <- <-]; by repeat constructor].
  destruct (if inline_dockerfile _ then _ else _) as [[u2|e] fs3];
    [|cbn; intros [= <- <- <- <- <-]; by repeat constructor].
  destruct (executeBuild _ _ _ _ _ _ _ _) as [[[r|e] ls]|]; [..|done]; cbn;
    intros [= <- <- <- <- <-]; by repeat constructor.
Qed.

(** *** The invariant *)

Definition holds (ws : gmap string member) (k id : string) : Prop :=
  ∃ m, ws !! k = Some m ∧ held m = Some id.

(** The row of a build that the worker [k] has: it names [k] and is not pending, if it was
    not collected meanwhile. *)
Definition row_of (k : string) (r : row) : Prop := r = None ∨ ∃ st, r = Some (st, k) ∧ st ≠ StatusPending.

Definition terminal_reports (ws : gmap string member) : Prop :=
  ∀ k m r n, ws !! k = Some m → ph m = Reporting r n → IsTerminal (rep_status r) = true.

Record cluster_inv x : Prop := {
  ci_server : api_reachable (F := F) (srv x);
  ci_row : ∀ k id, holds (workers x) k id → row_of k (sview (srv x) !! id);
  ci_exclusive : ∀ k1 k2 id, holds (workers x) k1 id → holds (workers x) k2 id → k1 = k2;
  ci_terminal : terminal_reports (workers x);
}.

Lemma row_of_move s (op : api_op (F := F)) id k r r' :
  row_of k r → row_move s op id r r' →
  (∀ enC enU f uuid q b, op = OSubmit enC enU f uuid q → body (submitBuild enC enU f uuid s q).1 = PBuild b → ID b ≠ id) →
  (∀ eP e1 e2 nowP nowR, op = OWorkerTick eP e1 e2 nowP nowR →
     stale_worker (utc (nowR - 60 * second)) (repo (engine s)) k = false) →
  row_of k r'.
Proof.
  intros Hr Hm Hsub Htick. destruct Hm as [x|enC enU f uuid q b Hop Hb Hid|enL enU w w0 Hop|st0 st w Hs0 Hs1 _ _
    |eP e1 e2 nowP nowR w Hop Hst|st w Ht _]; [done| | | | |by left].
  - exfalso. by eapply Hsub.
  - destruct Hr as [?|(st & [= <- ->] & ?)]; done.
  - destruct Hr as [?|(st' & [= <- ->] & ?)]; [done|]. right. exists st. split; [done|]. by intros ->.
  - destruct Hr as [?|(st & [= <- ->] & _)]; [done|]. rewrite (Htick _ _ _ _ _ Hop) in Hst. done.
Qed.

(** Fewer held builds, the same server. *)
Lemma inv_fewer x ws :
  cluster_inv x → (∀ k id, holds ws k id → holds (workers x) k id) → terminal_reports ws →
  cluster_inv (mkCluster (srv x) ws).
Proof. intros [H1 H2 H3 H4] Hh Ht. split; simpl; [done|naive_solver..|done]. Qed.

(** A request that spares the held builds. *)
Lemma inv_request x op ws :
  cluster_inv x → api_op_ok (srv x) op → spared x op →
  (∀ k id, holds ws k id → holds (workers x) k id) → terminal_reports ws →
  cluster_inv (mkCluster (api_step (srv x) op) ws).
Proof.
  intros [H1 H2 H3 H4] Hok Hsp Hh Ht. pose proof (api_reachable_wf _ H1) as Hwf.
  split; simpl; [by apply api_next| |naive_solver|done]. intros k id Hk%Hh.
  eapply row_of_move; [by apply H2|by apply api_row_move|..].
  - intros enC enU f uuid q b -> Hb. destruct Hk as (m & Hm & Hid). by apply (Hsp k m id Hm Hid b).
  - intros eP e1 e2 nowP nowR ->. destruct Hk as (m & Hm & Hid). by apply (Hsp k m id Hm Hid).
Qed.

Lemma holds_insert ws k m k' id :
  holds (<[k := m]> ws) k' id → (k' = k ∧ held m = Some id) ∨ (k' ≠ k ∧ holds ws k' id).
Proof.
  intros (m' & Hm & Hid). destruct (decide (k' = k)) as [->|Hne].
  - rewrite lookup_insert_eq in Hm. simplify_eq. by left.
  - rewrite lookup_insert_ne in Hm by done. right. split; [done|]. by exists m'.
Qed.

(** A worker that now holds nothing, or what it held before. *)
Lemma holds_keep ws k m m' :
  ws !! k = Some m → held m' = None ∨ held m' = held m →
  ∀ k' id, holds (<[k := m']> ws) k' id → holds ws k' id.
Proof.
  intros Hm Hh k' id [[-> Hid]|[_ ?]]%holds_insert; [|done]. exists m. split; [done|].
  destruct Hh; congruence.
Qed.

Lemma terminal_insert ws k m :
  terminal_reports ws → (∀ r n, ph m = Reporting r n → IsTerminal (rep_status r) = true) →
  terminal_reports (<[k := m]> ws).
Proof.
  intros Ht Hm k' m' r n Hl Hp. destruct (decide (k' = k)) as [->|Hne].
  - rewrite lookup_insert_eq in Hl. simplify_eq. by eapply Hm.
  - rewrite lookup_insert_ne in Hl by done. by eapply Ht.
Qed.

Lemma held_retry m r left : ph m = Reporting r (S left) →
  held (set_phase m (retry r left)) = None ∨ held (set_phase m (retry r left)) = held m.
Proof. intros Hp. unfold held, retry. rewrite Hp. destruct left; simpl; auto. Qed.

Lemma api_step_next (s : Server St) enL enU k :
  (getNextBuild enL enU s k).2 = api_step s (ONext (F := F) enL enU k).
Proof. done. Qed.

(** A build that was just fetched. *)
Lemma fetch_takes x k m enL enU :
  cluster_inv x → workers x !! k = Some m → modern (env_now enU) →
  let a := getNextBuild enL enU (srv x) k in
  cluster_inv (mkCluster a.2 (<[k := set_phase m (taken (fetched a.1))]> (workers x))).
Proof.
  intros Hinv Hm Hn a. pose proof Hinv as [H1 H2 H3 H4]. pose proof (api_reachable_wf _ H1) as [Hs _].
  assert (∀ ws, (∀ k' id, holds ws k' id → holds (workers x) k' id) → terminal_reports ws →
    cluster_inv (mkCluster a.2 ws)) as Hreq.
  { intros ws Hws Ht. apply (inv_request x (ONext enL enU k)); try done. }
  assert (∀ r n, ph (set_phase m (taken (fetched a.1))) = Reporting r n → IsTerminal (rep_status r) = true) as Hnr.
  { intros r n. simpl. destruct (body a.1); simpl; try done. by destruct (_ && _). }
  destruct (taken (fetched a.1)) as [| |b|r n] eqn:Et; [| | |exfalso; revert Et; simpl;
      destruct (body a.1); simpl; try done; by destruct (_ && _)].
  1, 2: apply Hreq; [by eapply holds_keep; [exact Hm|left]|by apply terminal_insert].
  assert (∃ eng, a = (reply StatusOK (PBuild b), set_engine (srv x) eng) ∧
    pending_in (sview (srv x)) (ID b) ∧ view (repo eng) = <[ID b := (StatusBuilding, k)]> (sview (srv x)))
    as (eng & Ha & Hp & Hv).
  { subst a. unfold getNextBuild in *. destruct (String.eqb k ""); [done|].
    pose proof (AssignBuild_spec enL enU (engine (srv x)) k Hs Hn) as Has.
    destruct (AssignBuild enL enU (engine (srv x)) k) as [[[b'|]|e] eng]; destruct Has as (_ & _ & Has);
      cbn in Et; [|done..]. destruct (negb _); [|done]. injection Et as ->.
    destruct Has as (Hp & _ & _ & Hv). by exists eng. }
  destruct (Hreq (delete k (workers x))) as [G1 G2 G3 G4].
  { intros k' id (m' & Hl & Hid). apply lookup_delete_Some in Hl as [_ Hl]. by exists m'. }
  { intros k' m' r n Hl. apply lookup_delete_Some in Hl as [_ Hl]. by apply (H4 k'). }
  split; simpl in *; [done| | |by apply terminal_insert].
  - intros k' id [[-> Hid]|[Hne Hh]]%holds_insert.
    + simpl in Hid. injection Hid as <-. right. exists StatusBuilding. rewrite Ha. simpl. cbn in Hv.
      rewrite Hv, lookup_insert_eq. done.
    + apply G2. destruct Hh as (m' & Hl & Hid). exists m'. by rewrite lookup_delete_ne.
  - assert (∀ k', holds (workers x) k' (ID b) → False) as Hno.
    { intros k' [Hn'|(st & Hst & Hnp)]%H2; destruct Hp as [w Hp]; cbn in *; congruence. }
    intros k1 k2 id [[-> Hid1]|[? Hh1]]%holds_insert [[-> Hid2]|[? Hh2]]%holds_insert; [done| | |by eapply H3].
    + injection Hid1 as <-. by destruct (Hno k2 Hh2).
    + injection Hid2 as <-. by destruct (Hno k1 Hh1).
Qed.

(** A report about a build that the worker holds is a completion of a build that is not
    pending, with a terminal status. *)
Lemma post_ok x k m r n enU enG eR :
  cluster_inv x → workers x !! k = Some m → ph m = Reporting r n → modern (env_now enU) →
  api_op_ok (srv x) (OComplete (F := F) enU enG eR (rep_id r) (Ok (completion r))).
Proof.
  intros [H1 H2 H3 H4] Hm Hp Hn. simpl. split_and!; [done|by eapply H4|].
  intros [w Hw]. destruct (H2 k (rep_id r)) as [Hr|(st & Hr & Hne)].
  - exists m. split; [done|]. unfold held. by rewrite Hp.
  - cbn in *. congruence.
  - cbn in *. congruence.
Qed.

Lemma cstep_inv x y : cluster_inv x → cstep x y → cluster_inv y.
Proof.
  intros Hinv Hs. pose proof Hinv as [H1 H2 H3 H4].
  destruct Hs as [x op Ho Hok Hsp|x k w fs Hk Hid|x k|x k m Hm Hp|x k m enL enU heard Hm Hp Hn a|x k m Hm Hp
    |x k m b en res reports lines w' fs' Hm Hp Ht|x k m r left enU enG eR heard Hm Hp Hn a|x k m r left Hm Hp].
  - by apply inv_request.
  - apply inv_fewer; [done| |by apply terminal_insert].
    intros k' id [[-> ?]|[_ ?]]%holds_insert; done.
  - apply inv_fewer; [done|..].
    + intros k' id (m' & Hl & Hid). apply lookup_delete_Some in Hl as [_ Hl]. by exists m'.
    + intros k' m' r n Hl. apply lookup_delete_Some in Hl as [_ Hl]. by apply (H4 k').
  - apply inv_fewer; [done|eapply holds_keep; [exact Hm|by left]|by apply terminal_insert].
  - destruct heard; [by apply fetch_takes|].
    apply (inv_request x (ONext enL enU k)); try done; [eapply holds_keep; [exact Hm|by left]|by apply terminal_insert].
  - apply inv_fewer; [done|eapply holds_keep; [exact Hm|by left]|by apply terminal_insert].
  - apply reports_final in Ht. apply inv_fewer; [done| |].
    + eapply holds_keep; [exact Hm|]. unfold held. rewrite Hp. destruct reports as [|r rs]; [by left|right].
      apply Forall_cons in Ht as [[Hid _] _]. simpl. by rewrite Hid.
    + apply terminal_insert; [done|]. intros r n Hr. simpl in Hr. destruct reports as [|r' rs]; [done|].
      injection Hr as -> <-. apply Forall_cons in Ht as [[_ ?] _]. done.
  - pose proof (post_ok x k m r (S left) enU enG eR Hinv Hm Hp Hn) as Hok.
    apply (inv_request x (OComplete enU enG eR (rep_id r) (Ok (completion r)))); try done.
    + eapply holds_keep; [exact Hm|]. destruct (_ && _); [by left|by apply held_retry].
    + apply terminal_insert; [done|]. intros r' n'. destruct (_ && _); [done|]. unfold retry. simpl.
      destruct (left =? 0); [done|]. intros [= <- _]. by eapply H4.
  - apply inv_fewer; [done|eapply holds_keep; [exact Hm|by apply held_retry]|].
    apply terminal_insert; [done|]. intros r' n'. unfold retry. simpl.
    destruct (left =? 0); [done|]. intros [= <- _]. by eapply H4.
Qed.

Lemma run_inv x y : cluster_inv x → rtc cstep x y → cluster_inv y.
Proof. intros Hx. induction 1; eauto using cstep_inv. Qed.

Lemma init_inv (s : Server St) : api_reachable (F := F) s → cluster_inv (mkCluster s ∅).
Proof.
  intros Hs. split; simpl; [done|..].
  - intros k id (m & Hm & _). by rewrite lookup_empty in Hm.
  - intros k1 k2 id (m & Hm & _). by rewrite lookup_empty in Hm.
  - intros k m r n Hm. by rewrite lookup_empty in Hm.
Qed.

(** Every step is at most one request to the server, in order. *)
Lemma cstep_server x y :
  cluster_inv x → cstep x y →
  srv y = srv x ∨ ∃ op, api_op_ok (F := F) (srv x) op ∧ srv y = api_step (srv x) op.
Proof.
  intros Hinv Hs. destruct Hs as [x op Ho Hok Hsp|x k w fs Hk Hid|x k|x k m Hm Hp|x k m enL enU heard Hm Hp Hn a
    |x k m Hm Hp|x k m b en res reports lines w' fs' Hm Hp Ht|x k m r n enU enG eR heard Hm Hp Hn a
    |x k m r n Hm Hp]; [right|by left|by left|by left|right|by left|by left|right|by left].
  - by exists op.
  - by exists (ONext enL enU k).
  - exists (OComplete enU enG eR (rep_id r) (Ok (completion r))).
    split; [by eapply post_ok|done].
Qed.

(** A finished row stays until it is collected. *)
Lemma finished_stays x y id st w :
  cluster_inv x → rtc cstep x y → IsTerminal st = true → sview (srv x) !! id = Some (st, w) →
  sview (srv y) !! id = Some (st, w) ∨
  ∃ z, rtc cstep x z ∧ rtc cstep z y ∧ sview (srv z) !! id = None.
Proof.
  intros Hinv Hr Ht. revert Hinv. induction Hr as [x|x x1 y Hs Hr IH]; intros Hinv Hx; [by left|].
  assert (sview (srv x1) !! id = Some (st, w) ∨ sview (srv x1) !! id = None) as [H1|H1].
  { destruct (cstep_server x x1 Hinv Hs) as [->|(op & Hok & ->)]; [by left|].
    pose proof (api_reachable_wf _ (ci_server x Hinv)) as Hwf.
    pose proof (api_row_move (srv x) op id Hwf Hok) as Hm. rewrite Hx in Hm.
    inv Hm; simplify_eq; auto; congruence. }
  - destruct IH as [?|(z & ? & ? & ?)]; [by eapply cstep_inv|done|by left|].
    right. exists z. split; [by eapply rtc_l|done].
  - right. exists x1. split_and!; [by apply rtc_once|done..].
Qed.

(** ** Properties *)

(** C2. The cluster: from any server state, with any number of workers that join, poll,
    crash, build and report while requests and answers get lost and other clients and the
    maintenance act in between (no id submitted again while a worker has its build, the
    heartbeats of the workers that have one not older than a minute): the server never
    leaves its reachable states, so that its invariants hold and every completion it gets
    names a build that is not pending, with a terminal status; no two workers have the
    same build; and the row of a build that a worker has names that worker, unless it has
    been collected. *)
Theorem cluster_safe (s : Server St) x (Hs : api_reachable (F := F) s) (Hr : rtc cstep (mkCluster s ∅) x) :
  api_reachable (F := F) (srv x) ∧
  (∀ k1 k2 id, holds (workers x) k1 id → holds (workers x) k2 id → k1 = k2) ∧
  (∀ k id, holds (workers x) k id → row_of k (sview (srv x) !! id)) ∧
  (∀ k m r n enU enG eR, workers x !! k = Some m → ph m = Reporting r n → modern (env_now enU) →
     api_op_ok (srv x) (OComplete (F := F) enU enG eR (rep_id r) (Ok (completion r)))).
Proof.
  pose proof (run_inv _ _ (init_inv s Hs) Hr) as Hinv. pose proof Hinv as [H1 H2 H3 H4].
  split_and!; [done..|]. intros. by eapply post_ok.
Qed.

(** C5. In the runs of the cluster as above (no id submitted again while a worker has its
    build, recent heartbeats of the workers that have one): when the server accepts a report
    of a worker about the build it has, the build's row has been collected already, or it
    names the reporting worker and has a terminal status afterwards, the reported one if
    the build was not finished before (cancelled or timed out), however often the report
    is repeated; and in the runs that follow under the same conditions the row keeps that
    status and that worker until it is collected. *)
Theorem accepted_report_is_final (s : Server St) x k m r left enU enG eR (heard : bool)
    (Hs : api_reachable (F := F) s) (Hr : rtc cstep (mkCluster s ∅) x)
    (Hm : workers x !! k = Some m) (Hp : ph m = Reporting r (S left)) (Hn : modern (env_now enU)) :
  let a := completeBuild enU enG eR (srv x) (rep_id r) (Ok (completion r)) in
  let y := mkCluster a.2
    (<[k := set_phase m (if heard && accepted (Some (code a.1)) then Idle else retry r left)]> (workers x)) in
  code a.1 = StatusOK →
  cstep x y ∧
  (sview (srv x) !! rep_id r = None ∨
   ∃ st0 st, sview (srv x) !! rep_id r = Some (st0, k) ∧ st = (if IsTerminal st0 then st0 else rep_status r) ∧
     IsTerminal st = true ∧
     ∀ z, rtc cstep y z →
       sview (srv z) !! rep_id r = Some (st, k) ∨
       ∃ u, rtc cstep y u ∧ rtc cstep u z ∧ sview (srv u) !! rep_id r = None).
Proof.
  intros a y Hok. pose proof (run_inv _ _ (init_inv s Hs) Hr) as Hinv. pose proof Hinv as [H1 H2 H3 H4].
  assert (cstep x y) as Hxy by (by eapply c_post). split; [done|].
  pose proof (H4 k m r (S left) Hm Hp) as Ht.
  destruct (H2 k (rep_id r)) as [Hnone|(st0 & Hst0 & Hnp)]; [exists m; unfold held; by rewrite Hp|by left|].
  right. set (st := if IsTerminal st0 then st0 else rep_status r). exists st0, st.
  assert (IsTerminal st = true) as Hst by (unfold st; by destruct (IsTerminal st0) eqn:E).
  split_and!; [done..|]. intros z Hz. apply finished_stays; [by eapply cstep_inv|done..|].
  pose proof (api_reachable_wf _ H1) as [Hsv _].
  pose proof (CompleteBuild_spec enU enG (engine (srv x)) (rep_id r) (rep_status r) (rep_error r) Hsv Hn Ht
    ltac:(intros [w Hw]; cbn in *; congruence)) as Hc.
  subst y a. unfold completeBuild in *. cbn [completion c_status c_error c_rate] in *.
  destruct (CompleteBuild _ _ _ _ _ _) as [[u|e] eng]; [|done]. destruct Hc as (_ & _ & Hv).
  cbn in Hv |- *.
  assert (∀ b : bool, db_view (repo (if b then (set_rate eR eng (rep_id r) (rep_rate r)).2 else eng)) = db_view (repo eng))
    as ->.
  { intros []; [|done]. unfold set_rate. rewrite <- (rate_view eR (repo eng) (rep_id r) (rep_rate r)).
    by destruct (SetCacheRate eR (repo eng) (rep_id r) (rep_rate r)). }
  rewrite Hv. unfold view_update. cbn in Hst0. rewrite Hst0, Ht. unfold st.
  destruct (IsTerminal st0); [done|]. by rewrite lookup_insert_eq.
Qed.
End cluster.

(** ** A run *)

Section run.
#[local] Existing Instances merge_sorter no_special.
#[local] Instance prints_all : UnicodePrint := λ _, true.

Definition stored (id : string) : Domain.Build :=
  mkBuild id StatusPending "0123456789abcdef" "" "contexts/b1.tar.gz" "FROM alpine" "app:1" None [] "" "" 0 0 600
    "" 0 (f64_of_Z (-1)) 0 0 None.

Definition db1 : DB := repo_step empty_db (RCreate None t0 (stored "b1")).

Lemma db1_wf : db_wf db1.
Proof. apply repo_step_wf; [split; [modern_now|reflexivity]|]. split; apply map_Forall_empty. Qed.

Definition s1 : Server LocalStore := NewServer en0 db1 (mkLocal "/blobs" [] ∅).

Lemma s1_reachable : api_reachable (F := disk_fault * disk_fault) s1.
Proof. apply api_init, db1_wf. Qed.

Definition joined : gmap string member := {["w1" := mkMember w0 disk0 Idle]}.
Definition polling : gmap string member := <["w1" := mkMember w0 disk0 Fetching]> joined.
Definition answer1 : response * Server LocalStore := getNextBuild en0 en0 s1 "w1".
Definition build1 : Domain.Build := match body answer1.1 with PBuild b => b | _ => zero_Build end.
Definition running : gmap string member := <["w1" := mkMember w0 disk0 (Running build1)]> polling.
Definition attempt1 := tryExecuteBuild nothing [] w0 (Worker.env_of evil 200) disk0 (Ok (200%Z, Some build1)).
Definition report1 : report := mkReport "b1" StatusSucceeded "" (f64_of_Z (-1)).
Definition reporting : gmap string member :=
  match attempt1 with
  | Some (_, r :: _, _, w', fs') => <["w1" := mkMember w' fs' (Reporting r 3)]> running
  | _ => ∅
  end.

Lemma answer1_taken : taken (fetched answer1.1) = Running build1.
Proof. vm_compute. reflexivity. Qed.

Lemma attempt1_reports : match attempt1 with Some (_, [_], _, _, _) => True | _ => False end.
Proof. vm_compute. exact I. Qed.

Lemma run1 : rtc (cstep (F := disk_fault * disk_fault) nothing []) (mkCluster s1 ∅) (mkCluster answer1.2 reporting).
Proof.
  apply (rtc_l _ _ (mkCluster s1 joined)); [exact (c_join nothing [] (mkCluster s1 ∅) "w1" w0 disk0 eq_refl eq_refl)|].
  apply (rtc_l _ _ (mkCluster s1 polling));
    [exact (c_poll nothing [] (mkCluster s1 joined) "w1" (mkMember w0 disk0 Idle) eq_refl eq_refl)|].
  apply (rtc_l _ _ (mkCluster answer1.2 running)).
  { pose proof (c_fetch (F := disk_fault * disk_fault) nothing [] (mkCluster s1 polling) "w1"
      (mkMember w0 disk0 Fetching) en0 en0 true eq_refl eq_refl modern_en0) as Hf.
    cbn zeta in Hf. cbn [srv workers] in Hf. fold answer1 in Hf. rewrite answer1_taken in Hf. exact Hf. }
  apply rtc_once. pose proof attempt1_reports as Ha. unfold reporting.
  remember attempt1 as o eqn:E. destruct o as [[[[[res reports] lines] w'] fs']|]; [|destruct Ha].
  destruct reports as [|r rs]; [destruct Ha|]. unfold attempt1 in E. symmetry in E.
  exact (c_attempt nothing [] (mkCluster answer1.2 running) "w1" (mkMember w0 disk0 (Running build1)) build1
    (Worker.env_of evil 200) res (r :: rs) lines w' fs' eq_refl eq_refl E).
Qed.

Lemma cluster_safe_witness :
  row_of "w1" (sview answer1.2 !! "b1") ∧ holds reporting "w1" "b1".
Proof.
  assert (holds reporting "w1" "b1") as Hh.
  { destruct (reporting !! "w1") as [m|] eqn:E; [|vm_compute in E; discriminate]. exists m. split; [exact E|].
    transitivity (held (default (mkMember w0 disk0 Idle) (reporting !! "w1"))); [by rewrite E|].
    vm_compute. reflexivity. }
  split; [|exact Hh].
  destruct (cluster_safe nothing [] s1 (mkCluster answer1.2 reporting) s1_reachable run1) as (_ & _ & Hr & _).
  exact (Hr "w1" "b1" Hh).
Defined.

Definition reporter : member := default (mkMember w0 disk0 Idle) (reporting !! "w1").

Lemma accepted_report_is_final_witness :
  let a := completeBuild en0 en0 None answer1.2 "b1" (Ok (completion report1)) in
  code a.1 = StatusOK ∧ sview a.2 !! "b1" = Some (StatusSucceeded, "w1").
Proof.
  assert (reporting !! "w1" = Some reporter ∧ ph reporter = Reporting report1 3) as [Hm Hp].
  { split; vm_compute; reflexivity. }
  assert (code (completeBuild en0 en0 None answer1.2 "b1" (Ok (completion report1))).1 = StatusOK) as Hc
    by (vm_compute; reflexivity).
  assert (sview answer1.2 !! "b1" = Some (StatusBuilding, "w1")) as Hrow by (vm_compute; reflexivity).
  split; [exact Hc|].
  destruct (accepted_report_is_final nothing [] s1 (mkCluster answer1.2 reporting) "w1" reporter report1 2 en0 en0
    None true s1_reachable run1 Hm Hp modern_en0 Hc) as [_ [Hnone|(st0 & st & Hst0 & Hst & _ & Hz)]].
  - cbn [srv] in Hnone. change (rep_id report1) with "b1" in Hnone. congruence.
  - cbn [srv] in Hst0. change (rep_id report1) with "b1" in Hst0. rewrite Hrow in Hst0. injection Hst0 as <-.
    change (IsTerminal StatusBuilding) with false in Hst. cbn in Hst. subst st.
    destruct (Hz _ (rtc_refl _ _)) as [H|(u & _ & Hu & Hnone)]; [exact H|].
    vm_compute. reflexivity.
Defined.

(** Without recent heartbeats the builds of live workers are put back, and the reports that
    these workers still make complete pending builds: here b1 and b2 are put back, w3 is
    given one of them, the other is completed by the worker that had it and stays in the
    queue, and the next poll is answered with an error although b3 is pending. *)
Definition later : env := mkEnv None (t0 + 120 * second).
Definition db2 : DB := repo_step db1 (RCreate None t0 (stored "b2")).
Definition beat (id : string) : Domain.Worker := Domain.mkWorker id "h" "ip" "busy" 0 [].

Definition late : Server LocalStore :=
  foldl api_step (NewServer en0 db2 (mkLocal "/blobs" [] ∅))
    [OHeartbeat None t0 (Ok (beat "w1")); OHeartbeat None t0 (Ok (beat "w2"));
     ONext en0 en0 "w1"; ONext en0 en0 "w2";
     OWorkerTick None None None (t0 + 120 * second) (t0 + 120 * second);
     ONext later later "w3";
     OComplete later later None "b2" (Ok (mkComplete StatusSucceeded "" f64_zero));
     OSubmit later later (None, None) "u"
       (mkSubmit "application/json" "key" (Ok (mkSubmitJSON "b3" "contexts/b3.tar.gz" "FROM alpine" "app:3" "" 0 None))
          (Err (EErrorf "no form")))].

Lemma late_completion_breaks_poll :
  (sview late !! "b1", sview late !! "b2", sview late !! "b3") =
    (Some (StatusBuilding, "w3"), Some (StatusSucceeded, ""), Some (StatusPending, "")) ∧
  code (getNextBuild later later late "w4").1 = StatusInternalServerError.
Proof. split; vm_compute; reflexivity. Qed.
End run.
