(* ===== verification/EndToEnd.v ===== *)
(** * From the client to the worker

    The requests of the client and of the workers against the server's routes, the form
    that a submission sends against the handler that reads it, and the way of a build
    context from the submitted folder over the blob store to the worker's disk. *)

From S2P Require Import Repo Queue Scheduler Service Engine LogBroker Paths BlobStore BuildkitClient Worker.
From S2P Require Import Tar Http Api Cli Validate Fingerprint.
From S2P Require Import Prelude Float64 GoStrings GoSort GoTime Hashing Domain GoNumbers Persister RepoPersister.
From Stdlib Require Import Ascii.

(** ** Routes *)

Definition builds_path : string := "/api/v1/builds".

Lemma split_builds t : SplitByte (builds_path +:+ "/" +:+ t) slash = "" :: "api" :: "v1" :: "builds" :: SplitByte t slash.
Proof.
  change ("/" +:+ t) with (String slash t). rewrite SplitByte_app_sep. reflexivity.
Qed.

(** The characters of an id or a key that stand for themselves in a URL's path. *)
Definition unreserved (c : ascii) : bool :=
  let v := byte_val c in
  ((48 <=? v) && (v <=? 57) || (65 <=? v) && (v <=? 90) || (97 <=? v) && (v <=? 122)
   || (v =? 45) || (v =? 46) || (v =? 95) || (v =? 126))%Z.

Definition id_text (id : string) : Prop := id ≠ "" ∧ str_all unreserved id = true.
Definition key_text (key : string) : Prop := key ≠ "" ∧ str_all (λ c, unreserved c || Ascii.eqb c slash) key = true.

Lemma id_text_free id : id_text id → str_all (λ c, negb (Ascii.eqb c slash)) id = true.
Proof.
  intros [_ Hid]. induction id as [|c id IH]; [done|]. cbn [str_all] in *. bool_split. rewrite IH by done.
  destruct (Ascii.eqb_spec c slash) as [->|_]; [discriminate|done].
Qed.

Lemma split_id id t : id_text id → SplitByte (id +:+ "/" +:+ t) slash = id :: SplitByte t slash.
Proof.
  intros Hid. change ("/" +:+ t) with (String slash t).
  rewrite SplitByte_app_sep, (SplitByte_free slash id); [done|by apply id_text_free].
Qed.

(** The candidates of a path, entry by entry. *)
Lemma cand_skip m pat h table method path l :
  String.eqb m method = false → candidates table method path = l →
  candidates ((m, pat, h) :: table) method path = l.
Proof. intros Hm Hl. cbn [candidates]. by rewrite Hm. Qed.

Lemma cand_miss m pat h table method path l :
  match_segs pat path = None → candidates table method path = l →
  candidates ((m, pat, h) :: table) method path = l.
Proof. intros Hm Hl. cbn [candidates]. rewrite Hm. by destruct (String.eqb m method). Qed.

Lemma cand_hit m pat h table path l ps :
  match_segs pat path = Some ps → candidates table m path = l →
  candidates ((m, pat, h) :: table) m path = (pat, h, ps) :: l.
Proof. intros Hm Hl. cbn [candidates]. by rewrite String.eqb_refl, Hm, Hl. Qed.

Lemma match_same s pat path : match_segs (Lit s :: pat) (s :: path) = match_segs pat path.
Proof. cbn [match_segs]. by rewrite String.eqb_refl. Qed.

Lemma match_diff s e pat path : String.eqb s e = false → match_segs (Lit s :: pat) (e :: path) = None.
Proof. intros He. cbn [match_segs]. by rewrite He. Qed.

Lemma match_tail s e pat path : match_segs pat path = None → match_segs (Lit s :: pat) (e :: path) = None.
Proof. intros Ht. cbn [match_segs]. by destruct (String.eqb s e). Qed.

Lemma match_param e pat path : match_segs (Param :: pat) (e :: path) = cons e <$> match_segs pat path.
Proof. done. Qed.

Ltac segs :=
  unfold api_v1;
  repeat first [rewrite match_same | rewrite match_diff by first [reflexivity|eassumption] | rewrite match_param];
  first [reflexivity | apply match_tail; reflexivity].

Ltac search_table :=
  unfold setupRoutes;
  repeat first [ apply cand_skip; [reflexivity|] | eapply cand_hit; [solve [segs]|] | apply cand_miss; [solve [segs]|] ];
  reflexivity.

Section routing.
Context (mux : list (string * list seg * handler) → string → list string → routed) `{!Mux mux}.

Lemma route_builds method t rest :
  SplitByte t slash = rest →
  route mux method (builds_path +:+ "/" +:+ t) = mux setupRoutes method ("api" :: "v1" :: "builds" :: rest).
Proof. intros <-. unfold route. by rewrite split_builds. Qed.

Lemma route_path method path rest :
  SplitByte path slash = "" :: rest → route mux method path = mux setupRoutes method rest.
Proof. intros Hp. unfold route. by rewrite Hp. Qed.

Ltac split_path :=
  match goal with |- route _ _ ?p = _ =>
    let r := eval vm_compute in (tail (SplitByte p slash)) in rewrite (route_path _ p r eq_refl) end.

(** C18. Every request of a worker and of the client has its handler, under any router that
    keeps the promises of [Mux]: the paths they make, with an id and a key that need no
    escaping, reach submitBuild, listBuilds, getNextBuild, getBuildLogs, appendLog,
    completeBuild, cancelBuild, workerHeartbeat and serveBlob with that id or key, and
    getBuild unless the id is [next]; only the client's bulk submission has no handler
    for its method. *)
Theorem client_requests_routed id key (Hid : id_text id) (Hkey : key_text key) :
  route mux "POST" builds_path = Routed HSubmitBuild [] ∧
  route mux "GET" builds_path = Routed HListBuilds [] ∧
  route mux "GET" (builds_path +:+ "/next") = Routed HGetNextBuild [] ∧
  (id ≠ "next" → route mux "GET" (builds_path +:+ "/" +:+ id) = Routed HGetBuild [id]) ∧
  route mux "GET" (builds_path +:+ "/" +:+ id +:+ "/logs") = Routed HGetBuildLogs [id] ∧
  route mux "POST" (builds_path +:+ "/" +:+ id +:+ "/log") = Routed HAppendLog [id] ∧
  route mux "POST" (builds_path +:+ "/" +:+ id +:+ "/complete") = Routed HCompleteBuild [id] ∧
  route mux "DELETE" (builds_path +:+ "/" +:+ id) = Routed HCancelBuild [id] ∧
  route mux "POST" "/api/v1/workers/heartbeat" = Routed HWorkerHeartbeat [] ∧
  route mux "GET" (blob_route +:+ key) = Routed HServeBlob [key] ∧
  route mux "POST" (builds_path +:+ "/bulk") = MethodNotAllowed.
Proof.
  pose proof (id_text_free id Hid) as Hf. pose proof (λ t, split_id id t Hid) as Hs. destruct Hid as [Hne _].
  assert (Forall (λ p, p ≠ "") [id]) as Hps by (by constructor).
  split_and!.
  - split_path. eapply mux_only; [search_table|done].
  - split_path. eapply mux_only; [search_table|done].
  - split_path. eapply mux_static; [search_table|done|by repeat constructor].
  - intros Hnx. assert (String.eqb "next" id = false) by (apply String.eqb_neq; congruence).
    rewrite (route_builds _ _ _ (SplitByte_free slash id Hf)). eapply mux_only; [search_table|done].
  - rewrite (route_builds _ _ _ (Hs "logs")). eapply mux_only; [search_table|done].
  - rewrite (route_builds _ _ _ (Hs "log")). eapply mux_only; [search_table|done].
  - rewrite (route_builds _ _ _ (Hs "complete")). eapply mux_only; [search_table|done].
  - rewrite (route_builds _ _ _ (SplitByte_free slash id Hf)). eapply mux_only; [search_table|done].
  - split_path. eapply mux_only; [search_table|done].
  - unfold route, blob_route.
    change ("/api/v1/blobs/" +:+ key) with ("/api/v1/blobs" +:+ String slash key).
    rewrite SplitByte_app_sep. pose proof (SplitByte_nonempty slash key) as Hn.
    change (SplitByte "/api/v1/blobs" slash) with [""; "api"; "v1"; "blobs"]. cbn [app].
    pose proof (Join_SplitByte slash key) as Hj. destruct (SplitByte key slash) as [|e es]; [done|].
    rewrite <- Hj. eapply mux_only; [search_table|]. constructor; [|done]. rewrite Hj. apply Hkey.
  - split_path.
    eapply (mux_method _ _ _ "GET" (api_v1 [Lit "builds"; Param]) HGetBuild ["bulk"]); [search_table| |done|by constructor].
    repeat first [left; reflexivity|right].
Qed.

(** The id [next] is a build's name like any other for submissions, but not for the
    status request. *)
Lemma next_not_readable : route mux "GET" (builds_path +:+ "/" +:+ "next") = Routed HGetNextBuild [].
Proof. split_path. eapply mux_static; [search_table|done|by repeat constructor]. Qed.
End routing.

(** A router: the first entry without parameters, or else the first one. *)
Definition mux1 (table : list (string * list seg * handler)) (method : string) (path : list string) : routed :=
  let cs := candidates table method path in
  match List.find (λ c, forallb is_lit c.1.1) cs, cs with
  | Some (_, h, ps), _ | None, (_, h, ps) :: _ => Routed h ps
  | None, [] =>
      if existsb (λ e : string * list seg * handler, bool_decide (is_Some (match_segs e.1.2 path))) table
      then MethodNotAllowed else NotFound
  end.

#[global] Instance mux1_mux : Mux mux1.
Proof.
  split; unfold mux1.
  - intros table method path pat h ps -> _. cbn. by destruct (forallb is_lit pat).
  - intros table method path pat h rest -> Hl _. cbn. by rewrite Hl.
  - intros table method path m pat h ps -> Hin Hm _. cbn.
    rewrite (proj2 (existsb_exists _ _)); [done|]. exists (m, pat, h). split; [by apply list_elem_of_In|].
    apply bool_decide_eq_true. by exists ps.
Qed.

Lemma client_requests_routed_witness :
  route mux1 "POST" "/api/v1/builds/b1/complete" = Routed HCompleteBuild ["b1"].
Proof.
  destruct (client_requests_routed mux1 "b1" "k") as (_ & _ & _ & _ & _ & _ & Hc & _); [..|exact Hc].
  - split; [discriminate|reflexivity].
  - split; [discriminate|reflexivity].
Defined.

(** ** The form of a submission *)

(** The value of a header, empty if it is not set. *)
Definition header_value (r : request) (k : string) : string := default "" (member k (r_headers r)).

(** [r.FormFile] and [r.FormValue]: the first part of the name. *)
Fixpoint form_file (ps : list part) (name : string) : option string :=
  match ps with
  | FormFile n _ c :: ps => if String.eqb n name then Some c else form_file ps name
  | FormField _ _ :: ps => form_file ps name
  | [] => None
  end.

Fixpoint form_value (ps : list part) (name : string) : string :=
  match ps with
  | FormField n v :: ps => if String.eqb n name then v else form_value ps name
  | FormFile _ _ _ :: ps => form_value ps name
  | [] => ""
  end.

(** What the handler sees of the client's multipart request. *)
Definition received (r : request) : submit_request :=
  mkSubmit (header_value r "Content-Type") (header_value r "X-Api-Key")
    (Err (EErrorf "invalid character '-' in numeric literal"))
    (Ok (mkForm ((λ c, mkReader c None) <$> form_file (r_form r) "context") (form_value (r_form r)))).

(** A uuid's text. *)
Definition uuid_char (c : ascii) : bool :=
  let v := byte_val c in
  ((48 <=? v) && (v <=? 57) || (97 <=? v) && (v <=? 102) || (v =? 45))%Z.
Definition uuid_text (u : string) : Prop := u ≠ "" ∧ str_all uuid_char u = true.

Lemma Contains_skip a u t sub :
  str_all (λ c, negb (Ascii.eqb c a)) u = true → Contains (u +:+ t) (String a sub) = Contains t (String a sub).
Proof.
  induction u as [|c u IH]; [done|]. cbn [str_all]. intros Hu. bool_split. rewrite str_app_cons. cbn [Contains].
  rewrite IH by done. unfold HasPrefix. cbn [String.prefix].
  destruct (ascii_dec a c) as [->|_]; [by rewrite Ascii.eqb_refl in *|done].
Qed.

Lemma uuid_free u a : uuid_char a = false → str_all uuid_char u = true → str_all (λ c, negb (Ascii.eqb c a)) u = true.
Proof.
  intros Ha. induction u as [|c u IH]; [done|]. cbn [str_all]. intros Hu. bool_split. rewrite IH by done.
  destruct (Ascii.eqb_spec c a) as [->|_]; [congruence|done].
Qed.

Lemma context_file_plain u : uuid_text u → plain (u +:+ ".tar.gz").
Proof.
  intros [Hne Hu]. pose proof (uuid_free u slash ltac:(done) Hu) as Hs.
  pose proof (uuid_free u "." ltac:(done) Hu) as Hd.
  assert (∀ t, str_all (λ c, negb (Ascii.eqb c slash)) t = true →
    str_all (λ c, negb (Ascii.eqb c slash)) (u +:+ t) = true) as Happ.
  { clear -Hs. intros t Ht. induction u as [|c u IH]; [done|]. cbn [str_all] in Hs. bool_split.
    rewrite str_app_cons. cbn [str_all]. by rewrite H, IH. }
  destruct u as [|c u]; [done|]. cbn [str_all] in Hd. bool_split.
  split_and!; [done| | |by apply Happ].
  - intros [= -> _]. done.
  - intros [= -> _]. done.
Qed.

Lemma context_key_ok u :
  uuid_text u →
  Forall plain ["contexts"; u +:+ ".tar.gz"] ∧
  "contexts/" +:+ u +:+ ".tar.gz" = Join ["contexts"; u +:+ ".tar.gz"] sep ∧
  acceptable ("contexts/" +:+ u +:+ ".tar.gz") = true.
Proof.
  intros Hu. pose proof (context_file_plain u Hu) as Hp. destruct Hu as [_ Hu].
  assert (Forall plain ["contexts"; u +:+ ".tar.gz"]) as Hf by (constructor; [done|by constructor]).
  split_and!; [done|reflexivity|]. apply acceptable_spec. split_and!.
  - rewrite (Contains_skip "." "contexts/"), Contains_skip; [done|by apply uuid_free|done].
  - unfold BlobStore.NUL. rewrite (Contains_skip _ "contexts/"), Contains_skip; [done|by apply uuid_free|done].
  - right. by exists ["contexts"; u +:+ ".tar.gz"].
Qed.

(** What SubmitBuild returns is what it was given. *)
Section submit_fields.
Context `{!Sorter node_le} `{!Sorter pending_order} `{!Sorter newest_first} `{UnicodeTables}.

Lemma SubmitBuild_returns enC enU uuid (e : BuildService DB) id ctx df tag user tmo args b e' :
  svc_wf e → modern (env_now enC) → id ≠ "" →
  SubmitBuild enC enU uuid e id ctx df tag user tmo args = Some (Ok b, e') →
  ID b = id ∧ ContextKey b = ctx ∧ Dockerfile b = df ∧ ImageTag b = tag ∧ UserID b = user ∧ Args b = args.
Proof.
  intros Hs Hn Hid. unfold SubmitBuild. destruct (Validate.Single _) as [v|]; [|done]. cbn [mbind option_bind].
  destruct (negb _); [done|]. rewrite (proj2 (String.eqb_neq _ _) Hid).
  destruct (Fingerprint.FromDockerfile df) as [fp|]; [|done]. cbn [mbind option_bind].
  set (b0 := new_build _ _ _ _ _ _ _ _). destruct (Queue.Full (queue e)); [done|].
  pose proof (create_law enC (repo e) b0 (swf_valid _ Hs) Hn eq_refl) as Hc.
  destruct (p_Create enC (repo e) b0) as [[[u|er] b'] d]; [|done]. destruct Hc as (_ & -> & _).
  destruct (Queue.Push _ _) as [[] q]; [|by destruct (p_UpdateStatus _ _ _ _ _ _ _)].
  by intros [= <- <-].
Qed.
End submit_fields.

(** ** The way of a context *)

Section arrival.
Context `{!Sorter node_le} `{!Sorter pending_order} `{!Sorter newest_first} `{UnicodeTables}.
Context (pack : tape → string) (unpack : string → archive).
(** A reader of gzip and archive/tar gets back the entries that a writer was given. *)
Hypothesis unpack_pack : ∀ hs, unpack (pack hs) = packed hs.

(** The client's request for the server [url]. *)
Definition client_request (url boundary key text tag : string) (hs : tape)
    (bargs : list (string * string)) : request :=
  mkRequest "POST" (url +:+ "/api/v1/builds")
    (("Content-Type", "multipart/form-data; boundary=" +:+ boundary) ::
     (if String.eqb key "" then [] else [("X-Api-Key", key)]))
    (submission pack text tag hs bargs).

Lemma form_value_submission text tag hs bargs :
  let ps := submission pack text tag hs bargs in
  form_file ps "context" = Some (pack hs) ∧ form_value ps "dockerfile" = text ∧
  form_value ps "image_tag" = tag ∧ form_value ps "user_id" = "" ∧ form_value ps "build_id" = "".
Proof.
  intros ps. split_and!; try reflexivity.
  all: unfold ps, submission; cbn -[String.eqb]; induction bargs as [|[k v] bargs IH]; [done|]; cbn -[String.eqb].
  all: rewrite (proj2 (String.eqb_neq _ _)); [exact IH|]. all: by intros [=].
Qed.

(** C4. What is built is what was submitted: when the client's request for a readable folder
    is answered with 201, by a server with the local store, the new build carries the
    Dockerfile's text (the name Dockerfile if it is empty), the tag and the client's API
    key, no build arguments, and the key of its context; that key is served with the
    archive's bytes; and a worker that downloads them extracts, into an existing directory
    with nothing below it, exactly the folder's directories and regular files. *)
Theorem submitted_context_arrives enC enU f uuid (s : Server LocalStore) url boundary key folder text tag ch bargs
    (Hs : api_reachable (F := disk_fault * disk_fault) s) (Hn : modern (env_now enC)) (Hu : uuid_text uuid)
    (Hch : readable (TDir None ch)) :
  ∃ hs, tarGz folder (TDir None ch) = (Ok (), hs) ∧
    let '(resp, s') := submitBuild enC enU f uuid s
      (received (client_request url boundary key text tag hs bargs)) in
    code resp = StatusCreated →
    ∃ b, body resp = PBuild b ∧ ID b = uuid ∧ Dockerfile b = or_default text "Dockerfile" ∧
      ImageTag b = tag ∧ UserID b = key ∧ Args b = None ∧
      ∃ data, serveBlob (None, None) (blobs s') (blob_route +:+ ContextKey b) = reply StatusOK (PText data) ∧
      ∀ cwd fs dest, elems dest ≠ [] → dirs_to fs (abs cwd dest) →
        (∀ n p, fs !! (abs cwd dest ++ n :: p) = None) →
        ∃ fs', downloadContextHTTP (mkDownload None None None 200 (unpack data)) cwd fs dest = (Ok (), fs') ∧
          ∀ n p, fs' !! (abs cwd dest ++ n :: p) = node_at (TDir None ch) (n :: p).
Proof.
  destruct (tarGz_unpacks [] "/x" ltac:(done) folder ch Hch) as (hs & _ & Ht & _).
  exists (mkTape hs 0). split; [done|]. set (tp := mkTape hs 0) in *. pose proof (api_reachable_wf _ Hs) as [Hsv _].
  destruct (form_value_submission text tag tp bargs) as (Hf & Hd & Htag & Huser & Hbid).
  destruct (context_key_ok uuid Hu) as (Hpl & Hkey & Hacc).
  unfold submitBuild. change (HasPrefix (content_type (received _)) "application/json") with false.
  cbn [received form_body f_context f_value client_request r_form].
  rewrite Hf, Hd, Htag, Huser, Hbid. cbn [fmap option_fmap option_map].
  change (or_default "" uuid) with uuid.
  change (or_default "" (api_key (received (client_request url boundary key text tag tp bargs)))) with
    (header_value (client_request url boundary key text tag tp bargs) "X-Api-Key").
  assert (header_value (client_request url boundary key text tag tp bargs) "X-Api-Key" = key) as ->.
  { unfold header_value. cbn [client_request r_headers]. by destruct (String.eqb_spec key "") as [->|_]. }
  set (ctx := "contexts/" +:+ uuid +:+ ".tar.gz") in *.
  pose proof (local_put_get f (None, None) (blobs s) ctx ctx (mkReader (pack tp) None)) as Hput.
  destruct (BlobStore.Put f (blobs s) ctx (mkReader (pack tp) None)) as [[n|e] bs]; [|done].
  destruct Hput as [_ Hget]. rewrite decide_True in Hget by done.
  cbv zeta. cbn [engine]. unfold submitted_reply.
  destruct (SubmitBuild enC enU uuid (engine s) uuid ctx (or_default text "Dockerfile") tag key 600 None)
    as [[[b|e] eng]|] eqn:Es; [|by destruct (is_queue_full e)|done].
  intros _. exists b. cbn [body reply].
  apply SubmitBuild_returns in Es as (Hid & Hctx & Hdf & Htg & Hus & Har); [|done..|apply Hu].
  split_and!; [done..|]. exists (pack tp). split.
  - rewrite serveBlob_eq, Hctx. cbv zeta.
    assert (TrimPrefix (blob_route +:+ ctx) blob_route = ctx) as -> by (by vm_compute).
    rewrite Hacc. cbn [blobs set_engine]. by rewrite Hget.
  - intros cwd fs dest Hne Hdir Hempty.
    destruct (folder_roundtrip cwd fs folder dest ch Hch Hne Hdir Hempty) as (hs' & fs' & Ht' & Hx & Hin & _).
    rewrite Ht in Ht'. injection Ht' as <-. exists fs'. split; [|done].
    unfold downloadContextHTTP. cbn. by rewrite unpack_pack.
Qed.
End arrival.

(** ** Answers that the client cannot use *)

(** A page of builds is an object, and the list command wants an array. *)
Lemma list_refuses_page fmt_v en args resp page total limit offset v :
  newRequest en (base_url en args +:+ builds_path) = None →
  do en (mkRequest "GET" (base_url en args +:+ builds_path) (key_header en) []) = Ok resp →
  payload_value (PPage page total limit offset) = Some v → a_json resp = Ok v →
  exit_code (cmdList fmt_v en args) = 1%Z ∧ stdout (cmdList fmt_v en args) = "".
Proof.
  intros Hn Hd [= <-] Hj. unfold cmdList, doGet, send. cbn [r_url]. fold builds_path. rewrite Hn, Hd.
  cbv beta iota zeta. unfold Cli.decode. by rewrite Hj.
Qed.

(** A build without an error is printed with one: the field is left out of the answer. *)
Lemma status_prints_nil (b : Domain.Build) m :
  build_value b = VObj m → BError b = "" → field m "error" = VNull.
Proof.
  intros [= <-] He. unfold field. rewrite He. cbn [omit_str String.eqb].
  destruct (member "error" _) as [v|] eqn:Em; [|done]. exfalso.
  apply member_Some, elem_of_reverse in Em. unfold omit_str in Em.
  match type of Em with _ ∈ ?l => assert (forallb (λ kv, negb (String.eqb kv.1 "error")) l = true) as Hf
    by (repeat case_match; reflexivity) end.
  rewrite forallb_forall in Hf. by specialize (Hf _ (proj1 (list_elem_of_In _ _) Em)).
Qed.

(** A submission without [--tag] has an empty tag, which validation refuses. *)
Lemma untagged_refused enC enU uuid `{!Sorter node_le} `{!Sorter pending_order} `{!Sorter newest_first} `{UnicodeTables}
    (e : BuildService DB) id ctx df user tmo args b e' :
  SubmitBuild enC enU uuid e id ctx df "" user tmo args ≠ Some (Ok b, e').
Proof.
  unfold SubmitBuild. destruct (Validate.Single _) as [v|] eqn:Ev; [|done]. cbn [mbind option_bind].
  assert (Validate.Valid v = false) as ->; [|done].
  unfold Validate.Single in Ev. cbn [in_ImageTag String.eqb] in Ev.
  destruct (if String.eqb _ "" then _ else _) as [r|] in Ev; [|done]. injection Ev as <-.
  apply not_true_iff_false. by rewrite add_not_nil.
Qed.

(** ** A run, with a concrete archive format *)

Section run.
#[local] Existing Instances merge_sorter no_special.

Definition triple (h : header) : string * ascii * string := (HName h, Typeflag h, content h).
Definition of_triple (t : string * ascii * string) : header := mkHeader t.1.1 t.1.2 t.2.

(** The entries and what the last one is short of as one number, in decimal. *)
Definition pack1 (tp : tape) : string := Sprint (Zpos (encode (map triple (t_entries tp), t_left tp))).
Definition unpack1 (data : string) : archive :=
  match parse_digits data 0 with
  | Some z =>
      match decode (A := list (string * ascii * string) * Z) (Z.to_pos z) with
      | Some (ts, n) => packed (mkTape (map of_triple ts) n)
      | None => packed (mkTape [] 0)
      end
  | None => packed (mkTape [] 0)
  end.

Lemma unpack1_pack1 tp : unpack1 (pack1 tp) = packed tp.
Proof.
  destruct tp as [hs n]. unfold unpack1, pack1. cbn [t_entries t_left]. set (p := encode (map triple hs, n)).
  assert (parse_digits (Sprint (Zpos p)) 0 = Some (Zpos p)) as ->.
  { rewrite <- (str_app_nil_r (Sprint (Zpos p))). rewrite (read_pretty parse_digits (Zpos p)); [done| |lia].
    intros c t x d Hd _ _. cbn [parse_digits]. by rewrite Hd. }
  cbn [Z.to_pos]. subst p. rewrite decode_encode. f_equal. f_equal.
  induction hs as [|[nm t c] hs IH]; [done|]. cbn. by rewrite IH.
Qed.

Definition uuid0 : string := "0a1b".

Lemma uuid0_text : uuid_text uuid0.
Proof. split; [discriminate|reflexivity]. Qed.

(** The answer does not depend on the archive's bytes. *)
Lemma run_created hs :
  ∃ b s', submitBuild en0 en0 (None, None) uuid0 server0
    (received (client_request pack1 "http://s" "x" "" "FROM alpine" "app:1" hs [("K", "v")])) =
    (reply StatusCreated (PBuild b), s') ∧ ContextKey b = "contexts/0a1b.tar.gz".
Proof.
  unfold client_request, submission. generalize (pack1 hs) as data. intros data. do 2 eexists.
  split; [vm_compute; reflexivity|reflexivity].
Qed.

Lemma submitted_context_arrives_witness :
  ∃ hs b s', tarGz "ctx" (TDir None src_folder) = (Ok (), hs) ∧
    submitBuild en0 en0 (None, None) uuid0 server0
      (received (client_request pack1 "http://s" "x" "" "FROM alpine" "app:1" hs [("K", "v")])) =
      (reply StatusCreated (PBuild b), s') ∧
    Dockerfile b = "FROM alpine" ∧ ImageTag b = "app:1" ∧ UserID b = "" ∧ Args b = None ∧
    ∃ data, serveBlob (None, None) (blobs s') "/api/v1/blobs/contexts/0a1b.tar.gz" = reply StatusOK (PText data).
Proof.
  destruct (submitted_context_arrives pack1 unpack1 unpack1_pack1 en0 en0 (None, None) uuid0 server0 "http://s" "x" ""
    "ctx" "FROM alpine" "app:1" src_folder [("K", "v")] server0_reachable modern_en0 uuid0_text src_readable) as (hs & Ht & Hres).
  destruct (run_created hs) as (b & s' & Hr & Hk). rewrite Hr in Hres.
  destruct (Hres eq_refl) as (b1 & Hb & _ & Hdf & Htag & Hus & Har & data & Hserve & _).
  injection Hb as <-. rewrite Hk in Hserve.
  exists hs, b, s'. split_and!; [exact Ht|exact Hr|exact Hdf|exact Htag|exact Hus|exact Har|].
  exists data. exact Hserve.
Defined.
End run.
